(* ===== verification/_CoqProject ===== *)
-Q . S2P
Prelude.v
Protocol.v
Transaction.v
Socket.v
Framing.v
Interface.v
Server.v
Endpoint.v
HostClient.v
System.v
Concurrency.v
SendLock.v
Dpi.v
Verilator.v
Guest.v
Qemu.v
QemuLink.v
Vm.v
Loopback.v
Clib.v
Tools.v
Logger.v
Programs.v
