(* ===== verification/Prelude.v ===== *)
(** * Verification of the Mini-ICS PCIe co-simulation stack

    The repository connects a virtual PCIe endpoint to an RTL model over a Unix
    socket.  A host process (the host client, or QEMU) speaks a binary protocol to
    a server embedded in the simulation; the server hands MMIO and reset requests to
    the endpoint and carries the endpoint's DMA requests and interrupts back to the
    host.  On the QEMU side a virtual device turns the guest's BAR accesses into that
    protocol and serves the DMA requests from guest memory; a Linux driver and two
    command-line tools in the guest exercise it.  This library models the C and C++
    code of these parts and proves what they promise, alone and together.

    ** Parts and files

    - [Prelude] (this file): unsigned integers of a width as [Z] with explicit
      [wrap], little-endian byte strings, list slices, tactics and hint databases.
    - [Protocol]: [mini-ics/src/protocol.cpp], [protocol.hpp].  Enumerations, the
      64-byte header, [SerializeHeader], [DeserializeHeader], [SerializeMessage],
      [MakeHeader].
    - [Transaction]: [transaction.hpp].  [TransactionIdGenerator], [BlockingQueue],
      [PendingRequestTable]; one definition per critical section, and step relations
      that interleave them.
    - [Socket]: [socket.cpp], [socket.hpp].  [PollFor], [SendAll], [RecvAll],
      [Listen], [Accept], [Close], [ConnectUnixSocket] over a scripted kernel.
    - [Framing]: how [IoThreadMain] and [HostClient::ReadMessage] read one message.
    - [Interface]: the calls the RTL side makes on a server ([ServerOps]), their
      contract ([ServerContract]), call traces ([logged]).
    - [Server]: [MiniIcsServer] of [server.cpp], [server.hpp]; discharges the
      contract.
    - [Endpoint]: [SoftwareEndpointModel] of [server.cpp], against [ServerOps]; the
      register accesses of [mini-ics/rtl/nvme_register_model.sv] as its reference.
    - [HostClient]: [HostMemory] and [HostClient] of [host_client.cpp].
    - [System]: the demo, server process and client process composed.
    - [Concurrency]: any number of threads calling one server, the I/O thread and
      [Stop], interleaved at every access to shared state, a frame being written in one
      step.  [SendLock]: the same with [send_mutex_] explicit and a frame written by
      separate [poll] and [send] calls, shown to refine [Concurrency].
    - [Dpi]: [mini-ics/dpi/mini_ics_dpi.cpp], the C functions SystemVerilog calls.
    - [Verilator]: [rtl/alex/verilator_qemu_main.cpp], the harness that drives the
      Verilated endpoint, the descriptor-ring DMA engine and the message loop with
      its two exits (SHUTDOWN and [Verilated::gotFinish()]), and the layout of the two
      ring structures of the guest driver.
    - [Guest]: [guest/pcie-vip/driver/pcie_vip.c], the Linux driver (ioctl, loopback
      run, probe and remove), against the kernel services it calls ([Kernel]).
    - [Qemu]: [hw/misc/pcie-vip.c] as added by [patches/qemu-pcie-vip.patch]: its own
      codec, the remote call of a BAR access, the reader thread and the bottom half
      that serves DMA and interrupts ([PciBus], [MicsLink]).  [QemuLink]: its socket
      loops, connection, handshake, reset and life cycle, and the bottom half on them.
    - [Vm]: [Guest], [Qemu] and [Verilator] composed into one machine that shares
      guest memory, over a design that promises to move data ([DmaRtl]);
      [Loopback]: a design that keeps the promise.
    - [Clib]: reading and printing numbers as the C library does.
    - [Tools]: [guest/pcie-vip/user/pcie-vip-run.c] on top of [Guest], and
      [pcie-vip-pcimem.c].
    - [Logger]: [mini-ics/src/logger.cpp], [logger.hpp].
    - [Programs]: the [main] functions of the server, the client and the testbench
      ([rtl/alex/verilator_main.cpp]).

    Objects are records named after the classes; methods are functions on them with
    the names of the source (a suffix where a method is split, such as
    [WaitFor_enter], [WaitFor_ready], [WaitFor_leave], at the points where it gives
    a mutex up).  Failures are [option]s, status codes or [sum]s as in the code.

    ** What the theorems show

    - Codec: encoding and decoding are inverse on exactly the accepted headers, the
      acceptance condition is given byte by byte, the encoder implements the offset
      table of [protocol-v2.md], and [MakeHeader] always yields a decodable header.
    - Transactions: identifiers are distinct, the queue is FIFO, the pending table is
      a mailbox per identifier (a refinement), late responses are never delivered to
      a later request, and waiters are released.
    - Sockets and framing: reads and writes move exactly the bytes they report for
      every behaviour of the kernel, messages survive any splitting of the stream,
      nothing is invented, descriptors do not leak.
    - Server: the I/O thread refines a short contract, delivers messages in order,
      accepts the handshake, and a request returns the response to its own id.
      [Concurrency] extends correlation to every interleaving and shows whom [Stop]
      releases; [SendLock] shows that the mutex makes each frame one atomic write.
    - Drivers: the software endpoint, the DPI shim and the Verilator harness answer
      every request once, first and with the right identifier; register accesses are
      those of the SystemVerilog model; DMA sequences stop at the first failure.
    - Host and system: guest memory is bounds checked despite 64-bit wrap-around, a
      passing demo means the DMA work was done and answered, and the demo passes against
      every peer that answers as it should.
    - Guest and QEMU: the kernel calls of a driver run follow a grammar whatever the
      kernel and the device do, with every buffer freed once and a pass counted only
      when data and completions were verified; the two codecs agree on every byte
      string, and so do the two ends of the socket on messages; remote calls are
      correlated in every interleaving; DMA work is served in order and answered
      as far as the connection carries it; the device and the driver give their
      resources back.  Composed with the harness, a run on a fresh ring passes.
    - Tools and programs: a PASS of [pcie-vip-run] means the driver passed;
      [pcie-vip-pcimem] touches only aligned registers inside the BAR and its mapping;
      exit codes, log filtering and the testbench's reset edges are as meant.

    A few theorems without a property comment record defects of the code, e.g.
    [Server.partial_send_desyncs], [SendLock.close_cuts_frame],
    [Concurrency.late_registration_waits], [HostClient.wrong_txn_id_accepted],
    [Dpi.poll_after_disconnect_returns_zero], [Endpoint.queue_bases_not_readable],
    [Verilator.failed_dma_read_undefined] and [Vm.second_run_times_out].

    ** Bounds and scripts

    What the kernel answers is data: finite scripts of [poll], [recv], [send] and
    [accept] results.  A loop consumes one answer per turn, so no fuel is needed
    there; theorems quantify over all scripts, and progress theorems ask for a
    script that keeps delivering.  [n] in [IoThreadMain] and in the server calls is
    the number of iterations the I/O thread runs meanwhile.  The poll counters of
    [SoftwareEndpointModel::Run] and the tick limits of the harness (100, 200, 1000,
    2000) are the code's own.  [Run_loop] takes one fuel unit per poll and
    [Endpoint.endpoint_run_terminates] bounds it; [send_chunks] takes one unit per
    requested byte, which is enough ([Verilator.send_chunks_fuel]).

    In [Clib] 64 digits are enough to print 64 bits in any base.  In [Vm] a BAR access
    returns when the harness is done with the message and its DMA, without a time-out,
    over a transport that delivers whole messages ([pipe]); the harness's loop turns an
    arbitrary number of times between messages ([passes]).

    ** Not modelled

    Usage and log texts at their call sites, timeouts as durations (a timeout is a
    kernel or scheduler choice), the memory model below critical sections and atomics,
    the SystemVerilog and Verilated design (a parameter: one clock step, its output pins
    and whether it has called [$finish]) apart from the register accesses named above,
    the mutexes, condition variable and PCIe capability the QEMU device sets up and never
    gives back, the split of a [memcpy] to the BAR into bus accesses, the tables that register the driver with the kernel and the device with
    QEMU, the floating point figures of [pcie-vip-run], the Python bridge and the tests. *)
From stdpp Require Export base numbers list list_numbers gmap strings.
From stdpp Require Import options.
From Stdlib Require Export ZArith Lia.

#[global] Open Scope Z_scope.
#[global] Set Default Goal Selector "!".

(** ** Machine-width unsigned integers

    A [std::uintN_t] is a [Z]; [wrap N] is the conversion to it, so every
    arithmetic result the source stores in an N-bit variable is written
    [wrap N (...)] (or one of the abbreviations below). *)

Definition wrap (w z : Z) : Z := z mod 2 ^ w.
Abbreviation u8 := (wrap 8).
Abbreviation u16 := (wrap 16).
Abbreviation u32 := (wrap 32).
Abbreviation u64 := (wrap 64).

Definition in_width (w z : Z) : Prop := 0 <= z < 2 ^ w.
Abbreviation is_byte := (in_width 8).
Abbreviation bytes_ok := (Forall (in_width 8)).

#[global] Instance in_width_dec w z : Decision (in_width w z).
Proof. unfold in_width. apply _. Defined.

Declare Scope cxx_scope.
Delimit Scope cxx_scope with cxx.
Infix "<<" := Z.shiftl (at level 35, no associativity) : cxx_scope.
Infix ">>" := Z.shiftr (at level 35, no associativity) : cxx_scope.
Infix "&" := Z.land (at level 40, left associativity) : cxx_scope.
Infix "`|`" := Z.lor (at level 50, left associativity) : cxx_scope.

(** ** Hint databases and tactics *)

Create HintDb width discriminated.
Create HintDb bytes discriminated.
Create Rewrite HintDb bytes_rw.

(** Break the conjunctions, pairs and injective equations of the context. *)
Ltac inv_all :=
  repeat match goal with
  | H : _ /\ _ |- _ => destruct H
  | H : exists _, _ |- _ => destruct H
  | H : Some _ = Some _ |- _ => injection H as H
  | H : (_, _) = (_, _) |- _ => 
      first [injection H as ? ? ? ? | injection H as ? ? ? | injection H as ? ? | injection H as ?]
  | H : None = Some _ |- _ => discriminate H
  | H : Some _ = None |- _ => discriminate H
  end; subst.

(** Case analysis on the boolean test or option an [if]/[match] of the goal
    scrutinises, keeping the equation. *)
Ltac case_goal :=
  match goal with
  | |- context [if ?b then _ else _] => destruct b eqn:?
  | |- context [match ?x with _ => _ end] => destruct x eqn:?
  end.

(** ** Facts about [wrap] *)

Lemma wrap_range w z : 0 <= w -> in_width w (wrap w z).
Proof. intros. apply Z.mod_pos_bound. lia. Qed.

Lemma wrap_id w z : in_width w z -> wrap w z = z.
Proof. intros [? ?]. apply Z.mod_small. lia. Qed.

Lemma wrap_wrap w z : wrap w (wrap w z) = wrap w z.
Proof. unfold wrap. apply Zmod_mod. Qed.

Lemma in_width_mono w w' z : 0 <= w <= w' -> in_width w z -> in_width w' z.
Proof.
  intros ? [? ?]. split; [done|].
  pose proof (Z.pow_le_mono_r 2 w w'). lia.
Qed.

#[export] Hint Resolve wrap_range wrap_id : width.
#[export] Hint Extern 1 (_ <= _) => lia : width.
#[export] Hint Extern 2 (in_width _ _) => unfold in_width; lia : width.

(** ** Little-endian byte strings: the reference encoding *)

Fixpoint le_bytes (n : nat) (v : Z) : list Z :=
  match n with
  | O => []
  | S n => v mod 256 :: le_bytes n (v / 256)
  end.

Fixpoint le_value (bs : list Z) : Z :=
  match bs with
  | [] => 0
  | b :: bs => b + 256 * le_value bs
  end.

Lemma length_le_bytes n v : length (le_bytes n v) = n.
Proof. revert v; induction n; intros; simpl; auto. Qed.

Lemma le_bytes_ok n v : bytes_ok (le_bytes n v).
Proof.
  revert v; induction n; intros; simpl; constructor; auto.
  apply Z.mod_pos_bound. lia.
Qed.

Lemma le_value_le_bytes n v : le_value (le_bytes n v) = v mod 256 ^ Z.of_nat n.
Proof.
  revert v; induction n as [|n IH]; intros v; simpl.
  { by rewrite Z.mod_1_r. }
  rewrite IH, Nat2Z.inj_succ, Z.pow_succ_r by lia.
  rewrite Z.rem_mul_r by lia. lia.
Qed.

Lemma le_value_bound bs : bytes_ok bs -> 0 <= le_value bs < 256 ^ Z.of_nat (length bs).
Proof.
  induction 1 as [|b bs Hb _ IH]; [simpl; lia|].
  cbn [le_value length]. rewrite Nat2Z.inj_succ, Z.pow_succ_r by lia.
  unfold in_width in Hb. lia.
Qed.

Lemma le_bytes_le_value bs : bytes_ok bs -> le_bytes (length bs) (le_value bs) = bs.
Proof.
  induction 1 as [|b bs Hb _ IH]; simpl; [done|].
  unfold in_width in Hb. f_equal.
  - rewrite Z.mul_comm, Z.mod_add by lia. apply Z.mod_small. lia.
  - rewrite Z.mul_comm, Z.div_add, Z.div_small, Z.add_0_l by lia. done.
Qed.

Lemma le_value_id n v : 0 <= v < 256 ^ Z.of_nat n -> le_value (le_bytes n v) = v.
Proof. intros. rewrite le_value_le_bytes. by apply Z.mod_small. Qed.

Lemma le_bytes_inj n v v' :
  0 <= v < 256 ^ Z.of_nat n -> 0 <= v' < 256 ^ Z.of_nat n ->
  le_bytes n v = le_bytes n v' -> v = v'.
Proof.
  intros Hv Hv' E. rewrite <- (le_value_id n v), <- (le_value_id n v') by done.
  by rewrite E.
Qed.

#[export] Hint Rewrite length_le_bytes : bytes_rw.
#[export] Hint Resolve le_bytes_ok : bytes.

(** ** Bit operations as the source writes them, in arithmetic form *)

Lemma shiftr_byte v i : 0 <= i -> Z.land (Z.shiftr v (8 * i)) 255 = (v / 256 ^ i) mod 256.
Proof.
  intros. rewrite Z.shiftr_div_pow2 by lia.
  change 255 with (Z.ones 8). rewrite Z.land_ones by lia.
  rewrite Z.pow_mul_r by lia. done.
Qed.

Lemma land_1 x : Z.land x 1 = x mod 2.
Proof. change 1 with (Z.ones 1). by rewrite Z.land_ones by lia. Qed.

Lemma lor_disjoint_add a b k :
  0 <= k -> 0 <= a < 2 ^ k -> Z.lor a (Z.shiftl b k) = a + b * 2 ^ k.
Proof.
  intros Hk Ha. rewrite <- Z.shiftl_mul_pow2 by done.
  assert (Hl : Z.land a (Z.shiftl b k) = 0).
  { apply Z.bits_inj'. intros n Hn. rewrite Z.land_spec, Z.bits_0.
    destruct (decide (n < k)).
    - rewrite Z.shiftl_spec_low by lia. by rewrite andb_false_r.
    - rewrite <- (Z.mod_small a (2 ^ k)) by done.
      by rewrite Z.mod_pow2_bits_high by lia. }
  rewrite Z.add_nocarry_lxor by done.
  symmetry. by apply Z.lxor_lor.
Qed.

(** Accumulating bytes with [|=] and shifts, least significant first. *)
Lemma lor_bytes_step acc b i :
  0 <= i -> 0 <= acc < 256 ^ i -> Z.lor acc (Z.shiftl b (8 * i)) = acc + b * 256 ^ i.
Proof.
  intros. rewrite lor_disjoint_add.
  - by rewrite Z.pow_mul_r by lia.
  - lia.
  - by rewrite Z.pow_mul_r by lia.
Qed.

Lemma le_value_app bs bs' :
  le_value (bs ++ bs') = le_value bs + 256 ^ Z.of_nat (length bs) * le_value bs'.
Proof.
  induction bs as [|b bs IH]; [by cbn; lia|].
  cbn [app le_value length]. rewrite IH, Nat2Z.inj_succ, Z.pow_succ_r by lia. lia.
Qed.

(** A loop [for i < n: p[i] = uint8_t(v >> (8*i))] stores the little-endian bytes. *)
Lemma le_bytes_fmap n v :
  le_bytes n v = (fun i => (v / 256 ^ Z.of_nat i) mod 256) <$> seq 0 n.
Proof.
  revert v. induction n as [|n IH]; intros v; [done|].
  cbn [le_bytes seq fmap list_fmap]. rewrite Z.pow_0_r, Z.div_1_r, IH. f_equal.
  rewrite <- fmap_S_seq, <- list_fmap_compose. apply list_fmap_ext. intros _ i _. simpl.
  rewrite Nat2Z.inj_succ, Z.pow_succ_r, Z.div_div by lia. done.
Qed.

Lemma encode_loop_le n v :
  ((fun i => u8 (Z.shiftr v (8 * Z.of_nat i))) <$> seq 0 n) = le_bytes n v.
Proof.
  rewrite le_bytes_fmap. apply list_fmap_ext. intros _ i _. unfold wrap.
  rewrite Z.shiftr_div_pow2, Z.pow_mul_r by lia. done.
Qed.

(** Four bytes put together with shifts and [|]. *)
Lemma lor4_le_value a b c d :
  bytes_ok [a; b; c; d] ->
  Z.lor (Z.lor (Z.lor a (Z.shiftl b 8)) (Z.shiftl c 16)) (Z.shiftl d 24) = le_value [a; b; c; d].
Proof.
  rewrite !Forall_cons. unfold in_width. intros (? & ? & ? & ? & _).
  rewrite (lor_disjoint_add a b 8), (lor_disjoint_add _ c 16), (lor_disjoint_add _ d 24) by lia.
  cbn [le_value]. lia.
Qed.

(** ** Slices of a buffer *)

Definition slice (off n : nat) (src : list Z) : list Z := take n (drop off src).

(** The [n] bytes read one by one at [off], [off+1], ... *)
Definition read_bytes (src : list Z) (off n : nat) : list Z :=
  (fun i => src !!! (off + i)%nat) <$> seq 0 n.

Lemma read_bytes_slice src off n :
  (off + n <= length src)%nat -> read_bytes src off n = slice off n src.
Proof.
  intros Hlen. unfold read_bytes, slice. apply list_eq. intros i.
  rewrite list_lookup_fmap. destruct (decide (i < n)%nat) as [Hi|Hi].
  - rewrite lookup_seq_lt, lookup_take_lt, lookup_drop by lia. simpl.
    rewrite list_lookup_lookup_total_lt by lia. done.
  - rewrite lookup_take_ge by lia. by rewrite lookup_seq_ge by lia.
Qed.

Lemma lookup_total_byte src i : bytes_ok src -> is_byte (src !!! i).
Proof.
  intros Hok. destruct (decide (i < length src)%nat) as [Hi|Hi].
  - destruct (lookup_lt_is_Some_2 src i Hi) as [b Hb].
    rewrite (list_lookup_total_correct _ _ _ Hb).
    eapply Forall_lookup_1; eauto.
  - rewrite list_lookup_total_alt, lookup_ge_None_2 by lia. by unfold in_width.
Qed.

Lemma read_bytes_ok src off n : bytes_ok src -> bytes_ok (read_bytes src off n).
Proof.
  intros Hok. apply Forall_fmap, Forall_true. intros i. by apply lookup_total_byte.
Qed.

Lemma length_read_bytes src off n : length (read_bytes src off n) = n.
Proof. unfold read_bytes. by rewrite length_fmap, length_seq. Qed.

Lemma read_bytes_S src off n :
  read_bytes src off (S n) = read_bytes src off n ++ [src !!! (off + n)%nat].
Proof. unfold read_bytes. by rewrite seq_S, fmap_app. Qed.

(** A loop [for i < n: v |= byte_i << (8*i)] computes the little-endian value. *)
Lemma foldl_lor_le_value src off n :
  bytes_ok src ->
  foldl (fun v i => Z.lor v (Z.shiftl (src !!! (off + i)%nat) (8 * Z.of_nat i))) 0 (seq 0 n)
  = le_value (read_bytes src off n).
Proof.
  intros Hok. induction n as [|n IH]; [done|].
  rewrite seq_S, foldl_snoc, IH, read_bytes_S, le_value_app, length_read_bytes.
  rewrite Nat.add_0_l. cbn [le_value].
  rewrite lor_bytes_step.
  - lia.
  - lia.
  - pose proof (le_value_bound (read_bytes src off n)) as Hb.
    rewrite length_read_bytes in Hb. apply Hb. by apply read_bytes_ok.
Qed.

Lemma slice_app_l off n src rest :
  (off + n <= length src)%nat -> slice off n (src ++ rest) = slice off n src.
Proof.
  intros. unfold slice. rewrite drop_app_le by lia.
  rewrite take_app_le; [done|]. rewrite length_drop. lia.
Qed.

Lemma slice_ok off n src : bytes_ok src -> bytes_ok (slice off n src).
Proof. intros. by apply Forall_take, Forall_drop. Qed.

#[export] Hint Resolve slice_ok read_bytes_ok lookup_total_byte : bytes.

(** ** Executions of a step relation, as sequences of events *)

Inductive run {S E : Type} (step : S -> E -> S -> Prop) (s0 : S) : list E -> S -> Prop :=
| run_nil : run step s0 [] s0
| run_snoc tr s e s' : run step s0 tr s -> step s e s' -> run step s0 (tr ++ [e]) s'.

Section run.
Context {S E : Type} (step : S -> E -> S -> Prop).

Lemma run_inv_step s0 tr1 e tr2 s :
  run step s0 (tr1 ++ e :: tr2) s ->
  exists s1 s2, run step s0 tr1 s1 /\ step s1 e s2.
Proof.
  revert s. induction tr2 as [|e' tr2 IH] using rev_ind; intros s Hr.
  - inversion Hr as [E0|tr s1 e' s2 H1 H2 E0].
    { by destruct tr1. }
    apply app_inj_tail in E0 as [-> ->]. subst. eauto.
  - replace (tr1 ++ e :: tr2 ++ [e']) with ((tr1 ++ e :: tr2) ++ [e']) in Hr
      by (by rewrite <- app_assoc).
    inversion Hr as [E0|tr s1 e2 s2 H1 H2 E0].
    { by destruct tr1. }
    apply app_inj_tail in E0 as [-> ->]. eauto.
Qed.

Lemma run_invariant (P : S -> Prop) s0 tr s :
  P s0 -> (forall s1 e s2, P s1 -> step s1 e s2 -> P s2) -> run step s0 tr s -> P s.
Proof. intros H0 Hs. induction 1; eauto. Qed.

Lemma run_one s0 e s : step s0 e s -> run step s0 [e] s.
Proof. intros. eapply (run_snoc _ _ []); eauto using run. Qed.
End run.

(** Adds a step to the run [R], on concrete data: what is left open in [step] is
    found by evaluation. *)
Tactic Notation "extend" hyp(R) uconstr(step) :=
  let R' := fresh in
  unshelve epose proof (run_snoc _ _ _ _ _ _ R step) as R';
  [first [reflexivity|vm_compute; reflexivity]..|];
  clear R; rename R' into R; cbn [app] in R.
