(* ===== verification/Protocol.v ===== *)
(** * The Mini-ICS v2 wire protocol

    Model of [mini-ics/include/mini_ics/protocol.hpp] and
    [mini-ics/src/protocol.cpp]: the enumerations, the 64-byte header, the
    byte-by-byte little-endian codec and the header builder.  A buffer is a
    [list Z] of byte values; a pointer into it is an index ([nat]). *)
From S2P Require Import Prelude.
From stdpp Require Import pretty options.

#[local] Open Scope Z_scope.
#[local] Open Scope cxx_scope.

(** ** Constants *)

Definition kProtocolVersion : Z := 2.
Definition kProtocolMagic : Z := 0x5343494D.
Definition kHeaderSize : nat := 64.
Definition kMaxPayloadSize : Z := 16 * 1024 * 1024.

(** ** Enumerations

    [MessageType] and [StatusCode] have a fixed underlying type, so a
    [static_cast] from any raw value is defined: the extra constructor holds
    the values that have no enumerator. *)

Inductive MessageType :=
| kHello | kHelloAck
| kMmioReadReq | kMmioReadRsp | kMmioWriteReq | kMmioWriteRsp
| kDmaReadReq | kDmaReadRsp | kDmaWriteReq | kDmaWriteRsp
| kMsiX | kResetReq | kResetRsp | kMsgError | kShutdown
| kMsgOther (raw : Z).

#[global] Instance MessageType_eq_dec : EqDecision MessageType.
Proof. solve_decision. Defined.

(** [static_cast<MessageType>(raw)] from a 16-bit value. *)
Definition MessageType_of (raw : Z) : MessageType :=
  match raw with
  | 1 => kHello | 2 => kHelloAck
  | 3 => kMmioReadReq | 4 => kMmioReadRsp | 5 => kMmioWriteReq | 6 => kMmioWriteRsp
  | 7 => kDmaReadReq | 8 => kDmaReadRsp | 9 => kDmaWriteReq | 10 => kDmaWriteRsp
  | 11 => kMsiX | 12 => kResetReq | 13 => kResetRsp | 14 => kMsgError | 15 => kShutdown
  | _ => kMsgOther raw
  end.

(** [static_cast<std::uint16_t>(type)]. *)
Definition MessageType_raw (t : MessageType) : Z :=
  match t with
  | kHello => 1 | kHelloAck => 2
  | kMmioReadReq => 3 | kMmioReadRsp => 4 | kMmioWriteReq => 5 | kMmioWriteRsp => 6
  | kDmaReadReq => 7 | kDmaReadRsp => 8 | kDmaWriteReq => 9 | kDmaWriteRsp => 10
  | kMsiX => 11 | kResetReq => 12 | kResetRsp => 13 | kMsgError => 14 | kShutdown => 15
  | kMsgOther raw => u16 raw
  end.

Inductive StatusCode :=
| kSuccess | kErrorGeneric | kErrorBadMagic | kErrorBadVersion | kErrorBadLength
| kErrorTimeout | kErrorOutOfBounds | kErrorInvalidAddress | kErrorNotConnected
| kErrorDisconnected | kErrorUnknownTransaction | kErrorUnsupported
| kStatusOther (raw : Z).

#[global] Instance StatusCode_eq_dec : EqDecision StatusCode.
Proof. solve_decision. Defined.

Definition StatusCode_of (raw : Z) : StatusCode :=
  match raw with
  | 0 => kSuccess | 1 => kErrorGeneric | 2 => kErrorBadMagic | 3 => kErrorBadVersion
  | 4 => kErrorBadLength | 5 => kErrorTimeout | 6 => kErrorOutOfBounds
  | 7 => kErrorInvalidAddress | 8 => kErrorNotConnected | 9 => kErrorDisconnected
  | 10 => kErrorUnknownTransaction | 11 => kErrorUnsupported
  | _ => kStatusOther raw
  end.

Definition StatusCode_raw (s : StatusCode) : Z :=
  match s with
  | kSuccess => 0 | kErrorGeneric => 1 | kErrorBadMagic => 2 | kErrorBadVersion => 3
  | kErrorBadLength => 4 | kErrorTimeout => 5 | kErrorOutOfBounds => 6
  | kErrorInvalidAddress => 7 | kErrorNotConnected => 8 | kErrorDisconnected => 9
  | kErrorUnknownTransaction => 10 | kErrorUnsupported => 11
  | kStatusOther raw => u32 raw
  end.

Definition kFlagNone : Z := 0.
Definition kFlagIsResponse : Z := 1 << 0.

Inductive CodecError :=
| kNone | kBadMagic | kBadVersion | kBadHeaderLength | kBadPayloadLength | kTruncated.

#[global] Instance CodecError_eq_dec : EqDecision CodecError.
Proof. solve_decision. Defined.

(** ** Names for logging *)

Definition to_string (n : Z) : string := pretty (Z.to_N n).

Definition ToString_MessageType (type : MessageType) : string :=
  match type with
  | kHello => "HELLO"
  | kHelloAck => "HELLO_ACK"
  | kMmioReadReq => "MMIO_READ_REQ"
  | kMmioReadRsp => "MMIO_READ_RSP"
  | kMmioWriteReq => "MMIO_WRITE_REQ"
  | kMmioWriteRsp => "MMIO_WRITE_RSP"
  | kDmaReadReq => "DMA_READ_REQ"
  | kDmaReadRsp => "DMA_READ_RSP"
  | kDmaWriteReq => "DMA_WRITE_REQ"
  | kDmaWriteRsp => "DMA_WRITE_RSP"
  | kMsiX => "MSI_X"
  | kResetReq => "RESET_REQ"
  | kResetRsp => "RESET_RSP"
  | kMsgError => "ERROR"
  | kShutdown => "SHUTDOWN"
  | kMsgOther raw => "UNKNOWN(" +:+ to_string (u16 raw) +:+ ")"
  end.

Definition ToString_StatusCode (status : StatusCode) : string :=
  match status with
  | kSuccess => "SUCCESS"
  | kErrorGeneric => "ERROR_GENERIC"
  | kErrorBadMagic => "ERROR_BAD_MAGIC"
  | kErrorBadVersion => "ERROR_BAD_VERSION"
  | kErrorBadLength => "ERROR_BAD_LENGTH"
  | kErrorTimeout => "ERROR_TIMEOUT"
  | kErrorOutOfBounds => "ERROR_OUT_OF_BOUNDS"
  | kErrorInvalidAddress => "ERROR_INVALID_ADDRESS"
  | kErrorNotConnected => "ERROR_NOT_CONNECTED"
  | kErrorDisconnected => "ERROR_DISCONNECTED"
  | kErrorUnknownTransaction => "ERROR_UNKNOWN_TRANSACTION"
  | kErrorUnsupported => "ERROR_UNSUPPORTED"
  | kStatusOther raw => "UNKNOWN_STATUS(" +:+ to_string (u32 raw) +:+ ")"
  end.

Definition ToString_CodecError (error : CodecError) : string :=
  match error with
  | kNone => "NONE"
  | kBadMagic => "BAD_MAGIC"
  | kBadVersion => "BAD_VERSION"
  | kBadHeaderLength => "BAD_HEADER_LENGTH"
  | kBadPayloadLength => "BAD_PAYLOAD_LENGTH"
  | kTruncated => "TRUNCATED"
  end.

(** ** The header and the message *)

Record Header := mkHeader {
  h_magic : Z;
  h_version : Z;
  h_msg_type : Z;
  h_flags : Z;
  h_header_len : Z;
  h_payload_len : Z;
  h_txn_id : Z;
  h_sim_timestamp : Z;
  h_address : Z;
  h_byte_enable : Z;
  h_status : Z;
  h_reserved : Z;
  h_transfer_len : Z;
  h_reserved2 : Z;
}.

Definition Type_ (h : Header) : MessageType := MessageType_of (h_msg_type h).
Definition Status (h : Header) : StatusCode := StatusCode_of (h_status h).

Record Message := mkMessage { m_header : Header; m_payload : list Z }.

#[global] Instance Header_eq_dec : EqDecision Header.
Proof. solve_decision. Defined.
#[global] Instance Message_eq_dec : EqDecision Message.
Proof. solve_decision. Defined.

(** ** Byte-level accessors *)

Definition PutU16 (dst : nat) (v : Z) (buf : list Z) : list Z :=
  let buf := <[dst := u8 (v & 0xFF)]> buf in
  <[(dst + 1)%nat := u8 ((v >> 8) & 0xFF)]> buf.

Definition PutU32 (dst : nat) (v : Z) (buf : list Z) : list Z :=
  let buf := <[dst := u8 (v & 0xFF)]> buf in
  let buf := <[(dst + 1)%nat := u8 ((v >> 8) & 0xFF)]> buf in
  let buf := <[(dst + 2)%nat := u8 ((v >> 16) & 0xFF)]> buf in
  <[(dst + 3)%nat := u8 ((v >> 24) & 0xFF)]> buf.

Definition PutU64 (dst : nat) (v : Z) (buf : list Z) : list Z :=
  foldl (fun buf i => <[(dst + i)%nat := u8 ((v >> (8 * Z.of_nat i)) & 0xFF)]> buf)
    buf (seq 0 8).

Definition GetU16 (src : list Z) (off : nat) : Z :=
  u16 (u16 (src !!! off) `|` (u16 (src !!! (off + 1)%nat) << 8)).

Definition GetU32 (src : list Z) (off : nat) : Z :=
  u32 (src !!! off) `|` u32 (u32 (src !!! (off + 1)%nat) << 8) `|`
  u32 (u32 (src !!! (off + 2)%nat) << 16) `|` u32 (u32 (src !!! (off + 3)%nat) << 24).

Definition GetU64 (src : list Z) (off : nat) : Z :=
  foldl (fun v i => v `|` u64 (u64 (src !!! (off + i)%nat) << (8 * Z.of_nat i)))
    0 (seq 0 8).

(** ** Header codec *)

Definition SerializeHeader (header : Header) : list Z :=
  let p := replicate kHeaderSize 0 in
  let p := PutU32 0 (h_magic header) p in
  let p := PutU16 4 (h_version header) p in
  let p := PutU16 6 (h_msg_type header) p in
  let p := PutU16 8 (h_flags header) p in
  let p := PutU16 10 (h_header_len header) p in
  let p := PutU32 12 (h_payload_len header) p in
  let p := PutU64 16 (h_txn_id header) p in
  let p := PutU64 24 (h_sim_timestamp header) p in
  let p := PutU64 32 (h_address header) p in
  let p := PutU64 40 (h_byte_enable header) p in
  let p := PutU32 48 (h_status header) p in
  let p := PutU32 52 (h_reserved header) p in
  let p := PutU32 56 (h_transfer_len header) p in
  PutU32 60 (h_reserved2 header) p.

(** The fields read at their fixed offsets, before validation. *)
Definition ReadHeaderFields (data : list Z) : Header := {|
  h_magic := GetU32 data 0;
  h_version := GetU16 data 4;
  h_msg_type := GetU16 data 6;
  h_flags := GetU16 data 8;
  h_header_len := GetU16 data 10;
  h_payload_len := GetU32 data 12;
  h_txn_id := GetU64 data 16;
  h_sim_timestamp := GetU64 data 24;
  h_address := GetU64 data 32;
  h_byte_enable := GetU64 data 40;
  h_status := GetU32 data 48;
  h_reserved := GetU32 data 52;
  h_transfer_len := GetU32 data 56;
  h_reserved2 := GetU32 data 60;
|}.

(** The returned optional and the value stored through [out_error]. *)
Definition DeserializeHeader (data : list Z) (len : nat) : option Header * CodecError :=
  if (len <? kHeaderSize)%nat then (None, kTruncated)
  else
    let h := ReadHeaderFields data in
    if negb (h_magic h =? kProtocolMagic) then (None, kBadMagic)
    else if negb (h_version h =? kProtocolVersion) then (None, kBadVersion)
    else if negb (h_header_len h =? Z.of_nat kHeaderSize) then (None, kBadHeaderLength)
    else if h_payload_len h >? kMaxPayloadSize then (None, kBadPayloadLength)
    else (Some h, kNone).

Definition SerializeMessage (header : Header) (payload : list Z) : list Z :=
  let out := [] in
  let hdr_bytes := SerializeHeader header in
  let out := out ++ hdr_bytes in
  out ++ payload.

(** [__builtin_popcountll]. *)
Definition popcountll (v : Z) : Z :=
  foldl (fun n i => n + Z.b2z (Z.testbit v i)) 0 (seqZ 0 64).

Definition MakeHeader (type : MessageType) (txn_id address byte_enable : Z)
    (status : StatusCode) (sim_timestamp payload_len flags transfer_len : Z) : Header :=
  let transfer_len :=
    if transfer_len =? 0 then
      let transfer_len := payload_len in
      if bool_decide (type = kMmioReadReq) && (payload_len =? 0)
      then u32 (popcountll byte_enable)
      else transfer_len
    else transfer_len in
  {| h_magic := kProtocolMagic;
     h_version := kProtocolVersion;
     h_msg_type := MessageType_raw type;
     h_flags := flags;
     h_header_len := Z.of_nat kHeaderSize;
     h_payload_len := payload_len;
     h_txn_id := txn_id;
     h_sim_timestamp := sim_timestamp;
     h_address := address;
     h_byte_enable := byte_enable;
     h_status := StatusCode_raw status;
     h_reserved := 0;
     h_transfer_len := transfer_len;
     h_reserved2 := 0 |}.

(** ** Reference codec and well-formedness *)

(** The layout of [protocol-v2.md], as a concatenation of little-endian fields. *)
Definition header_wire (h : Header) : list Z :=
  le_bytes 4 (h_magic h) ++ le_bytes 2 (h_version h) ++ le_bytes 2 (h_msg_type h) ++
  le_bytes 2 (h_flags h) ++ le_bytes 2 (h_header_len h) ++ le_bytes 4 (h_payload_len h) ++
  le_bytes 8 (h_txn_id h) ++ le_bytes 8 (h_sim_timestamp h) ++ le_bytes 8 (h_address h) ++
  le_bytes 8 (h_byte_enable h) ++ le_bytes 4 (h_status h) ++ le_bytes 4 (h_reserved h) ++
  le_bytes 4 (h_transfer_len h) ++ le_bytes 4 (h_reserved2 h).

(** Every field is a value of its declared width. *)
Record header_fits (h : Header) : Prop := {
  fits_magic : in_width 32 (h_magic h);
  fits_version : in_width 16 (h_version h);
  fits_msg_type : in_width 16 (h_msg_type h);
  fits_flags : in_width 16 (h_flags h);
  fits_header_len : in_width 16 (h_header_len h);
  fits_payload_len : in_width 32 (h_payload_len h);
  fits_txn_id : in_width 64 (h_txn_id h);
  fits_sim_timestamp : in_width 64 (h_sim_timestamp h);
  fits_address : in_width 64 (h_address h);
  fits_byte_enable : in_width 64 (h_byte_enable h);
  fits_status : in_width 32 (h_status h);
  fits_reserved : in_width 32 (h_reserved h);
  fits_transfer_len : in_width 32 (h_transfer_len h);
  fits_reserved2 : in_width 32 (h_reserved2 h);
}.

(** What a receiver requires of a header. *)
Definition header_valid (h : Header) : Prop :=
  h_magic h = kProtocolMagic /\ h_version h = kProtocolVersion /\
  h_header_len h = Z.of_nat kHeaderSize /\ h_payload_len h <= kMaxPayloadSize.

#[global] Instance header_valid_dec h : Decision (header_valid h).
Proof. unfold header_valid. apply _. Defined.

(** ** The codec against the reference *)

Lemma mask_byte x : u8 (x & 0xFF) = x mod 256.
Proof.
  change 0xFF with (Z.ones 8). rewrite Z.land_ones by lia.
  change (2 ^ 8) with 256. apply (wrap_wrap 8).
Qed.

Ltac solve_put_byte :=
  rewrite mask_byte;
  first [ reflexivity
        | rewrite Z.shiftr_div_pow2, ?Z.div_div by lia; reflexivity ].

Lemma SerializeHeader_wire h : SerializeHeader h = header_wire h.
Proof.
  unfold SerializeHeader, header_wire, PutU16, PutU32, PutU64. simpl.
  repeat (apply f_equal2; [solve_put_byte|]). reflexivity.
Qed.

Lemma length_SerializeHeader h : length (SerializeHeader h) = kHeaderSize.
Proof. by rewrite SerializeHeader_wire. Qed.

Lemma SerializeHeader_bytes h : bytes_ok (SerializeHeader h).
Proof.
  rewrite SerializeHeader_wire. unfold header_wire.
  repeat (apply Forall_app; split; [apply le_bytes_ok|]). apply le_bytes_ok.
Qed.

(** Reading a field is reading the little-endian value of its slice. *)
Lemma GetU16_le src off :
  bytes_ok src -> GetU16 src off = le_value (read_bytes src off 2).
Proof.
  intros Hok. unfold GetU16, read_bytes. cbn [seq fmap list_fmap le_value].
  rewrite Nat.add_0_r.
  pose proof (lookup_total_byte src off Hok) as H0.
  pose proof (lookup_total_byte src (off + 1) Hok) as H1.
  unfold in_width in *. rewrite !(wrap_id 16 (_ !!! _)) by (unfold in_width; lia).
  rewrite lor_disjoint_add by lia. rewrite wrap_id by (unfold in_width; lia). lia.
Qed.

Lemma GetU32_le src off :
  bytes_ok src -> GetU32 src off = le_value (read_bytes src off 4).
Proof.
  intros Hok. unfold GetU32, read_bytes. cbn [seq fmap list_fmap le_value].
  rewrite Nat.add_0_r.
  pose proof (lookup_total_byte src off Hok) as H0.
  pose proof (lookup_total_byte src (off + 1) Hok) as H1.
  pose proof (lookup_total_byte src (off + 2) Hok) as H2.
  pose proof (lookup_total_byte src (off + 3) Hok) as H3.
  unfold in_width in *. rewrite !(wrap_id 32 (_ !!! _)) by (unfold in_width; lia).
  rewrite !(wrap_id 32 (_ << _))
    by (rewrite Z.shiftl_mul_pow2 by lia; unfold in_width; lia).
  rewrite (lor_disjoint_add (src !!! off)) by lia.
  rewrite 2!(lor_disjoint_add (_ + _)) by lia. lia.
Qed.

Lemma GetU64_le src off :
  bytes_ok src -> GetU64 src off = le_value (read_bytes src off 8).
Proof.
  intros Hok. rewrite <- foldl_lor_le_value by done. unfold GetU64.
  assert (Hw : forall i, In i (seq 0 8) ->
    u64 (u64 (src !!! (off + i)%nat) << (8 * Z.of_nat i))
    = src !!! (off + i)%nat << (8 * Z.of_nat i)).
  { intros i Hi%in_seq. pose proof (lookup_total_byte src (off + i) Hok) as [? ?].
    rewrite (wrap_id 64 (_ !!! _)) by (unfold in_width; lia).
    apply wrap_id. rewrite Z.shiftl_mul_pow2 by lia.
    assert (2 ^ (8 * Z.of_nat i) <= 2 ^ 56) by (apply Z.pow_le_mono_r; lia).
    unfold in_width. nia. }
  revert Hw. generalize (seq 0 8), 0. induction l as [|i l IH]; intros acc Hw; [done|].
  cbn [foldl]. rewrite (Hw i) by (by left). apply IH. intros j Hj. apply Hw. by right.
Qed.

Lemma ReadHeaderFields_fits data : bytes_ok data -> header_fits (ReadHeaderFields data).
Proof.
  intros Hok.
  assert (Hr : forall off n w, w = 8 * Z.of_nat n ->
    in_width w (le_value (read_bytes data off n))).
  { intros off n w ->. pose proof (le_value_bound _ (read_bytes_ok data off n Hok)) as Hb.
    rewrite length_read_bytes in Hb. unfold in_width. by rewrite Z.pow_mul_r by lia. }
  constructor; simpl; rewrite ?GetU16_le, ?GetU32_le, ?GetU64_le by done; by apply Hr.
Qed.

Lemma le_field h n off v w :
  read_bytes (header_wire h) off n = le_bytes n v ->
  in_width w v -> w = 8 * Z.of_nat n ->
  le_value (read_bytes (header_wire h) off n) = v.
Proof.
  intros -> Hv ->. apply le_value_id. unfold in_width in Hv.
  by rewrite Z.pow_mul_r in Hv by lia.
Qed.

Lemma ReadHeaderFields_Serialize h :
  header_fits h -> ReadHeaderFields (SerializeHeader h) = h.
Proof.
  intros Hf. pose proof (SerializeHeader_bytes h) as Hb.
  unfold ReadHeaderFields.
  rewrite !GetU16_le, !GetU32_le, !GetU64_le by done.
  rewrite SerializeHeader_wire. destruct Hf, h.
  f_equal; (eapply le_field; [reflexivity|eassumption|reflexivity]).
Qed.

Lemma le_bytes_read data off n :
  bytes_ok data -> le_bytes n (le_value (read_bytes data off n)) = read_bytes data off n.
Proof.
  intros Hok. pose proof (le_bytes_le_value _ (read_bytes_ok data off n Hok)) as E.
  by rewrite length_read_bytes in E.
Qed.

Lemma SerializeHeader_Read data :
  bytes_ok data -> length data = kHeaderSize ->
  SerializeHeader (ReadHeaderFields data) = data.
Proof.
  intros Hok Hlen. rewrite SerializeHeader_wire. unfold header_wire, ReadHeaderFields.
  cbn [h_magic h_version h_msg_type h_flags h_header_len h_payload_len h_txn_id
    h_sim_timestamp h_address h_byte_enable h_status h_reserved h_transfer_len h_reserved2].
  rewrite !GetU16_le, !GetU32_le, !GetU64_le by done.
  rewrite !le_bytes_read by done. clear Hok.
  do 64 (destruct data as [|? data]; [discriminate|]).
  destruct data; [reflexivity|discriminate].
Qed.

(** The validation order of [DeserializeHeader] as one equation. *)
Lemma DeserializeHeader_valid data len h :
  (kHeaderSize <= len)%nat -> ReadHeaderFields data = h -> header_valid h ->
  DeserializeHeader data len = (Some h, kNone).
Proof.
  intros Hlen <- (Hm & Hv & Hl & Hp). unfold DeserializeHeader.
  rewrite (proj2 (Nat.ltb_ge _ _)) by done.
  rewrite Hm, Hv, Hl, !Z.eqb_refl. cbn [negb].
  by rewrite Z.gtb_ltb, (proj2 (Z.ltb_ge _ _)) by done.
Qed.

Lemma DeserializeHeader_Some data len h e :
  DeserializeHeader data len = (Some h, e) ->
  (kHeaderSize <= len)%nat /\ h = ReadHeaderFields data /\ header_valid h /\ e = kNone.
Proof.
  unfold DeserializeHeader. destruct (Nat.ltb_spec len kHeaderSize); [done|].
  destruct (Z.eqb_spec (h_magic (ReadHeaderFields data)) kProtocolMagic); [|done].
  destruct (Z.eqb_spec (h_version (ReadHeaderFields data)) kProtocolVersion); [|done].
  destruct (Z.eqb_spec (h_header_len (ReadHeaderFields data)) (Z.of_nat kHeaderSize)); [|done].
  cbn [negb]. rewrite Z.gtb_ltb.
  destruct (Z.ltb_spec kMaxPayloadSize (h_payload_len (ReadHeaderFields data))); [done|].
  intros E. inv_all. repeat split; auto.
Qed.

(** A frame is a valid header, of the right widths, that announces its payload. *)
Definition frame_ok (h : Header) (payload : list Z) : Prop :=
  header_fits h /\ header_valid h /\ bytes_ok payload /\
  h_payload_len h = Z.of_nat (length payload).

Lemma DeserializeHeader_frame h payload :
  frame_ok h payload -> DeserializeHeader (SerializeHeader h) kHeaderSize = (Some h, kNone).
Proof.
  intros (Hf & Hv & _). apply DeserializeHeader_valid; auto.
  by apply ReadHeaderFields_Serialize.
Qed.

Lemma length_SerializeMessage h payload :
  length (SerializeMessage h payload) = (kHeaderSize + length payload)%nat.
Proof. unfold SerializeMessage. by rewrite app_nil_l, length_app, length_SerializeHeader. Qed.

Lemma SerializeMessage_app h payload :
  SerializeMessage h payload = SerializeHeader h ++ payload.
Proof. reflexivity. Qed.

(** ** Enumerations *)

Lemma MessageType_of_raw t : (forall n, t <> kMsgOther n) -> MessageType_of (MessageType_raw t) = t.
Proof. destruct t; intros Hn; try reflexivity. by destruct (Hn raw). Qed.

Lemma MessageType_raw_of n : in_width 16 n -> MessageType_raw (MessageType_of n) = n.
Proof.
  intros Hn. unfold MessageType_of.
  repeat case_match; simpl; subst; try done; by apply wrap_id.
Qed.

Lemma MessageType_raw_width t : in_width 16 (MessageType_raw t).
Proof. destruct t; simpl; try (unfold in_width; lia). by apply wrap_range. Qed.

Lemma StatusCode_raw_width s : in_width 32 (StatusCode_raw s).
Proof. destruct s; simpl; try (unfold in_width; lia). by apply wrap_range. Qed.

Lemma Status_raw_success n : StatusCode_of n = kSuccess <-> n = 0.
Proof. split; [|by intros ->]. unfold StatusCode_of. repeat case_match; done. Qed.

Lemma popcountll_bound v : 0 <= popcountll v <= 64.
Proof.
  assert (Hg : forall l acc, acc <= foldl (fun n i => n + Z.b2z (Z.testbit v i)) acc l
                             <= acc + Z.of_nat (length l)).
  { induction l as [|i l IH]; intros acc; simpl; [lia|].
    specialize (IH (acc + Z.b2z (Z.testbit v i))).
    destruct (Z.testbit v i); cbn [Z.b2z] in *; lia. }
  specialize (Hg (seqZ 0 64) 0). rewrite length_seqZ in Hg. unfold popcountll. lia.
Qed.

(** The arguments a caller passes to [MakeHeader], as values of their types. *)
Definition header_args_ok (txn_id address byte_enable sim_timestamp payload_len flags
    transfer_len : Z) : Prop :=
  in_width 64 txn_id /\ in_width 64 address /\ in_width 64 byte_enable /\
  in_width 64 sim_timestamp /\ in_width 32 payload_len /\ in_width 16 flags /\
  in_width 32 transfer_len.

Lemma MakeHeader_fits type txn addr be st ts plen fl tlen :
  header_args_ok txn addr be ts plen fl tlen ->
  header_fits (MakeHeader type txn addr be st ts plen fl tlen).
Proof.
  intros (? & ? & ? & ? & ? & ? & ?).
  constructor; cbn -[Z.pow]; try assumption; 
    try (unfold in_width, kProtocolMagic, kProtocolVersion, kHeaderSize; lia).
  - apply MessageType_raw_width.
  - apply StatusCode_raw_width.
  - repeat case_match; try assumption. apply wrap_range. lia.
Qed.

Lemma MakeHeader_valid type txn addr be st ts plen fl tlen :
  plen <= kMaxPayloadSize -> header_valid (MakeHeader type txn addr be st ts plen fl tlen).
Proof. by repeat split. Qed.

Lemma MakeHeader_frame_ok type txn addr be st ts fl tlen payload :
  header_args_ok txn addr be ts (Z.of_nat (length payload)) fl tlen ->
  bytes_ok payload -> Z.of_nat (length payload) <= kMaxPayloadSize ->
  frame_ok (MakeHeader type txn addr be st ts (Z.of_nat (length payload)) fl tlen) payload.
Proof.
  intros Ha Hb Hl. split; [by apply MakeHeader_fits|].
  split; [by apply MakeHeader_valid|]. done.
Qed.

(** ** Properties *)

(** C1: a header whose fields have their declared widths and which satisfies the
    protocol's constraints survives encoding and decoding unchanged, and the
    decoder reports no error. *)
Theorem header_roundtrip h :
  header_fits h -> header_valid h ->
  DeserializeHeader (SerializeHeader h) (length (SerializeHeader h)) = (Some h, kNone).
Proof.
  intros Hf Hv. rewrite length_SerializeHeader.
  auto using DeserializeHeader_valid, ReadHeaderFields_Serialize.
Qed.

Definition sample_header : Header :=
  MakeHeader kMmioWriteReq 42 0x1000 0xF kSuccess 12345 4 kFlagNone 0.

Lemma sample_header_fits : header_fits sample_header.
Proof. apply MakeHeader_fits. repeat split; vm_compute; congruence. Qed.

Lemma header_roundtrip_witness :
  DeserializeHeader (SerializeHeader sample_header) (length (SerializeHeader sample_header))
  = (Some sample_header, kNone).
Proof.
  apply (header_roundtrip sample_header).
  - exact sample_header_fits.
  - apply MakeHeader_valid. vm_compute. congruence.
Defined.

(** C22: decoding is canonical: 64 bytes that decode to a header are exactly the
    bytes that header encodes to, and the decoded header always respects the
    widths and the protocol constraints (so no two wire headers decode alike). *)
Theorem deserialize_canonical data h e :
  bytes_ok data -> length data = kHeaderSize ->
  DeserializeHeader data kHeaderSize = (Some h, e) ->
  SerializeHeader h = data /\ header_fits h /\ header_valid h /\ e = kNone.
Proof.
  intros Hok Hlen (_ & -> & Hv & ->)%DeserializeHeader_Some.
  auto using SerializeHeader_Read, ReadHeaderFields_fits.
Qed.

Definition sample_wire : list Z := SerializeHeader sample_header.

Lemma deserialize_canonical_witness :
  SerializeHeader sample_header = sample_wire /\ header_fits sample_header /\
  header_valid sample_header /\ kNone = kNone.
Proof.
  apply (deserialize_canonical sample_wire sample_header kNone).
  - apply SerializeHeader_bytes.
  - reflexivity.
  - reflexivity.
Defined.

(** C23: the decoder accepts a received 64-byte buffer exactly when, byte for
    byte, it starts with ASCII "MICS", carries version 2 at offset 4, header
    length 64 at offset 10, and announces at most 16 MiB of payload at offset 12;
    anything shorter than 64 bytes is rejected as truncated. *)
Theorem deserialize_accepts_iff data len :
  bytes_ok data -> (length data = len)%nat ->
  (exists h, DeserializeHeader data len = (Some h, kNone)) <->
  (kHeaderSize <= len)%nat /\
  slice 0 4 data = [0x4D; 0x49; 0x43; 0x53] /\ slice 4 2 data = [2; 0] /\
  slice 10 2 data = [64; 0] /\ le_value (slice 12 4 data) <= 2 ^ 24.
Proof.
  intros Hok Hlen.
  assert (Hfix : forall off bs, (off + length bs <= length data)%nat ->
    bytes_ok bs -> slice off (length bs) data = bs <->
      le_value (read_bytes data off (length bs)) = le_value bs).
  { intros off bs Ho Hbs. rewrite <- read_bytes_slice by done.
    split; [by intros ->|]. intros E%(f_equal (le_bytes (length bs))).
    by rewrite le_bytes_read, le_bytes_le_value in E. }
  assert (Hfields : (kHeaderSize <= len)%nat ->
    header_valid (ReadHeaderFields data) <->
    slice 0 4 data = [0x4D; 0x49; 0x43; 0x53] /\ slice 4 2 data = [2; 0] /\
    slice 10 2 data = [64; 0] /\ le_value (slice 12 4 data) <= 2 ^ 24).
  { intros Hl. unfold kHeaderSize in Hl.
    assert (Hc : forall l : list Z, bool_decide (bytes_ok l) = true -> bytes_ok l)
      by (intros l; apply bool_decide_eq_true).
    rewrite (Hfix 0%nat [0x4D; 0x49; 0x43; 0x53]), (Hfix 4%nat [2; 0]),
      (Hfix 10%nat [64; 0]) by first [by apply Hc | simpl; lia].
    rewrite <- read_bytes_slice by lia.
    unfold header_valid, ReadHeaderFields.
    cbn [h_magic h_version h_header_len h_payload_len].
    by rewrite !GetU32_le, !GetU16_le by done. }
  split.
  - intros [h (Hl & -> & Hv & _)%DeserializeHeader_Some]. by rewrite <- Hfields.
  - intros [Hl Hv]. exists (ReadHeaderFields data).
    apply DeserializeHeader_valid; auto. by apply Hfields.
Qed.

Lemma deserialize_accepts_iff_witness :
  (kHeaderSize <= 64)%nat /\
  slice 0 4 sample_wire = [0x4D; 0x49; 0x43; 0x53] /\ slice 4 2 sample_wire = [2; 0] /\
  slice 10 2 sample_wire = [64; 0] /\ le_value (slice 12 4 sample_wire) <= 2 ^ 24.
Proof.
  apply (deserialize_accepts_iff sample_wire 64).
  - apply SerializeHeader_bytes.
  - reflexivity.
  - exists sample_header. reflexivity.
Defined.

(** The table of [protocol-v2.md]: offset, size and field. *)
Definition layout_table : list (nat * nat * (Header -> Z)) :=
  [ (0, 4, h_magic); (4, 2, h_version); (6, 2, h_msg_type); (8, 2, h_flags);
    (10, 2, h_header_len); (12, 4, h_payload_len); (16, 8, h_txn_id);
    (24, 8, h_sim_timestamp); (32, 8, h_address); (40, 8, h_byte_enable);
    (48, 4, h_status); (52, 4, h_reserved); (56, 4, h_transfer_len);
    (60, 4, h_reserved2) ]%nat.

(** The encoder implements the documented wire format: for every row of the
    table in [protocol-v2.md], the bytes at that offset are the little-endian
    encoding of that field, and the message is the 64-byte header followed by the
    payload. *)
Theorem header_layout h payload :
  Forall (fun '(off, size, field) =>
    slice off size (SerializeMessage h payload) = le_bytes size (field h)) layout_table /\
  drop kHeaderSize (SerializeMessage h payload) = payload /\
  length (SerializeMessage h payload) = (kHeaderSize + length payload)%nat.
Proof.
  split; [|split].
  - repeat constructor; rewrite SerializeMessage_app, SerializeHeader_wire;
      rewrite slice_app_l by (cbn; lia); reflexivity.
  - rewrite SerializeMessage_app. apply drop_app_length'. by rewrite length_SerializeHeader.
  - apply length_SerializeMessage.
Qed.

Lemma popcountll_count v :
  popcountll v = Z.of_nat (length (filter (fun i => Z.testbit v i = true) (seqZ 0 64))).
Proof.
  unfold popcountll. generalize (seqZ 0 64) as l. intros l.
  enough (Hg : forall acc, foldl (fun n i => n + Z.b2z (Z.testbit v i)) acc l
    = acc + Z.of_nat (length (filter (fun i => Z.testbit v i = true) l))) by apply Hg.
  induction l as [|i l IH]; intros acc; simpl; [lia|].
  rewrite IH, filter_cons. case_decide as E.
  - rewrite E. simpl. lia.
  - apply not_true_is_false in E. rewrite E. simpl. lia.
Qed.

(** Whatever arguments a caller passes, [MakeHeader] yields a header that the
    peer decodes to the same request: type, status, transaction ID, address and
    payload length come back, and the transfer length is the one asked for, or
    else the payload length, or (for an MMIO read without payload) the number of
    enabled byte lanes. *)
Theorem make_header_decodes type txn addr be st ts plen fl tlen :
  header_args_ok txn addr be ts plen fl tlen ->
  (forall n, type <> kMsgOther n) -> (forall n, st <> kStatusOther n) ->
  plen <= kMaxPayloadSize ->
  exists h, DeserializeHeader (SerializeHeader (MakeHeader type txn addr be st ts plen fl tlen))
              kHeaderSize = (Some h, kNone) /\
    Type_ h = type /\ Status h = st /\ h_txn_id h = txn /\ h_address h = addr /\
    h_payload_len h = plen /\ h_flags h = fl /\
    h_transfer_len h =
      (if decide (tlen <> 0) then tlen
       else if decide (type = kMmioReadReq /\ plen = 0)
       then Z.of_nat (length (filter (fun i => Z.testbit be i = true) (seqZ 0 64)))
       else plen).
Proof.
  intros Ha Ht Hs Hp. set (h := MakeHeader type txn addr be st ts plen fl tlen).
  exists h. split.
  { apply (DeserializeHeader_valid _ kHeaderSize h); [done| |by apply MakeHeader_valid].
    by apply ReadHeaderFields_Serialize, MakeHeader_fits. }
  repeat split; try done.
  - by apply MessageType_of_raw.
  - unfold Status. simpl. destruct st; try done. by destruct (Hs raw).
  - unfold h. simpl. destruct (Z.eqb_spec tlen 0) as [->|Hn].
    + rewrite decide_False by congruence.
      destruct (Z.eqb_spec plen 0) as [->|Hp0]; rewrite ?andb_true_r, ?andb_false_r.
      * case_bool_decide as Hr; [rewrite decide_True by done|by rewrite decide_False by naive_solver].
        rewrite wrap_id; [apply popcountll_count|].
        pose proof (popcountll_bound be). unfold in_width. lia.
      * by rewrite decide_False by naive_solver.
    + by rewrite decide_True by done.
Qed.

Lemma make_header_decodes_witness :
  exists h, DeserializeHeader (SerializeHeader
      (MakeHeader kMmioReadReq 7 0x1C 0xF kSuccess 100 0 kFlagNone 0)) kHeaderSize
      = (Some h, kNone) /\
    Type_ h = kMmioReadReq /\ Status h = kSuccess /\ h_txn_id h = 7 /\ h_address h = 0x1C /\
    h_payload_len h = 0 /\ h_flags h = kFlagNone /\
    h_transfer_len h =
      (if decide (0 <> 0) then 0
       else if decide (kMmioReadReq = kMmioReadReq /\ 0 = 0)
       then Z.of_nat (length (filter (fun i => Z.testbit 0xF i = true) (seqZ 0 64)))
       else 0).
Proof.
  apply (make_header_decodes kMmioReadReq 7 0x1C 0xF kSuccess 100 0 kFlagNone 0).
  - repeat split; vm_compute; congruence.
  - intros n. discriminate.
  - intros n. discriminate.
  - vm_compute. congruence.
Defined.
