(* ===== verification/Transaction.v ===== *)
(** * Transaction identifiers, the blocking queue and the pending-request table

    Model of [mini-ics/include/mini_ics/transaction.hpp].  Every method that
    takes a mutex is split at the points where it gives the mutex up, so that a
    definition here is one critical section; [condition_variable::wait_for] with
    a predicate gives the mutex up once, and re-evaluates the predicate before it
    returns, so what a waiter does next is a function of the state at that moment.
    The step relations at the end interleave critical sections of any number of
    threads, and the theorems hold for every interleaving. *)
From S2P Require Import Prelude Protocol.
From stdpp Require Import options.
#[local] Open Scope Z_scope.

(** ** [TransactionIdGenerator] *)

(** The state is [next_]; [fetch_add] returns the old value and wraps at 64 bits. *)
Definition TransactionIdGenerator := Z.

Definition Next (gen : TransactionIdGenerator) : Z * TransactionIdGenerator :=
  (gen, u64 (gen + 1)).

(** The identifiers handed out by [n] calls, in order. *)
Fixpoint next_n (n : nat) (gen : TransactionIdGenerator) : list Z :=
  match n with
  | O => []
  | S n => let '(id, gen) := Next gen in id :: next_n n gen
  end.

(** ** [BlockingQueue] *)

Record BlockingQueue (T : Type) := mkBlockingQueue { queue_ : list T; shutdown_ : bool }.
Arguments mkBlockingQueue {T} _ _.
Arguments queue_ {T} _.
Arguments shutdown_ {T} _.

Section BlockingQueue.
Context {T : Type}.
Implicit Types (q : BlockingQueue T) (item : T).

Definition Queue_init : BlockingQueue T := mkBlockingQueue [] false.

Definition Push item q : BlockingQueue T :=
  mkBlockingQueue (queue_ q ++ [item]) (shutdown_ q).

(** The predicate of [cv_.wait_for] in [Pop]. *)
Definition Pop_ready q : bool :=
  match queue_ q with [] => shutdown_ q | _ => true end.

(** What [Pop] does once the wait is over (the mutex is held again). *)
Definition Pop_finish q : option T * BlockingQueue T :=
  if negb (Pop_ready q) then (None, q)
  else match queue_ q with
       | [] => (None, q)
       | item :: rest => (Some item, mkBlockingQueue rest (shutdown_ q))
       end.

Definition TryPop q : option T * BlockingQueue T :=
  match queue_ q with
  | [] => (None, q)
  | item :: rest => (Some item, mkBlockingQueue rest (shutdown_ q))
  end.

Definition Queue_Shutdown q : BlockingQueue T := mkBlockingQueue (queue_ q) true.

Definition Size q : nat := length (queue_ q).

(** Threads sharing one queue: every completed call is an event. *)
Inductive queue_event :=
| QPush (item : T)
| QPop (timed_out : bool) (result : option T)
| QTryPop (result : option T)
| QShutdown.

Inductive queue_step : BlockingQueue T -> queue_event -> BlockingQueue T -> Prop :=
| queue_step_push q item :
    queue_step q (QPush item) (Push item q)
| queue_step_pop q timed_out r q' :
    Pop_ready q = true \/ timed_out = true ->
    Pop_finish q = (r, q') ->
    queue_step q (QPop timed_out r) q'
| queue_step_try_pop q r q' :
    TryPop q = (r, q') ->
    queue_step q (QTryPop r) q'
| queue_step_shutdown q :
    queue_step q QShutdown (Queue_Shutdown q).

Definition pushed (e : queue_event) : option T :=
  match e with QPush x => Some x | _ => None end.
Definition popped (e : queue_event) : option T :=
  match e with QPop _ r | QTryPop r => r | _ => None end.
End BlockingQueue.
Arguments queue_event : clear implicits.

(** ** [PendingRequestTable] *)

Abbreviation PendingTable := (gmap Z (option Message)).

Definition RegisterPending (txn_id : Z) (pending_ : PendingTable) : PendingTable :=
  <[txn_id := None]> pending_.

Definition Complete (txn_id : Z) (response : Message) (pending_ : PendingTable)
  : bool * PendingTable :=
  match pending_ !! txn_id with
  | None => (false, pending_)
  | Some _ => (true, <[txn_id := Some response]> pending_)
  end.

(** First critical section of [WaitFor]: is the identifier known at all? *)
Definition WaitFor_enter (txn_id : Z) (pending_ : PendingTable) : bool :=
  bool_decide (is_Some (pending_ !! txn_id)).

(** The predicate of [cv_.wait_for] in [WaitFor]. *)
Definition WaitFor_ready (txn_id : Z) (pending_ : PendingTable) : bool :=
  match pending_ !! txn_id with
  | None => true
  | Some cur => bool_decide (is_Some cur)
  end.

(** Second critical section of [WaitFor], after the wait. *)
Definition WaitFor_leave (txn_id : Z) (pending_ : PendingTable)
  : option Message * PendingTable :=
  let arrived := WaitFor_ready txn_id pending_ in
  match pending_ !! txn_id with
  | None => (None, pending_)
  | Some cur =>
      let result := if arrived && bool_decide (is_Some cur) then cur else None in
      (result, delete txn_id pending_)
  end.

(** [WaitFor] when nothing else runs between its two critical sections. *)
Definition WaitFor (txn_id : Z) (pending_ : PendingTable) : option Message * PendingTable :=
  if WaitFor_enter txn_id pending_ then WaitFor_leave txn_id pending_ else (None, pending_).

Definition CancelAll (pending_ : PendingTable) : PendingTable := ∅.

(** Threads sharing one table.  [waiters] maps a thread to the identifier it is
    blocked on inside [WaitFor]. *)
Record table_state := mkTable { tab : PendingTable; waiters : gmap nat Z }.

Inductive table_event :=
| ERegister (txn_id : Z)
| EComplete (txn_id : Z) (m : Message) (accepted : bool)
| EWait (tid : nat) (txn_id : Z)
| EReturn (tid : nat) (txn_id : Z) (result : option Message)
| ECancelAll.

#[global] Instance table_event_eq_dec : EqDecision table_event.
Proof. solve_decision. Defined.

Inductive table_step : table_state -> table_event -> table_state -> Prop :=
| table_step_register id t w :
    table_step (mkTable t w) (ERegister id) (mkTable (RegisterPending id t) w)
| table_step_complete id m b t t' w :
    Complete id m t = (b, t') ->
    table_step (mkTable t w) (EComplete id m b) (mkTable t' w)
| table_step_wait_unknown tid id t w :
    w !! tid = None -> WaitFor_enter id t = false ->
    table_step (mkTable t w) (EReturn tid id None) (mkTable t w)
| table_step_wait tid id t w :
    w !! tid = None -> WaitFor_enter id t = true ->
    table_step (mkTable t w) (EWait tid id) (mkTable t (<[tid := id]> w))
| table_step_return tid id (timed_out : bool) r t t' w :
    w !! tid = Some id -> WaitFor_ready id t = true \/ timed_out = true ->
    WaitFor_leave id t = (r, t') ->
    table_step (mkTable t w) (EReturn tid id r) (mkTable t' (delete tid w))
| table_step_cancel t w :
    table_step (mkTable t w) ECancelAll (mkTable (CancelAll t) w).

(** ** Abstract specification of the table: a mailbox per identifier,
    read off the history of calls *)

Definition mailbox_step (id : Z) (box : option (option Message)) (e : table_event)
  : option (option Message) :=
  match e with
  | ERegister i => if decide (i = id) then Some None else box
  | EComplete i m true => if decide (i = id) then Some (Some m) else box
  | EReturn _ i _ => if decide (i = id) then None else box
  | ECancelAll => None
  | _ => box
  end.

Definition mailbox (tr : list table_event) (id : Z) : option (option Message) :=
  foldl (mailbox_step id) None tr.

(** ** Lemmas *)

Lemma next_n_spec n gen :
  in_width 64 gen -> next_n n gen = (fun i => u64 (gen + i)) <$> seqZ 0 (Z.of_nat n).
Proof.
  revert gen. induction n as [|n IH]; intros gen Hg; [done|].
  rewrite Nat2Z.inj_succ, seqZ_cons by lia. cbn [next_n fmap list_fmap].
  rewrite Z.add_0_r, wrap_id by done. f_equal.
  rewrite IH by (apply wrap_range; lia). rewrite Z.pred_succ, <- (fmap_add_seqZ 1 0).
  rewrite <- list_fmap_compose. apply list_fmap_ext. intros _ i _. simpl.
  unfold wrap. rewrite Zplus_mod_idemp_l. f_equal. lia.
Qed.

Section queue_facts.
Context {T : Type}.
Implicit Types q : BlockingQueue T.

Lemma Pop_finish_TryPop q : Pop_finish q = TryPop q.
Proof. destruct q as [[|x l] b]; unfold Pop_finish, TryPop, Pop_ready; simpl; [by destruct b|done]. Qed.

Lemma TryPop_spec q r q' :
  TryPop q = (r, q') ->
  shutdown_ q' = shutdown_ q /\ queue_ q = option_list r ++ queue_ q' /\
  (r = None -> queue_ q = []).
Proof. destruct q as [[|x l] b]; unfold TryPop; simpl; intros E; inv_all; done. Qed.

Lemma queue_shutdown_seen tr q :
  run queue_step Queue_init tr q -> shutdown_ q = true -> QShutdown ∈ tr.
Proof.
  induction 1 as [|tr q e q' _ IH Hst]; [done|]. intros Hs. apply elem_of_app.
  inversion Hst as [| ? ? ? ? _ Hp | ? ? ? Hp |]; subst;
    try (rewrite Pop_finish_TryPop in Hp);
    try (apply TryPop_spec in Hp as [Hp _]; rewrite Hp in Hs); auto.
  right. by left.
Qed.
End queue_facts.

Lemma mailbox_snoc tr e id : mailbox (tr ++ [e]) id = mailbox_step id (mailbox tr id) e.
Proof. unfold mailbox. by rewrite foldl_snoc. Qed.

(** [WaitFor]'s exit takes the mailbox's content and empties it. *)
Lemma WaitFor_leave_spec id t r t' :
  WaitFor_leave id t = (r, t') -> r = mjoin (t !! id) /\ t' = delete id t.
Proof.
  unfold WaitFor_leave, WaitFor_ready. destruct (t !! id) as [[m|]|] eqn:E; simpl;
    intros; inv_all; rewrite ?delete_id by done; done.
Qed.

Lemma table_refines_mailbox tr s :
  run table_step (mkTable ∅ ∅) tr s -> forall id, tab s !! id = mailbox tr id.
Proof.
  induction 1 as [|tr s e s' _ IH Hst]; intros id; [done|].
  rewrite mailbox_snoc, <- IH.
  destruct Hst as [i t w|i m b t t' w Hc|tid i t w _ Hu|tid i t w _ _|tid i to r t t' w _ _ Hl|t w];
    cbn [tab mailbox_step] in *.
  - unfold RegisterPending. by rewrite lookup_insert.
  - unfold Complete in Hc. destruct (t !! i) eqn:E; inv_all; [by rewrite lookup_insert|done].
  - unfold WaitFor_enter in Hu. apply bool_decide_eq_false in Hu.
    case_decide; [subst|done]. by apply eq_None_not_Some.
  - done.
  - apply WaitFor_leave_spec in Hl as [_ ->]. by rewrite lookup_delete.
  - done.
Qed.

(** Where the content of a mailbox comes from. *)
Lemma mailbox_content tr id m :
  mailbox tr id = Some (Some m) ->
  exists tr1 tr2, tr = tr1 ++ EComplete id m true :: tr2 /\
    Forall (fun e => forall b, mailbox_step id b e = b) tr2.
Proof.
  induction tr as [|e tr IH] using rev_ind; [done|]. rewrite mailbox_snoc.
  intros Hm.
  destruct (decide (e = EComplete id m true)) as [->|Hne]; [by exists tr, []|].
  assert (Hid : forall b, mailbox_step id b e = b).
  { intros b. destruct e as [i|i m' [|]|tid i|tid i r|]; simpl in *; try done;
      repeat case_decide; simplify_eq; done. }
  rewrite Hid in Hm. destruct (IH Hm) as (tr1 & tr2 & -> & Hall).
  exists tr1, (tr2 ++ [e]). split; [by rewrite <- app_assoc|].
  apply Forall_app. auto.
Qed.

(** In an execution an accepted completion finds the mailbox open. *)
Lemma complete_accepted_open tr1 id m tr2 s :
  run table_step (mkTable ∅ ∅) (tr1 ++ EComplete id m true :: tr2) s ->
  is_Some (mailbox tr1 id).
Proof.
  intros (s1 & s2 & Hr & Hst)%run_inv_step.
  rewrite <- (table_refines_mailbox _ _ Hr).
  inversion Hst as [|? ? ? t t' w Hc| | | |]; subst. cbn [tab].
  unfold Complete in Hc. by destruct (t !! id).
Qed.

(** ** Properties *)

(** The identifiers a generator hands out in [n <= 2^64] consecutive calls
    are pairwise distinct, consecutive modulo 2^64, and each fits 64 bits; one
    more call than 2^64 returns the first identifier again. *)
Theorem transaction_ids_unique n gen :
  in_width 64 gen ->
  next_n n gen = (fun i => u64 (gen + i)) <$> seqZ 0 (Z.of_nat n) /\
  Forall (in_width 64) (next_n n gen) /\
  (Z.of_nat n <= 2 ^ 64 -> NoDup (next_n n gen)) /\
  u64 (gen + 2 ^ 64) = gen.
Proof.
  intros Hg. rewrite next_n_spec by done. split; [done|]. split; [|split].
  - apply Forall_fmap, Forall_true. intros i. apply wrap_range. lia.
  - intros Hn. apply NoDup_fmap_2_strong; [|apply NoDup_seqZ].
    intros i j Hi%elem_of_seqZ Hj%elem_of_seqZ E. unfold wrap in E.
    assert (Hd : (i - j) mod 2 ^ 64 = 0).
    { replace (i - j) with ((gen + i) - (gen + j)) by lia.
      rewrite Zminus_mod, E, Z.sub_diag. done. }
    apply Z.mod_divide in Hd as [k Hk]; [|lia]. nia.
  - unfold wrap. rewrite <- (Z.mul_1_l (2 ^ 64)) at 1. rewrite Z.mod_add by lia.
    by apply (wrap_id 64).
Qed.

Lemma transaction_ids_unique_witness :
  next_n 3 (2 ^ 64 - 1) = (fun i => u64 (2 ^ 64 - 1 + i)) <$> seqZ 0 (Z.of_nat 3) /\
  Forall (in_width 64) (next_n 3 (2 ^ 64 - 1)) /\
  (Z.of_nat 3 <= 2 ^ 64 -> NoDup (next_n 3 (2 ^ 64 - 1))) /\
  u64 (2 ^ 64 - 1 + 2 ^ 64) = 2 ^ 64 - 1.
Proof. apply (transaction_ids_unique 3 (2 ^ 64 - 1)). split; vm_compute; congruence. Defined.

(** C24: under any interleaving of pushes, pops and shutdown, the queue neither
    loses, duplicates nor reorders: the items pushed so far are the items popped
    so far, in order, followed by the current content; and a pop that was not cut
    short by its timeout comes back empty only after [Shutdown]. *)
Theorem queue_fifo (T : Type) (tr : list (queue_event T)) (q : BlockingQueue T) :
  run queue_step Queue_init tr q ->
  omap pushed tr = omap popped tr ++ queue_ q /\
  (QPop false None ∈ tr -> QShutdown ∈ tr).
Proof.
  induction 1 as [|tr q e q' Hr [IHf IHs] Hst]; [split; [done|by intros ?%elem_of_nil]|].
  rewrite !omap_app, IHf, elem_of_app, list_elem_of_singleton.
  split.
  - destruct Hst as [q item|q to r q' _ Hp|q r q' Hp|q]; simpl; rewrite ?app_nil_r;
      try (rewrite Pop_finish_TryPop in Hp); try apply TryPop_spec in Hp as (_ & Hp & _);
      try done.
    + by rewrite app_assoc.
    + rewrite Hp, <- app_assoc. by destruct r.
    + rewrite Hp, <- app_assoc. by destruct r.
  - intros [Hin|<-]; [set_solver|]. apply elem_of_app. left.
    inversion Hst as [|? ? ? ? [Hp|Hp] Hf| |]; subst; [|done].
    rewrite Pop_finish_TryPop in Hf. apply TryPop_spec in Hf as (_ & _ & Hn).
    apply (queue_shutdown_seen _ _ Hr). unfold Pop_ready in Hp. by rewrite Hn in Hp.
Qed.

Lemma queue_fifo_witness :
  omap pushed [QPush 1; QPush 2; QPop false (Some 1)]
    = omap popped [QPush 1; QPush 2; QPop false (Some 1)] ++ [2] /\
  (QPop false None ∈ [QPush 1; QPush 2; QPop false (Some 1)] ->
   QShutdown ∈ [QPush 1; QPush 2; QPop false (Some 1)]).
Proof.
  apply (queue_fifo Z [QPush 1; QPush 2; QPop false (Some 1)] (mkBlockingQueue [2] false)).
  apply (run_snoc _ _ [QPush 1; QPush 2] (mkBlockingQueue [1; 2] false)).
  - apply (run_snoc _ _ [QPush 1] (mkBlockingQueue [1] false)).
    + apply run_one, (queue_step_push Queue_init).
    + apply (queue_step_push (mkBlockingQueue [1] false)).
  - apply queue_step_pop; [by left|reflexivity].
Defined.

(** C14: the table implements one mailbox per identifier.  Whatever the interleaving
    of registrations, completions, waits and cancellations, after every call the
    entry of each identifier is what the history of calls says ([mailbox]:
    registration opens it empty, a completion of an open one fills it, a return and a
    cancellation remove it); [Complete] accepts a response exactly when the
    identifier's mailbox is open at that moment; and [WaitFor] returns exactly what
    is in it, so that a returned message is the very one that [Complete] accepted for
    that very identifier, with nothing touching the entry in between. *)
Theorem pending_correlation tr e s :
  run table_step (mkTable ∅ ∅) (tr ++ [e]) s ->
  (forall id, tab s !! id = mailbox (tr ++ [e]) id) /\
  (forall id m accepted, e = EComplete id m accepted ->
     accepted = bool_decide (is_Some (mailbox tr id))) /\
  (forall tid id r, e = EReturn tid id r ->
     r = mjoin (mailbox tr id) /\ tab s !! id = None /\
     forall m, r = Some m ->
       exists tr1 tr2, tr = tr1 ++ EComplete id m true :: tr2 /\ is_Some (mailbox tr1 id) /\
         Forall (fun e => forall box, mailbox_step id box e = box) tr2).
Proof.
  intros Hrun. pose proof (table_refines_mailbox _ _ Hrun) as Hend.
  destruct (run_inv_step _ _ _ _ _ _ Hrun) as (s1 & s2 & Hr & Hst).
  pose proof (table_refines_mailbox _ _ Hr) as Hbox. split_and!; [done| |].
  - intros id m b ->. rewrite <- Hbox. inversion Hst as [|? ? ? t t' w Hco| | | |]; subst. cbn [tab].
    unfold Complete in Hco. by destruct (t !! id) eqn:E; simplify_eq.
  - intros tid id r ->.
    assert (Hm : r = mjoin (mailbox tr id)).
    { rewrite <- Hbox. inversion Hst as [| |? ? t w _ Hen| |? ? ? ? t t' w _ _ Hl|]; subst; cbn [tab].
      - unfold WaitFor_enter in Hen. apply bool_decide_eq_false in Hen.
        by destruct (t !! id) eqn:E; [destruct Hen|].
      - by apply WaitFor_leave_spec in Hl as [Hl _]. }
    split_and!; [done| |].
    + rewrite Hend, mailbox_snoc. simpl. by rewrite decide_True.
    + intros m ->. destruct (mailbox_content tr id m) as (tr1 & tr2 & -> & Hall).
      { by destruct (mailbox tr id) as [[]|]; simplify_eq/=. }
      exists tr1, tr2. split_and!; [done| |done]. by apply (complete_accepted_open _ _ _ _ _ Hr).
Qed.

Definition sample_response : Message :=
  mkMessage (MakeHeader kDmaReadRsp 10 0x2000 0 kSuccess 0 1 kFlagIsResponse 0) [0xAA].

(** Two requests, answered out of order. *)
Definition sample_trace : list table_event :=
  [ERegister 10; ERegister 11; EWait 0 10; EComplete 10 sample_response true].

Lemma sample_trace_runs :
  run table_step (mkTable ∅ ∅) (sample_trace ++ [EReturn 0 10 (Some sample_response)])
    (mkTable {[11 := None]} (delete 0%nat {[0%nat := 10]})).
Proof.
  apply (run_snoc _ _ sample_trace
    (mkTable (<[10 := Some sample_response]> (<[11 := None]> (<[10 := None]> ∅))) {[0%nat := 10]})).
  - apply (run_snoc _ _ [ERegister 10; ERegister 11; EWait 0 10]
      (mkTable (<[11 := None]> (<[10 := None]> ∅)) {[0%nat := 10]})).
    + apply (run_snoc _ _ [ERegister 10; ERegister 11] (mkTable (<[11 := None]> (<[10 := None]> ∅)) ∅)).
      * apply (run_snoc _ _ [ERegister 10] (mkTable (<[10 := None]> ∅) ∅)).
        -- apply run_one, table_step_register.
        -- apply table_step_register.
      * by apply table_step_wait.
    + by apply table_step_complete.
  - apply (table_step_return 0 10 false (Some sample_response) _ {[11 := None]} {[0%nat := 10]});
      [done|by left|reflexivity].
Qed.

Lemma pending_correlation_witness :
  Some sample_response = mjoin (mailbox sample_trace 10) /\
  exists tr1 tr2, sample_trace = tr1 ++ EComplete 10 sample_response true :: tr2 /\
    is_Some (mailbox tr1 10) /\
    Forall (fun e => forall box, mailbox_step 10 box e = box) tr2.
Proof.
  destruct (pending_correlation sample_trace (EReturn 0 10 (Some sample_response)) _ sample_trace_runs)
    as (_ & _ & Hret).
  destruct (Hret 0%nat 10 (Some sample_response) eq_refl) as (Hm & _ & Hsome).
  split; [exact Hm|exact (Hsome _ eq_refl)].
Defined.

(** Once an entry is gone it stays gone until the identifier is registered again. *)
Lemma mailbox_stays_closed tr1 e tr2 id s :
  run table_step (mkTable ∅ ∅) (tr1 ++ e :: tr2) s ->
  (forall box, mailbox_step id box e = None) ->
  ERegister id ∉ tr2 -> mailbox (tr1 ++ e :: tr2) id = None.
Proof.
  intros Hrun He. revert s Hrun. induction tr2 as [|x tr2 IH] using rev_ind; intros s Hrun Hnr.
  { by rewrite mailbox_snoc. }
  replace (tr1 ++ e :: tr2 ++ [x]) with ((tr1 ++ e :: tr2) ++ [x]) in *
    by (by rewrite <- app_assoc).
  destruct (run_inv_step _ _ _ _ [] _ Hrun) as (s1 & s2 & Hr & _).
  rewrite mailbox_snoc, (IH _ Hr) by set_solver.
  destruct x as [i|i m [|]|tid i|tid i r|]; simpl; try done; case_decide; subst; try done.
  - set_solver.
  - pose proof (complete_accepted_open _ _ _ [] _ Hrun) as Ho.
    rewrite (IH _ Hr) in Ho by set_solver. by destruct Ho.
Qed.

(** No stale delivery.  After [WaitFor] has returned for an identifier
    (answered or timed out), or after [CancelAll], a response for it is accepted,
    or delivered to a caller, only if the identifier was registered again in
    between: a late or duplicate response is never matched to an old request. *)
Theorem pending_no_stale_delivery tr1 e tr2 e' tr3 id s :
  run table_step (mkTable ∅ ∅) (tr1 ++ e :: tr2 ++ e' :: tr3) s ->
  (exists tid r, e = EReturn tid id r) \/ e = ECancelAll ->
  (exists m, e' = EComplete id m true) \/ (exists tid m, e' = EReturn tid id (Some m)) ->
  ERegister id ∈ tr2.
Proof.
  intros Hrun He He'.
  replace (tr1 ++ e :: tr2 ++ e' :: tr3) with ((tr1 ++ e :: tr2) ++ e' :: tr3) in Hrun
    by (by rewrite <- app_assoc).
  destruct (run_inv_step _ _ _ _ _ _ Hrun) as (s1 & s2 & Hr & Hst).
  destruct (decide (ERegister id ∈ tr2)) as [|Hn]; [done|exfalso].
  assert (Hc : mailbox (tr1 ++ e :: tr2) id = None).
  { apply (mailbox_stays_closed _ _ _ _ _ Hr); [|done]. intros box.
    destruct He as [(tid & r & ->)| ->]; simpl; [by rewrite decide_True|done]. }
  rewrite <- (table_refines_mailbox _ _ Hr id) in Hc.
  destruct He' as [[m ->]|(tid & m & ->)];
    inversion Hst as [|? ? ? t t' w Hco| | |? ? ? ? t t' w _ _ Hl|]; subst; cbn [tab] in *.
  - unfold Complete in Hco. by rewrite Hc in Hco.
  - apply WaitFor_leave_spec in Hl as [Hl _]. by rewrite Hc in Hl.
Qed.

(** A timed-out request whose late answer is refused. *)
Lemma pending_no_stale_delivery_witness : ERegister 10 ∈ [EComplete 10 sample_response false; ERegister 10].
Proof.
  apply (pending_no_stale_delivery [ERegister 10; EWait 0 10] (EReturn 0 10 None)
    [EComplete 10 sample_response false; ERegister 10] (EComplete 10 sample_response true) [] 10
    (mkTable (<[10 := Some sample_response]> (<[10 := None]> (delete 10 (<[10 := None]> ∅))))
             (delete 0%nat {[0%nat := 10]}))).
  - apply (run_snoc _ _ [ERegister 10; EWait 0 10; EReturn 0 10 None;
      EComplete 10 sample_response false; ERegister 10]
      (mkTable (<[10 := None]> (delete 10 (<[10 := None]> ∅))) (delete 0%nat {[0%nat := 10]})));
      [|by apply table_step_complete].
    apply (run_snoc _ _ [ERegister 10; EWait 0 10; EReturn 0 10 None; EComplete 10 sample_response false]
      (mkTable (delete 10 (<[10 := None]> ∅)) (delete 0%nat {[0%nat := 10]})));
      [|by apply table_step_register].
    apply (run_snoc _ _ [ERegister 10; EWait 0 10; EReturn 0 10 None]
      (mkTable (delete 10 (<[10 := None]> ∅)) (delete 0%nat {[0%nat := 10]})));
      [|by apply table_step_complete].
    apply (run_snoc _ _ [ERegister 10; EWait 0 10] (mkTable (<[10 := None]> ∅) {[0%nat := 10]}));
      [|by apply (table_step_return 0 10 true); [done|right|]].
    apply (run_snoc _ _ [ERegister 10] (mkTable (<[10 := None]> ∅) ∅));
      [apply run_one, table_step_register|by apply table_step_wait].
  - left. by exists 0%nat, None.
  - left. by exists sample_response.
Defined.

(** Wake-up.  In every reachable state, a caller blocked on an identifier
    whose response has been accepted, or whose entry was cancelled, can leave the
    wait without its timeout expiring, and it leaves with that response (with
    nothing, when cancelled) and with the entry removed. *)
Theorem pending_wakeup tr s tid id :
  run table_step (mkTable ∅ ∅) tr s -> waiters s !! tid = Some id ->
  mailbox tr id <> Some None ->
  WaitFor_ready id (tab s) = true /\
  table_step s (EReturn tid id (mjoin (mailbox tr id)))
    (mkTable (delete id (tab s)) (delete tid (waiters s))).
Proof.
  intros Hrun Hw Hm. rewrite <- (table_refines_mailbox _ _ Hrun id) in *.
  assert (Hready : WaitFor_ready id (tab s) = true).
  { unfold WaitFor_ready. by destruct (tab s !! id) as [[]|]. }
  split; [done|]. destruct s as [t w]. cbn [tab waiters] in *.
  apply (table_step_return tid id false); [done|by left|].
  destruct (WaitFor_leave id t) as [r t'] eqn:E.
  by apply WaitFor_leave_spec in E as [-> ->].
Qed.

Definition wakeup_trace : list table_event :=
  [ERegister 10; EWait 0 10; EComplete 10 sample_response true].

Lemma pending_wakeup_witness :
  let t : PendingTable := <[10 := Some sample_response]> (<[10 := None]> ∅) in
  mailbox wakeup_trace 10 = Some (Some sample_response) /\
  WaitFor_ready 10 t = true /\
  table_step (mkTable t {[0%nat := 10]}) (EReturn 0 10 (mjoin (mailbox wakeup_trace 10)))
    (mkTable (delete 10 t) (delete 0%nat {[0%nat := 10]})).
Proof.
  split; [reflexivity|].
  refine (pending_wakeup wakeup_trace
    (mkTable (<[10 := Some sample_response]> (<[10 := None]> ∅)) {[0%nat := 10]}) 0 10 _ _ _).
  - apply (run_snoc _ _ [ERegister 10; EWait 0 10] (mkTable (<[10 := None]> ∅) {[0%nat := 10]}));
      [|by apply table_step_complete].
    apply (run_snoc _ _ [ERegister 10] (mkTable (<[10 := None]> ∅) ∅));
      [apply run_one, table_step_register|by apply table_step_wait].
  - reflexivity.
  - vm_compute. congruence.
Defined.
