(* ===== verification/Socket.v ===== *)
(** * Unix sockets with partial I/O

    Model of [mini-ics/include/mini_ics/socket.hpp] and [mini-ics/src/socket.cpp].
    The kernel is not part of the program: what its calls answer is data of the
    model.  A connected socket carries, per system call, the script of the
    answers the kernel will give, in order ([poll] for input and for output,
    [recv], [send]) and the bytes the kernel has accepted so far.  Theorems
    quantify over all scripts, i.e. over every way the kernel can split, delay,
    interrupt or fail the calls.  Scripts are finite: when one runs out, [poll]
    times out and [recv]/[send] fail, so every loop below is total; an execution
    in which the kernel interrupts a call forever is the only behaviour left out. *)
From S2P Require Import Prelude.
From stdpp Require Import options.
#[local] Open Scope Z_scope.
#[local] Open Scope cxx_scope.

Inductive IoStatus := kOk | kTimeout | kDisconnected | kIoError.

#[global] Instance IoStatus_eq_dec : EqDecision IoStatus.
Proof. solve_decision. Defined.

Definition ToString_IoStatus (status : IoStatus) : string :=
  match status with
  | kOk => "OK"
  | kTimeout => "TIMEOUT"
  | kDisconnected => "DISCONNECTED"
  | kIoError => "ERROR"
  end.

(** ** Kernel answers *)

Inductive errno := EINTR | EAGAIN | EPIPE | ECONNRESET | EINPROGRESS | ENOENT | EOTHER.

#[global] Instance errno_eq_dec : EqDecision errno.
Proof. solve_decision. Defined.

Definition POLLIN : Z := 0x1.
Definition POLLOUT : Z := 0x4.
Definition POLLERR : Z := 0x8.
Definition POLLHUP : Z := 0x10.
Definition POLLNVAL : Z := 0x20.

Inductive poll_ans :=
| PollReady (revents : Z)  (** rc > 0 *)
| PollZero                 (** rc = 0 *)
| PollFail (e : errno).    (** rc < 0 *)

(** [RecvBytes bs]: these bytes are in the receive buffer ([[]]: the peer closed). *)
Inductive recv_ans := RecvBytes (bs : list Z) | RecvFail (e : errno).

(** [SendTake n]: the kernel takes up to [n] bytes. *)
Inductive send_ans := SendTake (n : nat) | SendFail (e : errno).

Record Sock := mkSock {
  fd_ : Z;
  s_pollin : list poll_ans;
  s_pollout : list poll_ans;
  s_recv : list recv_ans;
  s_send : list send_ans;
  s_wire : list Z;   (** bytes accepted by the kernel for the peer *)
}.

(** [UnixSocket()]: no descriptor. *)
Definition closed_sock : Sock := mkSock (-1) [] [] [] [] [].

Definition IsValid (s : Sock) : bool := 0 <=? fd_ s.

(** ** [PollFor]

    [poll] ignores an entry with a negative descriptor and so times out on it. *)
Fixpoint PollFor_loop (events : Z) (answers : list poll_ans) : IoStatus * list poll_ans :=
  match answers with
  | [] => (kTimeout, [])
  | PollReady revents :: rest =>
      if negb ((revents & (POLLERR `|` POLLNVAL)) =? 0) then (kIoError, rest)
      else if negb ((revents & POLLHUP) =? 0) && ((revents & events) =? 0)
      then (kDisconnected, rest)
      else (kOk, rest)
  | PollZero :: rest => (kTimeout, rest)
  | PollFail EINTR :: rest => PollFor_loop events rest
  | PollFail _ :: rest => (kIoError, rest)
  end.

Definition PollFor (fd events : Z) (answers : list poll_ans) : IoStatus * list poll_ans :=
  if fd <? 0 then (kTimeout, answers) else PollFor_loop events answers.

Definition retry (e : errno) : bool := bool_decide (e = EINTR) || bool_decide (e = EAGAIN).

(** ** [UnixSocket::SendAll] *)
Fixpoint SendAll_loop (fd : Z) (data : list Z) (sent : nat) (pollout : list poll_ans)
    (sends : list send_ans) (wire : list Z)
  : IoStatus * (list poll_ans * list send_ans * list Z) :=
  if (sent <? length data)%nat then
    let '(wait, pollout) := PollFor fd POLLOUT pollout in
    if negb (bool_decide (wait = kOk)) then (wait, (pollout, sends, wire))
    else
      match sends with
      | [] => (kIoError, (pollout, [], wire))
      | SendFail e :: sends =>
          if retry e then SendAll_loop fd data sent pollout sends wire
          else if bool_decide (e = EPIPE) || bool_decide (e = ECONNRESET)
          then (kDisconnected, (pollout, sends, wire))
          else (kIoError, (pollout, sends, wire))
      | SendTake k :: sends =>
          let n := Nat.min k (length data - sent) in
          if (n =? 0)%nat then (kDisconnected, (pollout, sends, wire))
          else SendAll_loop fd data (sent + n) pollout sends
                 (wire ++ take n (drop sent data))
      end
  else (kOk, (pollout, sends, wire)).

Definition SendAll (data : list Z) (s : Sock) : IoStatus * Sock :=
  let '(st, (pollout, sends, wire)) :=
    SendAll_loop (fd_ s) data 0 (s_pollout s) (s_send s) (s_wire s) in
  (st, mkSock (fd_ s) (s_pollin s) pollout (s_recv s) sends wire).

(** ** [UnixSocket::RecvAll]

    The buffer [out] is filled at index [received].  When the kernel holds more
    bytes than the buffer still takes, it hands over that many and keeps the
    rest; the buffer is then full, so the loop is over. *)
Definition store (off : nat) (bs buf : list Z) : list Z :=
  take off buf ++ bs ++ drop (off + length bs) buf.

Fixpoint RecvAll_loop (fd : Z) (out : list Z) (received : nat) (pollin : list poll_ans)
    (recvs : list recv_ans)
  : IoStatus * (list Z * list poll_ans * list recv_ans) :=
  if (received <? length out)%nat then
    let '(wait, pollin) := PollFor fd POLLIN pollin in
    if negb (bool_decide (wait = kOk)) then (wait, (out, pollin, recvs))
    else
      match recvs with
      | [] => (kIoError, (out, pollin, []))
      | RecvFail e :: recvs =>
          if retry e then RecvAll_loop fd out received pollin recvs
          else (kIoError, (out, pollin, recvs))
      | RecvBytes [] :: recvs => (kDisconnected, (out, pollin, recvs))
      | RecvBytes bs :: recvs =>
          let room := (length out - received)%nat in
          if (length bs <=? room)%nat
          then RecvAll_loop fd (store received bs out) (received + length bs) pollin recvs
          else (kOk, (store received (take room bs) out, pollin,
                      RecvBytes (drop room bs) :: recvs))
      end
  else (kOk, (out, pollin, recvs)).

(** [RecvAll(buf)] on a fresh buffer of [n] zero bytes. *)
Definition RecvAll (n : nat) (s : Sock) : IoStatus * list Z * Sock :=
  let '(st, (out, pollin, recvs)) :=
    RecvAll_loop (fd_ s) (replicate n 0) 0 (s_pollin s) (s_recv s) in
  (st, out, mkSock (fd_ s) pollin (s_pollout s) recvs (s_send s) (s_wire s)).

Definition WaitReadable (s : Sock) : IoStatus * Sock :=
  let '(st, pollin) := PollFor (fd_ s) POLLIN (s_pollin s) in
  (st, mkSock (fd_ s) pollin (s_pollout s) (s_recv s) (s_send s) (s_wire s)).

Definition Close (s : Sock) : Sock :=
  if 0 <=? fd_ s
  then mkSock (-1) (s_pollin s) (s_pollout s) (s_recv s) (s_send s) (s_wire s)
  else s.

(** The bytes the peer has sent and the kernel not yet handed over. *)
Definition recv_bytes (a : recv_ans) : list Z :=
  match a with RecvBytes bs => bs | RecvFail _ => [] end.

Fixpoint stream_of (recvs : list recv_ans) : list Z :=
  match recvs with [] => [] | a :: recvs => recv_bytes a ++ stream_of recvs end.

Definition stream (s : Sock) : list Z := stream_of (s_recv s).

(** ** Descriptors and socket files: [UnixListener], [ConnectUnixSocket]

    The process-wide kernel state these operations change: the open descriptors,
    which of them are non-blocking, and the socket files that exist. *)

Record OS := mkOS {
  os_open : gset Z;
  os_nonblock : gset Z;
  os_files : gset string;
}.

Definition sys_open (fd : Z) (os : OS) : OS :=
  mkOS ({[fd]} ∪ os_open os) (os_nonblock os) (os_files os).
Definition sys_close (fd : Z) (os : OS) : OS :=
  mkOS (os_open os ∖ {[fd]}) (os_nonblock os ∖ {[fd]}) (os_files os).
Definition sys_unlink (path : string) (os : OS) : OS :=
  mkOS (os_open os) (os_nonblock os) (os_files os ∖ {[path]}).
Definition sys_bind (path : string) (os : OS) : OS :=
  mkOS (os_open os) (os_nonblock os) ({[path]} ∪ os_files os).
Definition sys_set_nonblock (fd : Z) (os : OS) : OS :=
  mkOS (os_open os) ({[fd]} ∪ os_nonblock os) (os_files os).
Definition sys_set_block (fd : Z) (os : OS) : OS :=
  mkOS (os_open os) (os_nonblock os ∖ {[fd]}) (os_files os).

(** [sizeof(sockaddr_un::sun_path)]. *)
Definition sun_path_size : nat := 108.

Inductive accept_ans := AcceptConn (s : Sock) | AcceptFail.

Record UnixListener := mkListener {
  l_fd : Z;
  l_path : string;
  l_poll : list poll_ans;
  l_accept : list accept_ans;
}.

Definition no_listener : UnixListener := mkListener (-1) "" [] [].

(** What the kernel answers to [socket], [bind] and [listen]. *)
Record listen_ans := mkListenAns {
  la_socket : Z; la_bind : Z; la_listen : Z;
  la_poll : list poll_ans; la_accept : list accept_ans }.

Definition Listen (path : string) (a : listen_ans) (l : UnixListener) (os : OS)
  : bool * UnixListener * OS :=
  let fd := la_socket a in
  if fd <? 0 then (false, l, os)
  else
    let os := sys_open fd os in
    if (sun_path_size <=? String.length path)%nat then (false, l, sys_close fd os)
    else
      let os := sys_unlink path os in
      if negb (la_bind a =? 0) then (false, l, sys_close fd os)
      else
        let os := sys_bind path os in
        if negb (la_listen a =? 0) then (false, l, sys_close fd os)
        else (true, mkListener fd path (la_poll a) (la_accept a), os).

Definition Accept (l : UnixListener) : IoStatus * option Sock * UnixListener :=
  let '(wait, poll) := PollFor (l_fd l) POLLIN (l_poll l) in
  let l := mkListener (l_fd l) (l_path l) poll (l_accept l) in
  if negb (bool_decide (wait = kOk)) then (wait, None, l)
  else
    match l_accept l with
    | [] => (kIoError, None, l)
    | AcceptFail :: rest => (kIoError, None, mkListener (l_fd l) (l_path l) (l_poll l) rest)
    | AcceptConn s :: rest => (kOk, Some s, mkListener (l_fd l) (l_path l) (l_poll l) rest)
    end.

Definition Listener_Close (l : UnixListener) (os : OS) : UnixListener * OS :=
  if 0 <=? l_fd l then
    let os := sys_close (l_fd l) os in
    let os := if bool_decide (l_path l = "") then os else sys_unlink (l_path l) os in
    (mkListener (-1) "" (l_poll l) (l_accept l), os)
  else (l, os).

(** What the kernel answers to [socket], [connect] ([None]: 0), the wait for
    writability, and [getsockopt(SO_ERROR)]. *)
Record connect_ans := mkConnectAns {
  ca_socket : Z; ca_connect : option errno; ca_poll : list poll_ans;
  ca_getsockopt : Z; ca_so_error : Z }.

(** [out] is the descriptor held by the [UnixSocket] passed by reference; assigning
    to it closes the descriptor it held before. *)
Definition assign_fd (out fd : Z) (os : OS) : OS :=
  if 0 <=? out then sys_close out os else os.

Definition ConnectUnixSocket (path : string) (a : connect_ans) (out : Z) (os : OS)
  : IoStatus * Z * OS :=
  let fd := ca_socket a in
  if fd <? 0 then (kIoError, out, os)
  else
    let os := sys_set_nonblock fd (sys_open fd os) in
    if (sun_path_size <=? String.length path)%nat then (kIoError, out, sys_close fd os)
    else
      match ca_connect a with
      | None => (kOk, fd, assign_fd out fd (sys_set_block fd os))
      | Some e =>
          if negb (bool_decide (e = EINPROGRESS)) then (kIoError, out, sys_close fd os)
          else
            let '(wait, _) := PollFor fd POLLOUT (ca_poll a) in
            if negb (bool_decide (wait = kOk)) then (wait, out, sys_close fd os)
            else if negb (ca_getsockopt a =? 0) || negb (ca_so_error a =? 0)
            then (kIoError, out, sys_close fd os)
            else (kOk, fd, assign_fd out fd (sys_set_block fd os))
      end.

(** ** What a helpful kernel looks like *)

Definition poll_ok (events : Z) (a : poll_ans) : bool :=
  match a with
  | PollReady revents =>
      ((revents & (POLLERR `|` POLLNVAL)) =? 0) &&
      (((revents & POLLHUP) =? 0) || negb ((revents & events) =? 0))
  | _ => false
  end.

Definition poll_live (events : Z) (a : poll_ans) : Prop :=
  poll_ok events a = true \/ a = PollFail EINTR.

Definition count_ok (events : Z) (answers : list poll_ans) : nat :=
  length (filter (fun a => poll_ok events a = true) answers).

Definition recv_live (a : recv_ans) : Prop :=
  match a with RecvBytes bs => bs <> [] | RecvFail e => retry e = true end.

Definition recv_weight (a : recv_ans) : nat :=
  match a with RecvBytes bs => length bs | RecvFail _ => 1 end.

Definition send_live (a : send_ans) : Prop :=
  match a with SendTake n => n <> 0%nat | SendFail e => retry e = true end.

Fixpoint recvs_weight (recvs : list recv_ans) : nat :=
  match recvs with [] => 0 | a :: recvs => recv_weight a + recvs_weight recvs end.

(** How many of the scripted [send]s take bytes. *)
Fixpoint send_takes (sends : list send_ans) : nat :=
  match sends with
  | [] => 0
  | SendTake _ :: sends => S (send_takes sends)
  | SendFail _ :: sends => send_takes sends
  end.

(** [readable k s]: the peer's bytes arrive whatever their splitting, interrupted
    calls are retried, and [k] additional [poll]s will report readiness. *)
Record readable (k : nat) (s : Sock) : Prop := {
  rd_fd : 0 <= fd_ s;
  rd_poll : Forall (poll_live POLLIN) (s_pollin s);
  rd_recv : Forall recv_live (s_recv s);
  rd_enough : (recvs_weight (s_recv s) + k <= count_ok POLLIN (s_pollin s))%nat;
}.

(** [writable n s]: the kernel will take at least [n] more bytes. *)
Record writable (n : nat) (s : Sock) : Prop := {
  wr_fd : 0 <= fd_ s;
  wr_poll : Forall (poll_live POLLOUT) (s_pollout s);
  wr_send : Forall send_live (s_send s);
  wr_enough : (length (s_send s) <= count_ok POLLOUT (s_pollout s))%nat;
  wr_takes : (n <= send_takes (s_send s))%nat;
}.

(** ** Lemmas *)

Lemma PollFor_loop_ok events answers answers' :
  PollFor_loop events answers = (kOk, answers') ->
  exists l a, answers = l ++ a :: answers' /\ poll_ok events a = true /\
    Forall (fun x => x = PollFail EINTR) l.
Proof.
  induction answers as [|[rev| |e] rest IH]; simpl; intros E; try discriminate.
  - exists [], (PollReady rev). simpl.
    destruct (Z.eqb_spec (rev & (POLLERR `|` POLLNVAL)) 0); simplify_eq/=.
    destruct (Z.eqb_spec (rev & POLLHUP) 0), (Z.eqb_spec (rev & events) 0);
      simplify_eq/=; done.
  - destruct e; try discriminate. destruct (IH E) as (l & a & -> & Ha & Hl).
    exists (PollFail EINTR :: l), a. auto.
Qed.

Lemma PollFor_live fd events answers :
  0 <= fd -> Forall (poll_live events) answers -> (0 < count_ok events answers)%nat ->
  exists answers', PollFor fd events answers = (kOk, answers') /\
    Forall (poll_live events) answers' /\
    count_ok events answers = S (count_ok events answers').
Proof.
  intros Hfd. unfold PollFor. rewrite (proj2 (Z.ltb_ge _ _)) by done.
  induction 1 as [|a rest [Ha| ->] Hl IH]; unfold count_ok in *; simpl; intros Hc; [lia| |].
  - rewrite filter_cons_True in Hc |- * by done. exists rest.
    split; [|by split]. destruct a as [rev| |]; try discriminate. simpl in *.
    destruct (Z.eqb_spec (rev & (POLLERR `|` POLLNVAL)) 0); [|done].
    by destruct (Z.eqb_spec (rev & POLLHUP) 0), (Z.eqb_spec (rev & events) 0).
  - apply IH. by rewrite filter_cons_False in Hc by done.
Qed.

Lemma store_nil off buf : store off [] buf = buf.
Proof. unfold store. simpl. rewrite Nat.add_0_r. apply take_drop. Qed.

Lemma length_store off bs buf :
  (off + length bs <= length buf)%nat -> length (store off bs buf) = length buf.
Proof. intros. unfold store. rewrite !length_app, length_take, length_drop. lia. Qed.

Lemma store_app off bs a b c :
  length a = off -> length b = length bs -> store off bs (a ++ b ++ c) = a ++ bs ++ c.
Proof.
  intros <- Hb. unfold store. rewrite take_app_length. do 2 f_equal.
  rewrite app_assoc, drop_app_length'; [done|]. rewrite length_app. lia.
Qed.

Lemma store_store off bs bs' buf :
  (off + length bs + length bs' <= length buf)%nat ->
  store (off + length bs) bs' (store off bs buf) = store off (bs ++ bs') buf.
Proof.
  intros Hl. rewrite <- (take_drop off buf).
  rewrite <- (take_drop (length bs) (drop off buf)).
  rewrite <- (take_drop (length bs') (drop (length bs) (drop off buf))).
  set (c := take (length bs') _). set (d := drop (length bs') _).
  set (b := take (length bs) _). set (a := take off buf).
  assert (Ha : length a = off) by (apply length_take_le; lia).
  assert (Hb : length b = length bs) by (apply length_take_le; rewrite length_drop; lia).
  assert (Hc : length c = length bs') by (apply length_take_le; rewrite !length_drop; lia).
  rewrite store_app by done. rewrite app_assoc.
  rewrite store_app by (rewrite ?length_app; lia).
  rewrite (app_assoc b). rewrite store_app by (rewrite ?length_app; lia).
  by rewrite <- !app_assoc.
Qed.

Lemma store_full bs n x : length bs = n -> store 0 bs (replicate n x) = bs.
Proof. intros <-. unfold store. simpl. by rewrite drop_ge, app_nil_r by (rewrite length_replicate; lia). Qed.

(** *** [RecvAll] *)

Section RecvAll_facts.
Variable fd : Z.

Ltac nothing_read :=
  intros; inv_all; exists []; rewrite store_nil; simpl; split_and!; auto; [lia|congruence].

(** Whatever the kernel answers: the bytes taken from the stream are exactly the
    ones stored, in order, and success means the buffer is full. *)
Lemma RecvAll_loop_safe out received pollin recvs st out' pollin' recvs' :
  (received <= length out)%nat ->
  RecvAll_loop fd out received pollin recvs = (st, (out', pollin', recvs')) ->
  exists got, stream_of recvs = got ++ stream_of recvs' /\
    out' = store received got out /\ (received + length got <= length out)%nat /\
    (st = kOk -> (received + length got)%nat = length out).
Proof.
  revert out received pollin. induction recvs as [|a recvs IH];
    intros out received pollin Hle; simpl;
    (destruct (Nat.ltb_spec received (length out)) as [Hlt|Hge];
     [|intros; inv_all; exists []; rewrite store_nil; simpl; split_and!; auto; lia]);
    (destruct (PollFor fd POLLIN pollin) as [wait pollin1]);
    (case_bool_decide as Hw; simpl;
     [|nothing_read]).
  - nothing_read.
  - destruct a as [[|b bs]|e].
    + nothing_read.
    + destruct (Nat.leb_spec (length (b :: bs)) (length out - received)) as [Hfit|Hbig].
      * intros Hr. destruct (IH (store received (b :: bs) out) (received + length (b :: bs))%nat pollin1)
          as (got & Hc & Ho & Hb & Hk); [rewrite length_store; lia|done|].
        rewrite length_store in Hb, Hk by lia.
        exists ((b :: bs) ++ got). rewrite length_app. split_and!; [| |lia|intros; specialize (Hk H); lia].
        -- rewrite Hc. by rewrite app_assoc.
        -- rewrite Ho. apply store_store. lia.
      * intros; inv_all. set (room := (length out - received)%nat) in *.
        exists (take room (b :: bs)). cbn [stream_of recv_bytes].
        rewrite app_assoc, take_drop, length_take. split_and!; auto; lia.
    + destruct (retry e); [eauto|nothing_read].
Qed.

(** A helpful kernel lets the read succeed and stays helpful. *)
Lemma RecvAll_loop_live k out received pollin recvs :
  0 <= fd -> Forall (poll_live POLLIN) pollin -> Forall recv_live recvs ->
  (recvs_weight recvs + k <= count_ok POLLIN pollin)%nat ->
  (received <= length out)%nat -> (length out - received <= length (stream_of recvs))%nat ->
  exists out' pollin' recvs',
    RecvAll_loop fd out received pollin recvs = (kOk, (out', pollin', recvs')) /\
    Forall (poll_live POLLIN) pollin' /\ Forall recv_live recvs' /\
    (recvs_weight recvs' + k <= count_ok POLLIN pollin')%nat.
Proof.
  intros Hfd Hp Hr. revert out received pollin Hp.
  induction Hr as [|a recvs Ha Hr IH]; intros out received pollin Hp Hw Hle Hs; simpl in *;
    destruct (Nat.ltb_spec received (length out)) as [Hlt|Hge];
    try (by repeat eexists; simpl; auto); try lia.
  assert (Hw1 : (1 <= recv_weight a)%nat)
    by (destruct a as [[|b bs]|e]; simpl in *; [done|lia|lia]).
  destruct (PollFor_live fd POLLIN pollin Hfd Hp) as (pollin1 & -> & Hp1 & Hc); [lia|].
  rewrite bool_decide_true by done. cbn [negb].
  destruct a as [[|b bs]|e]; cbn [recv_live recv_bytes recv_weight] in *; [done| |].
  - rewrite length_app in Hs. destruct (Nat.leb_spec (length (b :: bs)) (length out - received)).
    + apply IH; [done|lia|rewrite length_store; lia|rewrite length_store; lia].
    + repeat eexists; auto.
      * constructor; [|done]. simpl. intros E%(f_equal length). rewrite length_drop in E.
        simpl in *. lia.
      * cbn [recvs_weight recv_weight]. rewrite length_drop. lia.
  - rewrite Ha. apply IH; auto. lia.
Qed.
End RecvAll_facts.

Lemma RecvAll_safe n s st out s' :
  RecvAll n s = (st, out, s') ->
  exists got, stream s = got ++ stream s' /\ (length got <= n)%nat /\
    (st = kOk -> out = got /\ length got = n) /\
    fd_ s' = fd_ s /\ s_wire s' = s_wire s /\ s_send s' = s_send s /\ s_pollout s' = s_pollout s.
Proof.
  unfold RecvAll, stream.
  destruct (RecvAll_loop _ _ _ _ _) as [st1 [[out1 pollin1] recvs1]] eqn:E. intros; inv_all.
  apply RecvAll_loop_safe in E as (got & Hs & -> & Hle & Hk); [|rewrite length_replicate; lia].
  rewrite length_replicate in *. exists got. split_and!; auto.
  intros H. specialize (Hk H). simpl in Hk. split; [|done]. by apply store_full.
Qed.

(** The specification callers use: on a helpful kernel, reading [n] bytes gives
    the next [n] bytes of the peer's stream, whatever the packets were. *)
Lemma RecvAll_readable k n s :
  readable k s -> (n <= length (stream s))%nat ->
  exists s', RecvAll n s = (kOk, take n (stream s), s') /\ stream s' = drop n (stream s) /\
    readable k s' /\ s_wire s' = s_wire s /\ s_send s' = s_send s /\
    s_pollout s' = s_pollout s /\ fd_ s' = fd_ s.
Proof.
  intros [Hfd Hp Hr Hw] Hn.
  destruct (RecvAll_loop_live (fd_ s) k (replicate n 0) 0 (s_pollin s) (s_recv s))
    as (out & pollin' & recvs' & E & Hp' & Hr' & Hw'); rewrite ?length_replicate; auto;
    [lia|unfold stream in Hn; lia|].
  destruct (RecvAll n s) as [[st out'] s'] eqn:ER.
  pose proof ER as ER'. unfold RecvAll in ER. rewrite E in ER. inv_all.
  apply RecvAll_safe in ER' as (got & Hs & _ & Hk & _). specialize (Hk eq_refl) as [-> <-].
  exists (mkSock (fd_ s) pollin' (s_pollout s) recvs' (s_send s) (s_wire s)).
  rewrite Hs, take_app_length, drop_app_length. split_and!; try done.
Qed.

(** *** [SendAll] *)

Section SendAll_facts.
Variables (fd : Z) (data : list Z).

Ltac nothing_sent :=
  intros; inv_all; exists 0%nat; rewrite take_0, app_nil_r; split_and!; auto; [lia|congruence].

(** Whatever the kernel answers, what reached the wire is a prefix of what was
    still to be sent, and success means all of it. *)
Lemma SendAll_loop_safe sent pollout sends wire st pollout' sends' wire' :
  (sent <= length data)%nat ->
  SendAll_loop fd data sent pollout sends wire = (st, (pollout', sends', wire')) ->
  exists n, wire' = wire ++ take n (drop sent data) /\ (sent + n <= length data)%nat /\
    (st = kOk -> (sent + n)%nat = length data).
Proof.
  revert sent pollout wire. induction sends as [|a sends IH];
    intros sent pollout wire Hle; simpl;
    (destruct (Nat.ltb_spec sent (length data)) as [Hlt|Hge];
     [|intros; inv_all; exists 0%nat; rewrite take_0, app_nil_r; split_and!; auto; lia]);
    (destruct (PollFor fd POLLOUT pollout) as [wait pollout1]);
    (case_bool_decide as Hw; simpl; [|nothing_sent]).
  - nothing_sent.
  - destruct a as [k|e].
    + set (n := Nat.min k (length data - sent)) in *.
      destruct (Nat.eqb_spec n 0) as [|Hn]; [nothing_sent|].
      intros Hr. destruct (IH (sent + n)%nat pollout1 (wire ++ take n (drop sent data)))
        as (j & -> & Hj & Hk); [lia|done|].
      exists (n + j)%nat. rewrite <- app_assoc, <- (drop_drop _ n sent), take_take_drop.
      split_and!; [done|lia|]. intros H. specialize (Hk H). lia.
    + destruct (retry e); [eauto|]. destruct (_ || _); nothing_sent.
Qed.

(** A kernel that takes enough bytes lets the write succeed, and is left able to
    take the rest of what it promised. *)
Lemma SendAll_loop_live n sent pollout sends wire :
  0 <= fd -> Forall (poll_live POLLOUT) pollout -> Forall send_live sends ->
  (length sends <= count_ok POLLOUT pollout)%nat ->
  (n + (length data - sent) <= send_takes sends)%nat ->
  exists pollout' sends' wire',
    SendAll_loop fd data sent pollout sends wire = (kOk, (pollout', sends', wire')) /\
    Forall (poll_live POLLOUT) pollout' /\ Forall send_live sends' /\
    (length sends' <= count_ok POLLOUT pollout')%nat /\ (n <= send_takes sends')%nat.
Proof.
  intros Hfd Hp Hs. revert sent pollout wire Hp.
  induction Hs as [|a sends Ha Hs IH]; intros sent pollout wire Hp Hc Ht; simpl in *;
    destruct (Nat.ltb_spec sent (length data)) as [Hlt|Hge];
    try (do 3 eexists; split; [reflexivity|split_and!; simpl; auto; lia]); try lia.
  destruct (PollFor_live fd POLLOUT pollout Hfd Hp) as (pollout1 & -> & Hp1 & Hc1); [lia|].
  rewrite bool_decide_true by done. cbn [negb].
  destruct a as [k|e]; cbn [send_live] in Ha.
  - set (m := Nat.min k (length data - sent)). assert (m <> 0%nat) by lia.
    destruct (Nat.eqb_spec m 0); [done|]. apply IH; auto; lia.
  - rewrite Ha. apply IH; auto; lia.
Qed.
End SendAll_facts.

Lemma SendAll_safe data s st s' :
  SendAll data s = (st, s') ->
  exists n, s_wire s' = s_wire s ++ take n data /\ (n <= length data)%nat /\
    (st = kOk -> s_wire s' = s_wire s ++ data) /\
    fd_ s' = fd_ s /\ s_recv s' = s_recv s /\ s_pollin s' = s_pollin s.
Proof.
  unfold SendAll.
  destruct (SendAll_loop _ _ _ _ _ _) as [st1 [[po sends] wire]] eqn:E. intros; inv_all.
  apply SendAll_loop_safe in E as (n & -> & Hn & Hk); [|lia]. rewrite drop_0 in *.
  exists n. split_and!; auto. intros H. specialize (Hk H). simpl in *.
  by rewrite Hk, firstn_all.
Qed.

Lemma SendAll_writable n data s :
  writable (n + length data) s ->
  exists s', SendAll data s = (kOk, s') /\ s_wire s' = s_wire s ++ data /\ writable n s' /\
    fd_ s' = fd_ s /\ s_recv s' = s_recv s /\ s_pollin s' = s_pollin s.
Proof.
  intros [Hfd Hp Hs He Ht].
  destruct (SendAll_loop_live (fd_ s) data n 0 (s_pollout s) (s_send s) (s_wire s))
    as (po & sends & wire & E & ? & ? & ? & ?); auto; [lia|].
  destruct (SendAll data s) as [st s'] eqn:ES. pose proof ES as ES'.
  unfold SendAll in ES. rewrite E in ES. inv_all.
  apply SendAll_safe in ES' as (_ & _ & _ & Hk & _).
  exists (mkSock (fd_ s) (s_pollin s) po (s_recv s) sends wire).
  split_and!; try done. by apply Hk.
Qed.

Lemma readable_frame k s s' :
  fd_ s' = fd_ s -> s_recv s' = s_recv s -> s_pollin s' = s_pollin s ->
  readable k s -> readable k s'.
Proof. intros E1 E2 E3 []. constructor; rewrite ?E1, ?E2, ?E3; done. Qed.

Lemma writable_frame n s s' :
  fd_ s' = fd_ s -> s_send s' = s_send s -> s_pollout s' = s_pollout s ->
  writable n s -> writable n s'.
Proof. intros E1 E2 E3 []. constructor; rewrite ?E1, ?E2, ?E3; done. Qed.

Lemma WaitReadable_readable k s :
  readable (S k) s ->
  exists s', WaitReadable s = (kOk, s') /\ readable k s' /\ stream s' = stream s /\
    s_wire s' = s_wire s /\ s_send s' = s_send s /\ s_pollout s' = s_pollout s /\ fd_ s' = fd_ s.
Proof.
  intros [Hfd Hp Hr Hw]. unfold WaitReadable.
  destruct (PollFor_live (fd_ s) POLLIN (s_pollin s) Hfd Hp) as (p1 & -> & Hp1 & Hc); [lia|].
  eexists. split; [done|]. split; [|by split_and!]. constructor; simpl; auto. lia.
Qed.

(** *** The two halves of a socket *)

Definition set_writes (pollout : list poll_ans) (sends : list send_ans) (wire : list Z) (c : Sock) : Sock :=
  mkSock (fd_ c) (s_pollin c) pollout (s_recv c) sends wire.

Definition same_writes (c c' : Sock) : Prop :=
  fd_ c' = fd_ c /\ s_pollout c' = s_pollout c /\ s_send c' = s_send c /\ s_wire c' = s_wire c.

(** The reading half does not depend on the writing half and leaves it alone. *)
Section writes.
Variables (po : list poll_ans) (sd : list send_ans) (wr : list Z).
#[local] Abbreviation gr := (set_writes po sd wr).

Lemma WaitReadable_writes c r c' :
  WaitReadable c = (r, c') -> WaitReadable (gr c) = (r, gr c') /\ same_writes c c'.
Proof. unfold WaitReadable; cbn. destruct (PollFor _ _ _). by intros [= <- <-]. Qed.

Lemma RecvAll_writes n c r out c' :
  RecvAll n c = (r, out, c') -> RecvAll n (gr c) = (r, out, gr c') /\ same_writes c c'.
Proof. unfold RecvAll; cbn. destruct (RecvAll_loop _ _ _ _ _) as [st [[o p] rv]]. by intros [= <- <- <-]. Qed.
End writes.

(** ** Properties *)

(** C20: reading is exact.  Whatever the kernel answers, [RecvAll] takes from the
    peer's stream a prefix of at most [n] bytes and leaves the rest in place; it
    reports success only with exactly the next [n] bytes of the stream; and when
    the kernel delivers (in any splitting, with interruptions) at least [n] bytes,
    it succeeds. *)
Theorem recv_all_exact n s :
  let '(st, out, s') := RecvAll n s in
  (exists got, stream s = got ++ stream s' /\ (length got <= n)%nat) /\
  (st = kOk -> out = take n (stream s) /\ stream s' = drop n (stream s) /\
               length out = n) /\
  (forall k, readable k s -> (n <= length (stream s))%nat -> st = kOk) /\
  s_wire s' = s_wire s.
Proof.
  destruct (RecvAll n s) as [[st out] s'] eqn:E.
  pose proof (RecvAll_safe _ _ _ _ _ E) as (got & Hs & Hl & Hk & _ & Hw & _).
  split_and!; eauto.
  - intros H. destruct (Hk H) as [-> <-]. rewrite Hs.
    by rewrite take_app_length, drop_app_length.
  - intros k Hr Hn. destruct (RecvAll_readable k n s Hr Hn) as (s1 & E1 & _). congruence.
Qed.

(** C21: writing is exact.  Whatever the kernel answers, what [SendAll] adds to the
    wire is a prefix of the data and success means all of it; a failed call may
    leave a partial message on the wire; and when the kernel keeps taking bytes the
    call succeeds. *)
Theorem send_all_exact data s :
  let '(st, s') := SendAll data s in
  (exists n, s_wire s' = s_wire s ++ take n data) /\
  (st = kOk -> s_wire s' = s_wire s ++ data) /\
  (forall k, writable (k + length data) s -> st = kOk /\ writable k s') /\
  stream s' = stream s.
Proof.
  destruct (SendAll data s) as [st s'] eqn:E.
  pose proof (SendAll_safe _ _ _ _ E) as (n & Hw & _ & Hk & _ & Hr & _).
  split_and!; eauto.
  - intros k Hwr. destruct (SendAll_writable _ _ _ Hwr) as (s1 & E1 & _ & H1 & _).
    rewrite E in E1. by inv_all.
  - unfold stream. by rewrite Hr.
Qed.



(** Packets of one, three and four bytes with interrupted calls in between. *)
Definition choppy_sock : Sock := mkSock 7
  [PollReady POLLIN; PollFail EINTR; PollReady POLLIN; PollReady (POLLIN `|` POLLHUP); PollReady POLLIN]
  [] [RecvBytes [1]; RecvFail EINTR; RecvBytes [2; 3; 4]; RecvBytes [5; 6; 7; 8]] [] [].

Example recv_choppy :
  let '(st, out, s') := RecvAll 6 choppy_sock in
  st = kOk /\ out = [1; 2; 3; 4; 5; 6] /\ stream s' = [7; 8].
Proof. by vm_compute. Qed.
