(* ===== verification/Framing.v ===== *)
(** * Reading whole messages off a socket

    The sequence "read 64 bytes, decode, read the announced payload" that
    [MiniIcsServer::IoThreadMain] performs twice (for the handshake and for every
    later message) and [HostClient::ReadMessage] once, over the socket of
    [Socket].  The framing theorems connect it to [SerializeMessage]. *)
From S2P Require Import Prelude Protocol Socket.
From stdpp Require Import options.
#[local] Open Scope Z_scope.

Inductive recv_result :=
| RecvMsg (m : Message)
| RecvHeaderFailed (st : IoStatus)
| RecvBadHeader (e : CodecError)
| RecvPayloadFailed (st : IoStatus).

Definition RecvMessage (s : Sock) : recv_result * Sock :=
  let '(st, hdr_buf, s) := RecvAll kHeaderSize s in
  if negb (bool_decide (st = kOk)) then (RecvHeaderFailed st, s)
  else
    match DeserializeHeader hdr_buf (length hdr_buf) with
    | (None, err) => (RecvBadHeader err, s)
    | (Some hdr, _) =>
        if h_payload_len hdr >? 0 then
          let '(st, payload, s) := RecvAll (Z.to_nat (h_payload_len hdr)) s in
          if negb (bool_decide (st = kOk)) then (RecvPayloadFailed st, s)
          else (RecvMsg (mkMessage hdr payload), s)
        else (RecvMsg (mkMessage hdr []), s)
    end.

(** [n] messages in a row. *)
Fixpoint RecvMessages (n : nat) (s : Sock) : list recv_result * Sock :=
  match n with
  | O => ([], s)
  | S n =>
      let '(r, s) := RecvMessage s in
      let '(rs, s) := RecvMessages n s in
      (r :: rs, s)
  end.

Definition message_ok (m : Message) : Prop := frame_ok (m_header m) (m_payload m).
Definition wire_of (m : Message) : list Z := SerializeMessage (m_header m) (m_payload m).

(** ** Lemmas *)

Lemma length_wire_of m : length (wire_of m) = (kHeaderSize + length (m_payload m))%nat.
Proof. unfold wire_of. by rewrite length_SerializeMessage. Qed.

Lemma RecvMessage_frame k s m rest :
  readable k s -> message_ok m -> stream s = wire_of m ++ rest ->
  exists s', RecvMessage s = (RecvMsg m, s') /\ stream s' = rest /\ readable k s' /\
    s_wire s' = s_wire s /\ s_send s' = s_send s /\ s_pollout s' = s_pollout s /\ fd_ s' = fd_ s.
Proof.
  intros Hr Hm Hs. destruct m as [h p]. unfold wire_of, message_ok in *. cbn [m_header m_payload] in Hs, Hm.
  rewrite SerializeMessage_app, <- app_assoc in Hs.
  pose proof (length_SerializeHeader h) as Hlen.
  destruct (RecvAll_readable k kHeaderSize s Hr) as (s1 & E1 & Hs1 & Hr1 & ? & ? & ? & ?).
  { rewrite Hs, length_app, Hlen. lia. }
  rewrite Hs, take_app_length' in E1 by done. rewrite Hs, drop_app_length' in Hs1 by done.
  unfold RecvMessage. rewrite E1, bool_decide_true by done. cbn [negb].
  rewrite Hlen, (DeserializeHeader_frame _ _ Hm).
  destruct Hm as (_ & _ & _ & Hpl). rewrite Hpl.
  destruct (Z.gtb_spec (Z.of_nat (length p)) 0) as [Hpos|Hz].
  - rewrite Nat2Z.id.
    destruct (RecvAll_readable k (length p) s1 Hr1) as (s2 & E2 & Hs2 & Hr2 & ? & ? & ? & ?).
    { rewrite Hs1, length_app. lia. }
    rewrite Hs1, take_app_length in E2. rewrite Hs1, drop_app_length in Hs2.
    rewrite E2, bool_decide_true by done. cbn [negb]. eexists. split_and!; [done|done|done|congruence..].
  - destruct p; [|simpl in Hz; lia]. eexists. split_and!; [done|done|done|congruence..].
Qed.

Lemma RecvMessage_writes po sd wr c r c' :
  RecvMessage c = (r, c') -> RecvMessage (set_writes po sd wr c) = (r, set_writes po sd wr c') /\ same_writes c c'.
Proof.
  unfold RecvMessage. destruct (RecvAll kHeaderSize c) as [[st b] c1] eqn:E1.
  apply (RecvAll_writes po sd wr) in E1 as [-> (W1 & W2 & W3 & W4)].
  destruct (bool_decide (st = kOk)); cbn [negb]; [|by intros [= <- <-]].
  destruct (DeserializeHeader b (length b)) as [[h|] e]; [|by intros [= <- <-]].
  destruct (h_payload_len h >? 0); [|by intros [= <- <-]].
  destruct (RecvAll _ c1) as [[st2 p] c2] eqn:E2.
  apply (RecvAll_writes po sd wr) in E2 as [-> (V1 & V2 & V3 & V4)].
  destruct (bool_decide (st2 = kOk)); cbn [negb]; intros [= <- <-]; (split; [done|]);
    split_and!; congruence.
Qed.

Lemma RecvMessage_sound s m s' :
  bytes_ok (stream s) -> RecvMessage s = (RecvMsg m, s') ->
  stream s = wire_of m ++ stream s' /\ message_ok m.
Proof.
  intros Hb. unfold RecvMessage, wire_of, message_ok.
  destruct (RecvAll kHeaderSize s) as [[st hdr_buf] s1] eqn:E1.
  case_bool_decide as Hst; [|done]. cbn [negb]. subst st.
  apply RecvAll_safe in E1 as (got & Hs & _ & Hk & _). specialize (Hk eq_refl) as [-> Hl].
  rewrite Hs in Hb. apply Forall_app in Hb as [Hb1 Hb2].
  destruct (DeserializeHeader got (length got)) as [[h|] e] eqn:ED; [|done].
  apply DeserializeHeader_Some in ED as (_ & Hh & Hv & _).
  assert (Hser : SerializeHeader h = got) by (rewrite Hh; by apply SerializeHeader_Read).
  assert (Hf : header_fits h) by (rewrite Hh; by apply ReadHeaderFields_fits).
  destruct (Z.gtb_spec (h_payload_len h) 0) as [Hp|Hp].
  - destruct (RecvAll (Z.to_nat (h_payload_len h)) s1) as [[st2 p] s2] eqn:E2.
    case_bool_decide as Hst2; [|done]. cbn [negb]. subst st2. intros; inv_all.
    apply RecvAll_safe in E2 as (got2 & Hs2 & _ & Hk2 & _). specialize (Hk2 eq_refl) as [-> Hl2].
    rewrite Hs2 in Hb2. apply Forall_app in Hb2 as [Hb2 _]. cbn [m_header m_payload].
    rewrite SerializeMessage_app, Hs, Hs2. rewrite ?Hser, <- app_assoc. split; [done|].
    unfold frame_ok. split_and!; [done|done|done|lia].
  - intros; inv_all. cbn [m_header m_payload]. rewrite SerializeMessage_app, app_nil_r, Hser. split; [done|].
    destruct (fits_payload_len _ Hf) as [? _]. unfold frame_ok. cbn [length]. split_and!; [done|done|by constructor|lia].
Qed.

Lemma RecvMessages_frames k ms s rest :
  readable k s -> Forall message_ok ms -> stream s = concat (wire_of <$> ms) ++ rest ->
  exists s', RecvMessages (length ms) s = (RecvMsg <$> ms, s') /\ stream s' = rest /\ readable k s'.
Proof.
  intros Hr Hok. revert s Hr. induction Hok as [|m ms Hm _ IH]; intros s Hr Hs.
  { by exists s. }
  cbn [fmap list_fmap concat] in Hs. rewrite <- app_assoc in Hs.
  destruct (RecvMessage_frame k s m _ Hr Hm Hs) as (s1 & E1 & Hs1 & Hr1 & _).
  destruct (IH s1 Hr1 Hs1) as (s2 & E2 & Hs2 & Hr2).
  exists s2. simpl. by rewrite E1, E2.
Qed.

(** ** Properties *)

(** C7: framing.  However the kernel splits the byte stream and interrupts the
    calls, a peer that sent the messages [ms] one after the other is read as
    exactly [ms], in order, with every payload intact and the rest of the stream
    untouched. *)
Theorem framing_roundtrip k ms s rest :
  readable k s -> Forall message_ok ms -> stream s = concat (wire_of <$> ms) ++ rest ->
  exists s', RecvMessages (length ms) s = (RecvMsg <$> ms, s') /\ stream s' = rest /\
    readable k s'.
Proof. apply RecvMessages_frames. Qed.

Definition sample_msg : Message :=
  mkMessage (MakeHeader kMmioWriteReq 5 0x14 0xF kSuccess 7 4 kFlagNone 0) [1; 0; 0; 0].

(** Two messages delivered as packets of 30, 60, 40 and 6 bytes. *)
Definition sample_stream : list Z := wire_of sample_msg ++ wire_of sample_msg.
Definition sample_sock : Sock := mkSock 7 (replicate 140 (PollReady POLLIN)) []
  [RecvBytes (take 30 sample_stream); RecvFail EAGAIN;
   RecvBytes (take 60 (drop 30 sample_stream));
   RecvBytes (take 40 (drop 90 sample_stream)); RecvBytes (drop 130 sample_stream)] [] [].

Lemma sample_msg_ok : message_ok sample_msg.
Proof.
  apply (MakeHeader_frame_ok kMmioWriteReq 5 0x14 0xF kSuccess 7 kFlagNone 0 [1; 0; 0; 0]).
  - repeat split; vm_compute; congruence.
  - repeat constructor; vm_compute; congruence.
  - vm_compute. congruence.
Qed.

Lemma sample_sock_readable : readable 1 sample_sock.
Proof.
  constructor.
  - vm_compute. congruence.
  - apply Forall_replicate. by left.
  - repeat constructor; vm_compute; congruence.
  - vm_compute. lia.
Qed.

Lemma framing_roundtrip_witness :
  exists s', RecvMessages 2 sample_sock = ([RecvMsg sample_msg; RecvMsg sample_msg], s') /\
    stream s' = [] /\ readable 1 s'.
Proof.
  apply (framing_roundtrip 1 [sample_msg; sample_msg] sample_sock []).
  - exact sample_sock_readable.
  - repeat constructor; apply sample_msg_ok.
  - vm_compute. reflexivity.
Defined.

(** Nothing is invented.  Whenever a message is delivered, the bytes consumed
    from the stream are exactly the encoding of that message, its header satisfies
    every protocol constraint and its payload has the announced length (at most
    16 MiB). *)
Theorem framing_sound s m s' :
  bytes_ok (stream s) -> RecvMessage s = (RecvMsg m, s') ->
  stream s = wire_of m ++ stream s' /\ message_ok m /\
  Z.of_nat (length (m_payload m)) <= kMaxPayloadSize.
Proof.
  intros Hb Hr. destruct (RecvMessage_sound _ _ _ Hb Hr) as [Hs Hok].
  split_and!; [done|done|]. destruct Hok as (_ & (_ & _ & _ & Hm) & _ & Hl). lia.
Qed.

Lemma framing_sound_witness :
  stream sample_sock = wire_of sample_msg ++ stream (snd (RecvMessage sample_sock)) /\
  message_ok sample_msg /\ Z.of_nat (length (m_payload sample_msg)) <= kMaxPayloadSize.
Proof.
  apply (framing_sound sample_sock sample_msg (snd (RecvMessage sample_sock))).
  - refine (bool_decide_unpack (bytes_ok (stream sample_sock)) _). vm_compute. exact I.
  - vm_compute. reflexivity.
Defined.
