(* ===== verification/Interface.v ===== *)
(** * What the RTL side may rely on

    The three drivers of the RTL side (the software endpoint of [server.cpp], the
    DPI shim and the Verilator harness) use a [MiniIcsServer] through three calls.
    [ServerOps] is that interface and [ServerContract] what it promises; the
    drivers are modelled and verified against these classes only, [Server] provides
    the instances.  [logged] adds a call trace to any implementation, so that a
    driver's protocol behaviour can be stated for every server at once. *)
From S2P Require Import Prelude Protocol Socket Framing.
From stdpp Require Import options.
#[local] Open Scope Z_scope.

(** Arguments of [MiniIcsServer::SendRequestToHost]. *)
Record HostRequest := mkHostRequest {
  rq_type : MessageType; rq_address : Z; rq_byte_enable : Z; rq_payload : list Z;
  rq_transfer_len : Z; rq_sim_timestamp : Z; rq_expect_response : bool }.

(** The messages that answer RTL-initiated requests; everything else the host
    sends is a request or a notification. *)
Definition is_rtl_response (t : MessageType) : bool :=
  bool_decide (t = kDmaReadRsp) || bool_decide (t = kDmaWriteRsp).

Definition is_request (m : Message) : Prop := is_rtl_response (Type_ (m_header m)) = false.
#[global] Instance is_request_dec m : Decision (is_request m).
Proof. unfold is_request. apply _. Defined.

(** [m] is a response filed under [id]. *)
Definition answers (id : Z) (m : Message) : Prop :=
  is_rtl_response (Type_ (m_header m)) = true /\ h_txn_id (m_header m) = id.
#[global] Instance answers_dec id m : Decision (answers id m).
Proof. unfold answers. apply _. Defined.

(** ** Operations

    A call returns its result and the new state of the world (the server, its
    threads and whatever is at the other end of the socket); [op_request] also
    returns what was stored through [out_txn_id], if anything. *)
Class ServerOps (W : Type) := {
  op_poll : W -> option Message * W;
  op_respond : Header -> list Z -> W -> bool * W;
  op_request : HostRequest -> W -> option Message * option Z * W;
}.

(** ** Promises

    While [op_inv] holds: polled messages are well-formed and are never DMA
    responses; a request's result answers the very transaction that was
    allocated for it. *)
Class ServerContract (W : Type) `{ServerOps W} := {
  op_inv : W -> Prop;
  inv_poll w m w' : op_inv w -> op_poll w = (m, w') -> op_inv w';
  inv_respond h p w ok w' : op_inv w -> op_respond h p w = (ok, w') -> op_inv w';
  inv_request rq w m id w' : op_inv w -> op_request rq w = (m, id, w') -> op_inv w';
  poll_request w m w' : op_inv w -> op_poll w = (Some m, w') -> message_ok m /\ is_request m;
  request_answered rq w m id w' :
    op_inv w -> op_request rq w = (Some m, id, w') ->
    message_ok m /\ exists txn, id = Some txn /\ answers txn m;
}.

(** ** Call traces *)

Inductive call :=
| CPoll (r : option Message)
| CRespond (h : Header) (p : list Z) (ok : bool)
| CRequest (rq : HostRequest) (r : option Message) (id : option Z).

Section logged.
Context {W : Type} `{ServerOps W}.

#[global] Instance logged : ServerOps (W * list call) := {
  op_poll '(w, l) := let '(m, w) := op_poll w in (m, (w, l ++ [CPoll m]));
  op_respond h p '(w, l) :=
    let '(ok, w) := op_respond h p w in (ok, (w, l ++ [CRespond h p ok]));
  op_request rq '(w, l) :=
    let '(m, id, w) := op_request rq w in (m, id, (w, l ++ [CRequest rq m id]));
}.

Lemma logged_respond h p w l :
  op_respond h p (w, l) =
  let '(ok, w') := op_respond h p w in (ok, (w', l ++ [CRespond h p ok])).
Proof. done. Qed.
End logged.

(** Every reply accepted so far answered its own request. *)
Definition call_ok (c : call) : Prop :=
  match c with
  | CPoll (Some m) => message_ok m /\ is_request m
  | CRequest _ (Some m) id => message_ok m /\ exists txn, id = Some txn /\ answers txn m
  | _ => True
  end.

#[global] Instance logged_contract {W} `{ServerContract W} : ServerContract (W * list call).
Proof.
  refine {| op_inv '(w, l) := op_inv w /\ Forall call_ok l |}.
  - intros [w l] m w' [Hi Hl]. cbn. destruct (op_poll w) as [m1 w1] eqn:E. intros; inv_all.
    split; [by eapply inv_poll|]. apply Forall_app. split; [done|]. apply Forall_singleton.
    destruct m; [|done]. by eapply poll_request.
  - intros h p [w l] ok w' [Hi Hl]. cbn. destruct (op_respond h p w) as [ok1 w1] eqn:E. intros; inv_all.
    split; [by eapply inv_respond|]. apply Forall_app. split; [done|]. by apply Forall_singleton.
  - intros rq [w l] m id w' [Hi Hl]. cbn. destruct (op_request rq w) as [[m1 id1] w1] eqn:E. intros; inv_all.
    split; [by eapply inv_request|]. apply Forall_app. split; [done|]. apply Forall_singleton.
    destruct m; [|done]. by eapply request_answered.
  - intros [w l] m w' [Hi Hl]. cbn. destruct (op_poll w) as [m1 w1] eqn:E. intros; inv_all.
    by eapply poll_request.
  - intros rq [w l] m id w' [Hi Hl]. cbn. destruct (op_request rq w) as [[m1 id1] w1] eqn:E.
    intros; inv_all. by eapply request_answered.
Defined.

(** ** Answers to host requests *)

Definition response_type (t : MessageType) : option MessageType :=
  match t with
  | kResetReq => Some kResetRsp
  | kMmioReadReq => Some kMmioReadRsp
  | kMmioWriteReq => Some kMmioWriteRsp
  | _ => None
  end.

(** What a correct answer to [msg] looks like. *)
Record answer_to (msg : Message) (h : Header) (p : list Z) : Prop := {
  an_type : response_type (Type_ (m_header msg)) = Some (Type_ h);
  an_txn : h_txn_id h = h_txn_id (m_header msg);
  an_flags : h_flags h = kFlagIsResponse;
  an_frame : frame_ok h p;
}.

Lemma response_answers msg rt addr st ts p tlen :
  message_ok msg -> response_type (Type_ (m_header msg)) = Some rt -> (forall n, rt <> kMsgOther n) ->
  in_width 64 addr -> in_width 64 ts -> bytes_ok p -> Z.of_nat (length p) <= 64 ->
  in_width 32 tlen ->
  answer_to msg (MakeHeader rt (h_txn_id (m_header msg)) addr 0 st ts (Z.of_nat (length p))
                   kFlagIsResponse tlen) p.
Proof.
  intros (Hf & _) Hrt Hno Ha Ht Hp Hl Htl. constructor; [|done|done|].
  - rewrite Hrt. unfold Type_. cbn [h_msg_type MakeHeader]. by rewrite MessageType_of_raw.
  - apply MakeHeader_frame_ok; [|done|unfold kMaxPayloadSize; lia].
    pose proof (fits_txn_id _ Hf). unfold header_args_ok, kFlagIsResponse.
    split_and!; try done; unfold in_width; lia.
Qed.

(** A world that replays a script of replies: for witnesses. *)
Record Script := mkScript { sc_polls : list (option Message); sc_replies : list Message; sc_next : Z }.

#[global] Instance script_ops : ServerOps Script := {
  op_poll w := match sc_polls w with
               | [] => (None, w)
               | m :: ms => (m, mkScript ms (sc_replies w) (sc_next w))
               end;
  op_respond h p w := (true, w);
  op_request rq w :=
    if rq_expect_response rq then
      match sc_replies w with
      | [] => (None, Some (sc_next w), mkScript (sc_polls w) [] (u64 (sc_next w + 1)))
      | m :: ms => (Some m, Some (sc_next w), mkScript (sc_polls w) ms (u64 (sc_next w + 1)))
      end
    else (None, Some (sc_next w), mkScript (sc_polls w) (sc_replies w) (u64 (sc_next w + 1)));
}.
