(* ===== verification/Server.v ===== *)
(** * [MiniIcsServer]

    Model of [mini-ics/include/mini_ics/server.hpp] and of the class in
    [mini-ics/src/server.cpp].  The object's state is a record; an operation is a
    function on it.  One iteration of [IoThreadMain] is split in two: [io_read],
    the part that only the I/O thread can observe (its socket reads, and the
    handshake), which decides what to publish, and the list of [io_action]s it
    then performs on the state shared with the callers, one at a time.  Logging is
    not modelled here. *)
From S2P Require Import Prelude Protocol Socket Framing Transaction Interface.
From stdpp Require Import options.
#[local] Open Scope Z_scope.

Record Server := mkServer {
  socket_path_ : string;
  running_ : bool;
  has_client_ : bool;
  stop_requested_ : bool;
  listener_ : UnixListener;
  client_socket_ : Sock;
  txn_gen_ : TransactionIdGenerator;
  inbound_queue_ : BlockingQueue Message;
  pending_ : PendingTable;
}.

(** ** Field updates *)

Definition set_running (b : bool) (s : Server) : Server :=
  mkServer (socket_path_ s) b (has_client_ s) (stop_requested_ s) (listener_ s)
    (client_socket_ s) (txn_gen_ s) (inbound_queue_ s) (pending_ s).
Definition set_has_client (b : bool) (s : Server) : Server :=
  mkServer (socket_path_ s) (running_ s) b (stop_requested_ s) (listener_ s)
    (client_socket_ s) (txn_gen_ s) (inbound_queue_ s) (pending_ s).
Definition set_stop_requested (b : bool) (s : Server) : Server :=
  mkServer (socket_path_ s) (running_ s) (has_client_ s) b (listener_ s)
    (client_socket_ s) (txn_gen_ s) (inbound_queue_ s) (pending_ s).
Definition set_listener (l : UnixListener) (s : Server) : Server :=
  mkServer (socket_path_ s) (running_ s) (has_client_ s) (stop_requested_ s) l
    (client_socket_ s) (txn_gen_ s) (inbound_queue_ s) (pending_ s).
Definition set_client (c : Sock) (s : Server) : Server :=
  mkServer (socket_path_ s) (running_ s) (has_client_ s) (stop_requested_ s) (listener_ s)
    c (txn_gen_ s) (inbound_queue_ s) (pending_ s).
Definition set_txn_gen (g : TransactionIdGenerator) (s : Server) : Server :=
  mkServer (socket_path_ s) (running_ s) (has_client_ s) (stop_requested_ s) (listener_ s)
    (client_socket_ s) g (inbound_queue_ s) (pending_ s).
Definition set_inbound (q : BlockingQueue Message) (s : Server) : Server :=
  mkServer (socket_path_ s) (running_ s) (has_client_ s) (stop_requested_ s) (listener_ s)
    (client_socket_ s) (txn_gen_ s) q (pending_ s).
Definition set_pending (t : PendingTable) (s : Server) : Server :=
  mkServer (socket_path_ s) (running_ s) (has_client_ s) (stop_requested_ s) (listener_ s)
    (client_socket_ s) (txn_gen_ s) (inbound_queue_ s) t.

(** ** Construction, [Start], [Stop] *)

Definition MiniIcsServer (socket_path : string) : Server :=
  mkServer socket_path false false false no_listener closed_sock 1 Queue_init ∅.

Definition Start (a : listen_ans) (s : Server) (os : OS) : bool * Server * OS :=
  let '(ok, l, os) := Listen (socket_path_ s) a (listener_ s) os in
  if negb ok then (false, set_listener l s, os)
  else (true, set_stop_requested false (set_running true (set_listener l s)), os).

(** [join] is what the I/O thread still does before it exits.  Calls of other threads that
    run meanwhile are in [Concurrency] (there: [stop_ends_waits],
    [late_registration_waits]). *)
Definition Stop (join : Server -> Server) (s : Server) (os : OS) : Server * OS :=
  if negb (running_ s) then (join (set_running false s), os)
  else
    let s := set_running false s in
    let s := set_stop_requested true s in
    let s := set_inbound (Queue_Shutdown (inbound_queue_ s)) s in
    let s := set_pending (CancelAll (pending_ s)) s in
    let s := join s in
    let '(l, os) := Listener_Close (listener_ s) os in
    let os := if 0 <=? fd_ (client_socket_ s) then sys_close (fd_ (client_socket_ s)) os else os in
    (set_client (Close (client_socket_ s)) (set_listener l s), os).

Definition IsRunning (s : Server) : bool := running_ s.
Definition HasClient (s : Server) : bool := has_client_ s.

(** ** The I/O thread *)

Definition HelloAckHeader (msg : Message) : Header :=
  MakeHeader kHelloAck (h_txn_id (m_header msg)) 0 0 kSuccess
    (h_sim_timestamp (m_header msg)) 0 kFlagIsResponse 0.

Definition HandleHello (msg : Message) (s : Server) : bool * Server :=
  if negb (bool_decide (Type_ (m_header msg) = kHello)) then (false, s)
  else
    let ack := HelloAckHeader msg in
    let bytes := SerializeMessage ack [] in
    let '(st, c) := SendAll bytes (client_socket_ s) in
    (bool_decide (st = kOk), set_client c s).

(** The accesses to the state shared with the calling threads, in program order. *)
Inductive io_action :=
| ASetClient (b : bool)    (** [has_client_.store(b)] *)
| AClose                   (** [client_socket_.Close()] *)
| APush (m : Message)      (** [inbound_queue_.Push(m)] *)
| AComplete (m : Message). (** [pending_.Complete(m.header.txn_id, m)] *)

Definition DispatchIncoming (msg : Message) : list io_action :=
  if is_rtl_response (Type_ (m_header msg)) then [AComplete msg] else [APush msg].

(** The loop body up to its first access to shared state. *)
Definition io_read (s : Server) : list io_action * Server :=
  if negb (has_client_ s) then
    let '(st, accepted, l) := Accept (listener_ s) in
    let s := set_listener l s in
    match st, accepted with
    | kOk, Some c =>
        let s := set_client c s in
        let '(r, c) := RecvMessage (client_socket_ s) in
        let s := set_client c s in
        match r with
        | RecvMsg hello_msg =>
            let '(ok, s) := HandleHello hello_msg s in
            if negb ok then ([AClose], s) else ([ASetClient true], s)
        | _ => ([AClose], s)
        end
    | _, _ => ([], s)
    end
  else
    let '(wait, c) := WaitReadable (client_socket_ s) in
    let s := set_client c s in
    match wait with
    | kTimeout => ([], s)
    | kOk =>
        let '(r, c) := RecvMessage (client_socket_ s) in
        let s := set_client c s in
        match r with
        | RecvMsg msg =>
            if bool_decide (Type_ (m_header msg) = kShutdown)
            then ([APush msg; AClose; ASetClient false], s)
            else (DispatchIncoming msg, s)
        | _ => ([AClose; ASetClient false], s)
        end
    | _ => ([AClose; ASetClient false], s)
    end.

Definition io_apply (a : io_action) (s : Server) : Server :=
  match a with
  | ASetClient b => set_has_client b s
  | AClose => set_client (Close (client_socket_ s)) s
  | APush m => set_inbound (Push m (inbound_queue_ s)) s
  | AComplete m => set_pending (snd (Complete (h_txn_id (m_header m)) m (pending_ s))) s
  end.

Definition io_apply_all (acts : list io_action) (s : Server) : Server :=
  foldl (fun s a => io_apply a s) s acts.

(** One iteration of the loop of [IoThreadMain], undisturbed. *)
Definition IoIter (s : Server) : Server :=
  if running_ s && negb (stop_requested_ s) then
    let '(acts, s) := io_read s in io_apply_all acts s
  else s.

(** [n] iterations. *)
Definition IoThreadMain (n : nat) (s : Server) : Server := Nat.iter n IoIter s.

(** ** Calls from the RTL side

    [PollInbound] and [SendRequestToHost] give the mutex up while they wait;
    [meanwhile] is what the other threads do to the object in that time. *)

Definition PollInbound (meanwhile : Server -> Server) (s : Server) : option Message * Server :=
  let s := if Pop_ready (inbound_queue_ s) then s else meanwhile s in
  let '(r, q) := Pop_finish (inbound_queue_ s) in
  (r, set_inbound q s).

Definition SendResponse (header : Header) (payload : list Z) (s : Server) : bool * Server :=
  if negb (has_client_ s) then (false, s)
  else
    let bytes := SerializeMessage header payload in
    let '(st, c) := SendAll bytes (client_socket_ s) in
    (bool_decide (st = kOk), set_client c s).

Definition request_header (rq : HostRequest) (txn_id : Z) : Header :=
  MakeHeader (rq_type rq) txn_id (rq_address rq) (rq_byte_enable rq) kSuccess
    (rq_sim_timestamp rq) (u32 (Z.of_nat (length (rq_payload rq)))) kFlagNone
    (rq_transfer_len rq).

(** The result, and what was stored through [out_txn_id] ([None]: untouched). *)
Definition SendRequestToHost (meanwhile : Server -> Server) (rq : HostRequest) (s : Server)
  : option Message * option Z * Server :=
  if negb (has_client_ s) then (None, None, s)
  else
    let '(txn_id, g) := Next (txn_gen_ s) in
    let s := set_txn_gen g s in
    let s := if rq_expect_response rq
             then set_pending (RegisterPending txn_id (pending_ s)) s else s in
    let bytes := SerializeMessage (request_header rq txn_id) (rq_payload rq) in
    let '(st, c) := SendAll bytes (client_socket_ s) in
    let s := set_client c s in
    if negb (bool_decide (st = kOk)) then
      let s := if rq_expect_response rq
               then set_pending (snd (WaitFor txn_id (pending_ s))) s else s in
      (None, Some txn_id, s)
    else if negb (rq_expect_response rq) then (None, Some txn_id, s)
    else
      let s := if WaitFor_ready txn_id (pending_ s) then s else meanwhile s in
      let '(rsp, t) := WaitFor txn_id (pending_ s) in
      (rsp, Some txn_id, set_pending t s).

Definition NextTxnId (s : Server) : Z * Server :=
  let '(id, g) := Next (txn_gen_ s) in (id, set_txn_gen g s).

(** ** Lemmas on the I/O thread *)

(** A server whose client is connected and whose kernel delivers. *)
Record connected (k : nat) (s : Server) : Prop := {
  cn_running : running_ s = true;
  cn_stop : stop_requested_ s = false;
  cn_client : has_client_ s = true;
  cn_readable : readable k (client_socket_ s);
}.

(** What one received message does to the shared state. *)
Definition deliver (m : Message) (s : Server) : Server :=
  if is_rtl_response (Type_ (m_header m))
  then set_pending (snd (Complete (h_txn_id (m_header m)) m (pending_ s))) s
  else set_inbound (Push m (inbound_queue_ s)) s.

Lemma deliver_dispatch m s : io_apply_all (DispatchIncoming m) s = deliver m s.
Proof. unfold DispatchIncoming, deliver. by destruct (is_rtl_response _). Qed.

Lemma deliver_client m s :
  client_socket_ (deliver m s) = client_socket_ s /\ has_client_ (deliver m s) = has_client_ s /\
  running_ (deliver m s) = running_ s /\ stop_requested_ (deliver m s) = stop_requested_ s.
Proof. unfold deliver. by destruct (is_rtl_response _). Qed.

(** Delivery commutes with the socket bookkeeping. *)
Lemma deliver_set_client m c s : deliver m (set_client c s) = set_client c (deliver m s).
Proof. unfold deliver. by destruct (is_rtl_response _). Qed.

Lemma io_read_connected k s m rest :
  connected (S k) s -> message_ok m -> stream (client_socket_ s) = wire_of m ++ rest ->
  exists c, io_read s =
      (if decide (Type_ (m_header m) = kShutdown) then [APush m; AClose; ASetClient false]
       else DispatchIncoming m, set_client c s) /\
    stream c = rest /\ readable k c /\
    s_wire c = s_wire (client_socket_ s) /\ s_send c = s_send (client_socket_ s) /\
    s_pollout c = s_pollout (client_socket_ s) /\ fd_ c = fd_ (client_socket_ s).
Proof.
  intros [Hrun Hstop Hc Hr] Hm Hs.
  destruct (WaitReadable_readable k _ Hr) as (c1 & E1 & Hr1 & Hs1 & ? & ? & ? & ?).
  rewrite Hs in Hs1.
  destruct (RecvMessage_frame k c1 m rest Hr1 Hm Hs1) as (c2 & E2 & Hs2 & Hr2 & ? & ? & ? & ?).
  exists c2. split; [|by split_and!; congruence].
  unfold io_read. rewrite Hc. cbn [negb]. rewrite E1. cbn [client_socket_ set_client].
  rewrite E2. case_decide; [by rewrite bool_decide_true|by rewrite bool_decide_false].
Qed.

Lemma IoIter_deliver k s m rest :
  connected (S k) s -> message_ok m -> Type_ (m_header m) <> kShutdown ->
  stream (client_socket_ s) = wire_of m ++ rest ->
  exists c, IoIter s = set_client c (deliver m s) /\ stream c = rest /\
    connected k (set_client c (deliver m s)) /\ s_wire c = s_wire (client_socket_ s).
Proof.
  intros Hcn Hm Hns Hs.
  destruct (io_read_connected k s m rest Hcn Hm Hs) as (c & E & Hs' & Hr & Hw & _).
  exists c. unfold IoIter. destruct Hcn as [Hrun Hstop Hc _].
  rewrite Hrun, Hstop, E, decide_False by done. cbn [andb negb].
  rewrite deliver_dispatch, deliver_set_client.
  destruct (deliver_client m s) as (_ & Hhc & Hru & Hst).
  split_and!; [done|done| |done]. constructor; cbn; congruence || done.
Qed.

(** After any number of messages the queue has grown by the requests, in order. *)
Lemma deliver_queue m s :
  queue_ (inbound_queue_ (deliver m s)) = queue_ (inbound_queue_ s) ++ filter is_request [m].
Proof.
  unfold deliver, is_request. destruct (is_rtl_response _) eqn:E; simpl.
  - by rewrite filter_cons_False, filter_nil, app_nil_r by congruence.
  - by rewrite filter_cons_True, filter_nil by done.
Qed.

Definition complete_all (ms : list Message) (t : PendingTable) : PendingTable :=
  foldl (fun t m => if is_rtl_response (Type_ (m_header m))
                    then snd (Complete (h_txn_id (m_header m)) m t) else t) t ms.

Lemma IoThreadMain_S n s : IoThreadMain (S n) s = IoThreadMain n (IoIter s).
Proof. unfold IoThreadMain. by rewrite Nat.iter_succ_r. Qed.

Lemma IoThreadMain_deliver_all ms k s rest :
  connected (length ms + k) s -> Forall message_ok ms ->
  Forall (fun m => Type_ (m_header m) <> kShutdown) ms ->
  stream (client_socket_ s) = concat (wire_of <$> ms) ++ rest ->
  let s' := IoThreadMain (length ms) s in
  connected k s' /\ stream (client_socket_ s') = rest /\
  s_wire (client_socket_ s') = s_wire (client_socket_ s) /\
  queue_ (inbound_queue_ s') = queue_ (inbound_queue_ s) ++ filter is_request ms /\
  pending_ s' = complete_all ms (pending_ s).
Proof.
  intros Hcn Hok. revert s Hcn. induction Hok as [|m ms Hm _ IH]; intros s Hcn Hns Hs.
  { cbn. by rewrite app_nil_r. }
  apply Forall_cons in Hns as [Hn Hns]. cbn [fmap list_fmap concat] in Hs.
  rewrite <- app_assoc in Hs.
  destruct (IoIter_deliver _ s m _ Hcn Hm Hn Hs) as (c & E & Hs1 & Hcn1 & Hw1).
  cbn [length]. rewrite IoThreadMain_S, E.
  destruct (IH _ Hcn1 Hns) as (H1 & H2 & Hw & H3 & H4); [done|].
  split_and!; [done|done|by rewrite Hw| |].
  - rewrite H3. change (inbound_queue_ (set_client c (deliver m s))) with
      (inbound_queue_ (deliver m s)). rewrite deliver_queue, <- app_assoc.
    by rewrite <- filter_app.
  - rewrite H4. cbn [complete_all foldl]. unfold complete_all. f_equal.
    unfold deliver. by destruct (is_rtl_response _).
Qed.

(** *** The handshake *)

Lemma HelloAck_writes m s c :
  writable (length (SerializeMessage (HelloAckHeader m) [])) c ->
  Type_ (m_header m) = kHello ->
  exists c', HandleHello m (set_client c s) = (true, set_client c' s) /\
    s_wire c' = s_wire c ++ SerializeMessage (HelloAckHeader m) [] /\
    s_recv c' = s_recv c /\ s_pollin c' = s_pollin c /\ fd_ c' = fd_ c.
Proof.
  intros Hw Ht. unfold HandleHello. rewrite bool_decide_true by done. cbn [negb].
  cbn [client_socket_ set_client].
  destruct (SendAll_writable 0 (SerializeMessage (HelloAckHeader m) []) c Hw)
    as (c' & -> & ? & _ & ? & ? & ?).
  exists c'. by rewrite bool_decide_true.
Qed.

(** The listener's next connection attempt is [c]. *)
Definition next_connection (l : UnixListener) (c : Sock) : Prop :=
  0 <= l_fd l /\ (exists rest, l_poll l = PollReady POLLIN :: rest) /\
  exists rest, l_accept l = AcceptConn c :: rest.

Lemma Accept_next l c :
  next_connection l c -> exists l', Accept l = (kOk, Some c, l').
Proof.
  intros (Hfd & [ps Hp] & [acs Ha]). unfold Accept, PollFor.
  rewrite (proj2 (Z.ltb_ge _ _)) by done. rewrite Hp. simpl. rewrite Ha. by eexists.
Qed.

Lemma IoIter_handshake k s c m rest :
  running_ s = true -> stop_requested_ s = false -> has_client_ s = false ->
  next_connection (listener_ s) c -> readable k c ->
  writable (length (SerializeMessage (HelloAckHeader m) [])) c ->
  message_ok m -> Type_ (m_header m) = kHello -> stream c = wire_of m ++ rest ->
  let s' := IoIter s in
  connected k s' /\ stream (client_socket_ s') = rest /\
  s_wire (client_socket_ s') = s_wire c ++ SerializeMessage (HelloAckHeader m) [] /\
  inbound_queue_ s' = inbound_queue_ s /\ pending_ s' = pending_ s.
Proof.
  intros Hrun Hstop Hc Hl Hr Hw Hm Ht Hs.
  destruct (Accept_next _ _ Hl) as [l' EA].
  destruct (RecvMessage_frame k c m rest Hr Hm Hs) as (c1 & E1 & Hs1 & Hr1 & Hw1 & Hse & Hpo & Hfd).
  destruct (HelloAck_writes m (set_listener l' s) c1) as (c2 & E2 & Hw2 & Hrc & Hpi & Hfd2);
    [by eapply writable_frame|done|].
  assert (E : IoIter s = set_has_client true (set_client c2 (set_listener l' s))).
  { unfold IoIter, io_read. rewrite Hrun, Hstop, Hc, EA. cbn [andb negb].
    cbn [client_socket_ set_client]. rewrite E1.
    change (set_client c1 (set_client c (set_listener l' s))) with
      (set_client c1 (set_listener l' s)). by rewrite E2. }
  cbv zeta. rewrite E. cbn. split_and!.
  - constructor; cbn; try done. by eapply readable_frame.
  - unfold stream in *. by rewrite Hrc.
  - by rewrite Hw2, Hw1.
  - done.
  - done.
Qed.

(** *** Any kernel behaviour *)

Lemma RecvMessage_wire s r s' :
  RecvMessage s = (r, s') -> s_wire s' = s_wire s.
Proof.
  unfold RecvMessage. destruct (RecvAll kHeaderSize s) as [[st b] s1] eqn:E1.
  apply RecvAll_safe in E1 as (_ & _ & _ & _ & _ & Hw & _).
  repeat case_match; intros; inv_all; try done.
  all: match goal with H : RecvAll _ _ = _ |- _ =>
    apply RecvAll_safe in H as (_ & _ & _ & _ & _ & Hw2 & _) end; congruence.
Qed.

Lemma RecvAll_suffix n s st out s' :
  RecvAll n s = (st, out, s') -> stream s' `suffix_of` stream s.
Proof. intros E. apply RecvAll_safe in E as (got & Hs & _). by exists got. Qed.

Lemma RecvMessage_suffix s r s' : RecvMessage s = (r, s') -> stream s' `suffix_of` stream s.
Proof.
  unfold RecvMessage. destruct (RecvAll kHeaderSize s) as [[st b] s1] eqn:E1.
  apply RecvAll_suffix in E1. repeat case_match; intros; inv_all; try done.
  all: etrans; [by eapply RecvAll_suffix|done].
Qed.

Lemma WaitReadable_stream s st s' : WaitReadable s = (st, s') -> stream s' = stream s.
Proof. unfold WaitReadable. destruct (PollFor _ _ _). intros; inv_all. done. Qed.

(** What a handshake attempt can do, whatever the kernel answers. *)
Lemma HandleHello_ok m s s' :
  HandleHello m s = (true, s') ->
  Type_ (m_header m) = kHello /\
  exists c, s' = set_client c s /\ stream c = stream (client_socket_ s) /\
    s_wire c = s_wire (client_socket_ s) ++ SerializeMessage (HelloAckHeader m) [].
Proof.
  unfold HandleHello. case_bool_decide as Ht; [|done]. cbn [negb].
  destruct (SendAll _ _) as [st c] eqn:E. case_bool_decide as Hst; [|by intros].
  intros; inv_all.
  apply SendAll_safe in E as (_ & _ & _ & Hok & _ & Hr & _).
  split; [done|]. exists c. split; [done|]. unfold stream. rewrite Hr.
  split; auto.
Qed.

Lemma HandleHello_frame m s ok s' :
  HandleHello m s = (ok, s') ->
  exists c, s' = set_client c s /\ stream c = stream (client_socket_ s).
Proof.
  unfold HandleHello. case_bool_decide; cbn [negb].
  - destruct (SendAll _ _) as [st c] eqn:E. intros; inv_all. exists c. split; [done|].
    apply SendAll_safe in E as (_ & _ & _ & _ & _ & Hr & _). unfold stream. by rewrite Hr.
  - intros; inv_all. exists (client_socket_ s'). by destruct s'.
Qed.

(** *** What one iteration may do: the contract of the I/O thread *)
Inductive io_spec (s : Server) : Server -> Prop :=
| spec_idle c :
    has_client_ s = true -> stream c = stream (client_socket_ s) ->
    io_spec s (set_client c s)
| spec_message m c :
    has_client_ s = true -> message_ok m -> Type_ (m_header m) <> kShutdown ->
    stream (client_socket_ s) = wire_of m ++ stream c ->
    io_spec s (set_client c (deliver m s))
| spec_shutdown m c :
    has_client_ s = true -> message_ok m -> Type_ (m_header m) = kShutdown ->
    stream (client_socket_ s) = wire_of m ++ stream c ->
    io_spec s (set_has_client false (set_client (Close c)
                 (set_inbound (Push m (inbound_queue_ s)) s)))
| spec_dropped c :
    has_client_ s = true -> stream c `suffix_of` stream (client_socket_ s) ->
    io_spec s (set_has_client false (set_client (Close c) s))
| spec_nobody l st a :
    has_client_ s = false -> Accept (listener_ s) = (st, a, l) -> io_spec s (set_listener l s)
| spec_rejected l st c0 c :
    has_client_ s = false -> Accept (listener_ s) = (st, Some c0, l) ->
    stream c `suffix_of` stream c0 ->
    io_spec s (set_client (Close c) (set_listener l s))
| spec_handshake l st c0 m c :
    has_client_ s = false -> Accept (listener_ s) = (st, Some c0, l) ->
    message_ok m -> Type_ (m_header m) = kHello -> stream c0 = wire_of m ++ stream c ->
    s_wire c = s_wire c0 ++ SerializeMessage (HelloAckHeader m) [] ->
    io_spec s (set_has_client true (set_client c (set_listener l s))).

(** The peer's bytes are bytes, on the current connection and on the next ones. *)
Definition conn_bytes_ok (a : accept_ans) : Prop :=
  match a with AcceptConn c => bytes_ok (stream c) | AcceptFail => True end.
Record peer_bytes (s : Server) : Prop := {
  pb_client : bytes_ok (stream (client_socket_ s));
  pb_next : Forall conn_bytes_ok (l_accept (listener_ s));
}.

Lemma Accept_bytes l st c l' :
  Forall conn_bytes_ok (l_accept l) -> Accept l = (st, Some c, l') -> bytes_ok (stream c).
Proof.
  unfold Accept. destruct (PollFor _ _ _). cbn [l_accept]. case_bool_decide; cbn [negb]; [|done].
  intros Ha E. destruct (l_accept l) as [|[c'|] ?]; simplify_eq.
  by apply Forall_cons in Ha as [? _].
Qed.

Lemma IoIter_connected_spec s :
  peer_bytes s -> has_client_ s = true ->
  running_ s = true -> stop_requested_ s = false -> io_spec s (IoIter s).
Proof.
  intros [Hb _] Hc Hrun Hstop. unfold IoIter, io_read. rewrite Hrun, Hstop, Hc. cbn [andb negb].
  destruct (WaitReadable (client_socket_ s)) as [wait c1] eqn:EW.
  pose proof (WaitReadable_stream _ _ _ EW) as Hs1. rewrite <- Hs1 in Hb.
  destruct wait; [|exact (spec_idle s c1 Hc Hs1)|refine (spec_dropped s c1 Hc _); by rewrite Hs1..].
  cbn [client_socket_ set_client].
  destruct (RecvMessage c1) as [[m|st|e|st] c2] eqn:ER;
    [|refine (spec_dropped s c2 Hc _); rewrite <- Hs1; by eapply RecvMessage_suffix..].
  destruct (RecvMessage_sound _ _ _ Hb ER) as [Hw Hm]. rewrite Hs1 in Hw.
  case_bool_decide as Ht; [exact (spec_shutdown s m c2 Hc Hm Ht Hw)|].
  rewrite deliver_dispatch, deliver_set_client, deliver_set_client.
  exact (spec_message s m c2 Hc Hm Ht Hw).
Qed.

Lemma IoIter_accepting_spec s :
  peer_bytes s -> has_client_ s = false ->
  running_ s = true -> stop_requested_ s = false -> io_spec s (IoIter s).
Proof.
  intros [_ Hb] Hc Hrun Hstop. unfold IoIter, io_read. rewrite Hrun, Hstop, Hc. cbn [andb negb].
  destruct (Accept (listener_ s)) as [[st [c0|]] l] eqn:EA; 
    [|destruct st; exact (spec_nobody s l _ _ Hc EA)].
  destruct st; try exact (spec_nobody s l _ _ Hc EA). cbn [client_socket_ set_client].
  destruct (RecvMessage c0) as [[m|st|e|st] c1] eqn:ER;
    [|exact (spec_rejected s l _ c0 c1 Hc EA (RecvMessage_suffix _ _ _ ER))..].
  pose proof (RecvMessage_sound _ _ _ (Accept_bytes _ _ _ _ Hb EA) ER) as [Hw Hm].
  destruct (HandleHello m _) as [[] s2] eqn:EH; cbn [negb].
  - apply HandleHello_ok in EH as (Ht & c2 & -> & Hs2 & Hw2). cbn [client_socket_ set_client] in *.
    refine (spec_handshake s l _ c0 m c2 Hc EA Hm Ht _ _); [congruence|].
    by rewrite Hw2, (RecvMessage_wire _ _ _ ER).
  - apply HandleHello_frame in EH as (c2 & -> & Hs2).
    refine (spec_rejected s l _ c0 c2 Hc EA _). rewrite Hs2. exact (RecvMessage_suffix _ _ _ ER).
Qed.

Lemma io_spec_frame s s' : io_spec s s' ->
  running_ s' = running_ s /\ stop_requested_ s' = stop_requested_ s /\ txn_gen_ s' = txn_gen_ s.
Proof. destruct 1; cbn; unfold deliver; try destruct (is_rtl_response _); done. Qed.

(** The messages published by [n] undisturbed iterations on one connection. *)
Lemma IoThreadMain_sound n s :
  bytes_ok (stream (client_socket_ s)) -> Forall conn_bytes_ok (l_accept (listener_ s)) ->
  running_ s = true -> stop_requested_ s = false ->
  (forall i, (i <= n)%nat -> has_client_ (IoThreadMain i s) = true) ->
  let s' := IoThreadMain n s in
  exists ms, Forall message_ok ms /\ Forall (fun m => Type_ (m_header m) <> kShutdown) ms /\
    stream (client_socket_ s) = concat (wire_of <$> ms) ++ stream (client_socket_ s') /\
    queue_ (inbound_queue_ s') = queue_ (inbound_queue_ s) ++ filter is_request ms /\
    pending_ s' = complete_all ms (pending_ s).
Proof.
  revert s. induction n as [|n IH]; intros s Hb Ha Hrun Hstop Hcl.
  { exists []. cbn. by rewrite app_nil_r. }
  pose proof (Hcl 0%nat ltac:(lia)) as Hc0. pose proof (Hcl 1%nat ltac:(lia)) as Hc1. cbn in Hc0, Hc1.
  pose proof (IoIter_connected_spec s (Build_peer_bytes _ Hb Ha) Hc0 Hrun Hstop) as Hsp.
  destruct (io_spec_frame _ _ Hsp) as (Hr1 & Hst1 & _).
  assert (Hl : listener_ (IoIter s) = listener_ s).
  { destruct Hsp; try congruence; cbn; try done. unfold deliver. by destruct (is_rtl_response _). }
  assert (Hcl1 : forall i, (i <= n)%nat -> has_client_ (IoThreadMain i (IoIter s)) = true).
  { intros i Hi. rewrite <- IoThreadMain_S. apply Hcl. lia. }
  cbv zeta. rewrite IoThreadMain_S.
  remember (IoIter s) as s1 eqn:Es1. clear Es1.
  destruct Hsp as [c _ Hs|m c _ Hm Hns Hs|m c|c|l|l st c0 c|l st c0 m c]; cbn in Hc1; try congruence.
  - destruct (IH (set_client c s)) as (ms & ? & ? & Hst & Hq & Hp); try done.
    { cbn. congruence. }
    cbn in Hst. exists ms. split_and!; try done. congruence.
  - cbn in Hr1, Hst1, Hl. destruct (IH (set_client c (deliver m s))) as (ms & ? & ? & Hst & Hq & Hp); try done.
    { cbn. rewrite Hs in Hb. by apply Forall_app in Hb as [_ ?]. }
    { cbn. congruence. }
    { cbn. congruence. }
    { cbn. congruence. }
    cbn in Hst. exists (m :: ms). split_and!; [by constructor|by constructor| | |].
    + rewrite Hs, Hst. cbn [fmap list_fmap concat]. by rewrite app_assoc.
    + rewrite Hq. cbn [inbound_queue_ set_client]. rewrite deliver_queue, <- app_assoc, <- filter_app. done.
    + rewrite Hp. cbn [pending_ set_client complete_all foldl]. unfold complete_all. f_equal.
      unfold deliver. by destruct (is_rtl_response _).
Qed.

(** *** Requests to the host *)

Lemma complete_all_snoc ms m t :
  complete_all (ms ++ [m]) t =
  if is_rtl_response (Type_ (m_header m))
  then snd (Complete (h_txn_id (m_header m)) m (complete_all ms t)) else complete_all ms t.
Proof. unfold complete_all. by rewrite foldl_snoc. Qed.

(** The last answer wins; an identifier nobody registered is not added. *)
Lemma complete_all_lookup ms t id :
  complete_all ms t !! id =
  (fun cur => match last (filter (answers id) ms) with Some m => Some m | None => cur end) <$> t !! id.
Proof.
  induction ms as [|m ms IH] using rev_ind; [by cbn; destruct (t !! id)|].
  rewrite complete_all_snoc, filter_app, last_app.
  destruct (is_rtl_response (Type_ (m_header m))) eqn:Hr.
  2:{ rewrite filter_cons_False, filter_nil by (intros [? _]; congruence). exact IH. }
  unfold Complete. destruct (decide (h_txn_id (m_header m) = id)) as [Hid|Hid].
  - rewrite filter_cons_True, filter_nil by done. cbn [last]. rewrite Hid, IH.
    destruct (t !! id); cbn; [by rewrite lookup_insert_eq|by rewrite IH].
  - rewrite filter_cons_False, filter_nil by (intros [_ ?]; congruence). cbn [last].
    destruct (complete_all ms t !! h_txn_id (m_header m)); cbn; [by rewrite lookup_insert_ne|done].
Qed.

(** Completing other identifiers does not see an entry that is about to go. *)
Lemma complete_all_delete ms t id :
  t !! id = None -> delete id (complete_all ms (<[id := None]> t)) = complete_all ms t.
Proof.
  intros Ht. apply map_eq. intros j. destruct (decide (j = id)) as [->|Hj].
  - by rewrite lookup_delete_eq, complete_all_lookup, Ht.
  - by rewrite lookup_delete_ne, !complete_all_lookup, lookup_insert_ne.
Qed.

Lemma WaitFor_spec id t :
  WaitFor id t = (match t !! id with Some (Some m) => Some m | _ => None end, delete id t).
Proof.
  unfold WaitFor, WaitFor_enter, WaitFor_leave, WaitFor_ready.
  destruct (t !! id) as [[m|]|] eqn:E.
  - by rewrite !bool_decide_true.
  - by rewrite bool_decide_true, bool_decide_false by (done || by intros []).
  - by rewrite bool_decide_false, delete_id by (done || by intros []).
Qed.

Lemma WaitFor_ready_fresh id t : WaitFor_ready id (RegisterPending id t) = false.
Proof.
  unfold WaitFor_ready, RegisterPending. rewrite lookup_insert_eq.
  apply bool_decide_false. by intros [].
Qed.

(** [SendRequestToHost] up to the point where it waits. *)
Definition request_frame (rq : HostRequest) (txn_id : Z) : list Z :=
  SerializeMessage (request_header rq txn_id) (rq_payload rq).

Definition awaiting (txn_id : Z) (c : Sock) (s : Server) : Server :=
  set_client c (set_pending (RegisterPending txn_id (pending_ s))
    (set_txn_gen (u64 (txn_gen_ s + 1)) s)).

Lemma SendRequestToHost_sent meanwhile rq s c :
  has_client_ s = true -> rq_expect_response rq = true ->
  SendAll (request_frame rq (txn_gen_ s)) (client_socket_ s) = (kOk, c) ->
  SendRequestToHost meanwhile rq s =
    let s1 := meanwhile (awaiting (txn_gen_ s) c s) in
    (match pending_ s1 !! txn_gen_ s with Some (Some m) => Some m | _ => None end,
     Some (txn_gen_ s), set_pending (delete (txn_gen_ s) (pending_ s1)) s1).
Proof.
  intros Hc He Hs. unfold SendRequestToHost. rewrite Hc, He. cbn [negb Next].
  cbn [client_socket_ set_pending set_txn_gen pending_]. fold (request_frame rq (txn_gen_ s)).
  rewrite Hs, bool_decide_true by done. cbn [negb].
  cbn [pending_ set_client set_pending]. rewrite WaitFor_ready_fresh. by rewrite WaitFor_spec.
Qed.

(** A connected server that has registered and sent is still connected. *)
Lemma awaiting_connected k s id c :
  connected k s -> fd_ c = fd_ (client_socket_ s) -> s_recv c = s_recv (client_socket_ s) ->
  s_pollin c = s_pollin (client_socket_ s) -> connected k (awaiting id c s).
Proof. intros [] ? ? ?. constructor; cbn; try done. by eapply readable_frame. Qed.

(** A finished DMA request has left the table. *)
Lemma request_no_entry meanwhile rq s rsp id s' :
  pending_ s !! txn_gen_ s = None -> rq_expect_response rq = true ->
  SendRequestToHost meanwhile rq s = (rsp, id, s') ->
  (forall txn, id = Some txn -> txn = txn_gen_ s) /\ pending_ s' !! txn_gen_ s = None.
Proof.
  intros Hf He. destruct (has_client_ s) eqn:Hc.
  2:{ unfold SendRequestToHost. rewrite Hc. cbn [negb]. intros; by simplify_eq. }
  destruct (SendAll (request_frame rq (txn_gen_ s)) (client_socket_ s)) as [st c] eqn:ES.
  destruct (decide (st = kOk)) as [->|Hst].
  - rewrite (SendRequestToHost_sent _ _ _ c) by done. cbv zeta. intros; simplify_eq.
    cbn [pending_ set_pending]. split; [by intros ? [= <-]|by rewrite lookup_delete_eq].
  - unfold SendRequestToHost, request_frame in *. rewrite Hc, He. cbn [negb Next client_socket_ set_txn_gen set_pending].
    rewrite ES, bool_decide_false by done. cbn [negb]. intros; simplify_eq.
    cbn [pending_ set_client set_pending set_txn_gen]. rewrite WaitFor_spec. cbn [snd].
    split; [by intros ? [= <-]|by rewrite lookup_delete_eq].
Qed.

(** *** [Stop] *)

Lemma io_apply_all_stopped acts s :
  pending_ s = ∅ -> shutdown_ (inbound_queue_ s) = true ->
  let s' := io_apply_all acts s in
  running_ s' = running_ s /\ shutdown_ (inbound_queue_ s') = true /\ pending_ s' = ∅ /\
  listener_ s' = listener_ s.
Proof.
  revert s. induction acts as [|a acts IH]; intros s Hp Hq; [done|].
  destruct (IH (io_apply a s)) as (H1 & H2 & H3 & H4).
  - destruct a; cbn; try done. unfold Complete. by rewrite Hp, lookup_empty.
  - by destruct a.
  - cbv zeta in *. cbn [io_apply_all foldl]. unfold io_apply_all in *.
    rewrite H1, H4. destruct a; done.
Qed.

Lemma set_running_id b s : running_ s = b -> set_running b s = s.
Proof. destruct s; cbn. by intros ->. Qed.

Lemma Listener_Close_spec l os l' os' :
  Listener_Close l os = (l', os') ->
  l_fd l' < 0 /\ os_open os' ⊆ os_open os /\ (0 <= l_fd l -> l_fd l ∉ os_open os').
Proof.
  unfold Listener_Close. destruct (Z.leb_spec 0 (l_fd l)); intros; inv_all.
  - split; [done|]. case_bool_decide; cbn; set_solver.
  - split_and!; [done|done|lia].
Qed.

(** ** The interface of [Interface], implemented

    Between two calls of the RTL side the I/O thread runs; while a call waits, it
    runs [n] iterations. *)

#[global] Instance server_ops (n : nat) : ServerOps Server := {
  op_poll := PollInbound (IoThreadMain n);
  op_respond := SendResponse;
  op_request := SendRequestToHost (IoThreadMain n);
}.

Record server_inv (s : Server) : Prop := {
  si_peer : peer_bytes s;
  si_queue : Forall (fun m => message_ok m /\ is_request m) (queue_ (inbound_queue_ s));
  si_table : map_Forall (fun id o => forall m, o = Some m -> message_ok m /\ answers id m) (pending_ s);
}.

Lemma Accept_next_ok l st a l' :
  Forall conn_bytes_ok (l_accept l) -> Accept l = (st, a, l') -> Forall conn_bytes_ok (l_accept l').
Proof.
  unfold Accept. destruct (PollFor _ _ _). cbn [l_accept]. intros Ha.
  case_bool_decide; cbn [negb]; [destruct (l_accept l) as [|[c'|] ?] eqn:El|]; intros; inv_all;
    cbn [l_accept]; rewrite ?El; try done; by apply Forall_cons in Ha as [_ ?].
Qed.

Lemma stream_Close c : stream (Close c) = stream c.
Proof. unfold Close. by destruct (0 <=? _). Qed.

Lemma bytes_ok_suffix bs bs' : bs `suffix_of` bs' -> bytes_ok bs' -> bytes_ok bs.
Proof. intros [? ->]. by intros [_ ?]%Forall_app. Qed.

Lemma deliver_inv m c s :
  message_ok m -> server_inv s -> bytes_ok (stream c) -> server_inv (set_client c (deliver m s)).
Proof.
  intros Hm [[_ Hl] Hq Ht] Hb. unfold deliver.
  destruct (is_rtl_response (Type_ (m_header m))) eqn:Hr; (constructor; [by constructor|..]); cbn.
  - done.
  - unfold Complete. destruct (pending_ s !! _) eqn:E; cbn; [|done].
    apply map_Forall_insert_2; [|done]. intros ? [= <-]. done.
  - apply Forall_app. split; [done|]. by apply Forall_singleton.
  - done.
Qed.

Lemma io_spec_inv s s' : io_spec s s' -> server_inv s -> server_inv s'.
Proof.
  intros Hsp Hi. pose proof Hi as [[Hb Ha] Hq Ht].
  destruct Hsp as [c _ Hs|m c _ Hm _ Hs|m c _ Hm Hsd Hs|c _ Hs|l st a _ EA|l st c0 c _ EA Hs|l st c0 m c _ EA Hm _ Hs _].
  - constructor; [constructor; [cbn; congruence|done]|done..].
  - apply deliver_inv; [done..|]. rewrite Hs in Hb. by apply Forall_app in Hb as [_ ?].
  - constructor; [constructor; [cbn|done]|cbn|done].
    + rewrite stream_Close. rewrite Hs in Hb. by apply Forall_app in Hb as [_ ?].
    + apply Forall_app. split; [done|]. apply Forall_singleton. split; [done|]. unfold is_request. by rewrite Hsd.
  - constructor; [constructor; [cbn|done]|done..]. rewrite stream_Close. by eapply bytes_ok_suffix.
  - constructor; [constructor; [done|by eapply Accept_next_ok]|done..].
  - constructor; [constructor; [cbn|by eapply Accept_next_ok]|done..].
    rewrite stream_Close. eapply bytes_ok_suffix; [done|by eapply Accept_bytes].
  - constructor; [constructor; [cbn|by eapply Accept_next_ok]|done..].
    pose proof (Accept_bytes _ _ _ _ Ha EA) as Hb0. rewrite Hs in Hb0. by apply Forall_app in Hb0 as [_ ?].
Qed.

Lemma IoIter_inv s : server_inv s -> server_inv (IoIter s).
Proof.
  intros Hi. destruct (running_ s) eqn:Hr, (stop_requested_ s) eqn:Hs;
    try (unfold IoIter; by rewrite Hr, ?Hs).
  eapply io_spec_inv; [|done]. destruct (has_client_ s) eqn:Hc;
    [apply IoIter_connected_spec|apply IoIter_accepting_spec]; by try apply Hi.
Qed.

Lemma IoThreadMain_inv n s : server_inv s -> server_inv (IoThreadMain n s).
Proof.
  revert s. induction n as [|n IH]; intros s Hi; [done|].
  rewrite IoThreadMain_S. by apply IH, IoIter_inv.
Qed.

Lemma set_inbound_inv q s :
  Forall (fun m => message_ok m /\ is_request m) (queue_ q) ->
  server_inv s -> server_inv (set_inbound q s).
Proof. intros Hq [[? ?] ? ?]. by constructor. Qed.

Lemma PollInbound_inv n s m s' :
  server_inv s -> PollInbound (IoThreadMain n) s = (m, s') ->
  server_inv s' /\ forall x, m = Some x -> message_ok x /\ is_request x.
Proof.
  intros Hi. unfold PollInbound.
  set (s1 := if Pop_ready _ then s else _).
  assert (Hi1 : server_inv s1).
  { unfold s1. destruct (Pop_ready _); [done|by apply IoThreadMain_inv]. }
  clearbody s1. pose proof (si_queue _ Hi1) as Hq. unfold Pop_finish.
  destruct (Pop_ready (inbound_queue_ s1)); cbn [negb];
    [destruct (queue_ (inbound_queue_ s1)) as [|x q] eqn:Eq|]; intros E; inv_all.
  all: (split; [apply set_inbound_inv; [|done]|intros ? ?; inv_all]); rewrite ?Eq; try done.
  all: by apply Forall_cons in Hq as [? ?].
Qed.

Lemma SendAll_stream bs c st c' : SendAll bs c = (st, c') -> stream c' = stream c.
Proof.
  intros E. apply SendAll_safe in E as (_ & _ & _ & _ & _ & Hr & _). unfold stream. by rewrite Hr.
Qed.

Lemma set_client_inv c s :
  stream c = stream (client_socket_ s) -> server_inv s -> server_inv (set_client c s).
Proof. intros Hs [[? ?] ? ?]. constructor; [constructor; [cbn; congruence|done]|done..]. Qed.

Lemma set_pending_inv t s :
  map_Forall (fun id o => forall m, o = Some m -> message_ok m /\ answers id m) t ->
  server_inv s -> server_inv (set_pending t s).
Proof. intros Ht [[? ?] ? ?]. by constructor. Qed.

Lemma SendResponse_inv h p s ok s' :
  server_inv s -> SendResponse h p s = (ok, s') -> server_inv s'.
Proof.
  intros Hi. unfold SendResponse. destruct (has_client_ s); cbn [negb]; [|intros; by inv_all].
  destruct (SendAll _ _) as [st c] eqn:E. intros; inv_all.
  apply set_client_inv; [by eapply SendAll_stream|done].
Qed.

Lemma SendRequestToHost_inv n rq s m id s' :
  server_inv s -> SendRequestToHost (IoThreadMain n) rq s = (m, id, s') ->
  server_inv s' /\
  forall x, m = Some x -> message_ok x /\ exists txn, id = Some txn /\ answers txn x.
Proof.
  intros Hi. unfold SendRequestToHost. destruct (has_client_ s); cbn [negb Next];
    [|intros; inv_all; split; [done|by intros]].
  set (s1 := if rq_expect_response rq then _ else _).
  assert (Hi1 : server_inv s1).
  { assert (server_inv (set_txn_gen (u64 (txn_gen_ s + 1)) s)) by (by destruct Hi as [[] ? ?]).
    unfold s1. destruct (rq_expect_response rq); [|done].
    apply set_pending_inv; [|done]. apply map_Forall_insert_2; [done|]. apply Hi. }
  clearbody s1. destruct (SendAll _ _) as [st c] eqn:E.
  assert (Hi2 : server_inv (set_client c s1)).
  { apply set_client_inv; [by eapply SendAll_stream|done]. }
  case_bool_decide; cbn [negb].
  2:{ intros; inv_all. split; [|by intros]. destruct (rq_expect_response rq); [|done].
      apply set_pending_inv; [|done]. rewrite WaitFor_spec. apply map_Forall_delete, Hi2. }
  destruct (rq_expect_response rq); cbn [negb]; [|intros; inv_all; split; [done|by intros]].
  set (s2 := if WaitFor_ready _ _ then _ else _).
  assert (Hi3 : server_inv s2).
  { unfold s2. destruct (WaitFor_ready _ _); [done|by apply IoThreadMain_inv]. }
  clearbody s2. rewrite WaitFor_spec. intros; inv_all. split.
  - apply set_pending_inv; [|done]. apply map_Forall_delete, Hi3.
  - intros x. case_match eqn:El; [|by intros]. case_match; [|by intros]. subst.
    intros [= <-]. destruct (si_table _ Hi3 _ _ El _ eq_refl). eauto.
Qed.

#[global] Instance server_contract (n : nat) : ServerContract Server (H := server_ops n).
Proof.
  refine {| op_inv := server_inv |}.
  - intros w m w' Hi E. exact (proj1 (PollInbound_inv n _ _ _ Hi E)).
  - intros h p w ok w' Hi E. exact (SendResponse_inv _ _ _ _ _ Hi E).
  - intros rq w m id w' Hi E. exact (proj1 (SendRequestToHost_inv n _ _ _ _ _ Hi E)).
  - intros w m w' Hi E. exact (proj2 (PollInbound_inv n _ _ _ Hi E) _ eq_refl).
  - intros rq w m id w' Hi E. exact (proj2 (SendRequestToHost_inv n _ _ _ _ _ Hi E) _ eq_refl).
Defined.

(** ** Properties *)

(** C9: in-order delivery.  On a connected server whose kernel delivers the
    client's bytes in any splitting, [length ms] iterations of the I/O thread
    consume exactly the messages [ms] (none of them SHUTDOWN): the host's requests
    are appended to the inbound queue in order, the DMA responses complete the
    pending table in order, nothing else changes hands, and the client stays
    connected. *)
Theorem io_thread_delivers ms k s rest :
  connected (length ms + k) s -> Forall message_ok ms ->
  Forall (fun m => Type_ (m_header m) <> kShutdown) ms ->
  stream (client_socket_ s) = concat (wire_of <$> ms) ++ rest ->
  let s' := IoThreadMain (length ms) s in
  connected k s' /\ stream (client_socket_ s') = rest /\
  s_wire (client_socket_ s') = s_wire (client_socket_ s) /\
  queue_ (inbound_queue_ s') = queue_ (inbound_queue_ s) ++ filter is_request ms /\
  pending_ s' = complete_all ms (pending_ s).
Proof. apply IoThreadMain_deliver_all. Qed.

Definition sample_server : Server :=
  mkServer "/tmp/s.sock" true true false no_listener sample_sock 5 Queue_init {[4 := None]}.

Lemma io_thread_delivers_witness :
  let s' := IoThreadMain 1 sample_server in
  connected 0 s' /\ stream (client_socket_ s') = wire_of sample_msg /\
  s_wire (client_socket_ s') = s_wire sample_sock /\
  queue_ (inbound_queue_ s') = [] ++ filter is_request [sample_msg] /\
  pending_ s' = complete_all [sample_msg] {[4 := None]}.
Proof.
  apply (io_thread_delivers [sample_msg] 0 sample_server (wire_of sample_msg)).
  - constructor; try reflexivity. apply sample_sock_readable.
  - repeat constructor; apply sample_msg_ok.
  - repeat constructor. discriminate.
  - vm_compute. reflexivity.
Defined.

(** C15: the I/O thread's contract.  Whatever the kernel answers and whatever the
    peer sends, one iteration of [IoThreadMain] either does nothing, or consumes
    exactly one well-formed frame and routes it to the queue or the pending table,
    or queues a SHUTDOWN and drops the client, or drops the client without
    touching queue and table; without a client it only ever accepts a connection
    whose first message is a HELLO, after writing the matching HELLO_ACK. *)
Theorem io_iteration_refines s :
  peer_bytes s -> running_ s = true -> stop_requested_ s = false -> io_spec s (IoIter s).
Proof.
  intros. destruct (has_client_ s) eqn:Hc;
    [by apply IoIter_connected_spec|by apply IoIter_accepting_spec].
Qed.

Lemma io_iteration_refines_witness : io_spec sample_server (IoIter sample_server).
Proof.
  apply io_iteration_refines; [|reflexivity..].
  constructor; [|constructor].
  apply (bool_decide_unpack _). vm_compute. reflexivity.
Defined.

(** C34: nothing is invented.  As long as the client stays connected, and for any
    kernel behaviour, what [n] iterations have published is exactly what a prefix
    of the received byte stream encodes: the requests in the queue in order, the
    responses in the table, and the rest of the stream still unread. *)
Theorem io_thread_sound n s :
  bytes_ok (stream (client_socket_ s)) -> Forall conn_bytes_ok (l_accept (listener_ s)) ->
  running_ s = true -> stop_requested_ s = false ->
  (forall i, (i <= n)%nat -> has_client_ (IoThreadMain i s) = true) ->
  let s' := IoThreadMain n s in
  exists ms, Forall message_ok ms /\ Forall (fun m => Type_ (m_header m) <> kShutdown) ms /\
    stream (client_socket_ s) = concat (wire_of <$> ms) ++ stream (client_socket_ s') /\
    queue_ (inbound_queue_ s') = queue_ (inbound_queue_ s) ++ filter is_request ms /\
    pending_ s' = complete_all ms (pending_ s).
Proof. apply IoThreadMain_sound. Qed.

Lemma io_thread_sound_witness :
  let s' := IoThreadMain 2 sample_server in
  exists ms, Forall message_ok ms /\ Forall (fun m => Type_ (m_header m) <> kShutdown) ms /\
    stream sample_sock = concat (wire_of <$> ms) ++ stream (client_socket_ s') /\
    queue_ (inbound_queue_ s') = [] ++ filter is_request ms /\
    pending_ s' = complete_all ms {[4 := None]}.
Proof.
  apply (io_thread_sound 2 sample_server); [|constructor|reflexivity..|].
  - apply (bool_decide_unpack _). vm_compute. reflexivity.
  - intros i Hi. destruct i as [|[|[|]]]; [vm_compute; reflexivity..|lia].
Defined.

(** The handshake succeeds.  A running server without a client, whose next
    connection sends a HELLO (in any number of pieces), is connected to it after
    one iteration; the HELLO_ACK on the wire carries the HELLO's transaction id
    and timestamp, and nothing was queued. *)
Theorem handshake_accepts k s c m rest :
  running_ s = true -> stop_requested_ s = false -> has_client_ s = false ->
  next_connection (listener_ s) c -> readable k c ->
  writable (length (SerializeMessage (HelloAckHeader m) [])) c ->
  message_ok m -> Type_ (m_header m) = kHello -> stream c = wire_of m ++ rest ->
  let s' := IoIter s in
  connected k s' /\ stream (client_socket_ s') = rest /\
  s_wire (client_socket_ s') = s_wire c ++ SerializeMessage (HelloAckHeader m) [] /\
  inbound_queue_ s' = inbound_queue_ s /\ pending_ s' = pending_ s.
Proof. apply IoIter_handshake. Qed.

Definition sample_hello : Message :=
  mkMessage (MakeHeader kHello 9 0 0 kSuccess 3 0 kFlagNone 0) [].
(** The HELLO arrives in two pieces; the acknowledgement leaves in 64 sends. *)
Definition sample_conn : Sock :=
  mkSock 7 (replicate 100 (PollReady POLLIN)) (replicate 64 (PollReady POLLOUT))
    [RecvBytes (take 10 (wire_of sample_hello)); RecvFail EINTR;
     RecvBytes (drop 10 (wire_of sample_hello))]
    (replicate 64 (SendTake 1)) [].
Definition sample_listening : Server :=
  mkServer "/tmp/s.sock" true false false
    (mkListener 3 "/tmp/s.sock" [PollReady POLLIN] [AcceptConn sample_conn])
    closed_sock 1 Queue_init ∅.

Lemma handshake_accepts_witness :
  let s' := IoIter sample_listening in
  connected 35 s' /\ stream (client_socket_ s') = [] /\
  s_wire (client_socket_ s') = [] ++ SerializeMessage (HelloAckHeader sample_hello) [] /\
  inbound_queue_ s' = Queue_init /\ pending_ s' = ∅.
Proof.
  apply (handshake_accepts 35 sample_listening sample_conn sample_hello []);
    [reflexivity..| | | | |reflexivity|vm_compute; reflexivity].
  - unfold next_connection. split_and!; [done|by eexists..].
  - constructor.
    + done.
    + apply Forall_replicate. by left.
    + vm_compute. repeat constructor; discriminate.
    + apply Nat.leb_le. vm_compute. reflexivity.
  - constructor.
    + done.
    + apply Forall_replicate. by left.
    + apply Forall_replicate. discriminate.
    + apply Nat.leb_le. vm_compute. reflexivity.
    + apply Nat.leb_le. vm_compute. reflexivity.
  - apply (MakeHeader_frame_ok kHello 9 0 0 kSuccess 3 kFlagNone 0 []);
      [|constructor|vm_compute; congruence].
    repeat split; vm_compute; congruence.
Defined.

(** C4: request and response.  A caller's [SendRequestToHost] on a connected
    server puts exactly one frame, carrying the fresh transaction id, on the wire;
    while it waits, the I/O thread processes the messages [ms]; the call returns
    the last DMA response among them with that id (nothing if there is none), the
    other responses complete their own entries, host requests are queued in
    order, and the table keeps no trace of the call. *)
Theorem request_gets_its_response ms k s rq rest :
  connected (length ms + k) s -> Forall message_ok ms ->
  Forall (fun m => Type_ (m_header m) <> kShutdown) ms ->
  rq_expect_response rq = true -> pending_ s !! txn_gen_ s = None ->
  writable (length (request_frame rq (txn_gen_ s))) (client_socket_ s) ->
  stream (client_socket_ s) = concat (wire_of <$> ms) ++ rest ->
  exists s', SendRequestToHost (IoThreadMain (length ms)) rq s =
      (last (filter (answers (txn_gen_ s)) ms), Some (txn_gen_ s), s') /\
    connected k s' /\ stream (client_socket_ s') = rest /\
    s_wire (client_socket_ s') = s_wire (client_socket_ s) ++ request_frame rq (txn_gen_ s) /\
    queue_ (inbound_queue_ s') = queue_ (inbound_queue_ s) ++ filter is_request ms /\
    pending_ s' = complete_all ms (pending_ s).
Proof.
  intros Hcn Hok Hns He Hfresh Hwr Hs.
  destruct (SendAll_writable 0 (request_frame rq (txn_gen_ s)) _ Hwr)
    as (c & Ec & Hw & _ & Hfd & Hr & Hp).
  rewrite (SendRequestToHost_sent _ _ _ c) by (done || apply Hcn). cbv zeta.
  destruct (IoThreadMain_deliver_all ms k (awaiting (txn_gen_ s) c s) rest)
    as (Hcn' & Hs' & Hw' & Hq & Hpd); [by apply awaiting_connected|done|done| |].
  { cbn. unfold stream. by rewrite Hr. }
  eexists. split; [f_equal; f_equal|].
  - rewrite Hpd. cbn [pending_ awaiting set_client set_pending]. unfold RegisterPending.
    rewrite complete_all_lookup, lookup_insert_eq. cbn. by destruct (last _).
  - split_and!; [|done|by rewrite <- Hw|exact Hq|].
    + destruct Hcn'. by constructor.
    + cbn [pending_ set_pending]. rewrite Hpd. by apply complete_all_delete.
Qed.

(** A response to transaction 5 arriving after a host request, on a socket that
    also takes the request's 64 bytes one at a time. *)
Definition sample_rsp : Message :=
  mkMessage (MakeHeader kDmaReadRsp 5 0 0 kSuccess 8 2 kFlagIsResponse 0) [17; 34].
Definition sample_duplex : Sock :=
  mkSock 3 (replicate 140 (PollReady POLLIN)) (replicate 64 (PollReady POLLOUT))
    [RecvBytes (take 100 (wire_of sample_msg ++ wire_of sample_rsp)); RecvFail EAGAIN;
     RecvBytes (drop 100 (wire_of sample_msg ++ wire_of sample_rsp))]
    (replicate 64 (SendTake 1)) [].
Definition sample_busy : Server :=
  mkServer "/tmp/s.sock" true true false no_listener sample_duplex 5 Queue_init {[4 := None]}.
Definition sample_read : HostRequest := mkHostRequest kDmaReadReq 0x100000 0 [] 2 60 true.

Lemma sample_rsp_ok : message_ok sample_rsp.
Proof.
  apply (MakeHeader_frame_ok kDmaReadRsp 5 0 0 kSuccess 8 kFlagIsResponse 0 [17; 34]).
  - repeat split; vm_compute; congruence.
  - repeat constructor; vm_compute; congruence.
  - vm_compute. congruence.
Qed.

Lemma request_gets_its_response_witness :
  exists s', SendRequestToHost (IoThreadMain 2) sample_read sample_busy =
      (Some sample_rsp, Some 5, s') /\
    connected 0 s' /\ stream (client_socket_ s') = [] /\
    s_wire (client_socket_ s') = request_frame sample_read 5 /\
    queue_ (inbound_queue_ s') = [] ++ filter is_request [sample_msg; sample_rsp] /\
    pending_ s' = complete_all [sample_msg; sample_rsp] {[4 := None]}.
Proof.
  apply (request_gets_its_response [sample_msg; sample_rsp] 0 sample_busy sample_read []).
  - constructor; try reflexivity. constructor.
    + vm_compute. congruence.
    + apply Forall_replicate. by left.
    + vm_compute. repeat constructor; discriminate.
    + apply Nat.leb_le. vm_compute. reflexivity.
  - repeat constructor; apply sample_msg_ok || apply sample_rsp_ok.
  - repeat constructor; discriminate.
  - reflexivity.
  - vm_compute. reflexivity.
  - constructor.
    + vm_compute. congruence.
    + apply Forall_replicate. by left.
    + apply Forall_replicate. discriminate.
    + apply Nat.leb_le. vm_compute. reflexivity.
    + apply Nat.leb_le. vm_compute. reflexivity.
  - vm_compute. reflexivity.
Defined.

(** C36: no request leaks.  Whatever the kernel answers, and whatever happens to
    the object while the caller waits, a finished [SendRequestToHost] leaves no
    entry under its id; without a client it changes nothing at all; and on the
    paths where nothing else runs in between (no client, failed send, no response
    expected) the table is exactly as before. *)
Theorem request_leaves_no_entry meanwhile rq s rsp id s' :
  pending_ s !! txn_gen_ s = None ->
  SendRequestToHost meanwhile rq s = (rsp, id, s') ->
  (has_client_ s = false -> rsp = None /\ id = None /\ s' = s) /\
  (has_client_ s = true -> id = Some (txn_gen_ s) /\
     (rq_expect_response rq = true -> pending_ s' !! txn_gen_ s = None)) /\
  (has_client_ s = true ->
     fst (SendAll (request_frame rq (txn_gen_ s)) (client_socket_ s)) <> kOk \/
     rq_expect_response rq = false -> rsp = None /\ pending_ s' = pending_ s).
Proof.
  intros Hf. destruct (has_client_ s) eqn:Hc.
  2:{ unfold SendRequestToHost. rewrite Hc. cbn [negb]. intros; by inv_all. }
  intros E. split; [done|]. revert E.
  destruct (SendAll (request_frame rq (txn_gen_ s)) (client_socket_ s)) as [st c] eqn:ES.
  destruct (decide (st = kOk)) as [->|Hst]; [destruct (rq_expect_response rq) eqn:He|].
  - rewrite (SendRequestToHost_sent _ _ _ c) by done. cbv zeta. intros; inv_all. cbn [fst pending_ set_pending].
    split; [intros _; split; [done|intros _; by rewrite lookup_delete_eq]|by intros _ [|]].
  - unfold SendRequestToHost, request_frame in *. rewrite Hc, He. cbn [negb Next client_socket_ set_txn_gen].
    rewrite ES, bool_decide_true by done. cbn [negb]. intros; by inv_all.
  - unfold SendRequestToHost, request_frame in *. rewrite Hc. cbn [negb Next].
    destruct (rq_expect_response rq); cbn [client_socket_ set_txn_gen set_pending];
      rewrite ES, bool_decide_false by done; cbn [negb]; intros; inv_all; [|done].
    cbn [pending_ set_client set_pending set_txn_gen]. rewrite WaitFor_spec. cbn [snd].
    unfold RegisterPending. rewrite delete_insert_eq, delete_id by done. done.
Qed.

(** The kernel refuses the very first byte. *)
Definition sample_broken : Server :=
  mkServer "/tmp/s.sock" true true false no_listener
    (mkSock 3 [] [PollReady POLLOUT] [] [SendFail EPIPE] []) 5 Queue_init {[4 := None]}.

Lemma request_leaves_no_entry_witness :
  fst (fst (SendRequestToHost id sample_read sample_broken)) = None /\
  pending_ (snd (SendRequestToHost id sample_read sample_broken)) = {[4 := None]}.
Proof.
  apply (request_leaves_no_entry id sample_read sample_broken _ (Some 5) _).
  - reflexivity.
  - vm_compute. reflexivity.
  - reflexivity.
  - left. vm_compute. discriminate.
Defined.

(** [Stop] with the I/O thread's remaining actions as the only other activity: no
    wait is left, no entry is pending, both objects give up their descriptors, and a
    second [Stop] changes nothing.  ([Concurrency.stop_ends_waits] is about callers
    running at the same time.) *)
Theorem stop_releases_everybody acts s os :
  running_ s = true ->
  let '(s', os') := Stop (io_apply_all acts) s os in
  running_ s' = false /\ Pop_ready (inbound_queue_ s') = true /\
  (forall id, WaitFor_ready id (pending_ s') = true) /\ pending_ s' = ∅ /\
  IsValid (client_socket_ s') = false /\ l_fd (listener_ s') < 0 /\
  os_open os' ⊆ os_open os /\ (0 <= l_fd (listener_ s) -> l_fd (listener_ s) ∉ os_open os') /\
  Stop id s' os' = (s', os').
Proof.
  intros Hrun. unfold Stop. rewrite Hrun. cbn [negb].
  set (s0 := set_pending _ _).
  destruct (io_apply_all_stopped acts s0) as (Hr & Hq & Hp & Hl); [done|done|].
  destruct (Listener_Close (listener_ (io_apply_all acts s0)) os) as [l os1] eqn:EL.
  pose proof (Listener_Close_spec _ _ _ _ EL) as (Hl1 & Ho1 & Hg).
  rewrite Hl in Hg. cbn in Hg. cbn [running_ set_client set_listener inbound_queue_ pending_ client_socket_ listener_].
  split_and!; try done.
  - unfold Pop_ready. rewrite Hq. by destruct (queue_ _).
  - intros id. unfold WaitFor_ready. by rewrite Hp, lookup_empty.
  - unfold IsValid, Close. destruct (Z.leb_spec 0 (fd_ (client_socket_ (io_apply_all acts s0)))); cbn; [done|].
    by apply Z.leb_gt.
  - case_match; [|done]. cbn. set_solver.
  - intros ?. specialize (Hg ltac:(done)). case_match; [|done]. cbn. set_solver.
  - rewrite Hr. cbn [negb]. rewrite set_running_id by done. done.
Qed.

(** A handshake, a pending read and a blocked poll; the I/O thread still completes
    one response and queues one request before it sees the flag. *)
Definition sample_os : OS := mkOS {[3; 7]} ∅ {["/tmp/s.sock"]}.
Definition sample_stopping : Server :=
  mkServer "/tmp/s.sock" true true false (mkListener 3 "/tmp/s.sock" [] []) sample_conn 5
    Queue_init {[4 := None]}.

Lemma stop_releases_everybody_witness :
  running_ (fst (Stop (io_apply_all [APush sample_msg; AComplete sample_rsp]) sample_stopping sample_os))
  = false.
Proof.
  pose proof (stop_releases_everybody [APush sample_msg; AComplete sample_rsp]
                sample_stopping sample_os eq_refl) as H.
  destruct (Stop _ _ _) as [s' os']. exact (proj1 H).
Defined.

(** A response whose sending stops half-way is reported as failed, but the
    connection stays open: the next response follows the fragment on the wire, and
    the peer, reading whole headers, no longer finds it. *)
Definition fragment_server : Server :=
  mkServer "/tmp/s.sock" true true false no_listener
    (mkSock 3 [] [PollReady POLLOUT; PollZero; PollReady POLLOUT] [] [SendTake 10; SendTake 100] [])
    5 Queue_init ∅.
Definition peer_reads (bytes : list Z) : recv_result :=
  fst (RecvMessage (mkSock 4 (replicate 4 (PollReady POLLIN)) [] [RecvBytes bytes] [] [])).

Theorem partial_send_desyncs :
  let h1 := MakeHeader kMmioReadRsp 1 0 0 kSuccess 0 0 kFlagIsResponse 0 in
  let h2 := MakeHeader kMmioReadRsp 2 0 0 kSuccess 0 0 kFlagIsResponse 0 in
  let '(ok1, s1) := SendResponse h1 [] fragment_server in
  let '(ok2, s2) := SendResponse h2 [] s1 in
  ok1 = false /\ ok2 = true /\ HasClient s2 = true /\
  peer_reads (SerializeMessage h2 []) = RecvMsg (mkMessage h2 []) /\
  exists e, peer_reads (s_wire (client_socket_ s2)) = RecvBadHeader e.
Proof. vm_compute. split_and!; try reflexivity. by eexists. Qed.
