(* ===== verification/Endpoint.v ===== *)
(** * [SoftwareEndpointModel]

    Model of the software stand-in for the RTL endpoint in
    [mini-ics/src/server.cpp] (the class compiled into the [mini_ics_server]
    executable and used by its [--demo] mode): an NVMe-like register file behind
    MMIO messages, and the DMA sequence a doorbell starts.  The server is any
    implementation of [ServerOps]. *)
From S2P Require Import Prelude Protocol Socket Framing Interface.
From stdpp Require Import options.
#[local] Open Scope Z_scope.
#[local] Open Scope cxx_scope.

Record Endpoint := mkEndpoint {
  sim_time_ns_ : Z;
  cc_ : Z;
  csts_ : Z;
  asq_ : Z;
  acq_ : Z;
  aqa_ : Z;
  doorbell_rung_ : bool;
}.

Definition Endpoint_init : Endpoint := mkEndpoint 100 0 0 0 0 0 false.

Definition kCapabilities : Z := 1.
Definition kAqaReg : Z := 0x24.
Definition kCcReg : Z := 0x14.
Definition kCstsReg : Z := 0x1C.
Definition kCapReg : Z := 0.
Definition kAsqRegLow : Z := 0x28.
Definition kAcqRegLow : Z := 0x30.
Definition kSq0Doorbell : Z := 0x1000.
Definition kMmioSpaceSize : Z := 64 * 1024.

Definition set_cc_csts (cc csts : Z) (e : Endpoint) : Endpoint :=
  mkEndpoint (sim_time_ns_ e) cc csts (asq_ e) (acq_ e) (aqa_ e) (doorbell_rung_ e).
Definition set_asq (v : Z) (e : Endpoint) : Endpoint :=
  mkEndpoint (sim_time_ns_ e) (cc_ e) (csts_ e) v (acq_ e) (aqa_ e) (doorbell_rung_ e).
Definition set_acq (v : Z) (e : Endpoint) : Endpoint :=
  mkEndpoint (sim_time_ns_ e) (cc_ e) (csts_ e) (asq_ e) v (aqa_ e) (doorbell_rung_ e).
Definition set_aqa (v : Z) (e : Endpoint) : Endpoint :=
  mkEndpoint (sim_time_ns_ e) (cc_ e) (csts_ e) (asq_ e) (acq_ e) v (doorbell_rung_ e).
Definition set_doorbell (b : bool) (e : Endpoint) : Endpoint :=
  mkEndpoint (sim_time_ns_ e) (cc_ e) (csts_ e) (asq_ e) (acq_ e) (aqa_ e) b.
Definition advance (ns : Z) (e : Endpoint) : Endpoint :=
  mkEndpoint (u64 (sim_time_ns_ e + ns)) (cc_ e) (csts_ e) (asq_ e) (acq_ e) (aqa_ e)
    (doorbell_rung_ e).

(** ** Little-endian helpers *)

Definition DecodeU32 (b : list Z) : Z :=
  b !!! 0%nat `|` (b !!! 1%nat << 8) `|` (b !!! 2%nat << 16) `|` (b !!! 3%nat << 24).

Definition DecodeU64 (b : list Z) : Z :=
  foldl (fun v i => v `|` (b !!! i << (8 * Z.of_nat i))) 0 (seq 0 8).

Definition AddrValid (addr len : Z) : bool := u64 (addr + len) <=? kMmioSpaceSize.

(** The payload loop of [HandleMmioRead]: [len] bytes of [wide_value]. *)
Definition read_payload (wide_value : Z) (len : nat) : list Z :=
  (fun i => u8 (wide_value >> (8 * Z.of_nat i))) <$> seq 0 len.

(** ** Register accesses *)

(** The if-chain of [HandleMmioWrite]. *)
Definition write_register (addr len : Z) (payload : list Z) (e : Endpoint) : StatusCode * Endpoint :=
  if negb (AddrValid addr len) then (kErrorInvalidAddress, e)
  else if (addr =? kCcReg) && (len =? 4) then
    let cc := DecodeU32 payload in
    if negb ((cc & 1) =? 0)
    then (kSuccess, set_cc_csts cc (csts_ e `|` 1) e)
    else (kSuccess, set_cc_csts cc (csts_ e & 0xFFFFFFFE) e)
  else if (addr =? kAsqRegLow) && (len =? 8) then (kSuccess, set_asq (DecodeU64 payload) e)
  else if (addr =? kAcqRegLow) && (len =? 8) then (kSuccess, set_acq (DecodeU64 payload) e)
  else if (addr =? kAqaReg) && (len =? 4) then (kSuccess, set_aqa (DecodeU32 payload) e)
  else if (addr =? kSq0Doorbell) && (len =? 4) then (kSuccess, set_doorbell true e)
  else if negb (len =? 4) && negb (len =? 8) then (kErrorBadLength, e)
  else (kErrorInvalidAddress, e).

(** The status and value computed by [HandleMmioRead], and the length it settles on. *)
Definition read_register (addr len : Z) (e : Endpoint) : StatusCode * Z * Z :=
  let '(status, len) :=
    if negb (len =? 1) && negb (len =? 2) && negb (len =? 4) && negb (len =? 8)
    then (kErrorBadLength, 0) else (kSuccess, len) in
  if negb (AddrValid addr len) then (kErrorInvalidAddress, 0, len)
  else if addr =? kCstsReg then (status, csts_ e, len)
  else if addr =? kCcReg then (status, cc_ e, len)
  else if addr =? kAqaReg then (status, aqa_ e, len)
  else if addr =? kCapReg then (status, u32 kCapabilities, len)
  else (kErrorInvalidAddress, 0, len).

(** *** The register model this class stands in for

    The clocked block of [mini-ics/rtl/nvme_register_model.sv], on the same
    registers: the effect of one valid request.  [None]: [rsp_addr_invalid]. *)
Definition MMIO_WINDOW_SIZE : Z := 0x2000.

Definition sv_write (req_addr req_wdata : Z) (e : Endpoint) : option Endpoint :=
  if MMIO_WINDOW_SIZE <=? req_addr then None
  else if req_addr =? 0x14 then
    Some (set_cc_csts (u32 req_wdata)
            (if Z.testbit req_wdata 0 then Z.setbit (csts_ e) 0 else Z.clearbit (csts_ e) 0) e)
  else if req_addr =? 0x24 then Some (set_aqa (u32 req_wdata) e)
  else if req_addr =? 0x28 then Some (set_asq req_wdata e)
  else if req_addr =? 0x30 then Some (set_acq req_wdata e)
  else if req_addr =? 0x1000 then Some (set_doorbell true e)
  else None.

Definition sv_read (req_addr : Z) (e : Endpoint) : option Z :=
  if MMIO_WINDOW_SIZE <=? req_addr then None
  else if req_addr =? 0 then Some 1
  else if req_addr =? 0x14 then Some (cc_ e)
  else if req_addr =? 0x1C then Some (csts_ e)
  else if req_addr =? 0x24 then Some (aqa_ e)
  else if req_addr =? 0x28 then Some (asq_ e)
  else if req_addr =? 0x30 then Some (acq_ e)
  else None.

(** The widths in the address map of its header, in bytes. *)
Definition sv_width (addr : Z) : option Z :=
  if bool_decide (addr ∈ [0x14; 0x1C; 0x24; 0x1000]) then Some 4
  else if bool_decide (addr ∈ [0; 0x28; 0x30]) then Some 8
  else None.

(** The completion entry of [RunDmaSequence]. *)
Definition completion : list Z := (fun i => u8 (0xC0 + Z.of_nat i)) <$> seq 0 16.

Definition dma_read_request (e : Endpoint) : HostRequest :=
  mkHostRequest kDmaReadReq (asq_ e) 0 [] 64 (sim_time_ns_ e) true.
Definition dma_write_request (e : Endpoint) : HostRequest :=
  mkHostRequest kDmaWriteReq (acq_ e) 0 completion (u32 (Z.of_nat (length completion)))
    (sim_time_ns_ e) true.
Definition msix_request (e : Endpoint) : HostRequest :=
  mkHostRequest kMsiX 0 0 [] 0 (sim_time_ns_ e) false.

Definition succeeded (rsp : option Message) : bool :=
  match rsp with
  | None => false
  | Some m => bool_decide (Status (m_header m) = kSuccess)
  end.

Section Endpoint.
Context {W : Type} `{ServerOps W}.
Implicit Types (e : Endpoint) (w : W) (msg : Message).

Definition HandleReset msg e w : Endpoint * W :=
  let e := mkEndpoint (sim_time_ns_ e) 0 0 0 0 0 (doorbell_rung_ e) in
  let rsp := MakeHeader kResetRsp (h_txn_id (m_header msg)) 0 0 kSuccess (sim_time_ns_ e) 0
               kFlagIsResponse 0 in
  let '(_, w) := op_respond rsp [] w in
  (e, w).

Definition RunDmaSequence e w : Endpoint * W :=
  let e := advance 60 e in
  let '(read_rsp, _, w) := op_request (dma_read_request e) w in
  if negb (succeeded read_rsp) then (e, w)
  else
    let e := advance 45 e in
    let '(write_rsp, _, w) := op_request (dma_write_request e) w in
    if negb (succeeded write_rsp) then (e, w)
    else
      let e := advance 30 e in
      let '(_, _, w) := op_request (msix_request e) w in
      (e, w).

Definition HandleMmioWrite msg e w : Endpoint * W :=
  let addr := h_address (m_header msg) in
  let len := u32 (Z.of_nat (length (m_payload msg))) in
  let '(status, e) := write_register addr len (m_payload msg) e in
  let rsp := MakeHeader kMmioWriteRsp (h_txn_id (m_header msg)) addr 0 status (sim_time_ns_ e) 0
               kFlagIsResponse 0 in
  let '(_, w) := op_respond rsp [] w in
  if doorbell_rung_ e then RunDmaSequence (set_doorbell false e) w else (e, w).

Definition HandleMmioRead msg e w : Endpoint * W :=
  let addr := h_address (m_header msg) in
  let len := h_transfer_len (m_header msg) in
  let len := if len =? 0 then u32 (popcountll (h_byte_enable (m_header msg))) else len in
  let '(status, value, len) := read_register addr len e in
  let payload := if bool_decide (status = kSuccess)
                 then read_payload value (Z.to_nat len) else [] in
  let rsp := MakeHeader kMmioReadRsp (h_txn_id (m_header msg)) addr 0 status (sim_time_ns_ e)
               (u32 (Z.of_nat (length payload))) kFlagIsResponse 0 in
  let '(_, w) := op_respond rsp payload w in
  (e, w).

Definition Handle msg e w : Endpoint * W :=
  match Type_ (m_header msg) with
  | kResetReq => HandleReset msg e w
  | kMmioWriteReq => HandleMmioWrite msg e w
  | kMmioReadReq => HandleMmioRead msg e w
  | _ => (e, w)
  end.

(** [Run], at most [fuel] polls; the flag says whether the loop was left. *)
Fixpoint Run_loop (fuel : nat) (persistent : bool) (idle_polls : Z) e w : bool * Endpoint * W :=
  if persistent || (idle_polls <? 200) then
    match fuel with
    | O => (false, e, w)
    | S fuel =>
        let '(msg, w) := op_poll w in
        match msg with
        | None => Run_loop fuel persistent (idle_polls + 1) e w
        | Some msg =>
            let e := advance 15 e in
            if bool_decide (Type_ (m_header msg) = kShutdown) then (true, e, w)
            else
              let '(e, w) := Handle msg e w in
              Run_loop fuel persistent 0 e w
        end
    end
  else (true, e, w).

Definition Run (fuel : nat) (persistent : bool) e w : bool * Endpoint * W :=
  Run_loop fuel persistent 0 e w.
End Endpoint.

(** ** Lemmas *)

Lemma DecodeU32_le b : bytes_ok b -> length b = 4%nat -> DecodeU32 b = le_value b.
Proof.
  intros Hb Hl. destruct b as [|b0 [|b1 [|b2 [|b3 [|]]]]]; try discriminate.
  exact (lor4_le_value b0 b1 b2 b3 Hb).
Qed.

Lemma DecodeU64_le b : bytes_ok b -> length b = 8%nat -> DecodeU64 b = le_value b.
Proof.
  intros Hb Hl. etrans; [exact (foldl_lor_le_value b 0 8 Hb)|]. rewrite read_bytes_slice by lia.
  unfold slice. by rewrite drop_0, take_ge by lia.
Qed.

Lemma read_payload_le v n : read_payload v n = le_bytes n v.
Proof. apply encode_loop_le. Qed.

(** The payload of a received message has the announced 32-bit length. *)
Lemma message_len msg :
  message_ok msg -> u32 (Z.of_nat (length (m_payload msg))) = Z.of_nat (length (m_payload msg)).
Proof.
  intros (Hf & _ & _ & Hl). apply wrap_id. rewrite <- Hl. exact (fits_payload_len _ Hf).
Qed.

Lemma message_bytes msg : message_ok msg -> bytes_ok (m_payload msg).
Proof. by intros (_ & _ & ? & _). Qed.

(** Registers stay within their widths, ready follows enable, and no doorbell is
    left over between messages. *)
Record endpoint_ok (e : Endpoint) : Prop := {
  eo_time : in_width 64 (sim_time_ns_ e);
  eo_cc : in_width 32 (cc_ e);
  eo_asq : in_width 64 (asq_ e);
  eo_acq : in_width 64 (acq_ e);
  eo_aqa : in_width 32 (aqa_ e);
  eo_ready : csts_ e = cc_ e mod 2;
  eo_doorbell : doorbell_rung_ e = false;
}.

Lemma Endpoint_init_ok : endpoint_ok Endpoint_init.
Proof. constructor; cbn; unfold in_width; lia || done. Qed.

Lemma advance_ok ns e : endpoint_ok e -> endpoint_ok (advance ns e).
Proof. intros []. constructor; cbn; auto with width. Qed.

(** [CSTS.RDY] after a write of [CC]. *)
Lemma ready_set x : Z.lor (x mod 2) 1 = 1.
Proof. by rewrite Zmod_odd; destruct (Z.odd x). Qed.

Lemma ready_clear x : Z.land (x mod 2) 0xFFFFFFFE = 0.
Proof. by rewrite Zmod_odd; destruct (Z.odd x). Qed.

(** *** The register map, as a table *)

Inductive wreg := WCc | WAsq | WAcq | WAqa | WDoorbell.
#[global] Instance wreg_eq_dec : EqDecision wreg.
Proof. solve_decision. Defined.

Definition wreg_at (addr len : Z) : option wreg :=
  if decide ((addr, len) = (0x14, 4)) then Some WCc
  else if decide ((addr, len) = (0x28, 8)) then Some WAsq
  else if decide ((addr, len) = (0x30, 8)) then Some WAcq
  else if decide ((addr, len) = (0x24, 4)) then Some WAqa
  else if decide ((addr, len) = (0x1000, 4)) then Some WDoorbell
  else None.

Definition write_spec (r : wreg) (v : Z) (e : Endpoint) : Endpoint :=
  match r with
  | WCc => set_cc_csts v (v mod 2) e
  | WAsq => set_asq v e
  | WAcq => set_acq v e
  | WAqa => set_aqa v e
  | WDoorbell => set_doorbell true e
  end.

Definition rreg_at (addr : Z) (e : Endpoint) : option Z :=
  if decide (addr = 0x1C) then Some (csts_ e)
  else if decide (addr = 0x14) then Some (cc_ e)
  else if decide (addr = 0x24) then Some (aqa_ e)
  else if decide (addr = 0) then Some 1
  else None.

Lemma pair_eqb a b c d : (a =? b) && (c =? d) = bool_decide ((a, c) = (b, d)).
Proof.
  destruct (Z.eqb_spec a b), (Z.eqb_spec c d); cbn; symmetry;
    (apply bool_decide_true; congruence) || (apply bool_decide_false; congruence).
Qed.

Lemma of_nat_eqb n k : (Z.of_nat n =? Z.of_nat k) = (n =? k)%nat.
Proof. destruct (Z.eqb_spec (Z.of_nat n) (Z.of_nat k)), (Nat.eqb_spec n k); done || lia. Qed.

Lemma write_cc p e :
  endpoint_ok e -> bytes_ok p -> length p = 4%nat ->
  (let cc := DecodeU32 p in
   if negb ((cc & 1) =? 0) then (kSuccess, set_cc_csts cc (csts_ e `|` 1) e)
   else (kSuccess, set_cc_csts cc (csts_ e & 0xFFFFFFFE) e))
  = (kSuccess, write_spec WCc (le_value p) e).
Proof.
  intros He Hp Hl. cbv zeta. rewrite DecodeU32_le, land_1, (eo_ready _ He) by done.
  cbn [write_spec]. destruct (Z.eqb_spec (le_value p mod 2) 0) as [E|E]; cbn [negb].
  - by rewrite ready_clear, E.
  - rewrite ready_set. rewrite Zmod_odd in E |- *. by destruct (Z.odd (le_value p)).
Qed.

Lemma write_register_spec addr p e :
  endpoint_ok e -> bytes_ok p ->
  write_register addr (Z.of_nat (length p)) p e =
  match wreg_at addr (Z.of_nat (length p)) with
  | Some r => (kSuccess, write_spec r (le_value p) e)
  | None =>
      (if AddrValid addr (Z.of_nat (length p)) && negb (length p =? 4)%nat && negb (length p =? 8)%nat
       then kErrorBadLength else kErrorInvalidAddress, e)
  end.
Proof.
  intros He Hp. unfold write_register, wreg_at. rewrite !pair_eqb.
  case_decide as E1; [|case_decide as E2; [|case_decide as E3; [|case_decide as E4; [|case_decide as E5]]]].
  - injection E1 as -> E1. rewrite E1. rewrite <- write_cc by (done || lia). done.
  - injection E2 as -> E2. rewrite E2. by rewrite <- DecodeU64_le by (done || lia).
  - injection E3 as -> E3. rewrite E3. by rewrite <- DecodeU64_le by (done || lia).
  - injection E4 as -> E4. rewrite E4. by rewrite <- DecodeU32_le by (done || lia).
  - injection E5 as -> E5. by rewrite E5.
  - rewrite !bool_decide_false by done. rewrite (of_nat_eqb _ 4), (of_nat_eqb _ 8).
    by destruct (AddrValid _ _), (_ =? 4)%nat, (_ =? 8)%nat.
Qed.

(** Accesses that hit a register lie inside the window, although [AddrValid] adds
    modulo 2^64. *)
Lemma wreg_at_window addr len r : wreg_at addr len = Some r -> 0 <= addr /\ addr + len <= kMmioSpaceSize.
Proof. unfold wreg_at, kMmioSpaceSize. repeat case_decide; intros; simplify_eq; lia. Qed.

Lemma le_value_width p : bytes_ok p -> in_width (8 * Z.of_nat (length p)) (le_value p).
Proof.
  intros Hp. unfold in_width. rewrite Z.pow_mul_r by lia. change (2 ^ 8) with 256. by apply le_value_bound.
Qed.

(** The table is the clocked block of the SystemVerilog model. *)
Lemma wreg_at_sv addr len v e :
  endpoint_ok e -> in_width (8 * len) v -> sv_width addr = Some len ->
  sv_write addr v e = (fun r => write_spec r v e) <$> wreg_at addr len.
Proof.
  intros He Hv Hw. unfold sv_width in Hw. case_bool_decide as H4; [|case_bool_decide as H8]; simplify_eq.
  - rewrite !elem_of_cons, elem_of_nil in H4. destruct H4 as [->|[->|[->|[->|[]]]]]; try done.
    + change (Some (set_cc_csts (u32 v) (if Z.testbit v 0 then Z.setbit (csts_ e) 0 else Z.clearbit (csts_ e) 0) e)
              = Some (set_cc_csts v (v mod 2) e)).
      rewrite wrap_id by done. do 2 f_equal. rewrite (eo_ready _ He), Z.bit0_odd, !Zmod_odd.
      by destruct (Z.odd v), (Z.odd (cc_ e)).
    + change (Some (set_aqa (u32 v) e) = Some (set_aqa v e)). by rewrite wrap_id by done.
  - rewrite !elem_of_cons, elem_of_nil in H8. by destruct H8 as [->|[->|[->|[]]]].
Qed.

Lemma wreg_at_width addr len r : wreg_at addr len = Some r -> sv_width addr = Some len.
Proof. unfold wreg_at. repeat case_decide; intros; by simplify_eq. Qed.

Lemma rreg_at_sv addr e : addr <> 0x28 -> addr <> 0x30 -> sv_read addr e = rreg_at addr e.
Proof.
  intros H1 H2. unfold sv_read, rreg_at, MMIO_WINDOW_SIZE.
  repeat match goal with |- context [decide (?a = ?b)] => destruct (decide (a = b)); [by subst|] end.
  rewrite !(proj2 (Z.eqb_neq addr _)) by done. by destruct (_ <=? _).
Qed.

Definition good_len (len : Z) : bool := (len =? 1) || (len =? 2) || (len =? 4) || (len =? 8).

Lemma read_register_spec addr len e :
  endpoint_ok e ->
  read_register addr len e =
  match rreg_at addr e with
  | Some v => if good_len len then (kSuccess, v, len) else (kErrorBadLength, v, 0)
  | None => (kErrorInvalidAddress, 0, if good_len len then len else 0)
  end.
Proof.
  intros He. unfold read_register, rreg_at, good_len.
  destruct (Z.eqb_spec len 1) as [->|]; [|destruct (Z.eqb_spec len 2) as [->|];
    [|destruct (Z.eqb_spec len 4) as [->|]; [|destruct (Z.eqb_spec len 8) as [->|]]]].
  all: cbn [negb andb orb].
  all: case_decide; [by subst|]; case_decide; [by subst|]; case_decide; [by subst|];
    case_decide; [by subst|].
  all: rewrite !(proj2 (Z.eqb_neq addr _)) by done; by destruct (AddrValid _ _).
Qed.

(** *** Calls made while handling a message *)

(** The DMA sequence: read the command, write the completion, raise MSI-X, each
    step only after the previous one succeeded. *)
Inductive dma_calls (e : Endpoint) : list call -> Prop :=
| dma_read_failed r id :
    succeeded r = false ->
    dma_calls e [CRequest (dma_read_request (advance 60 e)) r id]
| dma_write_failed r1 id1 r2 id2 :
    succeeded r1 = true -> succeeded r2 = false ->
    dma_calls e [CRequest (dma_read_request (advance 60 e)) r1 id1;
                 CRequest (dma_write_request (advance 45 (advance 60 e))) r2 id2]
| dma_done r1 id1 r2 id2 r3 id3 :
    succeeded r1 = true -> succeeded r2 = true ->
    dma_calls e [CRequest (dma_read_request (advance 60 e)) r1 id1;
                 CRequest (dma_write_request (advance 45 (advance 60 e))) r2 id2;
                 CRequest (msix_request (advance 30 (advance 45 (advance 60 e)))) r3 id3].

(** The registers of [e'] are those of [e]; time may have advanced. *)
Definition same_registers (e e' : Endpoint) : Prop :=
  e' = mkEndpoint (sim_time_ns_ e') (cc_ e) (csts_ e) (asq_ e) (acq_ e) (aqa_ e) (doorbell_rung_ e).

Definition write_status (addr : Z) (p : list Z) : StatusCode :=
  match wreg_at addr (Z.of_nat (length p)) with
  | Some _ => kSuccess
  | None => if AddrValid addr (Z.of_nat (length p)) && negb (length p =? 4)%nat && negb (length p =? 8)%nat
            then kErrorBadLength else kErrorInvalidAddress
  end.

Definition requested_len (msg : Message) : Z :=
  let len := h_transfer_len (m_header msg) in
  if len =? 0 then u32 (popcountll (h_byte_enable (m_header msg))) else len.

Section Endpoint_facts.
Context {W : Type} `{ServerOps W}.
Implicit Types (e : Endpoint) (w : W) (msg : Message).

Lemma RunDmaSequence_trace e w l : exists e' w' t,
  RunDmaSequence e w = (e', w') /\ RunDmaSequence e (w, l) = (e', (w', l ++ t)) /\
  dma_calls e t /\ same_registers e e' /\ (in_width 64 (sim_time_ns_ e')).
Proof.
  unfold RunDmaSequence. cbn [op_request logged].
  destruct (op_request _ w) as [[r1 id1] w1]. destruct (succeeded r1) eqn:E1; cbn [negb].
  2:{ eexists _, _, _. split_and!; [done..|by constructor|done|]. cbn. auto with width. }
  destruct (op_request _ w1) as [[r2 id2] w2]. destruct (succeeded r2) eqn:E2; cbn [negb].
  2:{ eexists _, _, _. rewrite <- app_assoc. split_and!; [done..|by constructor|done|].
      cbn. auto with width. }
  destruct (op_request _ w2) as [[r3 id3] w3].
  eexists _, _, _. rewrite <- !app_assoc. split_and!; [done..|by constructor|done|].
  cbn. auto with width.
Qed.

Definition read_response msg e : Header * list Z :=
  let '(status, value, len) := read_register (h_address (m_header msg)) (requested_len msg) e in
  let payload := if bool_decide (status = kSuccess) then le_bytes (Z.to_nat len) value else [] in
  (MakeHeader kMmioReadRsp (h_txn_id (m_header msg)) (h_address (m_header msg)) 0 status
     (sim_time_ns_ e) (Z.of_nat (length payload)) kFlagIsResponse 0, payload).

Lemma read_len_small addr len e status value len' :
  endpoint_ok e -> read_register addr len e = (status, value, len') -> 0 <= len' <= 8.
Proof.
  intros He. rewrite read_register_spec by done. unfold good_len.
  destruct (rreg_at addr e), (Z.eqb_spec len 1), (Z.eqb_spec len 2), (Z.eqb_spec len 4),
    (Z.eqb_spec len 8); cbn [orb]; intros; inv_all; lia.
Qed.

Lemma HandleMmioRead_trace msg e w l :
  endpoint_ok e ->
  let '(h, p) := read_response msg e in
  exists ok w', HandleMmioRead msg e w = (e, w') /\
    HandleMmioRead msg e (w, l) = (e, (w', l ++ [CRespond h p ok])).
Proof.
  intros He. unfold HandleMmioRead, read_response. fold (requested_len msg).
  destruct (read_register _ _ e) as [[status value] len] eqn:E.
  apply read_len_small in E; [|done]. rewrite read_payload_le.
  set (p := if bool_decide _ then _ else _).
  assert (Hp : u32 (Z.of_nat (length p)) = Z.of_nat (length p)).
  { apply wrap_id. unfold p, in_width. case_bool_decide; [rewrite length_le_bytes|cbn]; lia. }
  rewrite Hp. cbn [op_respond logged]. destruct (op_respond _ _ w) as [ok w']. eauto.
Qed.

Definition write_response msg e : Header :=
  MakeHeader kMmioWriteRsp (h_txn_id (m_header msg)) (h_address (m_header msg)) 0
    (write_status (h_address (m_header msg)) (m_payload msg)) (sim_time_ns_ e) 0 kFlagIsResponse 0.

(** The register effect of a write, the doorbell aside. *)
Definition written msg e : Endpoint :=
  match wreg_at (h_address (m_header msg)) (Z.of_nat (length (m_payload msg))) with
  | Some WDoorbell | None => e
  | Some r => write_spec r (le_value (m_payload msg)) e
  end.

Definition rings msg : bool :=
  match wreg_at (h_address (m_header msg)) (Z.of_nat (length (m_payload msg))) with
  | Some WDoorbell => true
  | _ => false
  end.

Lemma HandleMmioWrite_trace msg e w l :
  endpoint_ok e -> message_ok msg ->
  exists ok e' w' t, HandleMmioWrite msg e w = (e', w') /\
    HandleMmioWrite msg e (w, l) = (e', (w', l ++ CRespond (write_response msg e) [] ok :: t)) /\
    same_registers (written msg e) e' /\ in_width 64 (sim_time_ns_ e') /\
    (if rings msg then dma_calls e t else t = []).
Proof.
  intros He Hm. unfold HandleMmioWrite. rewrite message_len by done.
  rewrite write_register_spec by (done || by apply message_bytes).
  assert (Ht : forall r, sim_time_ns_ (write_spec r (le_value (m_payload msg)) e) = sim_time_ns_ e)
    by (by destruct r).
  unfold write_response, written, write_status, rings.
  destruct (wreg_at _ _) as [r|] eqn:Er; cbn [op_respond logged].
  2:{ destruct (op_respond _ _ w) as [ok w'].
      rewrite (eo_doorbell _ He). eexists ok, _, _, []. split_and!; [done..| |apply He|done].
      unfold same_registers. by destruct e. }
  rewrite Ht. destruct (op_respond _ _ w) as [ok w'].
  destruct (decide (r = WDoorbell)) as [->|Hr].
  - cbn [write_spec doorbell_rung_ set_doorbell].
    assert (Ee : set_doorbell false (set_doorbell true e) = e).
    { unfold set_doorbell. pose proof (eo_doorbell _ He). destruct e; cbn in *. congruence. }
    rewrite Ee.
    set (l' := l ++ _). destruct (RunDmaSequence_trace e w' l') as (e' & w2 & t & -> & -> & Hd & Hs & Hw).
    unfold l'. rewrite <- app_assoc. eexists ok, _, _, _. split_and!; done.
  - assert (Hdb : doorbell_rung_ (write_spec r (le_value (m_payload msg)) e) = false).
    { destruct r; try done; apply He. }
    rewrite Hdb. eexists ok, _, _, []. destruct r; try done;
      (split_and!; [done..| |apply He|done]); unfold same_registers; by destruct e.
Qed.

(** *** The invariant *)

Lemma same_registers_ok e e' :
  same_registers e e' -> endpoint_ok e -> in_width 64 (sim_time_ns_ e') -> endpoint_ok e'.
Proof. intros -> [] Ht. by constructor. Qed.

Lemma written_ok msg e : endpoint_ok e -> message_ok msg -> endpoint_ok (written msg e).
Proof.
  intros He Hm. unfold written. pose proof (le_value_bound _ (message_bytes _ Hm)) as Hv.
  destruct (wreg_at _ _) as [r|] eqn:Er; [|done]. unfold wreg_at in Er.
  assert (Hw : match r with WAsq | WAcq => in_width 64 (le_value (m_payload msg))
               | _ => in_width 32 (le_value (m_payload msg)) end).
  { repeat case_decide; simplify_eq;
      match goal with E : Z.of_nat (length _) = _ |- _ => rewrite E in Hv end; exact Hv. }
  destruct r, He; constructor; done.
Qed.

Lemma Handle_ok msg e w e' w' :
  endpoint_ok e -> message_ok msg -> Handle msg e w = (e', w') -> endpoint_ok e'.
Proof.
  intros He Hm. unfold Handle. destruct (Type_ (m_header msg)); try (intros; by inv_all).
  - pose proof (HandleMmioRead_trace msg e w [] He) as Ht. destruct (read_response msg e).
    destruct Ht as (ok & w1 & -> & _). intros; by inv_all.
  - destruct (HandleMmioWrite_trace msg e w [] He Hm) as (ok & e1 & w1 & t & -> & _ & Hs & Ht & _).
    intros; inv_all. eapply same_registers_ok; [done|by apply written_ok|done].
  - unfold HandleReset. destruct (op_respond _ _ w). intros; inv_all. destruct He.
    constructor; cbn; auto with width; done.
Qed.
End Endpoint_facts.

(** *** Whole sessions *)

(** The grammar of an endpoint's calls: each poll that yields a host request is
    followed by its answer, and possibly by one DMA sequence, before the next poll. *)
Inductive session : list call -> Prop :=
| session_nil : session []
| session_idle t : session t -> session (t ++ [CPoll None])
| session_ignored t m :
    session t -> response_type (Type_ (m_header m)) = None -> session (t ++ [CPoll (Some m)])
| session_answered t m h p ok rest :
    session t -> answer_to m h p -> (rest = [] \/ exists e, dma_calls e rest) ->
    session (t ++ CPoll (Some m) :: CRespond h p ok :: rest).

Section Endpoint_sessions.
Context {W : Type} `{ServerOps W}.
Implicit Types (e : Endpoint) (w : W) (msg : Message).

Lemma Handle_trace msg e w l :
  endpoint_ok e -> message_ok msg ->
  exists e' w' t, Handle msg e w = (e', w') /\ Handle msg e (w, l) = (e', (w', l ++ t)) /\
    match response_type (Type_ (m_header msg)) with
    | Some _ => exists h p ok rest, t = CRespond h p ok :: rest /\ answer_to msg h p /\
                  (rest = [] \/ dma_calls e rest)
    | None => t = [] /\ e' = e
    end.
Proof.
  intros He Hm. unfold Handle. pose proof Hm as (Hf & _).
  destruct (Type_ (m_header msg)) eqn:Ety; cbn [response_type];
    try (eexists e, w, []; rewrite app_nil_r; done).
  - pose proof (HandleMmioRead_trace msg e w l He) as Ht. unfold read_response in Ht.
    destruct (read_register _ _ e) as [[st v] len] eqn:Er. apply read_len_small in Er; [|done].
    destruct Ht as (ok & w' & -> & ->). eexists e, w', _. split_and!; [done..|].
    eexists _, _, ok, []. split_and!; [done| |by left].
    apply response_answers; try done; try apply Hf; try apply He.
    + by rewrite Ety.
    + case_bool_decide; auto with bytes.
    + case_bool_decide; [rewrite length_le_bytes|cbn]; lia.
  - destruct (HandleMmioWrite_trace msg e w l He Hm) as (ok & e' & w' & t & -> & -> & _ & _ & Ht).
    eexists e', w', _. split_and!; [done..|]. eexists _, [], ok, t. split_and!; [done| |].
    + apply (response_answers msg kMmioWriteRsp _ _ _ []); try done; try apply Hf; try apply He.
      by rewrite Ety.
    + destruct (rings msg); auto.
  - unfold HandleReset. cbn [op_respond logged sim_time_ns_].
    destruct (op_respond _ _ w) as [ok w']. eexists _, w', _. split_and!; [done..|].
    eexists _, [], ok, []. split_and!; [done| |by left].
    apply (response_answers msg kResetRsp _ _ _ []); try done; try apply He. by rewrite Ety.
Qed.

Context {C : ServerContract W}.

Lemma RunDmaSequence_inv e w e' w' : op_inv w -> RunDmaSequence e w = (e', w') -> op_inv w'.
Proof.
  intros Hi. unfold RunDmaSequence.
  destruct (op_request _ w) as [[r1 id1] w1] eqn:E1. apply (inv_request _ _ _ _ _ Hi) in E1.
  destruct (succeeded r1); cbn [negb]; [|intros; by inv_all].
  destruct (op_request _ w1) as [[r2 id2] w2] eqn:E2. apply (inv_request _ _ _ _ _ E1) in E2.
  destruct (succeeded r2); cbn [negb]; [|intros; by inv_all].
  destruct (op_request _ w2) as [[r3 id3] w3] eqn:E3. apply (inv_request _ _ _ _ _ E2) in E3.
  intros; by inv_all.
Qed.

Lemma Handle_inv msg e w e' w' : op_inv w -> Handle msg e w = (e', w') -> op_inv w'.
Proof.
  intros Hi. unfold Handle. destruct (Type_ (m_header msg)); try (intros; by inv_all).
  - unfold HandleMmioRead. destruct (read_register _ _ _) as [[? ?] ?].
    destruct (op_respond _ _ w) eqn:E. intros; inv_all. by eapply inv_respond.
  - unfold HandleMmioWrite. destruct (write_register _ _ _ _) as [? e1].
    destruct (op_respond _ _ w) as [? w1] eqn:E. apply (inv_respond _ _ _ _ _ Hi) in E.
    destruct (doorbell_rung_ e1); [by apply RunDmaSequence_inv|intros; by inv_all].
  - unfold HandleReset. destruct (op_respond _ _ w) eqn:E. intros; inv_all. by eapply inv_respond.
Qed.
End Endpoint_sessions.

Section Endpoint_run.
Context {W : Type} `{ServerContract W}.
Implicit Types (e : Endpoint) (w : W) (msg : Message).

Lemma Run_loop_session fuel persistent idle e w l :
  endpoint_ok e -> op_inv (w, l) -> session l ->
  exists b e' w' l',
    Run_loop fuel persistent idle e w = (b, e', w') /\
    Run_loop fuel persistent idle e (w, l) = (b, e', (w', l')) /\
    endpoint_ok e' /\ op_inv (w', l') /\ session l'.
Proof.
  revert idle e w l. induction fuel as [|fuel IH]; intros idle e w l He Hi Hs; cbn [Run_loop];
    destruct (persistent || (idle <? 200)); try (by eexists _, _, _, _).
  destruct (op_poll (w, l)) as [m wl] eqn:E. pose proof (inv_poll _ _ _ Hi E) as Hi'.
  pose proof E as E'. cbn in E'. destruct (op_poll w) as [m' w1]. inv_all.
  destruct m as [msg|]; [|by apply IH; [..|constructor]].
  pose proof (proj1 (poll_request _ _ _ Hi E)) as Hm.
  pose proof (advance_ok 15 e He) as Ha.
  case_bool_decide as Ht.
  { eexists _, _, _, _. split_and!; [done|done|done|done|]. constructor; [done|]. by rewrite Ht. }
  destruct (Handle_trace msg (advance 15 e) w1 (l ++ [CPoll (Some msg)]) Ha Hm)
    as (e2 & w2 & t & Eu & El & Hr).
  rewrite Eu, El. apply IH; [by eapply Handle_ok|by eapply (Handle_inv msg _ (w1, _))|].
  rewrite <- app_assoc. destruct (response_type _) eqn:Er.
  - destruct Hr as (h & p & ok & rest & -> & Han & Hd). apply session_answered; [done..|].
    destruct Hd; eauto.
  - destruct Hr as [-> _]. by apply session_ignored.
Qed.
End Endpoint_run.

Section Endpoint_termination.
Context {W : Type} `{ServerOps W}.
(** How many more messages the host can send. *)
Variable budget : W -> nat.
Hypothesis budget_poll_some : forall w m w', op_poll w = (Some m, w') -> (budget w' < budget w)%nat.
Hypothesis budget_poll_none : forall w w', op_poll w = (None, w') -> (budget w' <= budget w)%nat.
Hypothesis budget_respond : forall h p w ok w', op_respond h p w = (ok, w') -> (budget w' <= budget w)%nat.
Hypothesis budget_request : forall rq w m id w', op_request rq w = (m, id, w') -> (budget w' <= budget w)%nat.

Lemma RunDmaSequence_budget e w e' w' :
  RunDmaSequence e w = (e', w') -> (budget w' <= budget w)%nat.
Proof using budget_request.
  unfold RunDmaSequence.
  destruct (op_request _ w) as [[r1 id1] w1] eqn:E1. apply budget_request in E1.
  destruct (succeeded r1); cbn [negb]; [|intros; by inv_all].
  destruct (op_request _ w1) as [[r2 id2] w2] eqn:E2. apply budget_request in E2.
  destruct (succeeded r2); cbn [negb]; [|intros; inv_all; lia].
  destruct (op_request _ w2) as [[r3 id3] w3] eqn:E3. apply budget_request in E3.
  intros; inv_all; lia.
Qed.

Lemma Handle_budget msg e w e' w' : Handle msg e w = (e', w') -> (budget w' <= budget w)%nat.
Proof using budget_request budget_respond.
  unfold Handle. destruct (Type_ (m_header msg)); try (intros; by inv_all).
  - unfold HandleMmioRead. destruct (read_register _ _ _) as [[? ?] ?].
    destruct (op_respond _ _ w) eqn:E. intros; inv_all. by eapply budget_respond.
  - unfold HandleMmioWrite. destruct (write_register _ _ _ _) as [? e1].
    destruct (op_respond _ _ w) as [? w1] eqn:E. apply budget_respond in E.
    destruct (doorbell_rung_ e1); [|intros; by inv_all].
    intros ED. apply RunDmaSequence_budget in ED. lia.
  - unfold HandleReset. destruct (op_respond _ _ w) eqn:E. intros; inv_all. by eapply budget_respond.
Qed.

Lemma Run_loop_terminates fuel idle e w :
  0 <= idle <= 200 -> (200 * budget w + Z.to_nat (200 - idle) <= fuel)%nat ->
  fst (fst (Run_loop fuel false idle e w)) = true.
Proof using All.
  revert idle e w. induction fuel as [|fuel IH]; intros idle e w Hi Hf; cbn [Run_loop orb];
    (destruct (Z.ltb_spec idle 200) as [Hl|]; [|done]); [lia|].
  destruct (op_poll w) as [[msg|] w1] eqn:E.
  - apply budget_poll_some in E. case_bool_decide; [done|].
    destruct (Handle msg (advance 15 e) w1) as [e2 w2] eqn:EH. apply Handle_budget in EH.
    apply IH; lia.
  - apply budget_poll_none in E. apply IH; lia.
Qed.
End Endpoint_termination.

(** ** Properties *)

Section Endpoint_props.
Context {W : Type} `{ServerOps W}.
Implicit Types (e : Endpoint) (w : W) (msg : Message).

(** Every host request is answered exactly once.  Whatever the server does,
    handling a RESET, MMIO read or MMIO write makes one [SendResponse] call,
    before any DMA traffic, with the matching response type, the request's
    transaction id and a frame the peer decodes; everything after it is the DMA
    sequence; other messages cause no call and no change. *)
Theorem endpoint_answers_once msg e w l :
  endpoint_ok e -> message_ok msg ->
  exists e' w' t, Handle msg e w = (e', w') /\ Handle msg e (w, l) = (e', (w', l ++ t)) /\
    match response_type (Type_ (m_header msg)) with
    | Some _ => exists h p ok rest, t = CRespond h p ok :: rest /\ answer_to msg h p /\
                  (rest = [] \/ dma_calls e rest)
    | None => t = [] /\ e' = e
    end.
Proof. apply Handle_trace. Qed.

End Endpoint_props.


(** The map lists ASQ and ACQ as readable and the SystemVerilog model answers such
    reads; the software endpoint, described as having the same semantics, refuses
    them. *)
Theorem queue_bases_not_readable e :
  sv_read 0x28 e = Some (asq_ e) /\ sv_read 0x30 e = Some (acq_ e) /\
  fst (fst (read_register 0x28 8 e)) = kErrorInvalidAddress /\
  fst (fst (read_register 0x30 8 e)) = kErrorInvalidAddress.
Proof. done. Qed.

Definition sample_write (addr : Z) (p : list Z) : Message :=
  mkMessage (MakeHeader kMmioWriteReq 6 addr 0 kSuccess 7 (Z.of_nat (length p)) kFlagNone 0) p.
Definition sample_mmio_read (addr len : Z) : Message :=
  mkMessage (MakeHeader kMmioReadReq 7 addr 0 kSuccess 7 0 kFlagNone len) [].

Lemma sample_write_ok : message_ok (sample_write 0x1000 [1; 0; 0; 0]).
Proof.
  apply (MakeHeader_frame_ok kMmioWriteReq 6 0x1000 0 kSuccess 7 kFlagNone 0 [1; 0; 0; 0]).
  - repeat split; vm_compute; congruence.
  - repeat constructor; vm_compute; congruence.
  - vm_compute. congruence.
Qed.

Lemma endpoint_answers_once_witness :
  exists e' w' t,
    Handle (sample_write 0x1000 [1; 0; 0; 0]) Endpoint_init (mkScript [] [] 1) = (e', w') /\
    Handle (sample_write 0x1000 [1; 0; 0; 0]) Endpoint_init (mkScript [] [] 1, []) = (e', (w', [] ++ t)) /\
    exists h p ok rest, t = CRespond h p ok :: rest /\
      answer_to (sample_write 0x1000 [1; 0; 0; 0]) h p /\ (rest = [] \/ dma_calls Endpoint_init rest).
Proof.
  refine (endpoint_answers_once (sample_write 0x1000 [1; 0; 0; 0]) Endpoint_init (mkScript [] [] 1) [] _ _).
  - exact Endpoint_init_ok.
  - exact sample_write_ok.
Defined.

Section Endpoint_props2.
Context {W : Type} `{ServerContract W}.
Implicit Types (e : Endpoint) (w : W) (msg : Message).

(** C8: whole sessions.  On a server that keeps its contract, and however long
    the loop runs, the endpoint's calls follow the protocol: every poll that
    yields a host request is answered, correctly and once, before the next poll,
    and every DMA reply acted upon answered the transaction it was requested
    for; registers keep their widths, CSTS.RDY follows CC.EN, and recording the
    trace does not change the run. *)
Theorem endpoint_session fuel persistent w :
  op_inv w ->
  exists b e' w' l',
    Run fuel persistent Endpoint_init w = (b, e', w') /\
    Run fuel persistent Endpoint_init (w, []) = (b, e', (w', l')) /\
    endpoint_ok e' /\ op_inv w' /\ Forall call_ok l' /\ session l'.
Proof.
  intros Hi.
  destruct (Run_loop_session fuel persistent 0 Endpoint_init w [] Endpoint_init_ok)
    as (b & e' & w' & l' & ? & ? & ? & [? ?] & ?); [by split|by constructor|].
  by eexists b, e', w', l'.
Qed.

(** The doorbell.  A successful write of the SQ0 doorbell is acknowledged
    first and then starts exactly one DMA sequence: read 64 bytes at ASQ; only
    after a successful reply to that very transaction, write the 16-byte
    completion at ACQ; only after that succeeded too, raise MSI-X.  The
    doorbell flag does not survive the message. *)
Theorem doorbell_dma_sequence msg e w :
  endpoint_ok e -> message_ok msg -> op_inv w ->
  Type_ (m_header msg) = kMmioWriteReq -> h_address (m_header msg) = 0x1000 ->
  length (m_payload msg) = 4%nat ->
  exists h ok e' w' t, Handle msg e (w, []) = (e', (w', CRespond h [] ok :: t)) /\
    answer_to msg h [] /\ Status h = kSuccess /\ dma_calls e t /\ Forall call_ok t /\
    same_registers e e' /\ doorbell_rung_ e' = false.
Proof.
  intros He Hm Hi Ht Ha Hl.
  destruct (HandleMmioWrite_trace msg e w [] He Hm) as (ok & e' & w' & t & Eu & El & Hs & Hw & Hd).
  assert (Hr : wreg_at (h_address (m_header msg)) (Z.of_nat (length (m_payload msg))) = Some WDoorbell)
    by (by rewrite Ha, Hl).
  unfold rings, written in *. rewrite Hr in *.
  assert (EH : Handle msg e (w, []) = (e', (w', CRespond (write_response msg e) [] ok :: t))).
  { unfold Handle. by rewrite Ht. }
  pose proof (Handle_inv msg e (w, []) _ _ (conj Hi (Forall_nil_2 _)) EH) as [_ Hok].
  apply Forall_cons in Hok as [_ Hok].
  eexists _, ok, e', w', t. split_and!; try done.
  - apply (response_answers msg kMmioWriteRsp _ _ _ []); try done.
    + by rewrite Ht.
    + by destruct Hm as [Hf _]; apply Hf.
    + apply He.
  - unfold write_response, write_status. by rewrite Hr.
  - rewrite Hs. cbn. apply He.
Qed.
End Endpoint_props2.

Section Endpoint_props3.
Context {W : Type} `{ServerOps W}.
Implicit Types (e : Endpoint) (w : W) (msg : Message).

(** Read after write.  After a 4-byte write of CC or AQA is handled, a read
    of the same register with length [n] returns the [n] low bytes of the value
    written, zero-extended (so a 4-byte read returns the bytes written), and
    after a write of CC a read of CSTS returns the enable bit; both exchanges are
    reported as successful, for every server behaviour. *)
Theorem register_readback wr rd n e w :
  endpoint_ok e -> message_ok wr ->
  Type_ (m_header wr) = kMmioWriteReq -> Type_ (m_header rd) = kMmioReadReq ->
  length (m_payload wr) = 4%nat -> n ∈ [1; 2; 4; 8]%nat -> requested_len rd = Z.of_nat n ->
  forall v,
  (h_address (m_header rd) = h_address (m_header wr) /\
   h_address (m_header wr) ∈ [kCcReg; kAqaReg] /\ v = le_value (m_payload wr)) \/
  (h_address (m_header wr) = kCcReg /\ h_address (m_header rd) = kCstsReg /\
   v = le_value (m_payload wr) mod 2) ->
  exists h1 ok1 h2 ok2 e' w',
    (let '(e1, w1) := Handle wr e (w, []) in Handle rd e1 w1) =
      (e', (w', [CRespond h1 [] ok1; CRespond h2 (le_bytes n v) ok2])) /\
    Status h1 = kSuccess /\ Status h2 = kSuccess.
Proof.
  intros He Hm Htw Htr Hl Hn Hrl v Hv.
  destruct (HandleMmioWrite_trace wr e w [] He Hm) as (ok1 & e1 & w1 & t & Eu & El & Hs & Hw & Hd).
  assert (Hreg : wreg_at (h_address (m_header wr)) (Z.of_nat (length (m_payload wr))) =
                 Some (if decide (h_address (m_header wr) = kCcReg) then WCc else WAqa)).
  { rewrite Hl. destruct Hv as [(_ & Hin & _)|(-> & _)]; [|done].
    apply elem_of_cons in Hin as [->|Hin%list_elem_of_singleton]; [done|by rewrite Hin]. }
  assert (Ht : t = []) by (unfold rings in Hd; rewrite Hreg in Hd; by case_decide).
  assert (He1 : endpoint_ok e1) by (eapply same_registers_ok; [done|by apply written_ok|done]).
  assert (Hval : rreg_at (h_address (m_header rd)) e1 = Some v).
  { rewrite Hs. unfold written. rewrite Hreg. destruct Hv as [(-> & Hin & ->)|(-> & -> & ->)]; [|done].
    apply elem_of_cons in Hin as [->|Hin%list_elem_of_singleton]; [done|by rewrite Hin]. }
  assert (Hg : good_len (Z.of_nat n) = true).
  { apply list_elem_of_In in Hn. cbn in Hn. by destruct Hn as [<-|[<-|[<-|[<-|[]]]]]. }
  unfold Handle. rewrite Htw, Htr, El, Ht. cbn [app].
  pose proof (HandleMmioRead_trace rd e1 w1 [CRespond (write_response wr e) [] ok1] He1) as Hrd.
  unfold read_response in Hrd. rewrite Hrl, read_register_spec, Hval, Hg, bool_decide_true, Nat2Z.id in Hrd
    by done.
  destruct Hrd as (ok2 & w2 & _ & ->).
  eexists _, ok1, _, ok2, e1, w2. split_and!; [done| |done].
  unfold write_response, write_status. by rewrite Hreg.
Qed.
End Endpoint_props3.

Lemma register_readback_witness :
  exists h1 ok1 h2 ok2 e' w',
    (let '(e1, w1) := Handle (sample_write kAqaReg [1; 2; 3; 4]) Endpoint_init (mkScript [] [] 1, []) in
     Handle (sample_mmio_read kAqaReg 2) e1 w1) =
      (e', (w', [CRespond h1 [] ok1; CRespond h2 [1; 2] ok2])) /\
    Status h1 = kSuccess /\ Status h2 = kSuccess.
Proof.
  refine (register_readback (sample_write kAqaReg [1; 2; 3; 4]) (sample_mmio_read kAqaReg 2) 2
            Endpoint_init (mkScript [] [] 1) _ _ _ _ _ _ _ 0x04030201 _).
  - exact Endpoint_init_ok.
  - apply (MakeHeader_frame_ok kMmioWriteReq 6 kAqaReg 0 kSuccess 7 kFlagNone 0 [1; 2; 3; 4]).
    + repeat split; vm_compute; congruence.
    + repeat constructor; vm_compute; congruence.
    + vm_compute. congruence.
  - reflexivity.
  - reflexivity.
  - reflexivity.
  - apply (bool_decide_unpack _). vm_compute. reflexivity.
  - reflexivity.
  - left. split_and!; [reflexivity| |reflexivity]. apply (bool_decide_unpack _). vm_compute. reflexivity.
Defined.

(** C37: the demo loop ends.  In non-persistent mode, against a host that sends at
    most [budget w] more messages, [Run] leaves its loop (by SHUTDOWN or after 200
    idle polls) within 200 polls per message plus 200. *)
Theorem endpoint_run_terminates {W} `{ServerOps W} (budget : W -> nat)
    (Hsome : forall w m w', op_poll w = (Some m, w') -> (budget w' < budget w)%nat)
    (Hnone : forall w w', op_poll w = (None, w') -> (budget w' <= budget w)%nat)
    (Hrsp : forall h p w ok w', op_respond h p w = (ok, w') -> (budget w' <= budget w)%nat)
    (Hreq : forall rq w m id w', op_request rq w = (m, id, w') -> (budget w' <= budget w)%nat)
    fuel e (w : W) :
  (200 * (budget w + 1) <= fuel)%nat -> fst (fst (Run fuel false e w)) = true.
Proof. intros Hf. apply (Run_loop_terminates budget); try done; lia. Qed.

Definition script_budget (w : Script) : nat := length (filter is_Some (sc_polls w)).

Lemma endpoint_run_terminates_witness :
  fst (fst (Run 600 false Endpoint_init
    (mkScript [Some (sample_write 0x1000 [1; 0; 0; 0]); None; Some (sample_mmio_read 0 4)] [] 1))) = true.
Proof.
  apply (endpoint_run_terminates script_budget).
  - intros w m w'. cbn. unfold script_budget. destruct (sc_polls w) as [|[x|] ms]; intros; inv_all.
    cbn [sc_polls]. rewrite filter_cons_True by done. cbn. lia.
  - intros w w'. cbn. unfold script_budget. destruct (sc_polls w) as [|[x|] ms] eqn:E; intros; inv_all.
    + by rewrite E.
    + cbn [sc_polls]. by rewrite filter_cons_False by (by intros []).
  - intros h p w ok w' [= _ <-]. done.
  - intros rq w m id w'. cbn. unfold script_budget. destruct (rq_expect_response rq), (sc_replies w);
      intros; by inv_all.
  - vm_compute. lia.
Defined.
