(* ===== verification/HostClient.v ===== *)
(** * The host side: [HostMemory] and [HostClient]

    Model of [mini-ics/src/host_client.cpp]: the guest-memory substitute, the
    client's state and every step of its demo sequence, over the socket of
    [Socket].  The client is single-threaded; its methods are actions of a state
    monad on the object.  [Log] advances the host clock, so it is an action too;
    the text it prints is not modelled. *)
From S2P Require Import Prelude Protocol Socket Framing Transaction.
From stdpp Require Import options.
#[local] Open Scope Z_scope.
#[local] Open Scope cxx_scope.

(** ** [HostMemory] *)

(** [data_]: its size, and the byte at each index below it. *)
Record HostMemory := mkHostMemory { hm_size : Z; data_ : Z -> Z }.

Definition InitDeterministicPattern (m : HostMemory) : HostMemory :=
  mkHostMemory (hm_size m) (fun i => u8 (u64 (i * 2654435761) >> 24)).

Definition InBoundsLocked (m : HostMemory) (addr len : Z) : bool :=
  if len =? 0 then true
  else if hm_size m <=? addr then false
  else
    let end_ := u64 (addr + len) in
    if end_ <? addr then false else end_ <=? hm_size m.

(** [memcpy(data_.data() + addr, src, len)]. *)
Definition memcpy_in (addr : Z) (src : list Z) (m : HostMemory) : HostMemory :=
  mkHostMemory (hm_size m)
    (fun a => if (addr <=? a) && (a <? addr + Z.of_nat (length src))
              then src !!! Z.to_nat (a - addr) else data_ m a).

Definition memcpy_out (addr : Z) (len : nat) (m : HostMemory) : list Z :=
  (fun i => data_ m (addr + Z.of_nat i)) <$> seq 0 len.

Definition Memory_Write (addr : Z) (src : list Z) (m : HostMemory) : bool * HostMemory :=
  if negb (InBoundsLocked m addr (Z.of_nat (length src))) then (false, m)
  else (true, memcpy_in addr src m).

(** [None]: [Read] returned false and left the destination alone. *)
Definition Memory_Read (addr : Z) (len : nat) (m : HostMemory) : option (list Z) :=
  if negb (InBoundsLocked m addr (Z.of_nat len)) then None
  else Some (memcpy_out addr len m).

(** ** [HostClient] *)

Record HostClient := mkHostClient {
  hc_socket_path_ : string;
  socket_ : Sock;
  memory_ : HostMemory;
  clock_ : Z;
  hc_txn_gen_ : TransactionIdGenerator;
  mock_command_ : list Z;
}.

Definition HostClient_init (path : string) : HostClient :=
  mkHostClient path closed_sock
    (InitDeterministicPattern (mkHostMemory (64 * 1024 * 1024) (fun _ => 0))) 100 1 [].

Definition kControllerConfiguration : Z := 0x14.
Definition kControllerStatus : Z := 0x1C.
Definition kAdminQueueAttributes : Z := 0x24.
Definition kAdminSubmissionQueueBase : Z := 0x28.
Definition kAdminCompletionQueueBase : Z := 0x30.
Definition kSubmissionQueue0Doorbell : Z := 0x1000.
Definition kCcEnable : Z := 1.
Definition kCstsReady : Z := 1.
Definition kMockCommandGuestAddr : Z := 0x00200000.

(** Actions on the client. *)
Definition M (A : Type) : Type := HostClient -> A * HostClient.

Definition ret {A} (x : A) : M A := fun h => (x, h).
Definition bind {A B} (m : M A) (f : A -> M B) : M B :=
  fun h => let '(x, h) := m h in f x h.

Declare Scope client_scope.
Delimit Scope client_scope with client.
#[local] Open Scope client_scope.
Notation "x <- m ;; f" := (bind m (fun x => f))
  (at level 100, m at next level, f at level 200, right associativity) : client_scope.
Notation "m ;;; f" := (bind m (fun _ => f)) (at level 100, f at level 200, right associativity) : client_scope.

(** [if (!m()) return false; ...] *)
Definition and_then (m f : M bool) : M bool :=
  ok <- m ;; if negb ok then ret false else f.
Infix ";&&" := and_then (at level 99, right associativity) : client_scope.

(** [HostClock::NowNs]. *)
Definition NowNs : M Z := fun h =>
  (clock_ h, mkHostClient (hc_socket_path_ h) (socket_ h) (memory_ h) (u64 (clock_ h + 5))
               (hc_txn_gen_ h) (mock_command_ h)).

Definition Log : M unit := _ <- NowNs ;; ret tt.

Definition NextTxn : M Z := fun h =>
  let '(id, g) := Next (hc_txn_gen_ h) in
  (id, mkHostClient (hc_socket_path_ h) (socket_ h) (memory_ h) (clock_ h) g (mock_command_ h)).

Definition with_socket {A} (f : Sock -> A * Sock) : M A := fun h =>
  let '(x, s) := f (socket_ h) in
  (x, mkHostClient (hc_socket_path_ h) s (memory_ h) (clock_ h) (hc_txn_gen_ h) (mock_command_ h)).

Definition with_memory {A} (f : HostMemory -> A * HostMemory) : M A := fun h =>
  let '(x, m) := f (memory_ h) in
  (x, mkHostClient (hc_socket_path_ h) (socket_ h) m (clock_ h) (hc_txn_gen_ h) (mock_command_ h)).

Definition set_mock_command (c : list Z) : M unit := fun h =>
  (tt, mkHostClient (hc_socket_path_ h) (socket_ h) (memory_ h) (clock_ h) (hc_txn_gen_ h) c).

(** *** Connection

    [attempts]: what the kernel answers to each connection attempt made before the
    deadline (at least one is made); [conn]: the connection that is established. *)
Fixpoint Connect_loop (path : string) (attempts : list connect_ans) (out : Z) (os : OS)
  : IoStatus * Z * OS :=
  match attempts with
  | [] => (kIoError, out, os)
  | a :: attempts =>
      let '(st, out, os) := ConnectUnixSocket path a out os in
      if bool_decide (st = kOk) then (st, out, os)
      else match attempts with
           | [] => (st, out, os)
           | _ => Connect_loop path attempts out os
           end
  end.

Definition Connect (attempts : list connect_ans) (conn : Sock) (os : OS) : M bool := fun h =>
  let '(st, fd, _) := Connect_loop (hc_socket_path_ h) attempts (fd_ (socket_ h)) os in
  if negb (bool_decide (st = kOk)) then (Log ;;; ret false) h
  else
    let c := mkSock fd (s_pollin conn) (s_pollout conn) (s_recv conn) (s_send conn) (s_wire conn) in
    (with_socket (fun _ => (tt, c)) ;;; Log ;;; ret true) h.

(** *** Messages *)

Definition ReadMessage : M (option Message) :=
  r <- with_socket RecvMessage ;;
  match r with
  | RecvMsg m => ret (Some m)
  | _ => Log ;;; ret None
  end.

Definition SendRequestAndWait (type : MessageType) (address byte_enable : Z) (payload : list Z)
  : M (option Message) :=
  txn_id <- NextTxn ;;
  now <- NowNs ;;
  let hdr := MakeHeader type txn_id address byte_enable kSuccess now
               (u32 (Z.of_nat (length payload))) kFlagNone 0 in
  st <- with_socket (SendAll (SerializeMessage hdr payload)) ;;
  if negb (bool_decide (st = kOk)) then Log ;;; ret None else ReadMessage.

Definition is_reply (t : MessageType) (rsp : option Message) : bool :=
  match rsp with
  | None => false
  | Some m => bool_decide (Type_ (m_header m) = t) && bool_decide (Status (m_header m) = kSuccess)
  end.

Definition DoHello : M bool :=
  rsp <- SendRequestAndWait kHello 0 0 [] ;;
  match rsp with
  | Some m => if bool_decide (Type_ (m_header m) = kHelloAck) then Log ;;; ret true
              else Log ;;; ret false
  | None => Log ;;; ret false
  end.

Definition DoReset : M bool :=
  rsp <- SendRequestAndWait kResetReq 0 0 [] ;;
  Log ;;; ret (is_reply kResetRsp rsp).

Definition EncodeU32 (v : Z) : list Z := [u8 v; u8 (v >> 8); u8 (v >> 16); u8 (v >> 24)].
Definition EncodeU64 (v : Z) : list Z := (fun i => u8 (v >> (8 * Z.of_nat i))) <$> seq 0 8.

Definition MmioWrite32 (addr value : Z) : M bool :=
  rsp <- SendRequestAndWait kMmioWriteReq addr 0xF (EncodeU32 value) ;;
  Log ;;;
  if negb (is_reply kMmioWriteRsp rsp) then Log ;;; ret false else ret true.

Definition MmioWrite64 (addr value : Z) : M bool :=
  rsp <- SendRequestAndWait kMmioWriteReq addr 0xFF (EncodeU64 value) ;;
  Log ;;;
  if negb (is_reply kMmioWriteRsp rsp) then Log ;;; ret false else ret true.

Definition MmioRead32 (addr : Z) : M (option Z) :=
  rsp <- SendRequestAndWait kMmioReadReq addr 0xF [] ;;
  match rsp with
  | Some m =>
      if negb (is_reply kMmioReadRsp rsp) || (length (m_payload m) <? 4)%nat
      then Log ;;; ret None
      else
        let p := m_payload m in
        let value := p !!! 0%nat `|` (p !!! 1%nat << 8) `|` (p !!! 2%nat << 16) `|` (p !!! 3%nat << 24) in
        Log ;;; ret (Some value)
  | None => Log ;;; ret None
  end.

Definition ConfigureAdminQueues : M bool :=
  MmioWrite64 kAdminSubmissionQueueBase 0x00100000 ;&&
  MmioWrite64 kAdminCompletionQueueBase 0x00101000 ;&&
  MmioWrite32 kAdminQueueAttributes ((0x1F << 16) `|` 0x1F) ;&&
  ret true.

Fixpoint WaitReady (attempts : nat) : M bool :=
  match attempts with
  | O => Log ;;; ret false
  | S attempts =>
      csts <- MmioRead32 kControllerStatus ;;
      match csts with
      | None => ret false
      | Some csts =>
          if negb ((csts & kCstsReady) =? 0) then Log ;;; ret true else WaitReady attempts
      end
  end.

Definition EnableControllerAndWaitReady : M bool :=
  MmioWrite32 kControllerConfiguration kCcEnable ;&& WaitReady 50.

Definition mock_command : list Z := (fun i => u8 (0xA0 + Z.of_nat i)) <$> seq 0 64.

Definition WriteMockNvmeCommand : M bool :=
  set_mock_command mock_command ;;;
  ok <- with_memory (Memory_Write kMockCommandGuestAddr mock_command) ;;
  Log ;;; ret ok.

Definition RingDoorbell : M bool := MmioWrite32 kSubmissionQueue0Doorbell 1.

(** *** Serving the RTL side *)

Definition SendDmaReadResponse (txn_id addr : Z) (data : list Z) (status : StatusCode) : M unit :=
  now <- NowNs ;;
  let hdr := MakeHeader kDmaReadRsp txn_id addr 0 status now (u32 (Z.of_nat (length data)))
               kFlagIsResponse 0 in
  with_socket (SendAll (SerializeMessage hdr data)) ;;; ret tt.

Definition SendDmaWriteResponse (txn_id addr : Z) (status : StatusCode) : M unit :=
  now <- NowNs ;;
  let hdr := MakeHeader kDmaWriteRsp txn_id addr 0 status now 0 kFlagIsResponse 0 in
  with_socket (SendAll (SerializeMessage hdr [])) ;;; ret tt.

(** The local variables of [ServiceRtlInitiatedTransactions]. *)
Record service := mkService {
  saw_dma_read : bool; saw_dma_write : bool; saw_msix : bool; completion_bytes : list Z }.

Definition all_seen (v : service) : bool := saw_dma_read v && saw_dma_write v && saw_msix v.

(** One pass of the [switch]; [None]: [return false]. *)
Definition service_message (msg : Message) (v : service) : M (option service) :=
  let txn_id := h_txn_id (m_header msg) in
  let addr := h_address (m_header msg) in
  match Type_ (m_header msg) with
  | kDmaReadReq =>
      let v := mkService true (saw_dma_write v) (saw_msix v) (completion_bytes v) in
      let len := h_transfer_len (m_header msg) in
      if len =? 0 then SendDmaReadResponse txn_id addr [] kErrorBadLength ;;; ret None
      else
        Log ;;;
        data <- with_memory (fun m => (Memory_Read addr (Z.to_nat len) m, m)) ;;
        match data with
        | None => SendDmaReadResponse txn_id addr [] kErrorOutOfBounds ;;; Log ;;; ret None
        | Some data => SendDmaReadResponse txn_id addr data kSuccess ;;; Log ;;; ret (Some v)
        end
  | kDmaWriteReq =>
      let v := mkService (saw_dma_read v) true (saw_msix v) (completion_bytes v) in
      Log ;;;
      ok <- with_memory (Memory_Write addr (m_payload msg)) ;;
      let status := if ok then kSuccess else kErrorOutOfBounds in
      let v := if ok then mkService (saw_dma_read v) true (saw_msix v) (m_payload msg) else v in
      SendDmaWriteResponse txn_id addr status ;;;
      Log ;;;
      if negb ok then ret None else ret (Some v)
  | kMsiX =>
      Log ;;; ret (Some (mkService (saw_dma_read v) (saw_dma_write v) true (completion_bytes v)))
  | _ => Log ;;; ret (Some v)
  end.

Fixpoint service_loop (n : nat) (v : service) : M (option service) :=
  match n with
  | O => ret (Some v)
  | S n =>
      if all_seen v then ret (Some v)
      else
        msg <- ReadMessage ;;
        match msg with
        | None => Log ;;; ret None
        | Some msg =>
            r <- service_message msg v ;;
            match r with
            | None => ret None
            | Some v => service_loop n v
            end
        end
  end.

Definition expected_completion : list Z := (fun i => u8 (0xC0 + Z.of_nat i)) <$> seq 0 16.

(** The verification loop: byte by byte against [0xC0 + i]. *)
Definition completion_matches (bytes : list Z) : bool :=
  forallb (fun i => bytes !!! i =? u8 (0xC0 + Z.of_nat i)) (seq 0 (length bytes)).

Definition ServiceRtlInitiatedTransactions : M bool :=
  r <- service_loop 3 (mkService false false false []) ;;
  match r with
  | None => ret false
  | Some v =>
      if negb (all_seen v) then Log ;;; ret false
      else if negb (length (completion_bytes v) =? 16)%nat then Log ;;; ret false
      else if negb (completion_matches (completion_bytes v)) then Log ;;; ret false
      else Log ;;; ret true
  end.

Definition SendShutdown : M unit :=
  txn_id <- NextTxn ;;
  now <- NowNs ;;
  let hdr := MakeHeader kShutdown txn_id 0 0 kSuccess now 0 kFlagNone 0 in
  with_socket (SendAll (SerializeMessage hdr [])) ;;; Log.

Definition RunDemo (attempts : list connect_ans) (conn : Sock) (os : OS) : M bool :=
  Connect attempts conn os ;&&
  DoHello ;&&
  DoReset ;&&
  ConfigureAdminQueues ;&&
  EnableControllerAndWaitReady ;&&
  WriteMockNvmeCommand ;&&
  RingDoorbell ;&&
  ServiceRtlInitiatedTransactions ;&&
  (Log ;;; SendShutdown ;;; ret true).

(** ** Lemmas on memory *)

Lemma InBounds_spec m addr len :
  in_width 64 addr -> in_width 64 len -> 0 <= hm_size m < 2 ^ 64 ->
  InBoundsLocked m addr len = true <-> len = 0 \/ addr + len <= hm_size m.
Proof.
  intros [Ha Ha'] [Hl Hl'] Hs. unfold InBoundsLocked. destruct (Z.eqb_spec len 0); [naive_solver|].
  destruct (Z.leb_spec (hm_size m) addr); [split; [done|lia]|]. cbv zeta.
  destruct (decide (addr + len < 2 ^ 64)) as [Hno|Hov].
  - rewrite wrap_id by (unfold in_width; lia). rewrite (proj2 (Z.ltb_ge _ _)) by lia.
    rewrite Z.leb_le. lia.
  - assert (u64 (addr + len) = addr + len - 2 ^ 64) as ->.
    { unfold wrap. rewrite <- (Z_mod_plus _ (-1)) by lia. apply Z.mod_small. lia. }
    rewrite (proj2 (Z.ltb_lt _ _)) by lia. split; [done|lia].
Qed.

Lemma memcpy_out_in addr src m : memcpy_out addr (length src) (memcpy_in addr src m) = src.
Proof.
  unfold memcpy_out. apply list_eq. intros i. rewrite list_lookup_fmap.
  destruct (decide (i < length src)%nat) as [Hi|Hi].
  - rewrite lookup_seq_lt by done. cbn. rewrite (proj2 (Z.leb_le _ _)), (proj2 (Z.ltb_lt _ _)) by lia.
    cbn [andb]. replace (Z.to_nat _) with i by lia. by rewrite list_lookup_lookup_total_lt.
  - by rewrite lookup_seq_ge, lookup_ge_None_2 by lia.
Qed.

Lemma memcpy_out_frame addr src m a n :
  a + Z.of_nat n <= addr \/ addr + Z.of_nat (length src) <= a ->
  memcpy_out a n (memcpy_in addr src m) = memcpy_out a n m.
Proof.
  intros Hd. unfold memcpy_out. apply list_fmap_ext. intros i j Hj.
  apply lookup_seq in Hj as [-> Hi]. cbn [data_ memcpy_in]. rewrite Nat.add_0_l.
  destruct (Z.leb_spec addr (a + Z.of_nat i)); [|done].
  by rewrite (proj2 (Z.ltb_ge _ _)) by lia.
Qed.

Lemma length_memcpy_out a n m : length (memcpy_out a n m) = n.
Proof. unfold memcpy_out. by rewrite length_fmap, length_seq. Qed.

(** ** Conversations

    [talks act st ins outs r st']: from transaction counter and memory [st], over a
    connection on which the messages [ins] arrive next, [act] returns [r], consumes
    exactly [ins], writes exactly the messages [outs] and leaves [st']. *)

Record out_msg := mkOut {
  o_type : MessageType; o_txn : Z; o_addr : Z; o_be : Z; o_status : StatusCode;
  o_flags : Z; o_payload : list Z }.

Definition out_message (ts : Z) (o : out_msg) : Message :=
  mkMessage (MakeHeader (o_type o) (o_txn o) (o_addr o) (o_be o) (o_status o) ts
               (u32 (Z.of_nat (length (o_payload o)))) (o_flags o) 0) (o_payload o).

(** A timestamp for each message. *)
Fixpoint out_wire (tss : list Z) (outs : list out_msg) : list Z :=
  match tss, outs with
  | ts :: tss, o :: outs => wire_of (out_message ts o) ++ out_wire tss outs
  | _, _ => []
  end.

Fixpoint cost (outs : list out_msg) : nat :=
  match outs with [] => 0 | o :: outs => kHeaderSize + length (o_payload o) + cost outs end.

Record chan (n k : nat) (ins : list Message) (rest : list Z) (c : Sock) : Prop := {
  ch_readable : readable k c;
  ch_writable : writable n c;
  ch_stream : stream c = concat (wire_of <$> ins) ++ rest;
}.

Definition hstate : Type := TransactionIdGenerator * HostMemory.

Definition talks {A} (act : M A) (st : hstate) (ins : list Message) (outs : list out_msg)
    (r : A) (st' : hstate) : Prop :=
  forall n k rest more h,
    (hc_txn_gen_ h, memory_ h) = st -> chan (cost outs + n) k (ins ++ more) rest (socket_ h) ->
    exists h', act h = (r, h') /\ (hc_txn_gen_ h', memory_ h') = st' /\
      chan n k more rest (socket_ h') /\
      exists tss, length tss = length outs /\
        s_wire (socket_ h') = s_wire (socket_ h) ++ out_wire tss outs.

Lemma cost_app o1 o2 : cost (o1 ++ o2) = (cost o1 + cost o2)%nat.
Proof. induction o1 as [|o o1 IH]; cbn [app cost]; [done|]. rewrite IH. lia. Qed.

Lemma out_wire_app t1 t2 o1 o2 :
  length t1 = length o1 -> out_wire (t1 ++ t2) (o1 ++ o2) = out_wire t1 o1 ++ out_wire t2 o2.
Proof.
  revert o1. induction t1 as [|t t1 IH]; intros [|o o1]; try discriminate; [done|].
  intros [= Hl]. cbn [app out_wire]. by rewrite IH, app_assoc.
Qed.

Lemma talks_ret {A} (x : A) st : talks (ret x) st [] [] x st.
Proof.
  intros n k rest more h E Hc. exists h. split_and!; [done|done|done|]. exists []. by rewrite app_nil_r.
Qed.

Lemma talks_bind {A B} (m : M A) (f : A -> M B) st1 i1 o1 x st2 i2 o2 y st3 :
  talks m st1 i1 o1 x st2 -> talks (f x) st2 i2 o2 y st3 ->
  talks (bind m f) st1 (i1 ++ i2) (o1 ++ o2) y st3.
Proof.
  intros H1 H2 n k rest more h E Hc. rewrite cost_app, <- Nat.add_assoc, <- app_assoc in Hc.
  destruct (H1 _ _ _ _ _ E Hc) as (h1 & E1 & Est1 & Hc1 & t1 & Hl1 & Hw1).
  destruct (H2 _ _ _ _ _ Est1 Hc1) as (h2 & E2 & Est2 & Hc2 & t2 & Hl2 & Hw2).
  exists h2. unfold bind. rewrite E1. split_and!; [done..|].
  exists (t1 ++ t2). rewrite !length_app, out_wire_app by done.
  split; [lia|]. by rewrite Hw2, Hw1, app_assoc.
Qed.

Lemma talks_and_then (m f : M bool) st1 i1 o1 st2 i2 o2 y st3 :
  talks m st1 i1 o1 true st2 -> talks f st2 i2 o2 y st3 ->
  talks (m ;&& f) st1 (i1 ++ i2) (o1 ++ o2) y st3.
Proof. intros. by eapply talks_bind. Qed.

Lemma talks_Log st : talks Log st [] [] tt st.
Proof.
  intros n k rest more h E Hc. eexists. split_and!; [done|done|done|]. exists []. by rewrite app_nil_r.
Qed.

(** A bind whose second part exchanges nothing. *)
Lemma talks_log_ret {A} (x : A) st : talks (Log ;;; ret x) st [] [] x st.
Proof. eapply (talks_bind Log (fun _ => ret x) st [] [] tt st [] []); [apply talks_Log|apply talks_ret]. Qed.

Lemma talks_bind_silent {A B} (m : M A) (f : A -> M B) st1 ins outs x st2 y st3 :
  talks m st1 ins outs x st2 -> talks (f x) st2 [] [] y st3 ->
  talks (bind m f) st1 ins outs y st3.
Proof.
  intros H1 H2. rewrite <- (app_nil_r ins), <- (app_nil_r outs). by eapply talks_bind.
Qed.

Lemma talks_NextTxn g mem : talks NextTxn (g, mem) [] [] g (u64 (g + 1), mem).
Proof.
  intros n k rest more h [= <- <-] Hc. eexists. split_and!; [done|done|done|].
  exists []. by rewrite app_nil_r.
Qed.

(** Stamp a message with the clock, send it, go on. *)
Lemma talks_send {B} (o : out_msg) (f : IoStatus -> M B) st ins outs y st' :
  talks (f kOk) st ins outs y st' ->
  talks (now <- NowNs ;; r <- with_socket (SendAll (wire_of (out_message now o))) ;; f r)
    st ins (o :: outs) y st'.
Proof.
  intros Hf n k rest more h E [Hr Hw Hs]. cbn [cost] in Hw.
  set (fr := wire_of (out_message (clock_ h) o)).
  assert (Hlen : length fr = (kHeaderSize + length (o_payload o))%nat) by (unfold fr; by rewrite length_wire_of).
  destruct (SendAll_writable (cost outs + n) fr (socket_ h)) as (c1 & E1 & Hw1 & Hwr1 & Hfd & Hrc & Hpi).
  { rewrite Hlen. by replace (cost outs + n + _)%nat with (kHeaderSize + length (o_payload o) + cost outs + n)%nat by lia. }
  unfold bind, NowNs, with_socket. cbn [socket_ clock_ hc_socket_path_ memory_ hc_txn_gen_ mock_command_].
  fold fr. rewrite E1.
  set (h1 := mkHostClient _ c1 _ _ _ _).
  destruct (Hf n k rest more h1) as (h2 & E2 & Est & Hc2 & tss & Hl & Hw2); [done| |].
  { constructor; [by eapply readable_frame|done|]. unfold stream in *. cbn. by rewrite Hrc. }
  exists h2. split_and!; [done..|]. exists (clock_ h :: tss). cbn [length out_wire]. split; [by rewrite Hl|].
  rewrite Hw2. cbn [socket_ h1]. by rewrite Hw1, <- app_assoc.
Qed.

Lemma talks_ReadMessage m st : message_ok m -> talks ReadMessage st [m] [] (Some m) st.
Proof.
  intros Hm n k rest more h E [Hr Hw Hs]. cbn [app fmap list_fmap concat] in Hs.
  rewrite <- app_assoc in Hs.
  destruct (RecvMessage_frame k (socket_ h) m _ Hr Hm Hs) as (c2 & E2 & Hs2 & Hr2 & Hw2 & Hse & Hpo & Hfd2).
  unfold ReadMessage, bind, with_socket. rewrite E2. eexists. split_and!; [done|done| |].
  - constructor; cbn [socket_]; [done|by eapply writable_frame|done].
  - exists []. rewrite app_nil_r. done.
Qed.

Lemma talks_send_request type addr be p g mem m :
  message_ok m ->
  talks (SendRequestAndWait type addr be p) (g, mem) [m]
    [mkOut type g addr be kSuccess kFlagNone p] (Some m) (u64 (g + 1), mem).
Proof.
  intros Hm. eapply (talks_bind NextTxn _ _ [] []); [apply talks_NextTxn|].
  apply (talks_send (mkOut type g addr be kSuccess kFlagNone p)
           (fun st => if negb (bool_decide (st = kOk)) then Log ;;; ret None else ReadMessage)).
  rewrite bool_decide_true by done. by apply talks_ReadMessage.
Qed.

(** *** The steps of the demo *)

Definition reply (t : MessageType) (m : Message) : Prop :=
  message_ok m /\ Type_ (m_header m) = t /\ Status (m_header m) = kSuccess.

Lemma is_reply_true t m : reply t m -> is_reply t (Some m) = true.
Proof. intros (_ & Ht & Hs). cbn. by rewrite !bool_decide_true. Qed.

Lemma talks_DoHello g mem m :
  message_ok m -> Type_ (m_header m) = kHelloAck ->
  talks DoHello (g, mem) [m] [mkOut kHello g 0 0 kSuccess kFlagNone []] true (u64 (g + 1), mem).
Proof.
  intros Hm Ht. eapply talks_bind_silent; [by apply talks_send_request|].
  cbn. rewrite bool_decide_true by done. apply talks_log_ret.
Qed.

Lemma talks_DoReset g mem m :
  reply kResetRsp m ->
  talks DoReset (g, mem) [m] [mkOut kResetReq g 0 0 kSuccess kFlagNone []] true (u64 (g + 1), mem).
Proof.
  intros Hm. eapply talks_bind_silent; [by apply talks_send_request, Hm|].
  cbn beta. rewrite is_reply_true by done. apply talks_log_ret.
Qed.

Lemma talks_MmioWrite32 addr v g mem m :
  reply kMmioWriteRsp m ->
  talks (MmioWrite32 addr v) (g, mem) [m]
    [mkOut kMmioWriteReq g addr 0xF kSuccess kFlagNone (EncodeU32 v)] true (u64 (g + 1), mem).
Proof.
  intros Hm. eapply talks_bind_silent; [by apply talks_send_request, Hm|].
  cbn beta. rewrite is_reply_true by done. apply talks_log_ret.
Qed.

Lemma talks_MmioWrite64 addr v g mem m :
  reply kMmioWriteRsp m ->
  talks (MmioWrite64 addr v) (g, mem) [m]
    [mkOut kMmioWriteReq g addr 0xFF kSuccess kFlagNone (EncodeU64 v)] true (u64 (g + 1), mem).
Proof.
  intros Hm. eapply talks_bind_silent; [by apply talks_send_request, Hm|].
  cbn beta. rewrite is_reply_true by done. apply talks_log_ret.
Qed.

(** A read reply carrying the value [v]. *)
Definition read_reply (v : Z) (m : Message) : Prop :=
  reply kMmioReadRsp m /\ (4 <= length (m_payload m))%nat /\ v = le_value (take 4 (m_payload m)).

Lemma talks_MmioRead32 addr v g mem m :
  read_reply v m ->
  talks (MmioRead32 addr) (g, mem) [m]
    [mkOut kMmioReadReq g addr 0xF kSuccess kFlagNone []] (Some v) (u64 (g + 1), mem).
Proof.
  intros (Hm & Hl & ->). eapply talks_bind_silent; [by apply talks_send_request, Hm|].
  cbn beta iota. rewrite is_reply_true by done. rewrite (proj2 (Nat.ltb_ge _ _)) by done. cbn [negb orb].
  assert (Hb : bytes_ok (m_payload m)) by (by destruct Hm as ((_ & _ & ? & _) & _)).
  destruct (m_payload m) as [|b0 [|b1 [|b2 [|b3 r]]]]; cbn in Hl; try lia.
  change (take 4 (b0 :: b1 :: b2 :: b3 :: r)) with [b0; b1; b2; b3].
  rewrite <- (lor4_le_value b0 b1 b2 b3) by (exact (Forall_take _ 4 _ Hb)). apply talks_log_ret.
Qed.

(** The transaction counter after [n] requests, and [n] reads of CSTS. *)
Fixpoint bump (n : nat) (g : Z) : Z := match n with O => g | S n => bump n (u64 (g + 1)) end.
Fixpoint csts_reads (n : nat) (g : Z) : list out_msg :=
  match n with
  | O => []
  | S n => mkOut kMmioReadReq g kControllerStatus 0xF kSuccess kFlagNone [] :: csts_reads n (u64 (g + 1))
  end.

Lemma talks_WaitReady attempts g mem ms v m :
  Forall (fun y => exists x, read_reply x y /\ x mod 2 = 0) ms -> read_reply v m -> v mod 2 <> 0 ->
  (length ms < attempts)%nat ->
  talks (WaitReady attempts) (g, mem) (ms ++ [m]) (csts_reads (S (length ms)) g) true
    (bump (S (length ms)) g, mem).
Proof.
  intros Hms Hm Hv. revert attempts g. induction Hms as [|y ms (x & Hy & Hx) _ IH];
    intros [|attempts] g Ha; cbn [length] in Ha; try lia.
  - eapply talks_bind_silent; [by apply talks_MmioRead32|]. cbn beta iota.
    unfold kCstsReady. rewrite land_1, (proj2 (Z.eqb_neq _ _)) by done. apply talks_log_ret.
  - eapply (talks_bind _ _ _ [y] [_]); [by apply talks_MmioRead32|]. cbn beta iota.
    unfold kCstsReady. rewrite land_1, Hx. cbn [Z.eqb negb]. apply IH. lia.
Qed.

Lemma talks_memory {A} (f : HostMemory -> A * HostMemory) g mem x mem' :
  f mem = (x, mem') -> talks (with_memory f) (g, mem) [] [] x (g, mem').
Proof.
  intros Hf n k rest more h [= Hg Hmem] Hc. unfold with_memory. rewrite Hmem, Hf.
  eexists. split_and!; [done|cbn; congruence|done|]. exists []. by rewrite app_nil_r.
Qed.

Lemma talks_set_mock c st : talks (set_mock_command c) st [] [] tt st.
Proof.
  intros n k rest more h E Hc. eexists. split_and!; [done|done|done|]. exists []. by rewrite app_nil_r.
Qed.

Lemma talks_silent {A B} (m : M A) (f : A -> M B) st1 x st2 ins outs y st3 :
  talks m st1 [] [] x st2 -> talks (f x) st2 ins outs y st3 -> talks (bind m f) st1 ins outs y st3.
Proof. apply (talks_bind m f st1 [] []). Qed.

Lemma talks_WriteMockNvmeCommand g mem :
  0x00200040 <= hm_size mem < 2 ^ 64 ->
  talks WriteMockNvmeCommand (g, mem) [] [] true (g, memcpy_in kMockCommandGuestAddr mock_command mem).
Proof.
  intros Hs. eapply talks_silent; [apply talks_set_mock|].
  eapply talks_silent; [|apply talks_log_ret]. apply talks_memory.
  unfold Memory_Write. replace (InBoundsLocked _ _ _) with true; [done|]. symmetry.
  apply InBounds_spec; [unfold in_width, kMockCommandGuestAddr; lia|cbn; unfold in_width; lia|lia|].
  right. unfold kMockCommandGuestAddr. cbn. lia.
Qed.

(** *** Serving the endpoint's DMA *)

(** [msg] is an RTL-initiated request that succeeds on memory [mem], leaving [mem'];
    [outs] is what the host sends back. *)
Inductive served (mem : HostMemory) (msg : Message) : list out_msg -> HostMemory -> Prop :=
| served_read data :
    Type_ (m_header msg) = kDmaReadReq -> h_transfer_len (m_header msg) <> 0 ->
    Memory_Read (h_address (m_header msg)) (Z.to_nat (h_transfer_len (m_header msg))) mem = Some data ->
    served mem msg
      [mkOut kDmaReadRsp (h_txn_id (m_header msg)) (h_address (m_header msg)) 0 kSuccess
         kFlagIsResponse data] mem
| served_write mem' :
    Type_ (m_header msg) = kDmaWriteReq ->
    Memory_Write (h_address (m_header msg)) (m_payload msg) mem = (true, mem') ->
    served mem msg
      [mkOut kDmaWriteRsp (h_txn_id (m_header msg)) (h_address (m_header msg)) 0 kSuccess
         kFlagIsResponse []] mem'
| served_msix :
    Type_ (m_header msg) = kMsiX -> served mem msg [] mem.

Definition serve_flags (msg : Message) (v : service) : service :=
  match Type_ (m_header msg) with
  | kDmaReadReq => mkService true (saw_dma_write v) (saw_msix v) (completion_bytes v)
  | kDmaWriteReq => mkService (saw_dma_read v) true (saw_msix v) (m_payload msg)
  | kMsiX => mkService (saw_dma_read v) (saw_dma_write v) true (completion_bytes v)
  | _ => v
  end.

Lemma talks_service_message g mem msg v outs mem' :
  served mem msg outs mem' ->
  talks (service_message msg v) (g, mem) [] outs (Some (serve_flags msg v)) (g, mem').
Proof.
  unfold service_message, serve_flags. destruct 1 as [data Ht Hl Hr|mem' Ht Hw|Ht]; rewrite Ht.
  - rewrite (proj2 (Z.eqb_neq _ _)) by done.
    eapply talks_silent; [apply talks_Log|]. eapply talks_silent; [apply talks_memory; by rewrite Hr|].
    cbn beta iota. eapply talks_bind_silent; [|apply talks_log_ret].
    apply (talks_send (mkOut kDmaReadRsp _ _ 0 kSuccess kFlagIsResponse data) (fun _ => ret tt)).
    apply talks_ret.
  - eapply talks_silent; [apply talks_Log|]. eapply talks_silent; [by apply talks_memory|].
    cbn beta iota. eapply talks_bind_silent; [|apply talks_log_ret].
    apply (talks_send (mkOut kDmaWriteRsp _ _ 0 kSuccess kFlagIsResponse []) (fun _ => ret tt)).
    apply talks_ret.
  - apply talks_log_ret.
Qed.

Lemma talks_Service g mem rd wr mx o1 o2 mem' :
  message_ok rd -> message_ok wr -> message_ok mx ->
  Type_ (m_header rd) = kDmaReadReq -> Type_ (m_header wr) = kDmaWriteReq ->
  Type_ (m_header mx) = kMsiX -> m_payload wr = expected_completion ->
  served mem rd o1 mem -> served mem wr o2 mem' ->
  talks ServiceRtlInitiatedTransactions (g, mem) [rd; wr; mx] (o1 ++ o2) true (g, mem').
Proof.
  intros Hr Hw Hx Tr Tw Tx Hp Sr Sw. unfold ServiceRtlInitiatedTransactions.
  eapply (talks_bind_silent _ _ _ _ _ (Some (mkService true true true expected_completion)));
    [|apply talks_log_ret].
  assert (Hf : forall v, serve_flags rd v = mkService true (saw_dma_write v) (saw_msix v) (completion_bytes v))
    by (intros; unfold serve_flags; by rewrite Tr).
  assert (Hg : forall v, serve_flags wr v = mkService (saw_dma_read v) true (saw_msix v) expected_completion)
    by (intros; unfold serve_flags; by rewrite Tw, Hp).
  assert (Hh : forall v, serve_flags mx v = mkService (saw_dma_read v) (saw_dma_write v) true (completion_bytes v))
    by (intros; unfold serve_flags; by rewrite Tx).
  cbn [service_loop all_seen saw_dma_read saw_dma_write saw_msix andb].
  eapply (talks_bind _ _ _ [rd] [] _ _ [wr; mx]); [by apply talks_ReadMessage|]. cbn beta iota.
  eapply (talks_bind _ _ _ [] o1 _ _ [wr; mx]); [by apply talks_service_message|].
  rewrite Hf. cbn [service_loop all_seen saw_dma_read saw_dma_write saw_msix completion_bytes andb].
  eapply (talks_bind _ _ _ [wr] [] _ _ [mx]); [by apply talks_ReadMessage|]. cbn beta iota.
  rewrite <- (app_nil_r o2).
  eapply (talks_bind _ _ _ [] o2 _ _ [mx] []); [by apply talks_service_message|].
  rewrite Hg. cbn [service_loop all_seen saw_dma_read saw_dma_write saw_msix completion_bytes andb].
  eapply (talks_bind _ _ _ [mx] [] _ _ [] []); [by apply talks_ReadMessage|]. cbn beta iota.
  eapply (talks_bind _ _ _ [] [] _ _ [] []); [by apply talks_service_message, served_msix|].
  rewrite Hh. apply talks_ret.
Qed.

(** Everything the client sends in a demo that succeeds: [nr] reads of CSTS found
    the controller not ready yet, the endpoint read [data]. *)
Definition demo_outs (g : Z) (nr : nat) (o1 o2 : list out_msg) : list out_msg :=
  let req t addr be p i := mkOut t (bump i g) addr be kSuccess kFlagNone p in
  [req kHello 0 0 [] 0%nat; req kResetReq 0 0 [] 1%nat;
   req kMmioWriteReq kAdminSubmissionQueueBase 0xFF (le_bytes 8 0x100000) 2%nat;
   req kMmioWriteReq kAdminCompletionQueueBase 0xFF (le_bytes 8 0x101000) 3%nat;
   req kMmioWriteReq kAdminQueueAttributes 0xF (le_bytes 4 0x1F001F) 4%nat;
   req kMmioWriteReq kControllerConfiguration 0xF (le_bytes 4 1) 5%nat] ++
  csts_reads (S nr) (bump 6 g) ++
  [req kMmioWriteReq kSubmissionQueue0Doorbell 0xF (le_bytes 4 1) (7 + nr)%nat] ++
  o1 ++ o2 ++
  [req kShutdown 0 0 [] (8 + nr)%nat].

Lemma bump_add i j g : bump (i + j) g = bump j (bump i g).
Proof. revert g. induction i as [|i IH]; intros g; [done|]. apply IH. Qed.

Lemma bump_S n g : bump (S n) g = u64 (bump n g + 1).
Proof. rewrite <- Nat.add_1_r. by rewrite bump_add. Qed.

Lemma talks_SendShutdown g mem :
  talks (Log ;;; SendShutdown ;;; ret true) (g, mem) []
    [mkOut kShutdown g 0 0 kSuccess kFlagNone []] true (u64 (g + 1), mem).
Proof.
  eapply talks_silent; [apply talks_Log|]. eapply talks_bind_silent; [|apply talks_ret].
  eapply talks_silent; [apply talks_NextTxn|].
  apply (talks_send (mkOut kShutdown g 0 0 kSuccess kFlagNone []) (fun _ => Log)). apply talks_Log.
Qed.

(** The messages the client receives in a demo that succeeds. *)
Record demo_script := mkDemo {
  d_ack : Message; d_rst : Message; d_w1 : Message; d_w2 : Message; d_w3 : Message; d_w4 : Message;
  d_notready : list Message; d_ready : Message; d_w5 : Message;
  d_rd : Message; d_wr : Message; d_mx : Message }.

Definition demo_ins (d : demo_script) : list Message :=
  [d_ack d; d_rst d; d_w1 d; d_w2 d; d_w3 d; d_w4 d] ++ (d_notready d ++ [d_ready d]) ++
  [d_w5 d; d_rd d; d_wr d; d_mx d].

(** The replies among them, in order. *)
Definition demo_replies (d : demo_script) : list Message :=
  [d_ack d; d_rst d; d_w1 d; d_w2 d; d_w3 d; d_w4 d] ++ d_notready d ++ [d_ready d; d_w5 d].

(** HELLO_ACK, successful replies to every access, each with the transaction id of
    the request it answers ([g] is the first one), at most 49 reads of CSTS before
    the ready bit is seen, then a DMA read, a DMA write carrying the expected
    completion and an MSI-X, with [o1] and [o2] the host's answers to the DMAs. *)
Record demo_ok (g : Z) (mem mem2 : HostMemory) (o1 o2 : list out_msg) (d : demo_script) : Prop := {
  k_ids : (fun m => h_txn_id (m_header m)) <$> demo_replies d =
          (fun i => bump i g) <$> seq 0 (8 + length (d_notready d));
  k_ack : message_ok (d_ack d) /\ Type_ (m_header (d_ack d)) = kHelloAck;
  k_rst : reply kResetRsp (d_rst d);
  k_w1 : reply kMmioWriteRsp (d_w1 d);
  k_w2 : reply kMmioWriteRsp (d_w2 d);
  k_w3 : reply kMmioWriteRsp (d_w3 d);
  k_w4 : reply kMmioWriteRsp (d_w4 d);
  k_notready : Forall (fun y => exists x, read_reply x y /\ x mod 2 = 0) (d_notready d);
  k_ready : exists v, read_reply v (d_ready d) /\ v mod 2 <> 0;
  k_few : (length (d_notready d) < 50)%nat;
  k_w5 : reply kMmioWriteRsp (d_w5 d);
  k_rd : message_ok (d_rd d) /\ Type_ (m_header (d_rd d)) = kDmaReadReq;
  k_wr : message_ok (d_wr d) /\ Type_ (m_header (d_wr d)) = kDmaWriteReq /\
         m_payload (d_wr d) = expected_completion;
  k_mx : message_ok (d_mx d) /\ Type_ (m_header (d_mx d)) = kMsiX;
  k_size : 0x00200040 <= hm_size mem < 2 ^ 64;
  k_served_rd : served (memcpy_in kMockCommandGuestAddr mock_command mem) (d_rd d) o1
                  (memcpy_in kMockCommandGuestAddr mock_command mem);
  k_served_wr : served (memcpy_in kMockCommandGuestAddr mock_command mem) (d_wr d) o2 mem2;
}.

Lemma talks_demo g mem mem2 o1 o2 d :
  demo_ok g mem mem2 o1 o2 d ->
  talks (DoHello ;&& DoReset ;&& ConfigureAdminQueues ;&& EnableControllerAndWaitReady ;&&
         WriteMockNvmeCommand ;&& RingDoorbell ;&& ServiceRtlInitiatedTransactions ;&&
         (Log ;;; SendShutdown ;;; ret true))
    (g, mem) (demo_ins d) (demo_outs g (length (d_notready d)) o1 o2) true
    (bump (9 + length (d_notready d)) g, mem2).
Proof.
  intros [_ [Hack Tack] Hrst Hw1 Hw2 Hw3 Hw4 Hnr (v & Hready & Hv) Hfew Hw5 [Hrd Trd] (Hwr & Twr & Hcpl)
          [Hmx Tmx] Hsize Hrdok Hwrok].
  destruct d as [ack rst w1 w2 w3 w4 notready ready w5 rd wr mx]. unfold demo_ins.
  cbn [d_ack d_rst d_w1 d_w2 d_w3 d_w4 d_notready d_ready d_w5 d_rd d_wr d_mx] in *.
  set (nr := length notready). unfold demo_outs.
  eapply (talks_and_then DoHello _ _ [ack] [_]); [by apply talks_DoHello|].
  eapply (talks_and_then DoReset _ _ [rst] [_]); [by apply talks_DoReset|].
  eapply (talks_and_then ConfigureAdminQueues _ _ [w1; w2; w3] [_; _; _] (bump 5 g, mem)).
  { eapply (talks_and_then _ _ _ [w1] [_]); [by apply talks_MmioWrite64|].
    eapply (talks_and_then _ _ _ [w2] [_]); [by apply talks_MmioWrite64|].
    eapply (talks_and_then _ _ _ [w3] [_] _ [] []); [by apply talks_MmioWrite32|]. apply talks_ret. }
  eapply (talks_and_then EnableControllerAndWaitReady _ _ (w4 :: notready ++ [ready])
            (_ :: csts_reads (S nr) (bump 6 g)) (bump (7 + nr) g, mem) [w5; rd; wr; mx]).
  { eapply (talks_and_then _ _ _ [w4] [_]); [by apply talks_MmioWrite32|].
    rewrite (bump_add 6 (S nr)). by eapply talks_WaitReady. }
  eapply (talks_and_then WriteMockNvmeCommand _ _ [] [] _ [w5; rd; wr; mx]).
  { by apply talks_WriteMockNvmeCommand. }
  eapply (talks_and_then RingDoorbell _ _ [w5] [_] (bump (8 + nr) g, _) [rd; wr; mx]).
  { rewrite (bump_S (7 + nr)). by apply talks_MmioWrite32. }
  rewrite (app_assoc o1 o2), (bump_S (8 + nr)).
  eapply (talks_and_then ServiceRtlInitiatedTransactions _ _ [rd; wr; mx] (o1 ++ o2) _ [] [_]).
  { by apply talks_Service. }
  apply talks_SendShutdown.
Qed.

Lemma and_then_true (m f : M bool) h h1 : m h = (true, h1) -> (m ;&& f) h = f h1.
Proof. intros E. unfold and_then, bind. by rewrite E. Qed.

Definition with_fd (fd : Z) (c : Sock) : Sock :=
  mkSock fd (s_pollin c) (s_pollout c) (s_recv c) (s_send c) (s_wire c).

Lemma Connect_ok attempts conn os h fd os' :
  Connect_loop (hc_socket_path_ h) attempts (fd_ (socket_ h)) os = (kOk, fd, os') ->
  exists h', Connect attempts conn os h = (true, h') /\ socket_ h' = with_fd fd conn /\
    (hc_txn_gen_ h', memory_ h') = (hc_txn_gen_ h, memory_ h).
Proof. intros E. unfold Connect. rewrite E, bool_decide_true by done. by eexists. Qed.

(** *** Soundness of the service loop, for any kernel and any peer *)

(** The effect of one message on the local flags and on memory, and the answer. *)
Definition serve_spec (msg : Message) (x : service * HostMemory)
  : option (service * HostMemory * list out_msg) :=
  let '(v, mem) := x in
  let answer t data := mkOut t (h_txn_id (m_header msg)) (h_address (m_header msg)) 0 kSuccess kFlagIsResponse data in
  match Type_ (m_header msg) with
  | kDmaReadReq =>
      if h_transfer_len (m_header msg) =? 0 then None
      else (fun data => (serve_flags msg v, mem, [answer kDmaReadRsp data])) <$>
             Memory_Read (h_address (m_header msg)) (Z.to_nat (h_transfer_len (m_header msg))) mem
  | kDmaWriteReq =>
      let '(ok, mem') := Memory_Write (h_address (m_header msg)) (m_payload msg) mem in
      if ok then Some (serve_flags msg v, mem', [answer kDmaWriteRsp []]) else None
  | kMsiX => Some (serve_flags msg v, mem, [])
  | _ => Some (v, mem, [])
  end.

(** The frames of [outs], with their timestamps. *)
Definition frames (tss : list Z) (outs : list out_msg) : list (list Z) :=
  zip_with (fun ts o => wire_of (out_message ts o)) tss outs.

(** From [c] to [c'] the messages [outs] were handed to [SendAll], in order: of each
    frame some prefix is on the wire, all of it if the kernel keeps taking bytes. *)
Definition sends (c : Sock) (outs : list out_msg) (c' : Sock) : Prop :=
  exists tss pieces, length tss = length outs /\ Forall2 prefix pieces (frames tss outs) /\
    s_wire c' = s_wire c ++ concat pieces /\
    forall n, writable (cost outs + n) c -> pieces = frames tss outs /\ writable n c'.

Lemma sends_nil c c' : same_writes c c' -> sends c [] c'.
Proof.
  intros (Hf & Hp & Hs & Hw). exists [], []. split_and!; [done|constructor|by rewrite app_nil_r|].
  intros n Hn. split; [done|]. by eapply writable_frame.
Qed.

Lemma frames_app t1 t2 o1 o2 : length t1 = length o1 -> frames (t1 ++ t2) (o1 ++ o2) = frames t1 o1 ++ frames t2 o2.
Proof. apply zip_with_app. Qed.

Lemma sends_trans c1 o1 c2 o2 c3 : sends c1 o1 c2 -> sends c2 o2 c3 -> sends c1 (o1 ++ o2) c3.
Proof.
  intros (t1 & p1 & Hl1 & Hp1 & Hw1 & Hk1) (t2 & p2 & Hl2 & Hp2 & Hw2 & Hk2).
  exists (t1 ++ t2), (p1 ++ p2). rewrite !length_app, frames_app by done. split_and!; [lia|by apply Forall2_app| |].
  - by rewrite Hw2, Hw1, concat_app, app_assoc.
  - intros n. rewrite cost_app, <- Nat.add_assoc. intros [-> H2]%Hk1. by apply Hk2 in H2 as [-> ?].
Qed.

(** [h'] differs from [h] only in the clock and in having sent [outs]. *)
Definition sent_only (outs : list out_msg) (h h' : HostClient) : Prop :=
  memory_ h' = memory_ h /\ stream (socket_ h') = stream (socket_ h) /\ sends (socket_ h) outs (socket_ h').

Definition emits {A} (outs : list out_msg) (act : M A) : Prop :=
  forall h, exists x h', act h = (x, h') /\ sent_only outs h h'.

Lemma emits_ret {A} (x : A) : emits [] (ret x).
Proof. intros h. exists x, h. unfold sent_only. split_and!; [done..|by apply sends_nil]. Qed.

Lemma emits_Log : emits [] Log.
Proof. intros h. eexists _, _. unfold sent_only. split_and!; [done..|by apply sends_nil]. Qed.

Lemma emits_send (o : out_msg) :
  emits [o] (now <- NowNs ;; with_socket (SendAll (wire_of (out_message now o))) ;;; ret tt).
Proof.
  intros h. unfold bind, NowNs, with_socket. cbn [socket_ clock_].
  destruct (SendAll _ _) as [st c] eqn:E. eexists _, _. split; [done|]. unfold sent_only.
  pose proof (SendAll_safe _ _ _ _ E) as (k & Hw & _ & Hk & _ & Hr & _).
  split_and!; [done|unfold stream; cbn; by rewrite Hr|].
  exists [clock_ h], [take k (wire_of (out_message (clock_ h) o))]. split_and!; [done| | |].
  - repeat constructor. eexists. by rewrite take_drop.
  - cbn. by rewrite app_nil_r.
  - intros n Hwr. cbn [cost] in Hwr.
    destruct (SendAll_writable n (wire_of (out_message (clock_ h) o)) (socket_ h)) as (c' & E' & Hw' & Hwr' & _).
    { rewrite length_wire_of. by replace (n + _)%nat with (kHeaderSize + length (o_payload o) + 0 + n)%nat
        by (cbn [m_payload out_message]; lia). }
    rewrite E in E'. simplify_eq. split; [|done]. cbn. f_equal.
    rewrite Hw' in Hw. by apply app_inv_head in Hw.
Qed.

(** Skip a prefix that only sends. *)
Lemma emits_then {A B} outs (m : M A) (f : A -> M B) h r h' :
  emits outs m -> bind m f h = (r, h') -> exists x h1, sent_only outs h h1 /\ m h = (x, h1) /\ f x h1 = (r, h').
Proof.
  intros Hm E. destruct (Hm h) as (x & h1 & E1 & Hs). exists x, h1. split_and!; [done..|].
  unfold bind in E. by rewrite E1 in E.
Qed.

Lemma with_memory_then {A B} (g : HostMemory -> A * HostMemory) (f : A -> M B) h r h' :
  bind (with_memory g) f h = (r, h') ->
  exists h1, f (fst (g (memory_ h))) h1 = (r, h') /\ memory_ h1 = snd (g (memory_ h)) /\ socket_ h1 = socket_ h.
Proof.
  unfold bind, with_memory. destruct (g (memory_ h)) as [x m]. intros E. by eexists.
Qed.

Lemma service_message_sound msg v h v' h' :
  service_message msg v h = (Some v', h') ->
  exists outs, serve_spec msg (v, memory_ h) = Some (v', memory_ h', outs) /\
    stream (socket_ h') = stream (socket_ h) /\ sends (socket_ h) outs (socket_ h').
Proof.
  unfold service_message, serve_spec, serve_flags. destruct (Type_ (m_header msg)) eqn:Et.
  all: try (intros E; apply (emits_then []) in E as (? & h1 & (Hm & Hs & Ho) & _ & E); [|apply emits_Log];
            unfold ret in E; simplify_eq; exists []; by rewrite Hm).
  - destruct (_ =? 0).
    { intros E. eapply emits_then in E as (? & h1 & _ & _ & E); [done|].
      apply (emits_send (mkOut kDmaReadRsp _ _ 0 kErrorBadLength kFlagIsResponse [])). }
    intros E. apply (emits_then []) in E as (? & h1 & (Hm1 & Hs1 & Ho1) & _ & E); [|apply emits_Log].
    apply with_memory_then in E as (h2 & E & Hm2 & Hs2). cbn [fst snd] in E, Hm2.
    rewrite Hm1 in *. destruct (Memory_Read _ _ _) as [d|].
    2:{ eapply emits_then in E as (? & h3 & _ & _ & E);
          [|apply (emits_send (mkOut kDmaReadRsp _ _ 0 kErrorOutOfBounds kFlagIsResponse []))].
        apply (emits_then []) in E as (? & h4 & _ & _ & E); [done|apply emits_Log]. }
    eapply emits_then in E as (? & h3 & (Hm3 & Hs3 & Ho3) & _ & E);
      [|apply (emits_send (mkOut kDmaReadRsp (h_txn_id (m_header msg)) (h_address (m_header msg)) 0 kSuccess
                             kFlagIsResponse d))].
    apply (emits_then []) in E as (? & h4 & (Hm4 & Hs4 & Ho4) & _ & E); [|apply emits_Log].
    unfold ret in E; simplify_eq. cbn. eexists. split; [by rewrite Hm4, Hm3, Hm2|]. split; [congruence|]. rewrite Hs2 in Ho3.
    exact (sends_trans _ [] _ _ _ Ho1 (sends_trans _ _ _ [] _ Ho3 Ho4)).
  - intros E. apply (emits_then []) in E as (? & h1 & (Hm1 & Hs1 & Ho1) & _ & E); [|apply emits_Log].
    apply with_memory_then in E as (h2 & E & Hm2 & Hs2). rewrite Hm1 in *.
    destruct (Memory_Write _ _ _) as [ok mem']. cbn [fst snd] in *.
    eapply emits_then in E as (? & h3 & (Hm3 & Hs3 & Ho3) & _ & E);
      [|apply (emits_send (mkOut kDmaWriteRsp (h_txn_id (m_header msg)) (h_address (m_header msg)) 0
                             (if ok then kSuccess else kErrorOutOfBounds) kFlagIsResponse []))].
    apply (emits_then []) in E as (? & h4 & (Hm4 & Hs4 & Ho4) & _ & E); [|apply emits_Log].
    unfold ret in E. destruct ok; simplify_eq/=. eexists. split; [by rewrite Hm4, Hm3|]. split; [congruence|]. rewrite Hs2 in Ho3.
    exact (sends_trans _ [] _ _ _ Ho1 (sends_trans _ _ _ [] _ Ho3 Ho4)).
Qed.

(** The messages [ms], served one after the other. *)
Fixpoint serve_all (ms : list Message) (x : service * HostMemory) : option (service * HostMemory * list out_msg) :=
  match ms with
  | [] => Some (x, [])
  | m :: ms =>
      match serve_spec m x with
      | Some (x, o1) => match serve_all ms x with Some (y, o2) => Some (y, o1 ++ o2) | None => None end
      | None => None
      end
  end.

Lemma ReadMessage_sound h m h' :
  bytes_ok (stream (socket_ h)) -> ReadMessage h = (Some m, h') ->
  stream (socket_ h) = wire_of m ++ stream (socket_ h') /\ message_ok m /\ memory_ h' = memory_ h /\
  sends (socket_ h) [] (socket_ h').
Proof.
  intros Hb. unfold ReadMessage, bind, with_socket.
  destruct (RecvMessage (socket_ h)) as [r c] eqn:E. destruct r; unfold ret; intros; simplify_eq/=.
  destruct (RecvMessage_sound _ _ _ Hb E) as [? ?]. split_and!; [done..|].
  apply sends_nil. by apply (RecvMessage_writes [] [] []) in E as [_ ?].
Qed.

Lemma service_loop_sound n v h v' h' :
  bytes_ok (stream (socket_ h)) -> service_loop n v h = (Some v', h') ->
  exists ms outs, Forall message_ok ms /\ (length ms <= n)%nat /\
    stream (socket_ h) = concat (wire_of <$> ms) ++ stream (socket_ h') /\
    serve_all ms (v, memory_ h) = Some (v', memory_ h', outs) /\ sends (socket_ h) outs (socket_ h').
Proof.
  revert v h. induction n as [|n IH]; intros v h Hb; cbn [service_loop].
  { unfold ret. intros; simplify_eq. exists [], []. split_and!; [done..|by apply sends_nil]. }
  destruct (all_seen v).
  { unfold ret. intros; simplify_eq. exists [], []. split_and!; [done|cbn; lia|done..|by apply sends_nil]. }
  unfold bind at 1. destruct (ReadMessage h) as [[m|] h1] eqn:E1; [|done].
  unfold bind at 1. destruct (service_message m v h1) as [[v1|] h2] eqn:E2; [|done]. intros E3.
  apply ReadMessage_sound in E1 as (Hs1 & Hm & Hmem & Ho1); [|done].
  apply service_message_sound in E2 as (o & Hsv & Hs2 & Ho2).
  rewrite Hs1 in Hb. apply Forall_app in Hb as [_ Hb].
  destruct (IH v1 h2) as (ms & outs & Hok & Hl & Hs & Hall & Ho3); [by rewrite Hs2|done|].
  exists (m :: ms), (o ++ outs). split_and!; [by constructor|cbn; lia| | |].
  - rewrite Hs1, <- Hs2, Hs. cbn [fmap list_fmap concat]. by rewrite app_assoc.
  - cbn [serve_all]. by rewrite <- Hmem, Hsv, Hall.
  - exact (sends_trans _ [] _ _ _ Ho1 (sends_trans _ _ _ _ _ Ho2 Ho3)).
Qed.

Lemma completion_matches_expected bytes :
  length bytes = 16%nat -> completion_matches bytes = true -> bytes = expected_completion.
Proof.
  intros Hl Hc. unfold completion_matches in Hc. rewrite Hl in Hc. rewrite forallb_forall in Hc.
  apply list_eq_same_length with 16%nat; [done|by rewrite Hl|].
  intros i x y Hi Hx Hy. apply (list_lookup_total_correct bytes) in Hx. rewrite <- Hx.
  pose proof (Hc i) as Hci. rewrite in_seq in Hci. specialize (Hci ltac:(lia)). apply Z.eqb_eq in Hci.
  rewrite Hci. unfold expected_completion in Hy. rewrite list_lookup_fmap, lookup_seq_lt in Hy by lia.
  cbn in Hy. congruence.
Qed.

Definition of_type (t : MessageType) (ms : list Message) : list Message :=
  filter (fun m => Type_ (m_header m) = t) ms.

Lemma of_type_cons t m ms :
  of_type t (m :: ms) = if decide (Type_ (m_header m) = t) then m :: of_type t ms else of_type t ms.
Proof. unfold of_type. by rewrite filter_cons. Qed.

Lemma of_type_total ms :
  (length (of_type kDmaReadReq ms) + length (of_type kDmaWriteReq ms) + length (of_type kMsiX ms)
   <= length ms)%nat.
Proof.
  induction ms as [|m ms IH]; [done|]. rewrite !of_type_cons. cbn [length].
  repeat case_decide; cbn [length]; try congruence; lia.
Qed.

Lemma of_type_all ms :
  (length (of_type kDmaReadReq ms) + length (of_type kDmaWriteReq ms) + length (of_type kMsiX ms)
   = length ms)%nat ->
  Forall (fun m => Type_ (m_header m) ∈ [kDmaReadReq; kDmaWriteReq; kMsiX]) ms.
Proof.
  induction ms as [|m ms IH]; [by constructor|]. rewrite !of_type_cons. cbn [length].
  pose proof (of_type_total ms) as Ht. repeat case_decide; cbn [length]; intros Hn; try congruence; try lia.
  all: constructor; [set_solver|]; apply IH; lia.
Qed.

(** Messages served one after the other, each with success. *)
Inductive serves : HostMemory -> list Message -> list out_msg -> HostMemory -> Prop :=
| serves_nil mem : serves mem [] [] mem
| serves_cons mem m o mem1 ms outs mem2 :
    served mem m o mem1 -> serves mem1 ms outs mem2 -> serves mem (m :: ms) (o ++ outs) mem2.

Lemma serve_all_serves ms v mem y mem' outs :
  Forall (fun m => Type_ (m_header m) ∈ [kDmaReadReq; kDmaWriteReq; kMsiX]) ms ->
  serve_all ms (v, mem) = Some (y, mem', outs) -> serves mem ms outs mem'.
Proof.
  intros Hall. revert v mem outs. induction Hall as [|m ms Hm _ IH]; intros v mem outs; cbn [serve_all].
  { intros; simplify_eq. constructor. }
  destruct (serve_spec m (v, mem)) as [[[v1 mem1] o]|] eqn:Em; [|done].
  destruct (serve_all ms (v1, mem1)) as [[[v2 mem2] o2]|] eqn:Es; [|done]. intros; simplify_eq.
  apply serves_cons with mem1; [|by eapply IH]. unfold serve_spec in Em.
  rewrite !elem_of_cons, elem_of_nil in Hm. destruct Hm as [Et|[Et|[Et|[]]]]; rewrite Et in Em.
  - destruct (Z.eqb_spec (h_transfer_len (m_header m)) 0); [done|].
    destruct (Memory_Read _ _ _) eqn:Er; simplify_eq/=. by apply served_read.
  - destruct (Memory_Write _ _ _) as [[] ?] eqn:Ew; simplify_eq. by apply served_write.
  - simplify_eq. by apply served_msix.
Qed.

(** Each flag is raised by a message of its type; a single write determines memory. *)
Lemma serve_all_flags ms v mem v' mem' outs :
  serve_all ms (v, mem) = Some (v', mem', outs) ->
  (saw_dma_read v' = true -> saw_dma_read v = true \/ of_type kDmaReadReq ms <> []) /\
  (saw_dma_write v' = true -> saw_dma_write v = true \/ of_type kDmaWriteReq ms <> []) /\
  (saw_msix v' = true -> saw_msix v = true \/ of_type kMsiX ms <> []) /\
  match of_type kDmaWriteReq ms with
  | [] => completion_bytes v' = completion_bytes v /\ mem' = mem
  | [wr] => completion_bytes v' = m_payload wr /\
            Memory_Write (h_address (m_header wr)) (m_payload wr) mem = (true, mem')
  | _ => True
  end.
Proof.
  revert v mem outs. induction ms as [|m ms IH]; intros v mem outs; cbn [serve_all].
  { intros; simplify_eq. split_and!; auto. done. }
  destruct (serve_spec m (v, mem)) as [[[v1 mem1] o]|] eqn:Em; [|done].
  destruct (serve_all ms (v1, mem1)) as [[[v2 mem2] o2]|] eqn:Es; [|done]. intros; simplify_eq.
  apply IH in Es as (Hr & Hw & Hx & HM).
  unfold serve_spec, serve_flags in Em. rewrite !of_type_cons.
  destruct (Type_ (m_header m)) eqn:Et.
  all: repeat (rewrite decide_True by done || rewrite decide_False by done).
  all: try (simplify_eq; by split_and!).
  - destruct (_ =? 0); [done|]. destruct (Memory_Read _ _ _); [|done]. simplify_eq/=.
    split_and!; [by right|exact Hw|exact Hx|exact HM].
  - destruct (Memory_Write _ _ mem) as [[] mem3] eqn:EW; simplify_eq/=.
    split_and!; [exact Hr|by right|exact Hx|].
    destruct (of_type kDmaWriteReq ms); [|done]. by destruct HM as [-> ->].
  - simplify_eq/=. split_and!; [exact Hr|exact Hw|by right|exact HM].
Qed.

(** With three messages and three flags, each message raised its own. *)
Lemma three_flags ms mem v mem' outs :
  (length ms <= 3)%nat -> serve_all ms (mkService false false false [], mem) = Some (v, mem', outs) ->
  all_seen v = true ->
  length ms = 3%nat /\ serves mem ms outs mem' /\
  exists rd wr mx, of_type kDmaReadReq ms = [rd] /\ of_type kDmaWriteReq ms = [wr] /\
    of_type kMsiX ms = [mx] /\ completion_bytes v = m_payload wr /\
    Memory_Write (h_address (m_header wr)) (m_payload wr) mem = (true, mem').
Proof.
  intros Hl E Ha. pose proof E as (Hr & Hw & Hx & Hmem)%serve_all_flags. cbn in Hr, Hw, Hx.
  pose proof (of_type_total ms) as Ht. pose proof (of_type_all ms) as Hof. unfold all_seen in Ha.
  apply andb_prop in Ha as [[Ha1 Ha2]%andb_prop Ha3].
  destruct (Hr Ha1) as [|Hr']; [done|]. destruct (Hw Ha2) as [|Hw']; [done|].
  destruct (Hx Ha3) as [|Hx']; [done|].
  destruct (of_type kDmaReadReq ms) as [|rd [|? ?]], (of_type kDmaWriteReq ms) as [|wr [|? ?]],
    (of_type kMsiX ms) as [|mx [|? ?]]; cbn [length] in Ht, Hof; try done; try lia.
  split; [lia|]. split; [eapply serve_all_serves; [apply Hof; lia|done]|]. exists rd, wr, mx. by destruct Hmem.
Qed.

(** ** Properties *)

(** C13: bounds-checked memory.  For 64-bit addresses and lengths the test accepts
    exactly the empty access and the ranges inside the buffer, overflow included; a
    rejected access changes nothing; an accepted write is read back, leaves every
    disjoint range alone, and touches no index outside the range. *)
Theorem host_memory_correct m addr src a n :
  in_width 64 addr -> in_width 64 (Z.of_nat (length src)) -> 0 <= hm_size m < 2 ^ 64 ->
  let '(ok, m') := Memory_Write addr src m in
  (ok = true <-> src = [] \/ addr + Z.of_nat (length src) <= hm_size m) /\
  (ok = false -> m' = m /\ Memory_Read addr (length src) m = None) /\
  (ok = true -> Memory_Read addr (length src) m' = Some src) /\
  (a + Z.of_nat n <= addr \/ addr + Z.of_nat (length src) <= a ->
     Memory_Read a n m' = Memory_Read a n m) /\
  (forall i, i < addr \/ addr + Z.of_nat (length src) <= i -> data_ m' i = data_ m i).
Proof.
  intros Ha Hl Hs. pose proof (InBounds_spec m addr _ Ha Hl Hs) as Hb.
  assert (Hnil : Z.of_nat (length src) = 0 <-> src = []) by (destruct src; cbn; split; done || lia).
  unfold Memory_Write, Memory_Read. destruct (InBoundsLocked m addr _) eqn:E; cbn [negb].
  - split_and!; [naive_solver|done| | |].
    + intros _. change (InBoundsLocked (memcpy_in addr src m)) with (InBoundsLocked m).
      by rewrite E, memcpy_out_in.
    + intros Hd. change (InBoundsLocked (memcpy_in addr src m)) with (InBoundsLocked m).
      by rewrite memcpy_out_frame.
    + intros i Hi. cbn. destruct (Z.leb_spec addr i), (Z.ltb_spec i (addr + Z.of_nat (length src)));
        cbn; lia || done.
  - split_and!; [naive_solver|done|done|done|done].
Qed.

Lemma host_memory_correct_witness :
  let m := mkHostMemory 64 (fun _ => 0) in
  let '(ok, m') := Memory_Write 62 [1; 2] m in
  (ok = true <-> [1; 2] = [] \/ 62 + 2 <= 64) /\
  (ok = false -> m' = m /\ Memory_Read 62 2 m = None) /\
  (ok = true -> Memory_Read 62 2 m' = Some [1; 2]) /\
  (0 + Z.of_nat 3 <= 62 \/ 62 + 2 <= 0 -> Memory_Read 0 3 m' = Memory_Read 0 3 m) /\
  (forall i, i < 62 \/ 62 + 2 <= i -> data_ m' i = data_ m i).
Proof.
  refine (host_memory_correct (mkHostMemory 64 (fun _ => 0)) 62 [1; 2] 0 3 _ _ _);
    vm_compute; split; congruence.
Defined.

(** C10: the demo passes.  Against any kernel that connects and keeps delivering,
    in whatever pieces, a peer that answers as in [demo_ok], every request with a
    successful reply carrying that request's transaction id, makes [RunDemo] return
    true; the client consumes exactly those messages, sends exactly the requests
    of the demo (consecutive transaction ids, the DMA answers with the requesters'
    ids, SHUTDOWN last), and its memory ends with the completion written.  (The
    client itself never compares the ids: [wrong_txn_id_accepted].) *)
Theorem host_demo_passes h attempts conn os fd os' mem2 o1 o2 d n k rest :
  demo_ok (hc_txn_gen_ h) (memory_ h) mem2 o1 o2 d ->
  Connect_loop (hc_socket_path_ h) attempts (fd_ (socket_ h)) os = (kOk, fd, os') ->
  chan (cost (demo_outs (hc_txn_gen_ h) (length (d_notready d)) o1 o2) + n) k
    (demo_ins d) rest (with_fd fd conn) ->
  exists h' tss, RunDemo attempts conn os h = (true, h') /\
    length tss = length (demo_outs (hc_txn_gen_ h) (length (d_notready d)) o1 o2) /\
    s_wire (socket_ h') =
      s_wire conn ++ out_wire tss (demo_outs (hc_txn_gen_ h) (length (d_notready d)) o1 o2) /\
    memory_ h' = mem2 /\ chan n k [] rest (socket_ h').
Proof.
  intros Hd Hconn Hch. destruct (Connect_ok attempts conn os h fd os' Hconn) as (h1 & E1 & Hs1 & Hst1).
  rewrite <- (app_nil_r (demo_ins d)), <- Hs1 in Hch.
  destruct (talks_demo _ _ _ _ _ _ Hd n k rest [] h1 Hst1 Hch) as (h2 & E2 & Hst2 & Hch2 & tss & Hl & Hw).
  exists h2, tss. unfold RunDemo. rewrite (and_then_true _ _ _ _ E1), E2.
  injection Hst2 as _ Hmem. rewrite Hw, Hs1. by split_and!.
Qed.

(** C17: a pass means the work was done.  Whatever the peer sends and the kernel
    does, if [ServiceRtlInitiatedTransactions] returns true then exactly three
    well-formed messages were taken off the stream, one DMA read, one DMA write and
    one MSI-X; each was served ([served]): the read was in bounds and answered with
    the bytes of memory at that moment, the write was in bounds, done and answered,
    both answers being successes with the requester's transaction id and address;
    these answers, in that order, and nothing else were handed to the socket, which
    carries them whole if the kernel keeps taking bytes (a failing send is not
    noticed by the code: then a prefix of the frame is on the wire); the write
    carried the expected sixteen completion bytes and is the only change to memory. *)
Theorem service_sound h h' :
  bytes_ok (stream (socket_ h)) -> ServiceRtlInitiatedTransactions h = (true, h') ->
  exists ms outs rd wr mx, Forall message_ok ms /\ length ms = 3%nat /\
    stream (socket_ h) = concat (wire_of <$> ms) ++ stream (socket_ h') /\
    of_type kDmaReadReq ms = [rd] /\ of_type kDmaWriteReq ms = [wr] /\ of_type kMsiX ms = [mx] /\
    serves (memory_ h) ms outs (memory_ h') /\ sends (socket_ h) outs (socket_ h') /\
    m_payload wr = expected_completion /\
    Memory_Write (h_address (m_header wr)) (m_payload wr) (memory_ h) = (true, memory_ h').
Proof.
  intros Hb. unfold ServiceRtlInitiatedTransactions, bind at 1.
  destruct (service_loop _ _ h) as [[v|] h1] eqn:E; [|done].
  destruct (all_seen v) eqn:Ha; cbn [negb]; [|done].
  destruct (Nat.eqb_spec (length (completion_bytes v)) 16) as [Hl|]; cbn [negb]; [|done].
  destruct (completion_matches (completion_bytes v)) eqn:Hc; cbn [negb]; [|done].
  intros El. apply (emits_then []) in El as (? & h2 & (Hm & Hs & Ho) & _ & El); [|apply emits_Log].
  unfold ret in El. injection El as <-. rewrite Hm, Hs.
  destruct (service_loop_sound _ _ _ _ _ Hb E) as (ms & outs & Hok & Hn & Hst & Hall & Ho1).
  destruct (three_flags _ _ _ _ _ Hn Hall Ha) as (Hl3 & Hsv & rd & wr & mx & H1 & H2 & H3 & H4 & H5).
  exists ms, outs, rd, wr, mx. split_and!; try done.
  - rewrite <- (app_nil_r outs). exact (sends_trans _ _ _ _ _ Ho1 Ho).
  - rewrite <- H4. by apply completion_matches_expected.
Qed.

(** The comment on [SendRequestAndWait] says that the response's transaction id is
    verified; it is not: whatever well-formed message comes next is returned. *)
Theorem wrong_txn_id_accepted type addr be p g mem m :
  message_ok m -> h_txn_id (m_header m) <> g ->
  talks (SendRequestAndWait type addr be p) (g, mem) [m]
    [mkOut type g addr be kSuccess kFlagNone p] (Some m) (u64 (g + 1), mem).
Proof. intros Hm _. by apply talks_send_request. Qed.
