(* ===== verification/System.v ===== *)
(** * The demo system, end to end

    [mini_ics_server --demo] is the software endpoint of [Endpoint] on top of the
    server of [Server]; [mini_ics_host_client] is the client of [HostClient].  The
    two processes share only the two directions of a socket, so a run of the system
    is a pair of byte strings each of which is what one process writes when it
    reads the other (a fixed point of the two stream functions). *)
From S2P Require Import Prelude Protocol Socket Framing Transaction Interface Server Endpoint HostClient.
From stdpp Require Import options.
#[local] Open Scope Z_scope.

(** ** The endpoint on the real server *)

(** One iteration of the I/O thread per wait. *)
#[local] Existing Instance server_contract.
Abbreviation endpoint_run fuel e s :=
  (Run (H := server_ops 1) fuel false e s).

(** ** The two processes as stream functions *)

Definition ready_in (n : nat) : list poll_ans := replicate n (PollReady POLLIN).
Definition ready_out (n : nat) : list poll_ans := replicate n (PollReady POLLOUT).
Definition arriving (bytes : list Z) : list recv_ans :=
  match bytes with [] => [] | _ => [RecvBytes bytes] end.

(** A connection on which [bytes] have arrived, and which takes 4096 bytes a time. *)
Definition connection (fd : Z) (bytes : list Z) : Sock :=
  mkSock fd (ready_in 3000) (ready_out 100) (arriving bytes) (replicate 100 (SendTake 4096)) [].

Definition demo_socket_path : string := "/tmp/mini_ics.sock".
Definition fresh_os : OS := mkOS ∅ ∅ ∅.

Definition host_process (bytes : list Z) : bool * HostClient :=
  RunDemo [mkConnectAns 5 None [] 0 0] (connection 5 bytes) fresh_os (HostClient_init demo_socket_path).

Definition server_process (bytes : list Z) : bool * Endpoint * Server :=
  let '(_, s, _) := Start (mkListenAns 3 0 0 (ready_in 1000) [AcceptConn (connection 4 bytes)])
                      (MiniIcsServer demo_socket_path) fresh_os in
  endpoint_run 400 Endpoint_init s.

Definition host_writes (bytes : list Z) : list Z := s_wire (socket_ (snd (host_process bytes))).
Definition server_writes (bytes : list Z) : list Z :=
  s_wire (client_socket_ (snd (server_process bytes))).

(** [n] rounds of the exchange, from silence. *)
Fixpoint rounds (n : nat) : list Z :=
  match n with O => [] | S n => server_writes (host_writes (rounds n)) end.

(** The messages encoded in a byte string. *)
Definition decode (n : nat) (bytes : list Z) : list (option MessageType) :=
  (fun r => match r with RecvMsg m => Some (Type_ (m_header m)) | _ => None end)
    <$> fst (RecvMessages n (connection 5 bytes)).

(** ** Properties *)

(** The demo system works.  The two processes, each modelled in full, reach a
    common run: the server writes exactly the bytes the client reads and conversely;
    in it the client reports a pass and the server's loop ends; the types of the
    messages are those listed; the completion is in host memory and the controller is
    ready. *)
Theorem demo_end_to_end :
  let to_host := rounds 12 in
  let to_server := host_writes to_host in
  server_writes to_server = to_host /\
  fst (host_process to_host) = true /\
  fst (fst (server_process to_server)) = true /\
  decode 11 to_host =
    Some <$> [kHelloAck; kResetRsp; kMmioWriteRsp; kMmioWriteRsp; kMmioWriteRsp; kMmioWriteRsp;
              kMmioReadRsp; kMmioWriteRsp; kDmaReadReq; kDmaWriteReq; kMsiX] /\
  decode 11 to_server =
    Some <$> [kHello; kResetReq; kMmioWriteReq; kMmioWriteReq; kMmioWriteReq; kMmioWriteReq;
              kMmioReadReq; kMmioWriteReq; kDmaReadRsp; kDmaWriteRsp; kShutdown] /\
  Memory_Read 0x101000 16 (memory_ (snd (host_process to_host))) = Some expected_completion /\
  csts_ (snd (fst (server_process to_server))) = 1.
Proof. vm_compute. split_and!; reflexivity. Qed.

(** The command the client prepares is not the one the endpoint fetches: the client
    writes it at 0x200000 but announces its queue at 0x100000. *)
Theorem demo_command_not_fetched :
  let h := snd (host_process (rounds 12)) in
  Memory_Read 0x200000 64 (memory_ h) = Some mock_command /\
  asq_ (snd (fst (server_process (host_writes (rounds 12))))) = 0x100000 /\
  Memory_Read 0x100000 64 (memory_ h) <> Some mock_command.
Proof. vm_compute. split_and!; [reflexivity..|discriminate]. Qed.

(** ** Instances of the client's and the endpoint's theorems *)

(** The server keeps its contract from the start. *)
Lemma MiniIcsServer_inv path : server_inv (MiniIcsServer path).
Proof. constructor; [constructor; constructor|constructor|]. apply map_Forall_empty. Qed.

Lemma endpoint_session_witness :
  exists b e' w' l',
    Run (H := server_ops 1) 3 false Endpoint_init (MiniIcsServer "/tmp/a") = (b, e', w') /\
    Run (H := @logged Server (server_ops 1)) 3 false Endpoint_init (MiniIcsServer "/tmp/a", []) =
      (b, e', (w', l')) /\
    endpoint_ok e' /\ server_inv w' /\ Forall call_ok l' /\ session l'.
Proof.
  refine (@endpoint_session Server (server_ops 1) (server_contract 1) 3 false (MiniIcsServer "/tmp/a") _).
  exact (MiniIcsServer_inv "/tmp/a").
Defined.

Lemma doorbell_dma_sequence_witness :
  exists h ok e' w' t,
    Handle (H := @logged Server (server_ops 1)) (sample_write 0x1000 [1; 0; 0; 0]) Endpoint_init
      (MiniIcsServer "/tmp/a", []) = (e', (w', CRespond h [] ok :: t)) /\
    answer_to (sample_write 0x1000 [1; 0; 0; 0]) h [] /\ Status h = kSuccess /\
    dma_calls Endpoint_init t /\ Forall call_ok t /\
    same_registers Endpoint_init e' /\ doorbell_rung_ e' = false.
Proof.
  refine (@doorbell_dma_sequence Server (server_ops 1) (server_contract 1)
            (sample_write 0x1000 [1; 0; 0; 0]) Endpoint_init (MiniIcsServer "/tmp/a") _ _ _ _ _ _).
  - exact Endpoint_init_ok.
  - exact sample_write_ok.
  - exact (MiniIcsServer_inv "/tmp/a").
  - reflexivity.
  - reflexivity.
  - reflexivity.
Defined.

(** Messages as a peer would send them. *)
Definition peer_msg (t : MessageType) (id addr : Z) (p : list Z) (tlen : Z) : Message :=
  mkMessage (MakeHeader t id addr 0 kSuccess 0 (Z.of_nat (length p)) kFlagNone tlen) p.

Lemma peer_msg_ok t id addr p tlen :
  in_width 64 id -> in_width 64 addr -> bytes_ok p -> Z.of_nat (length p) <= 64 -> in_width 32 tlen ->
  message_ok (peer_msg t id addr p tlen).
Proof.
  intros. apply (MakeHeader_frame_ok t id addr 0 kSuccess 0 kFlagNone tlen p);
    [|done|unfold kMaxPayloadSize; lia].
  unfold header_args_ok, kFlagNone. split_and!; try done; unfold in_width; lia.
Qed.

Definition sample_demo : demo_script :=
  let w id := peer_msg kMmioWriteRsp id 0 [] 0 in
  mkDemo (peer_msg kHelloAck 1 0 [] 0) (peer_msg kResetRsp 2 0 [] 0) (w 3) (w 4) (w 5) (w 6)
    [peer_msg kMmioReadRsp 7 0 [0; 0; 0; 0] 0] (peer_msg kMmioReadRsp 8 0 [1; 0; 0; 0] 0) (w 9)
    (peer_msg kDmaReadReq 1 0x100000 [] 4) (peer_msg kDmaWriteReq 2 0x101000 expected_completion 0)
    (peer_msg kMsiX 3 0 [] 0).

Definition sample_host : HostClient := HostClient_init "/tmp/a".
Definition sample_mem : HostMemory :=
  memcpy_in kMockCommandGuestAddr mock_command (memory_ sample_host).
Definition sample_o1 : list out_msg :=
  [mkOut kDmaReadRsp 1 0x100000 0 kSuccess kFlagIsResponse (memcpy_out 0x100000 4 sample_mem)].
Definition sample_o2 : list out_msg :=
  [mkOut kDmaWriteRsp 2 0x101000 0 kSuccess kFlagIsResponse []].

Ltac peer_ok := apply peer_msg_ok; repeat constructor; vm_compute; congruence.

Lemma sample_demo_ok :
  demo_ok 1 (memory_ sample_host) (memcpy_in 0x101000 expected_completion sample_mem)
    sample_o1 sample_o2 sample_demo.
Proof.
  assert (Hr : forall v id, in_width 8 v -> in_width 64 id ->
    read_reply v (peer_msg kMmioReadRsp id 0 [v; 0; 0; 0] 0)).
  { intros v id Hv Hid. split; [|split; [cbn; lia|]].
    2:{ change (v = v + 256 * (0 + 256 * (0 + 256 * (0 + 256 * 0)))). lia. }
    split; [|done].
    apply peer_msg_ok; [done|done| |cbn; lia|done]. repeat constructor; done || apply Hv. }
  constructor; cbn [sample_demo d_ack d_rst d_w1 d_w2 d_w3 d_w4 d_notready d_ready d_w5 d_rd d_wr d_mx].
  1: (vm_compute; reflexivity).
  1: (split; [peer_ok|done]).
  1-5: (split; [peer_ok|done]).
  - repeat constructor. exists 0. split; [by apply Hr|done].
  - exists 1. split; [by apply Hr|done].
  - cbn. lia.
  - split; [peer_ok|done].
  - split; [peer_ok|done].
  - split; [peer_ok|done].
  - split; [peer_ok|done].
  - cbn. lia.
  - by eapply (served_read sample_mem (peer_msg kDmaReadReq 1 0x100000 [] 4)).
  - by eapply (served_write sample_mem (peer_msg kDmaWriteReq 2 0x101000 expected_completion 0)).
Qed.

(** The peer's bytes, in two pieces with an interruption between them. *)
Definition sample_incoming : list Z := concat (wire_of <$> demo_ins sample_demo).
Definition sample_link : Sock :=
  mkSock (-1) (ready_in 1200) (PollFail EINTR :: ready_out 1200)
    [RecvBytes (take 100 sample_incoming); RecvFail EINTR; RecvBytes (drop 100 sample_incoming)]
    (SendFail EAGAIN :: replicate 1000 (SendTake 1)) [].

Lemma host_demo_passes_witness :
  exists h' tss, RunDemo [mkConnectAns 5 None [] 0 0] sample_link fresh_os sample_host = (true, h') /\
    length tss = length (demo_outs 1 1 sample_o1 sample_o2) /\
    s_wire (socket_ h') = [] ++ out_wire tss (demo_outs 1 1 sample_o1 sample_o2) /\
    memory_ h' = memcpy_in 0x101000 expected_completion sample_mem /\ chan 0 9 [] [] (socket_ h').
Proof.
  refine (host_demo_passes sample_host [mkConnectAns 5 None [] 0 0] sample_link fresh_os 5
            (snd (Connect_loop "/tmp/a" [mkConnectAns 5 None [] 0 0] (-1) fresh_os))
            (memcpy_in 0x101000 expected_completion sample_mem) sample_o1 sample_o2 sample_demo 0 9 []
            sample_demo_ok _ _).
  - reflexivity.
  - constructor.
    + constructor.
      * vm_compute. congruence.
      * apply Forall_replicate. by left.
      * vm_compute. repeat constructor; discriminate.
      * apply Nat.leb_le. vm_compute. reflexivity.
    + constructor.
      * vm_compute. congruence.
      * constructor; [by right|]. apply Forall_replicate. by left.
      * constructor; [done|]. apply Forall_replicate. discriminate.
      * apply Nat.leb_le. vm_compute. reflexivity.
      * apply Nat.leb_le. vm_compute. reflexivity.
    + vm_compute. reflexivity.
Defined.

(** The three RTL-initiated messages, out of order. *)
Definition sample_serving : HostClient :=
  mkHostClient "/tmp/a"
    (connection 5 (wire_of (peer_msg kMsiX 3 0 [] 0) ++
                   wire_of (peer_msg kDmaWriteReq 2 0x101000 expected_completion 0) ++
                   wire_of (peer_msg kDmaReadReq 1 0x100000 [] 4)))
    (memory_ sample_host) 100 1 [].

Lemma service_sound_witness :
  exists ms outs rd wr mx, Forall message_ok ms /\ length ms = 3%nat /\
    stream (socket_ sample_serving) = concat (wire_of <$> ms) ++
      stream (socket_ (snd (ServiceRtlInitiatedTransactions sample_serving))) /\
    of_type kDmaReadReq ms = [rd] /\ of_type kDmaWriteReq ms = [wr] /\ of_type kMsiX ms = [mx] /\
    serves (memory_ sample_serving) ms outs (memory_ (snd (ServiceRtlInitiatedTransactions sample_serving))) /\
    sends (socket_ sample_serving) outs (socket_ (snd (ServiceRtlInitiatedTransactions sample_serving))) /\
    m_payload wr = expected_completion /\
    Memory_Write (h_address (m_header wr)) (m_payload wr) (memory_ sample_serving) =
      (true, memory_ (snd (ServiceRtlInitiatedTransactions sample_serving))).
Proof.
  apply service_sound.
  - apply (bool_decide_unpack _). vm_compute. reflexivity.
  - rewrite (surjective_pairing (ServiceRtlInitiatedTransactions sample_serving)) at 1. by f_equal.
Defined.
