(* ===== verification/Concurrency.v ===== *)
(** * Concurrent callers of one server

    [Server] models each call of [MiniIcsServer] as a whole.  Here the calls of any
    number of threads are cut at every point where another thread can run: the
    accesses to [has_client_], the id generator, the pending table's critical
    sections, the writes under [send_mutex_], each access of the I/O thread to
    shared state, and the steps of [Stop].  Executions are the interleavings of
    these steps; the theorems hold for all of them.  Reading from the socket and
    writing to it are single steps: the kernel keeps the two directions apart and
    writers hold [send_mutex_] ([SendLock] models the mutex and the single calls and
    shows that nothing is lost by this). *)
From S2P Require Import Prelude Protocol Socket Framing Transaction Interface Server.
From stdpp Require Import options.
#[local] Open Scope Z_scope.

(** Where a thread is inside [SendRequestToHost] (or, last constructor,
    [SendResponse]). *)
Inductive phase :=
| Checked (rq : HostRequest)                       (** [has_client_] was true *)
| Allocated (rq : HostRequest) (id : Z)
| Registered (rq : HostRequest) (id : Z)
| Sent (rq : HostRequest) (id : Z) (ok : bool)
| Waiting (rq : HostRequest) (id : Z) (ok : bool)  (** inside [WaitFor] *)
| Responding (h : Header) (p : list Z).

Definition phase_id (ph : phase) : option Z :=
  match ph with
  | Allocated _ id | Registered _ id | Sent _ id _ | Waiting _ id _ => Some id
  | Checked _ | Responding _ _ => None
  end.

(** What [Stop] does, in order, after [running_.exchange(false)]. *)
Inductive stop_action := SStopFlag | SQueueShutdown | SCancelAll | SJoin | SCloseListener | SCloseClient.

Definition stop_actions : list stop_action :=
  [SStopFlag; SQueueShutdown; SCancelAll; SJoin; SCloseListener; SCloseClient].

Definition stop_apply (a : stop_action) (s : Server) : Server :=
  match a with
  | SStopFlag => set_stop_requested true s
  | SQueueShutdown => set_inbound (Queue_Shutdown (inbound_queue_ s)) s
  | SCancelAll => set_pending (CancelAll (pending_ s)) s
  | SJoin => s
  | SCloseListener => set_listener (fst (Listener_Close (listener_ s) (mkOS ∅ ∅ ∅))) s
  | SCloseClient => set_client (Close (client_socket_ s)) s
  end.

Record cstate := mkC {
  srv : Server;
  io_todo : list io_action;      (** what the I/O thread still does in this iteration *)
  stop_todo : list stop_action;  (** what the thread inside [Stop] still does *)
  callers : gmap nat phase;
}.

Inductive event :=
| EvCheck (tid : nat) (rq : HostRequest)
| EvAlloc (tid : nat) (id : Z)
| EvRegister (tid : nat) (id : Z)
| EvSend (tid : nat) (id : Z) (frame : list Z) (ok : bool)
| EvWait (tid : nat) (id : Z)
| EvReturn (tid : nat) (id : option Z) (r : option Message)
| EvCheckRespond (tid : nat)
| EvRespond (tid : nat) (frame : list Z) (ok : bool)
| EvPoll (r : option Message)
| EvRead (acts : list io_action)
| EvIo (a : io_action)
| EvStop (a : option stop_action).

Inductive cstep : cstate -> event -> cstate -> Prop :=
| c_reject s io st cs tid :
    cs !! tid = None -> has_client_ s = false ->
    cstep (mkC s io st cs) (EvReturn tid None None) (mkC s io st cs)
| c_check s io st cs tid rq :
    cs !! tid = None -> has_client_ s = true ->
    cstep (mkC s io st cs) (EvCheck tid rq) (mkC s io st (<[tid := Checked rq]> cs))
| c_alloc s io st cs tid rq id g :
    cs !! tid = Some (Checked rq) -> Next (txn_gen_ s) = (id, g) ->
    cstep (mkC s io st cs) (EvAlloc tid id)
      (mkC (set_txn_gen g s) io st (<[tid := Allocated rq id]> cs))
| c_register s io st cs tid rq id :
    cs !! tid = Some (Allocated rq id) ->
    cstep (mkC s io st cs) (EvRegister tid id)
      (mkC (if rq_expect_response rq then set_pending (RegisterPending id (pending_ s)) s else s)
         io st (<[tid := Registered rq id]> cs))
| c_send s io st cs tid rq id r c :
    cs !! tid = Some (Registered rq id) ->
    SendAll (request_frame rq id) (client_socket_ s) = (r, c) ->
    cstep (mkC s io st cs) (EvSend tid id (request_frame rq id) (bool_decide (r = kOk)))
      (mkC (set_client c s) io st (<[tid := Sent rq id (bool_decide (r = kOk))]> cs))
| c_no_reply s io st cs tid rq id ok :
    cs !! tid = Some (Sent rq id ok) -> rq_expect_response rq = false ->
    cstep (mkC s io st cs) (EvReturn tid (Some id) None) (mkC s io st (delete tid cs))
| c_wait_unknown s io st cs tid rq id ok :
    cs !! tid = Some (Sent rq id ok) -> rq_expect_response rq = true ->
    WaitFor_enter id (pending_ s) = false ->
    cstep (mkC s io st cs) (EvReturn tid (Some id) None) (mkC s io st (delete tid cs))
| c_wait s io st cs tid rq id ok :
    cs !! tid = Some (Sent rq id ok) -> rq_expect_response rq = true ->
    WaitFor_enter id (pending_ s) = true ->
    cstep (mkC s io st cs) (EvWait tid id) (mkC s io st (<[tid := Waiting rq id ok]> cs))
| c_return s io st cs tid rq id ok (timed_out : bool) r t :
    cs !! tid = Some (Waiting rq id ok) ->
    WaitFor_ready id (pending_ s) = true \/ timed_out = true ->
    WaitFor_leave id (pending_ s) = (r, t) ->
    cstep (mkC s io st cs) (EvReturn tid (Some id) (if ok then r else None))
      (mkC (set_pending t s) io st (delete tid cs))
| c_respond_check s io st cs tid h p :
    cs !! tid = None -> has_client_ s = true ->
    cstep (mkC s io st cs) (EvCheckRespond tid) (mkC s io st (<[tid := Responding h p]> cs))
| c_respond s io st cs tid h p r c :
    cs !! tid = Some (Responding h p) ->
    SendAll (SerializeMessage h p) (client_socket_ s) = (r, c) ->
    cstep (mkC s io st cs) (EvRespond tid (SerializeMessage h p) (bool_decide (r = kOk)))
      (mkC (set_client c s) io st (delete tid cs))
| c_poll s io st cs (timed_out : bool) r q :
    Pop_ready (inbound_queue_ s) = true \/ timed_out = true ->
    Pop_finish (inbound_queue_ s) = (r, q) ->
    cstep (mkC s io st cs) (EvPoll r) (mkC (set_inbound q s) io st cs)
| c_read s st cs acts s' :
    running_ s = true -> stop_requested_ s = false -> io_read s = (acts, s') ->
    cstep (mkC s [] st cs) (EvRead acts) (mkC s' acts st cs)
| c_io s a io st cs :
    cstep (mkC s (a :: io) st cs) (EvIo a) (mkC (io_apply a s) io st cs)
| c_stop_begin s io cs :
    running_ s = true ->
    cstep (mkC s io [] cs) (EvStop None) (mkC (set_running false s) io stop_actions cs)
| c_stop s io a st cs :
    (a = SJoin -> io = []) ->
    cstep (mkC s io (a :: st) cs) (EvStop (Some a)) (mkC (stop_apply a s) io st cs).

(** ** Lemmas *)

Definition alloc_of (e : event) : option Z := match e with EvAlloc _ id => Some id | _ => None end.
Definition return_of (e : event) : option Z := match e with EvReturn _ (Some id) _ => Some id | _ => None end.

(** Responses wait under their own id, in the table and in the I/O thread's hands. *)
Definition table_ok (t : PendingTable) : Prop :=
  map_Forall (fun id o => forall m, o = Some m -> answers id m) t.
Definition action_ok (a : io_action) : Prop :=
  match a with AComplete m => is_rtl_response (Type_ (m_header m)) = true | _ => True end.

Record inv (tr : list event) (c : cstate) : Prop := {
  i_allocs : omap alloc_of tr = seqZ 1 (txn_gen_ (srv c) - 1);
  i_gen : 1 <= txn_gen_ (srv c) < 2 ^ 64;
  i_table : table_ok (pending_ (srv c));
  i_todo : Forall action_ok (io_todo c);
  i_phase : forall tid ph id, callers c !! tid = Some ph -> phase_id ph = Some id ->
              EvAlloc tid id ∈ tr;
  i_returned : forall id, id ∈ omap return_of tr -> id ∈ omap alloc_of tr /\
                 forall tid ph, callers c !! tid = Some ph -> phase_id ph <> Some id;
  i_once : NoDup (omap return_of tr);
}.

Lemma omap_snoc {A B} (f : A -> option B) l x :
  omap f (l ++ [x]) = omap f l ++ match f x with Some y => [y] | None => [] end.
Proof. rewrite omap_app. simpl. by destruct (f x). Qed.

(** Two allocations of one id are the same event. *)
Lemma alloc_unique tr t1 t2 id :
  NoDup (omap alloc_of tr) -> EvAlloc t1 id ∈ tr -> EvAlloc t2 id ∈ tr -> t1 = t2.
Proof.
  induction tr as [|e tr IH]; [by rewrite elem_of_nil|]. cbn [omap list_omap].
  rewrite !elem_of_cons. intros Hnd H1 H2.
  assert (Hin : forall t, EvAlloc t id ∈ tr -> id ∈ omap alloc_of tr).
  { intros t Ht. apply list_elem_of_omap. by exists (EvAlloc t id). }
  destruct H1 as [<-|H1], H2 as [E2|H2]; simplify_eq; try done.
  - cbn in Hnd. apply NoDup_cons in Hnd as [Hn _]. destruct Hn. eauto.
  - cbn in Hnd. apply NoDup_cons in Hnd as [Hn _]. destruct Hn. eauto.
  - apply IH; [|done..]. destruct (alloc_of e); [by apply NoDup_cons in Hnd as [_ ?]|done].
Qed.

(** Steps that neither allocate nor return keep the invariant if every id still in
    use was in use by the same thread before. *)
Lemma inv_quiet tr c e c' :
  inv tr c -> alloc_of e = None -> return_of e = None ->
  txn_gen_ (srv c') = txn_gen_ (srv c) -> table_ok (pending_ (srv c')) ->
  Forall action_ok (io_todo c') ->
  (forall tid ph id, callers c' !! tid = Some ph -> phase_id ph = Some id ->
     exists ph0, callers c !! tid = Some ph0 /\ phase_id ph0 = Some id) ->
  inv (tr ++ [e]) c'.
Proof.
  intros [Ha Hg Ht Hd Hp Hr Ho] Ea Er Eg Ht' Hd' Hcs.
  constructor; rewrite ?omap_snoc, ?Ea, ?Er, ?app_nil_r, ?Eg; try done.
  - intros tid ph id H1 H2. destruct (Hcs _ _ _ H1 H2) as (ph0 & H3 & H4).
    apply elem_of_app. left. eauto.
  - intros id Hid. destruct (Hr id Hid) as [Hin Hno]. split; [done|].
    intros tid ph H1 H2. destruct (Hcs _ _ _ H1 H2) as (ph0 & H3 & H4). by eapply Hno.
Qed.

Lemma inv_alloc tr c e tid rq id g :
  inv tr c -> callers c !! tid = Some (Checked rq) -> e = EvAlloc tid id ->
  Next (txn_gen_ (srv c)) = (id, g) -> txn_gen_ (srv c) + 1 < 2 ^ 64 ->
  inv (tr ++ [e]) (mkC (set_txn_gen g (srv c)) (io_todo c) (stop_todo c)
                     (<[tid := Allocated rq id]> (callers c))).
Proof.
  intros [Ha Hg Ht Hd Hp Hr Ho] Hc -> [= <- <-] Hlt.
  assert (Eg : u64 (txn_gen_ (srv c) + 1) = txn_gen_ (srv c) + 1) by (apply wrap_id; split; lia).
  constructor; cbn [srv io_todo callers txn_gen_ pending_ set_txn_gen]; rewrite ?omap_snoc; cbn [alloc_of return_of];
    rewrite ?app_nil_r, ?Eg; try done.
  - rewrite Ha. replace (txn_gen_ (srv c) + 1 - 1) with (txn_gen_ (srv c) - 1 + 1) by lia.
    rewrite (seqZ_app 1 (txn_gen_ (srv c) - 1) 1) by lia. f_equal.
    rewrite (seqZ_cons _ 1) by lia. change (Z.pred 1) with 0.
    replace (1 + (txn_gen_ (srv c) - 1)) with (txn_gen_ (srv c)) by lia. done.
  - lia.
  - intros tid' ph id' H1 H2. apply elem_of_app. destruct (decide (tid' = tid)) as [->|Hne].
    + rewrite lookup_insert_eq in H1. simplify_eq/=. right. by apply list_elem_of_singleton.
    + rewrite lookup_insert_ne in H1 by done. left. eauto.
  - intros id' Hid. destruct (Hr id' Hid) as [Hin Hno]. split; [apply elem_of_app; by left|].
    intros tid' ph H1 H2. destruct (decide (tid' = tid)) as [->|Hne].
    + rewrite lookup_insert_eq in H1. simplify_eq/=. rewrite Ha in Hin. apply elem_of_seqZ in Hin. lia.
    + rewrite lookup_insert_ne in H1 by done. by eapply Hno.
Qed.

Lemma inv_NoDup tr c : inv tr c -> NoDup (omap alloc_of tr).
Proof. intros [Ha _ _ _ _ _ _]. rewrite Ha. apply NoDup_seqZ. Qed.

Lemma inv_return tr c tid ph id r s' :
  inv tr c -> callers c !! tid = Some ph -> phase_id ph = Some id ->
  txn_gen_ s' = txn_gen_ (srv c) -> table_ok (pending_ s') ->
  inv (tr ++ [EvReturn tid (Some id) r]) (mkC s' (io_todo c) (stop_todo c) (delete tid (callers c))).
Proof.
  intros Hi Hc Hid Eg Ht'. pose proof (inv_NoDup _ _ Hi) as Hnd. destruct Hi as [Ha Hg Ht Hd Hp Hr Ho].
  assert (Hal : EvAlloc tid id ∈ tr) by eauto.
  assert (Hfresh : id ∉ omap return_of tr).
  { intros Hin. destruct (Hr id Hin) as [_ Hno]. by eapply Hno. }
  constructor; cbn [srv io_todo callers]; rewrite ?omap_snoc; cbn [alloc_of return_of];
    rewrite ?app_nil_r, ?Eg; try done.
  - intros tid' ph' id' H1 H2. apply elem_of_app. left. apply lookup_delete_Some in H1 as [_ H1]. eauto.
  - intros id' Hin. apply elem_of_app in Hin as [Hin|Hin%list_elem_of_singleton].
    + destruct (Hr id' Hin) as [Hin' Hno]. split; [done|].
      intros tid' ph' H1. apply lookup_delete_Some in H1 as [_ H1]. eauto.
    + subst id'. split; [apply list_elem_of_omap; by exists (EvAlloc tid id)|].
      intros tid' ph' H1 H2. apply lookup_delete_Some in H1 as [Hne H1].
      apply Hne. by eapply alloc_unique; [| |eauto].
  - apply NoDup_app. split_and!; [done| |apply NoDup_singleton].
    intros x Hx Hx'%list_elem_of_singleton. by subst.
Qed.

Lemma table_ok_delete id t : table_ok t -> table_ok (delete id t).
Proof. apply map_Forall_delete. Qed.

Lemma table_ok_leave id t r t' : table_ok t -> WaitFor_leave id t = (r, t') ->
  table_ok t' /\ forall m, r = Some m -> answers id m.
Proof.
  intros Ht. unfold WaitFor_leave. destruct (t !! id) as [cur|] eqn:E; intros; inv_all.
  - split; [by apply table_ok_delete|]. intros m Hm. destruct (_ && _); [|done]. by eapply Ht.
  - split; [done|by intros].
Qed.

Lemma DispatchIncoming_ok m : Forall action_ok (DispatchIncoming m).
Proof. unfold DispatchIncoming. destruct (is_rtl_response _) eqn:E; by repeat constructor. Qed.

Lemma io_read_frame s acts s' :
  io_read s = (acts, s') ->
  txn_gen_ s' = txn_gen_ s /\ pending_ s' = pending_ s /\ Forall action_ok acts.
Proof.
  unfold io_read, HandleHello. intros E.
  repeat (case_match; simplify_eq/=; try (split_and!; [done|done|by repeat constructor])).
  all: split_and!; try done; try apply DispatchIncoming_ok; by repeat constructor.
Qed.

Lemma io_read_running s acts s' : io_read s = (acts, s') -> running_ s' = running_ s.
Proof. unfold io_read, HandleHello. intros E. by repeat (case_match; simplify_eq/=). Qed.

Lemma io_apply_frame a s :
  action_ok a -> table_ok (pending_ s) ->
  txn_gen_ (io_apply a s) = txn_gen_ s /\ table_ok (pending_ (io_apply a s)).
Proof.
  intros Ha Ht. destruct a as [| |m|m]; try done. cbn. split; [done|].
  unfold Complete. destruct (pending_ s !! _); [|done]. cbn.
  apply map_Forall_insert_2; [|done]. by intros ? [= <-].
Qed.

Lemma stop_apply_frame a s :
  table_ok (pending_ s) ->
  txn_gen_ (stop_apply a s) = txn_gen_ s /\ table_ok (pending_ (stop_apply a s)).
Proof. by destruct a. Qed.

(** Moving a thread to a phase with the same id, or with none. *)
Lemma phase_move (cs : gmap nat phase) tid ph ph' :
  cs !! tid = Some ph -> phase_id ph' = phase_id ph \/ phase_id ph' = None ->
  forall t p id, <[tid := ph']> cs !! t = Some p -> phase_id p = Some id ->
    exists p0, cs !! t = Some p0 /\ phase_id p0 = Some id.
Proof.
  intros Hc Hid t p id H1 H2. destruct (decide (t = tid)) as [->|Hne].
  - rewrite lookup_insert_eq in H1. simplify_eq. exists ph. destruct Hid; split; congruence.
  - rewrite lookup_insert_ne in H1 by done. eauto.
Qed.

Lemma phase_enter (cs : gmap nat phase) tid ph' :
  phase_id ph' = None ->
  forall t p id, <[tid := ph']> cs !! t = Some p -> phase_id p = Some id ->
    exists p0, cs !! t = Some p0 /\ phase_id p0 = Some id.
Proof.
  intros Hid t p id H1 H2. destruct (decide (t = tid)) as [->|Hne].
  - rewrite lookup_insert_eq in H1. simplify_eq.
  - rewrite lookup_insert_ne in H1 by done. eauto.
Qed.

Lemma inv_step tr c e c' :
  inv tr c -> cstep c e c' -> Z.of_nat (length (omap alloc_of (tr ++ [e]))) < 2 ^ 64 - 1 ->
  inv (tr ++ [e]) c'.
Proof.
  intros Hi Hs Hn. pose proof Hi as [Ha Hg Ht Hd Hp _ _].
  destruct Hs; cbn [srv io_todo stop_todo callers] in *.
  3:{ eapply (inv_alloc tr (mkC s io st cs)); [done|done|done|done|]. cbn [srv].
      rewrite omap_snoc, length_app, Ha in Hn. cbn in Hn. rewrite length_seqZ in Hn. cbn in Hn. lia. }
  5-6: by eapply (inv_return tr (mkC s io st cs) tid (Sent rq id ok)).
  6:{ eapply (inv_return tr (mkC s io st cs) tid (Waiting rq id ok)); try done.
      by eapply table_ok_leave. }
  all: eapply (inv_quiet _ _ _ _ Hi); cbn [srv io_todo callers]; try done; eauto.
  all: try (by eapply phase_enter).
  all: try (eapply phase_move; [eassumption|by auto]).
  - by destruct (rq_expect_response rq).
  - destruct (rq_expect_response rq); [|done]. by apply map_Forall_insert_2.
  - intros t ph id H1. apply lookup_delete_Some in H1 as [_ H1]. eauto.
  - by edestruct io_read_frame as (-> & _).
  - by edestruct io_read_frame as (_ & -> & _).
  - by edestruct io_read_frame as (_ & _ & ?).
  - apply Forall_cons in Hd as [Hd1 Hd2]. by apply io_apply_frame.
  - apply Forall_cons in Hd as [Hd1 Hd2]. by apply io_apply_frame.
  - by apply Forall_cons in Hd as [_ ?].
  - by apply stop_apply_frame.
  - by apply stop_apply_frame.
Qed.

(** Where returned responses come from. *)
Record prov (tr : list event) (c : cstate) : Prop := {
  p_table : map_Forall (fun _ o => forall m, o = Some m -> EvIo (AComplete m) ∈ tr) (pending_ (srv c));
  p_sent : forall tid rq id, callers c !! tid = Some (Sent rq id true) \/
             callers c !! tid = Some (Waiting rq id true) ->
             EvSend tid id (request_frame rq id) true ∈ tr;
}.

Lemma prov_more tr e c c' :
  prov tr c ->
  (forall id m, pending_ (srv c') !! id = Some (Some m) ->
     pending_ (srv c) !! id = Some (Some m) \/ e = EvIo (AComplete m)) ->
  (forall tid rq id, callers c' !! tid = Some (Sent rq id true) \/
     callers c' !! tid = Some (Waiting rq id true) ->
     callers c !! tid = Some (Sent rq id true) \/ callers c !! tid = Some (Waiting rq id true) \/
     e = EvSend tid id (request_frame rq id) true) ->
  prov (tr ++ [e]) c'.
Proof.
  intros [Ht Hs] Ht' Hs'. constructor.
  - intros id o Ho m ->. apply elem_of_app. destruct (Ht' id m Ho) as [H| ->].
    + left. by eapply Ht.
    + right. by apply list_elem_of_singleton.
  - intros tid rq id H. apply elem_of_app. destruct (Hs' _ _ _ H) as [H1|[H1| ->]];
      [left; eauto..|right; by apply list_elem_of_singleton].
Qed.

Lemma leave_Some id t r t' j m :
  WaitFor_leave id t = (r, t') -> t' !! j = Some (Some m) -> t !! j = Some (Some m).
Proof.
  unfold WaitFor_leave. case_match; intros; simplify_eq; [|done].
  by apply (lookup_delete_Some t id j).
Qed.

Lemma step_table c e c' id m :
  cstep c e c' -> pending_ (srv c') !! id = Some (Some m) ->
  pending_ (srv c) !! id = Some (Some m) \/ e = EvIo (AComplete m).
Proof.
  destruct 1; cbn [srv pending_ set_txn_gen set_client set_inbound set_running]; auto.
  - destruct (rq_expect_response rq); [|by auto]. cbn. unfold RegisterPending.
    intros [[_ ?]|[_ ?]]%lookup_insert_Some; auto. discriminate.
  - intros. left. by eapply leave_Some.
  - edestruct io_read_frame as (_ & -> & _); [done|]. auto.
  - destruct a as [| |m'|m']; cbn; auto. unfold Complete. case_match; cbn; [|by auto].
    intros [[<- ?]|[_ ?]]%lookup_insert_Some; [right; congruence|by auto].
  - destruct a; cbn; auto. unfold CancelAll. by rewrite lookup_empty.
Qed.

Lemma step_callers c e c' tid rq id :
  cstep c e c' ->
  callers c' !! tid = Some (Sent rq id true) \/ callers c' !! tid = Some (Waiting rq id true) ->
  callers c !! tid = Some (Sent rq id true) \/ callers c !! tid = Some (Waiting rq id true) \/
  e = EvSend tid id (request_frame rq id) true.
Proof.
  destruct 1; cbn [callers]; rewrite ?lookup_insert_Some, ?lookup_delete_Some; intros Hc.
  all: repeat match goal with Hx : _ \/ _ |- _ => destruct Hx | Hx : _ /\ _ |- _ => destruct Hx end.
  all: simplify_eq; auto.
  all: match goal with Hx : bool_decide _ = true |- _ => rewrite Hx end; auto.
Qed.

Lemma prov_step tr c e c' : prov tr c -> cstep c e c' -> prov (tr ++ [e]) c'.
Proof. intros Hp Hs. eapply prov_more; eauto using step_table, step_callers. Qed.

(** ** Executions *)

(** A server nobody has called yet. *)
Definition initial (s : Server) : cstate := mkC s [] [] ∅.

Lemma run_inv s tr c :
  txn_gen_ s = 1 -> pending_ s = ∅ -> run cstep (initial s) tr c ->
  Z.of_nat (length (omap alloc_of tr)) < 2 ^ 64 - 1 -> inv tr c /\ prov tr c.
Proof.
  intros Hg Hp. induction 1 as [|tr c e c' _ IH Hs]; intros Hn.
  - split; constructor; cbn; rewrite ?Hg, ?Hp; try done; try set_solver; try constructor.
  - destruct IH as [Hi Hv]; [rewrite omap_snoc, length_app in Hn; lia|].
    split; [by eapply inv_step|by eapply prov_step].
Qed.

(** The frames written by requests and responses, in order, and whether all
    writes succeeded. *)
Definition frame_of (e : event) : option (list Z) :=
  match e with EvSend _ _ f _ | EvRespond _ f _ => Some f | _ => None end.
Definition send_ok (e : event) : bool :=
  match e with EvSend _ _ _ ok | EvRespond _ _ ok => ok | EvIo (ASetClient false) => false | _ => true end.

Lemma io_read_wire s acts s' :
  has_client_ s = true -> io_read s = (acts, s') ->
  s_wire (client_socket_ s') = s_wire (client_socket_ s) /\ has_client_ s' = true.
Proof.
  intros Hc. unfold io_read. rewrite Hc. cbn [negb].
  destruct (WaitReadable (client_socket_ s)) as [w c1] eqn:E1.
  assert (Hw : s_wire c1 = s_wire (client_socket_ s)).
  { unfold WaitReadable in E1. destruct (PollFor _ _ _). by injection E1 as _ <-. }
  destruct w; try (intros; by simplify_eq/=). cbn [client_socket_ set_client].
  destruct (RecvMessage c1) as [r c2] eqn:E2. apply RecvMessage_wire in E2.
  destruct r; try (intros; simplify_eq/=; by rewrite E2).
  case_bool_decide; intros; simplify_eq/=; by rewrite E2.
Qed.

Lemma s_wire_Close c : s_wire (Close c) = s_wire c.
Proof. unfold Close. by destruct (0 <=? _). Qed.

Lemma step_wire c e c' :
  cstep c e c' -> has_client_ (srv c) = true -> send_ok e = true ->
  has_client_ (srv c') = true /\
  s_wire (client_socket_ (srv c')) = s_wire (client_socket_ (srv c)) ++ default [] (frame_of e).
Proof.
  destruct 1; intros Hc He; cbn [srv frame_of default send_ok] in *; rewrite ?app_nil_r; try done.
  - by destruct (rq_expect_response rq).
  - apply bool_decide_eq_true in He. subst r. split; [done|].
    match goal with E : SendAll _ _ = _ |- _ => apply SendAll_safe in E as (_ & _ & _ & Hk & _) end.
    by apply Hk.
  - apply bool_decide_eq_true in He. subst r. split; [done|].
    match goal with E : SendAll _ _ = _ |- _ => apply SendAll_safe in E as (_ & _ & _ & Hk & _) end.
    by apply Hk.
  - by edestruct io_read_wire.
  - destruct a as [[]| | |]; cbn in *; try done. by rewrite s_wire_Close.
  - destruct a; cbn; try done. by rewrite s_wire_Close.
Qed.

Lemma run_wire c0 tr c :
  run cstep c0 tr c -> has_client_ (srv c0) = true -> Forall (fun e => send_ok e = true) tr ->
  has_client_ (srv c) = true /\
  s_wire (client_socket_ (srv c)) = s_wire (client_socket_ (srv c0)) ++ concat (omap frame_of tr).
Proof.
  induction 1 as [|tr c e c' _ IH Hs]; intros Hc Hok.
  - by rewrite app_nil_r.
  - apply Forall_app in Hok as [Hok He]. rewrite Forall_singleton in He. destruct (IH Hc Hok) as [Hc1 Hw1].
    destruct (step_wire _ _ _ Hs Hc1 He) as [Hc2 Hw2]. split; [done|].
    rewrite Hw2, Hw1, omap_snoc, concat_app, app_assoc. by destruct (frame_of e); cbn; rewrite ?app_nil_r.
Qed.

(** *** [Stop] *)

Definition reg_of (e : event) : option Z := match e with EvRegister _ id => Some id | _ => None end.
Definition stop_of (e : event) : option stop_action := match e with EvStop (Some a) => Some a | _ => None end.

(** Every id is registered once, and what is pending after [CancelAll] was
    registered after it. *)
Record reg_inv (tr : list event) (c : cstate) : Prop := {
  r_alloc : forall id, id ∈ omap reg_of tr -> id ∈ omap alloc_of tr;
  r_fresh : forall tid rq id, callers c !! tid = Some (Allocated rq id) -> id ∉ omap reg_of tr;
  r_once : NoDup (omap reg_of tr);
  r_cancel : forall tr1 tr2 id, tr = tr1 ++ EvStop (Some SCancelAll) :: tr2 ->
               is_Some (pending_ (srv c) !! id) -> id ∈ omap reg_of tr2;
}.

Lemma leave_dom id t r t' j : WaitFor_leave id t = (r, t') -> is_Some (t' !! j) -> is_Some (t !! j).
Proof.
  unfold WaitFor_leave. case_match; intros; simplify_eq; [|done].
  by apply (lookup_delete_is_Some t id j).
Qed.

Lemma step_pending c e c' id :
  cstep c e c' -> is_Some (pending_ (srv c') !! id) ->
  e <> EvStop (Some SCancelAll) /\ (is_Some (pending_ (srv c) !! id) \/ reg_of e = Some id).
Proof.
  destruct 1; cbn [srv pending_ set_txn_gen set_client set_inbound set_running reg_of]; auto.
  - destruct (rq_expect_response rq); [|by auto]. cbn. unfold RegisterPending.
    rewrite lookup_insert_is_Some. intros [->|[_ ?]]; auto.
  - intros Hin. split; [done|]. left. by eapply leave_dom.
  - edestruct io_read_frame as (_ & -> & _); [done|]. auto.
  - destruct a as [| |m'|m']; cbn; auto. unfold Complete. case_match; cbn; [|by auto].
    rewrite lookup_insert_is_Some. intros [<-|[_ ?]]; eauto.
  - destruct a; cbn; auto. unfold CancelAll. rewrite lookup_empty. by intros [? ?].
Qed.

Lemma step_allocated c e c' tid rq id :
  cstep c e c' -> callers c' !! tid = Some (Allocated rq id) ->
  (callers c !! tid = Some (Allocated rq id) /\ e <> EvRegister tid id) \/ e = EvAlloc tid id.
Proof.
  destruct 1; cbn [callers]; rewrite ?lookup_insert_Some, ?lookup_delete_Some; intros Hc.
  all: repeat match goal with Hx : _ \/ _ |- _ => destruct Hx | Hx : _ /\ _ |- _ => destruct Hx end.
  all: simplify_eq; auto. all: left; split; congruence.
Qed.

Lemma step_reg c e c' id :
  cstep c e c' -> reg_of e = Some id -> exists tid rq, e = EvRegister tid id /\ callers c !! tid = Some (Allocated rq id).
Proof. destruct 1; intros; simplify_eq/=; eauto. Qed.

Lemma snoc_split {A} (tr tr1 tr2 : list A) e x :
  tr ++ [e] = tr1 ++ x :: tr2 -> (tr2 = [] /\ e = x /\ tr = tr1) \/
  exists tr2', tr2 = tr2' ++ [e] /\ tr = tr1 ++ x :: tr2'.
Proof.
  destruct tr2 as [|y tr2 _] using rev_ind.
  - intros [-> [= ->]]%app_inj_tail. by left.
  - rewrite app_comm_cons, app_assoc. intros [-> ->]%app_inj_tail. right. by exists tr2.
Qed.

Lemma reg_step tr c e c' : inv tr c -> inv (tr ++ [e]) c' -> reg_inv tr c -> cstep c e c' -> reg_inv (tr ++ [e]) c'.
Proof.
  intros Hi Hi' [Ha Hf Ho Hc] Hs.
  assert (Hreg : forall id, reg_of e = Some id -> id ∈ omap alloc_of tr /\ id ∉ omap reg_of tr).
  { intros id E. destruct (step_reg _ _ _ _ Hs E) as (tid & rq & -> & Hcl). split; [|eauto].
    apply list_elem_of_omap. exists (EvAlloc tid id). split; [|done]. by eapply (i_phase _ _ Hi). }
  constructor.
  - intros id. rewrite !omap_snoc, !elem_of_app. intros [?|Hin]; [by auto|].
    destruct (reg_of e) eqn:E; [|by apply elem_of_nil in Hin].
    apply list_elem_of_singleton in Hin as ->. left. by apply Hreg.
  - intros tid rq id Hcl. rewrite omap_snoc, elem_of_app. intros Hin.
    destruct (step_allocated _ _ _ _ _ _ Hs Hcl) as [[Hcl0 Hne]| ->].
    + destruct Hin as [Hin|Hin]; [by eapply Hf|]. destruct (reg_of e) as [id'|] eqn:E; [|by apply elem_of_nil in Hin].
      apply list_elem_of_singleton in Hin as <-. destruct (step_reg _ _ _ _ Hs E) as (tid' & rq' & -> & Hcl').
      apply Hne. f_equal. eapply (alloc_unique tr); [by eapply (inv_NoDup _ c)|by eapply (i_phase _ _ Hi)..].
    + destruct Hin as [Hin|Hin]; [|by apply elem_of_nil in Hin].
      pose proof (inv_NoDup _ _ Hi') as Hnd. rewrite omap_snoc in Hnd. apply NoDup_app in Hnd as (_ & Hd & _).
      apply (Hd id (Ha _ Hin)). by apply list_elem_of_singleton.
  - rewrite omap_snoc. destruct (reg_of e) as [id|] eqn:E; [|by rewrite app_nil_r].
    apply NoDup_app. split_and!; [done| |apply NoDup_singleton].
    intros x Hx ->%list_elem_of_singleton. by apply (Hreg id).
  - intros tr1 tr2 id Htr Hin. destruct (step_pending _ _ _ _ Hs Hin) as [Hne Hor].
    destruct (snoc_split _ _ _ _ _ Htr) as [(_ & ? & _)|(tr2' & -> & ->)]; [done|].
    rewrite omap_snoc, elem_of_app. destruct Hor as [Hp| ->]; [left; by eapply Hc|right; by apply list_elem_of_singleton].
Qed.

(** What each action of [Stop] has established for good. *)
Definition stop_effect (c : cstate) (a : stop_action) : Prop :=
  match a with
  | SStopFlag => stop_requested_ (srv c) = true
  | SQueueShutdown => shutdown_ (inbound_queue_ (srv c)) = true
  | SCancelAll => True
  | SJoin => io_todo c = []
  | SCloseListener => l_fd (listener_ (srv c)) < 0
  | SCloseClient => fd_ (client_socket_ (srv c)) < 0
  end.

(** How far [Stop] has come. *)
Definition stop_inv (tr : list event) (c : cstate) : Prop :=
  (running_ (srv c) = true /\ stop_todo c = [] /\ omap stop_of tr = []) \/
  (running_ (srv c) = false /\ omap stop_of tr ++ stop_todo c = stop_actions /\
   Forall (stop_effect c) (omap stop_of tr)).

Lemma l_fd_Listener_Close l os : l_fd (fst (Listener_Close l os)) < 0.
Proof. unfold Listener_Close. destruct (Z.leb_spec 0 (l_fd l)); cbn; lia. Qed.
Lemma fd_Close c : fd_ (Close c) < 0.
Proof. unfold Close. destruct (Z.leb_spec 0 (fd_ c)); cbn; lia. Qed.

Lemma effect_step c e c' a :
  cstep c e c' -> running_ (srv c) = false -> stop_effect c a -> running_ (srv c') = false /\ stop_effect c' a.
Proof.
  destruct 1; cbn [srv]; intros Hrun He; try done; try (split; [done|by destruct a]).
  - destruct (rq_expect_response rq); (split; [done|by destruct a]).
  - split; [done|]. destruct a; cbn in *; try done.
    match goal with E : SendAll _ _ = _ |- _ => apply SendAll_safe in E as (_ & _ & _ & _ & -> & _) end. done.
  - split; [done|]. destruct a; cbn in *; try done.
    match goal with E : SendAll _ _ = _ |- _ => apply SendAll_safe in E as (_ & _ & _ & _ & -> & _) end. done.
  - split; [done|]. destruct a; cbn in *; try done.
    match goal with E : Pop_finish _ = _ |- _ => revert E end. unfold Pop_finish. repeat case_match; intros; by simplify_eq/=.
  - congruence.
  - split; [by destruct a0|]. destruct a; cbn in *; try done; destruct a0; cbn; try done. apply fd_Close.
  - split; [by destruct a0|]. destruct a; cbn in *; try done; destruct a0; cbn; try done.
    + apply l_fd_Listener_Close.
    + apply fd_Close.
Qed.

Lemma step_not_stop c e c' :
  cstep c e c' -> (forall a, e <> EvStop a) ->
  stop_todo c' = stop_todo c /\ stop_of e = None /\ running_ (srv c') = running_ (srv c).
Proof.
  destruct 1; intros Hne; cbn; try done.
  - by destruct (rq_expect_response rq).
  - split_and!; [done..|]. by eapply io_read_running.
  - split_and!; [done..|]. by destruct a.
  - by destruct (Hne None).
  - by destruct (Hne (Some a)).
Qed.

Lemma stop_inv_step tr c e c' : stop_inv tr c -> cstep c e c' -> stop_inv (tr ++ [e]) c'.
Proof.
  intros Hi Hs. unfold stop_inv. rewrite omap_snoc.
  assert (He : (exists a, e = EvStop a) \/ forall a, e <> EvStop a) by (destruct e; naive_solver).
  destruct He as [[a ->]|Hne].
  - inversion Hs as [| | | | | | | | | | | | | |s io cs Hrun|s io a' st cs Hj]; subst.
    + destruct Hi as [(_ & _ & E)|(Hr & _)]; cbn in *; [|congruence]. right. by rewrite E.
    + destruct Hi as [(_ & ? & _)|(Hr & E & Hf)]; cbn in *; [done|]. right.
      split_and!; [by destruct a'|by rewrite <- app_assoc|].
      apply Forall_app. split.
      * eapply Forall_impl; [exact Hf|]. intros b Hb. by apply (effect_step _ _ _ b Hs Hr Hb).
      * apply Forall_singleton. destruct a'; cbn; auto using l_fd_Listener_Close, fd_Close.
  - destruct (step_not_stop _ _ _ Hs) as (E1 & -> & E2); [done|]. rewrite E1, E2, app_nil_r.
    destruct Hi as [?|(Hr & E & Hf)]; [by left|right]. split_and!; [done..|].
    eapply Forall_impl; [exact Hf|]. intros b Hb. by apply (effect_step _ _ _ b Hs Hr Hb).
Qed.

Lemma run_stop_inv s tr c : running_ s = true -> run cstep (initial s) tr c -> stop_inv tr c.
Proof.
  intros Hr. induction 1 as [|tr c e c' _ IH Hs]; [by left|by eapply stop_inv_step].
Qed.

Lemma run_reg_inv s tr c :
  txn_gen_ s = 1 -> pending_ s = ∅ -> run cstep (initial s) tr c ->
  Z.of_nat (length (omap alloc_of tr)) < 2 ^ 64 - 1 -> reg_inv tr c.
Proof.
  intros Hg Hp Hr. induction Hr as [|tr c e c' Hr IH Hs]; intros Hn.
  - constructor; cbn; [set_solver|set_solver|constructor|]. intros [|??]; by intros.
  - assert (Hn' : Z.of_nat (length (omap alloc_of tr)) < 2 ^ 64 - 1)
      by (rewrite omap_snoc, length_app in Hn; lia).
    eapply reg_step; [by apply (run_inv s)|apply (run_inv s); [done..|by eapply run_snoc|done]|by apply IH|done].
Qed.

(** Once [CancelAll] has run, [Stop] is under way and the queue is shut down. *)
Lemma cancelled_stopping tr1 tr2 c :
  stop_inv (tr1 ++ EvStop (Some SCancelAll) :: tr2) c ->
  running_ (srv c) = false /\ stop_requested_ (srv c) = true /\ shutdown_ (inbound_queue_ (srv c)) = true.
Proof.
  intros Hi. assert (Hin : SCancelAll ∈ omap stop_of (tr1 ++ EvStop (Some SCancelAll) :: tr2)).
  { rewrite omap_app. cbn. apply elem_of_app. right. by left. }
  destruct Hi as [(_ & _ & E)|(Hr & E & Hf)]; [rewrite E in Hin; by apply elem_of_nil in Hin|].
  destruct (omap stop_of _) as [|a1 [|a2 done_]]; cbn in E; unfold stop_actions in E;
    [by apply elem_of_nil in Hin|simplify_eq; by apply list_elem_of_singleton in Hin|].
  injection E as -> -> _. apply Forall_cons in Hf as [H1 Hf]. apply Forall_cons in Hf as [H2 _]. done.
Qed.

(** ** Properties *)

(** C3: correlation under concurrency.  In every interleaving of any number of
    threads calling [SendRequestToHost] and [SendResponse], the I/O thread and
    [Stop], with fewer than 2^64 - 1 allocations: a call that returns a response
    returns one carrying the id that was allocated for that very call, which the
    I/O thread received and this caller had sent its own request for; no other
    call was ever given that id, and no transaction returns twice. *)
Theorem concurrent_correlation s tr1 tid id m tr2 c :
  txn_gen_ s = 1 -> pending_ s = ∅ ->
  run cstep (initial s) (tr1 ++ EvReturn tid id (Some m) :: tr2) c ->
  Z.of_nat (length (omap alloc_of (tr1 ++ EvReturn tid id (Some m) :: tr2))) < 2 ^ 64 - 1 ->
  exists txn rq, id = Some txn /\ answers txn m /\ EvIo (AComplete m) ∈ tr1 /\
    EvAlloc tid txn ∈ tr1 /\ EvSend tid txn (request_frame rq txn) true ∈ tr1 /\
    (forall tid', EvAlloc tid' txn ∈ tr1 ++ tr2 -> tid' = tid) /\
    txn ∉ omap return_of (tr1 ++ tr2).
Proof.
  intros Hg Hp Hr Hn. pose proof (run_inv _ _ _ Hg Hp Hr Hn) as [Hi _].
  destruct (run_inv_step _ _ _ _ tr2 _ Hr) as (c1 & c2 & Hr1 & Hs).
  destruct (run_inv _ _ _ Hg Hp Hr1) as [Hi1 Hv1].
  { rewrite omap_app, length_app in Hn. lia. }
  remember (EvReturn tid id (Some m)) as e eqn:Ee. destruct Hs; simplify_eq.
  destruct ok; [|done]. simplify_eq. exists id0, rq.
  assert (Hm : pending_ s0 !! id0 = Some (Some m)).
  { match goal with E : WaitFor_leave _ _ = _ |- _ => revert E end. unfold WaitFor_leave.
    case_match; [|by intros]. case_match; [|by intros]. intros [= -> _]. done. }
  assert (Hal : EvAlloc tid id0 ∈ tr1) by (by eapply (i_phase _ _ Hi1)).
  pose proof (inv_NoDup _ _ Hi) as Hnd. pose proof (i_once _ _ Hi) as Ho.
  split_and!; [done| | |done| | |].
  - by eapply (i_table _ _ Hi1).
  - by eapply (p_table _ _ Hv1).
  - eapply (p_sent _ _ Hv1). by right.
  - intros tid' Hin. eapply alloc_unique; [exact Hnd| |].
    + apply elem_of_app in Hin as [?|?]; apply elem_of_app; [by left|right; by apply elem_of_cons; right].
    + apply elem_of_app. by left.
  - rewrite omap_app in Ho |- *. cbn in Ho. apply NoDup_app in Ho as (_ & Hd & Hnd2).
    apply NoDup_cons in Hnd2 as [Hni _]. rewrite elem_of_app. intros [Hin|Hin]; [|done].
    apply (Hd _ Hin). by left.
Qed.

(** Frames never interleave.  While the client stays connected and no write
    fails, whatever the interleaving of the writers, the bytes on the wire are the
    whole frames of the requests and responses, one after the other, in the order
    in which the writers held [send_mutex_]. *)
Theorem wire_is_whole_frames c0 tr c :
  run cstep c0 tr c -> has_client_ (srv c0) = true -> Forall (fun e => send_ok e = true) tr ->
  s_wire (client_socket_ (srv c)) = s_wire (client_socket_ (srv c0)) ++ concat (omap frame_of tr).
Proof. intros. by apply run_wire. Qed.

(** C25: what [Stop] does for the threads that are blocked, in every interleaving of
    callers, I/O thread and [Stop] on a server that was running.  Once
    [pending_.CancelAll()] has been executed, at every later moment: a call of
    [SendRequestToHost] that had registered its id before, and has sent its request
    or is blocked in [WaitFor], can return at once, with no response, without
    waiting for its time-out; a blocked [PollInbound] can return at once; the I/O
    thread begins no further iteration, and none after that moment was begun; and
    when [Stop] has done all its actions both sockets are closed.  (A call that
    registers after [CancelAll] is not released: [late_registration_waits].) *)
Theorem stop_ends_waits s tr1 tr2 c :
  txn_gen_ s = 1 -> pending_ s = ∅ -> running_ s = true ->
  run cstep (initial s) (tr1 ++ EvStop (Some SCancelAll) :: tr2) c ->
  Z.of_nat (length (omap alloc_of (tr1 ++ EvStop (Some SCancelAll) :: tr2))) < 2 ^ 64 - 1 ->
  (forall tid rq id ok, EvRegister tid id ∈ tr1 ->
     callers c !! tid = Some (Sent rq id ok) \/ callers c !! tid = Some (Waiting rq id ok) ->
     WaitFor_ready id (pending_ (srv c)) = true /\
     exists c', cstep c (EvReturn tid (Some id) None) c' /\ callers c' !! tid = None) /\
  Pop_ready (inbound_queue_ (srv c)) = true /\
  running_ (srv c) = false /\ (forall acts, EvRead acts ∉ tr2) /\
  (stop_todo c = [] -> io_todo c = [] /\ fd_ (client_socket_ (srv c)) < 0 /\ l_fd (listener_ (srv c)) < 0).
Proof.
  intros Hg Hp Hrun Hr Hn. pose proof (run_stop_inv _ _ _ Hrun Hr) as Hst.
  destruct (cancelled_stopping _ _ _ Hst) as (Hf & _ & Hq). split_and!; [| |done| |].
  - intros tid rq id ok Hin Hcl. pose proof (run_reg_inv _ _ _ Hg Hp Hr Hn) as [_ _ Ho Hca].
    assert (Hno : pending_ (srv c) !! id = None).
    { destruct (pending_ (srv c) !! id) eqn:E; [|done]. exfalso.
      assert (Hin2 : id ∈ omap reg_of tr2) by (by eapply Hca).
      rewrite omap_app in Ho. apply NoDup_app in Ho as (_ & Hd & _). apply (Hd id); [|done].
      apply list_elem_of_omap. by exists (EvRegister tid id). }
    split; [by unfold WaitFor_ready; rewrite Hno|]. destruct c as [s' io st cs]; cbn [srv callers] in *.
    exists (mkC s' io st (delete tid cs)). split; [|by apply lookup_delete_eq].
    destruct Hcl as [Hcl|Hcl].
    + destruct (rq_expect_response rq) eqn:Ex; [|by eapply c_no_reply].
      eapply c_wait_unknown; [done..|]. unfold WaitFor_enter. by rewrite Hno.
    + replace None with (if ok then @None Message else None) by (by destruct ok).
      replace s' with (set_pending (pending_ s') s') at 2 by (by destruct s').
      eapply (c_return _ _ _ _ _ _ _ _ false); [done|left|]; unfold WaitFor_ready, WaitFor_leave; by rewrite Hno.
  - unfold Pop_ready. rewrite Hq. by destruct (queue_ _).
  - intros acts (tra & trb & ->)%list_elem_of_split.
    rewrite app_comm_cons, app_assoc in Hr. destruct (run_inv_step _ _ _ _ _ _ Hr) as (c1 & c2 & Hr1 & Hs).
    pose proof (run_stop_inv _ _ _ Hrun Hr1) as Hst1. apply cancelled_stopping in Hst1 as (Hf1 & _).
    inversion Hs. subst. cbn in Hf1. congruence.
  - intros Hdone. destruct Hst as [(Ht & _)|(_ & E & Hall)]; [congruence|].
    rewrite Hdone, app_nil_r in E. rewrite E in Hall. unfold stop_actions in Hall.
    rewrite !Forall_cons in Hall. cbn in Hall. naive_solver.
Qed.

(** *** A run: one caller, whose response the I/O thread receives in two pieces *)

Definition conc_rsp : Message :=
  mkMessage (MakeHeader kDmaReadRsp 1 0 0 kSuccess 8 2 kFlagIsResponse 0) [17; 34].
Definition conc_server : Server :=
  mkServer "/tmp/s.sock" true true false no_listener
    (mkSock 3 (replicate 70 (PollReady POLLIN)) (replicate 4 (PollReady POLLOUT))
       [RecvBytes (take 30 (wire_of conc_rsp)); RecvBytes (drop 30 (wire_of conc_rsp))]
       [SendTake 40; SendTake 40] []) 1 Queue_init ∅.
Definition conc_trace : list event :=
  [EvCheck 0 sample_read; EvAlloc 0 1; EvRegister 0 1;
   EvSend 0 1 (request_frame sample_read 1) true; EvWait 0 1;
   EvRead [AComplete conc_rsp]; EvIo (AComplete conc_rsp)].

Definition conc_sent : Server :=
  let s := set_pending (RegisterPending 1 ∅) (set_txn_gen 2 conc_server) in
  set_client (snd (SendAll (request_frame sample_read 1) (client_socket_ s))) s.
Definition conc_read : Server := snd (io_read conc_sent).
Definition conc_filed : Server := io_apply (AComplete conc_rsp) conc_read.

Lemma conc_run :
  exists c, run cstep (initial conc_server) (conc_trace ++ [EvReturn 0 (Some 1) (Some conc_rsp)]) c.
Proof.
  pose proof (run_nil cstep (initial conc_server)) as R.
  unshelve epose proof (run_snoc _ _ _ _ _ _ R (c_check conc_server [] [] ∅ 0 sample_read eq_refl eq_refl)) as R1.
  unshelve epose proof (run_snoc _ _ _ _ _ _ R1 (c_alloc _ _ _ _ 0 sample_read 1 2 _ _)) as R2; [reflexivity..|].
  unshelve epose proof (run_snoc _ _ _ _ _ _ R2 (c_register _ _ _ _ 0 sample_read 1 _)) as R3; [reflexivity|].
  assert (Es : SendAll (request_frame sample_read 1)
                 (client_socket_ (set_pending (RegisterPending 1 ∅) (set_txn_gen 2 conc_server))) =
               (kOk, client_socket_ conc_sent)) by (vm_compute; reflexivity).
  unshelve epose proof (run_snoc _ _ _ _ _ _ R3 (c_send _ _ _ _ 0 sample_read 1 _ _ _ Es)) as R4; [reflexivity|].
  rewrite bool_decide_true in R4 by done.
  unshelve epose proof (run_snoc _ _ _ _ _ _ R4 (c_wait _ _ _ _ 0 sample_read 1 true _ _ _)) as R5; [reflexivity..|].
  assert (Er : io_read conc_sent = ([AComplete conc_rsp], conc_read)) by (vm_compute; reflexivity).
  unshelve epose proof (run_snoc _ _ _ _ _ _ R5 (c_read conc_sent _ _ _ _ eq_refl eq_refl Er)) as R6.
  unshelve epose proof (run_snoc _ _ _ _ _ _ R6 (c_io _ _ _ _ _)) as R7.
  assert (El : WaitFor_leave 1 (pending_ conc_filed) = (Some conc_rsp, delete 1 (pending_ conc_filed)))
    by (vm_compute; reflexivity).
  unshelve epose proof (run_snoc _ _ _ _ _ _ R7
    (c_return conc_filed _ _ _ 0 sample_read 1 true true _ _ _ (or_intror eq_refl) El)) as R8; [reflexivity|].
  eexists. exact R8.
Qed.

Lemma concurrent_correlation_witness :
  exists txn rq, Some 1 = Some txn /\ answers txn conc_rsp /\ EvIo (AComplete conc_rsp) ∈ conc_trace /\
    EvAlloc 0 txn ∈ conc_trace /\ EvSend 0 txn (request_frame rq txn) true ∈ conc_trace /\
    (forall tid', EvAlloc tid' txn ∈ conc_trace ++ [] -> tid' = 0%nat) /\
    txn ∉ omap return_of (conc_trace ++ []).
Proof.
  destruct conc_run as [c Hr].
  refine (concurrent_correlation conc_server conc_trace 0 (Some 1) conc_rsp [] c _ _ Hr _).
  - reflexivity.
  - reflexivity.
  - vm_compute. reflexivity.
Defined.

Lemma wire_is_whole_frames_witness :
  exists c, s_wire (client_socket_ (srv c)) = [] ++ concat (omap frame_of conc_trace).
Proof.
  destruct conc_run as [c Hr].
  exists c.
  refine (wire_is_whole_frames (initial conc_server) (conc_trace ++ [EvReturn 0 (Some 1) (Some conc_rsp)])
            c Hr _ _).
  - reflexivity.
  - repeat constructor.
Defined.

(** A server with one connection, no traffic, and room for one frame. *)
Definition stop_server : Server :=
  mkServer "/tmp/s.sock" true true false (mkListener 4 "/tmp/s.sock" [] [])
    (mkSock 3 [] [PollReady POLLOUT] [] [SendTake 64] []) 1 Queue_init ∅.
Definition stop_sent : Server :=
  let s := set_pending {[1 := None]} (set_txn_gen 2 stop_server) in
  set_client (snd (SendAll (request_frame sample_read 1) (client_socket_ s))) s.

(** A caller blocked in [WaitFor] when [Stop] is called. *)
Definition blocked_trace : list event :=
  [EvCheck 0 sample_read; EvAlloc 0 1; EvRegister 0 1; EvSend 0 1 (request_frame sample_read 1) true;
   EvWait 0 1; EvStop None; EvStop (Some SStopFlag); EvStop (Some SQueueShutdown)].
Definition stop_rest : list event :=
  [EvStop (Some SJoin); EvStop (Some SCloseListener); EvStop (Some SCloseClient)].

Lemma blocked_run :
  exists c, run cstep (initial stop_server) (blocked_trace ++ EvStop (Some SCancelAll) :: stop_rest) c /\
    callers c !! 0%nat = Some (Waiting sample_read 1 true) /\ stop_todo c = [].
Proof.
  pose proof (run_nil cstep (initial stop_server)) as R. unfold initial in R.
  extend R (c_check _ _ _ _ 0 sample_read _ _). extend R (c_alloc _ _ _ _ 0 sample_read 1 2 _ _).
  extend R (c_register _ _ _ _ 0 sample_read 1 _).
  extend R (c_send _ _ _ _ 0 sample_read 1 kOk (client_socket_ stop_sent) _ _).
  rewrite bool_decide_true in R by done.
  extend R (c_wait _ _ _ _ 0 sample_read 1 true _ _ _).
  extend R (c_stop_begin _ _ _ _). unfold stop_actions in R.
  do 6 extend R (c_stop _ _ _ _ _ (fun _ => eq_refl)).
  eexists. split; [exact R|]. split; reflexivity.
Qed.

Lemma stop_ends_waits_witness :
  exists c c', run cstep (initial stop_server) (blocked_trace ++ EvStop (Some SCancelAll) :: stop_rest) c /\
    callers c !! 0%nat = Some (Waiting sample_read 1 true) /\
    cstep c (EvReturn 0 (Some 1) None) c' /\ fd_ (client_socket_ (srv c)) < 0.
Proof.
  destruct blocked_run as (c & R & Hc & Ht).
  destruct (stop_ends_waits stop_server blocked_trace stop_rest c eq_refl eq_refl eq_refl R)
    as (Hw & _ & _ & _ & Hd); [vm_compute; reflexivity|].
  destruct (Hw 0%nat sample_read 1 true) as (_ & c' & Hs & _).
  - do 2 right. left.
  - right. exact Hc.
  - exists c, c'. split_and!; [exact R|exact Hc|exact Hs|exact (proj1 (proj2 (Hd Ht)))].
Defined.

(** A caller that has found [has_client_] set but registers its id only after
    [CancelAll] is not released by [Stop]: it stays blocked, its entry in the table,
    until its own time-out, although [Stop] has returned and the I/O thread that
    could complete it is gone. *)
Theorem late_registration_waits :
  exists tr c, run cstep (initial stop_server) tr c /\ stop_todo c = [] /\ io_todo c = [] /\
    running_ (srv c) = false /\ callers c !! 0%nat = Some (Waiting sample_read 1 true) /\
    WaitFor_ready 1 (pending_ (srv c)) = false.
Proof.
  pose proof (run_nil cstep (initial stop_server)) as R. unfold initial in R.
  extend R (c_check _ _ _ _ 0 sample_read _ _). extend R (c_alloc _ _ _ _ 0 sample_read 1 2 _ _).
  extend R (c_stop_begin _ _ _ _). unfold stop_actions in R.
  do 3 extend R (c_stop _ _ _ _ _ (fun _ => eq_refl)).
  extend R (c_register _ _ _ _ 0 sample_read 1 _).
  extend R (c_send _ _ _ _ 0 sample_read 1 kOk (client_socket_ stop_sent) _ _).
  rewrite bool_decide_true in R by done.
  extend R (c_wait _ _ _ _ 0 sample_read 1 true _ _ _).
  do 3 extend R (c_stop _ _ _ _ _ (fun _ => eq_refl)).
  eexists _, _. split; [exact R|]. vm_compute. split_and!; reflexivity.
Qed.

(** The client can observe the HELLO_ACK while [HasClient] is still false: the store
    to [has_client_] comes after the acknowledgement is on the wire. *)
Theorem hello_ack_before_has_client :
  exists c acts, run cstep (initial sample_listening) [EvRead acts] c /\
    s_wire (client_socket_ (srv c)) = SerializeMessage (HelloAckHeader sample_hello) [] /\
    HasClient (srv c) = false.
Proof.
  assert (Er : io_read sample_listening = (fst (io_read sample_listening), snd (io_read sample_listening)))
    by apply surjective_pairing.
  pose proof (run_one _ _ _ _ (c_read sample_listening [] ∅ _ _ eq_refl eq_refl Er)) as R.
  eexists _, _. split; [exact R|]. vm_compute. split; reflexivity.
Qed.
