(* ===== verification/SendLock.v ===== *)
(** * [send_mutex_]

    [Concurrency] writes a frame in one step.  Here the write is taken apart as
    [UnixSocket::SendAll] (mini-ics/src/socket.cpp) performs it inside the
    [lock_guard] of [SendRequestToHost] and [SendResponse]: take [send_mutex_], then
    [poll] and [send] one call at a time, then release.  Everything else any thread
    does may happen between two such calls.  The theorem shows that executions of
    this finer system are executions of [Concurrency.cstep], so that what is proved
    there holds here.

    The server closes and replaces [client_socket_] without taking the mutex.  The
    refinement is therefore stated for executions in which that does not happen while
    a writer is inside, and [close_cuts_frame] shows what happens otherwise.  The
    handshake stays one step: it runs before [has_client_] is set. *)
From S2P Require Import Prelude Protocol Socket Framing Transaction Interface Server Concurrency.
From stdpp Require Import options.
#[local] Open Scope Z_scope.

(** Where a writer is between [lock] and [unlock]. *)
Inductive wphase :=
| Polling (sent : nat)    (** at the loop condition, about to wait for [POLLOUT] *)
| Writing (sent : nat)    (** about to call [send] *)
| Leaving (st : IoStatus). (** [SendAll] has returned, the mutex is still held *)

(** The loop condition of [SendAll] and its call of [PollFor]. *)
Definition send_poll (data : list Z) (sent : nat) (c : Sock) : wphase * Sock :=
  if (sent <? length data)%nat then
    let '(wait, pollout) := PollFor (fd_ c) POLLOUT (s_pollout c) in
    (if negb (bool_decide (wait = kOk)) then Leaving wait else Writing sent,
     set_writes pollout (s_send c) (s_wire c) c)
  else (Leaving kOk, c).

(** The call of [send] and the handling of its result. *)
Definition send_write (data : list Z) (sent : nat) (c : Sock) : wphase * Sock :=
  match s_send c with
  | [] => (Leaving kIoError, c)
  | SendFail e :: sends =>
      (if retry e then Polling sent
       else if bool_decide (e = EPIPE) || bool_decide (e = ECONNRESET) then Leaving kDisconnected
       else Leaving kIoError, set_writes (s_pollout c) sends (s_wire c) c)
  | SendTake k :: sends =>
      let n := Nat.min k (length data - sent) in
      (if (n =? 0)%nat then Leaving kDisconnected else Polling (sent + n),
       set_writes (s_pollout c) sends (s_wire c ++ take n (drop sent data)) c)
  end.

(** The bytes a thread is about to write. *)
Definition frame_to_send (ph : phase) : option (list Z) :=
  match ph with
  | Registered rq id => Some (request_frame rq id)
  | Responding h p => Some (SerializeMessage h p)
  | _ => None
  end.

Record fstate := mkF {
  f_base : cstate;
  f_owner : option nat;          (** who holds [send_mutex_] *)
  f_writers : gmap nat wphase;   (** the threads inside the critical section *)
}.

Definition sock (b : cstate) : Sock := client_socket_ (srv b).
Definition set_sock (c : Sock) (b : cstate) : cstate :=
  mkC (set_client c (srv b)) (io_todo b) (stop_todo b) (callers b).
Definition set_callers (cs : gmap nat phase) (b : cstate) : cstate :=
  mkC (srv b) (io_todo b) (stop_todo b) cs.

Inductive fevent :=
| FLock (tid : nat)
| FPoll (tid : nat)
| FWrite (tid : nat)
| FUnlock (e : event)   (** leaving the critical section completes the call's write *)
| FOther (e : event).

(** Events of [cstep] that are whole writes; here they are taken apart. *)
Definition is_send (e : event) : bool :=
  match e with EvSend _ _ _ _ | EvRespond _ _ _ => true | _ => false end.

Inductive fstep : fstate -> fevent -> fstate -> Prop :=
| f_lock b ws tid ph data :
    callers b !! tid = Some ph -> frame_to_send ph = Some data -> ws !! tid = None ->
    fstep (mkF b None ws) (FLock tid) (mkF b (Some tid) (<[tid := Polling 0]> ws))
| f_poll b o ws tid ph data sent w c :
    callers b !! tid = Some ph -> frame_to_send ph = Some data ->
    ws !! tid = Some (Polling sent) -> send_poll data sent (sock b) = (w, c) ->
    fstep (mkF b o ws) (FPoll tid) (mkF (set_sock c b) o (<[tid := w]> ws))
| f_write b o ws tid ph data sent w c :
    callers b !! tid = Some ph -> frame_to_send ph = Some data ->
    ws !! tid = Some (Writing sent) -> send_write data sent (sock b) = (w, c) ->
    fstep (mkF b o ws) (FWrite tid) (mkF (set_sock c b) o (<[tid := w]> ws))
| f_unlock_request b o ws tid rq id st :
    callers b !! tid = Some (Registered rq id) -> ws !! tid = Some (Leaving st) ->
    fstep (mkF b o ws) (FUnlock (EvSend tid id (request_frame rq id) (bool_decide (st = kOk))))
      (mkF (set_callers (<[tid := Sent rq id (bool_decide (st = kOk))]> (callers b)) b) None (delete tid ws))
| f_unlock_response b o ws tid h p st :
    callers b !! tid = Some (Responding h p) -> ws !! tid = Some (Leaving st) ->
    fstep (mkF b o ws) (FUnlock (EvRespond tid (SerializeMessage h p) (bool_decide (st = kOk))))
      (mkF (set_callers (delete tid (callers b)) b) None (delete tid ws))
| f_other b o ws e b' :
    cstep b e b' -> is_send e = false ->
    fstep (mkF b o ws) (FOther e) (mkF b' o ws).

Definition f_initial (s : Server) : fstate := mkF (initial s) None ∅.

(** What an execution shows at the level of [Concurrency]. *)
Definition visible (e : fevent) : option event :=
  match e with FUnlock e | FOther e => Some e | FLock _ | FPoll _ | FWrite _ => None end.

(** Steps that close [client_socket_] or assign a new connection to it. *)
Definition replaces (e : event) : bool :=
  match e with
  | EvIo AClose | EvStop (Some SCloseClient) | EvRead [AClose] | EvRead [ASetClient true] => true
  | _ => false
  end.

Definition held_after (held : bool) (e : fevent) : bool :=
  match e with FLock _ => true | FUnlock _ => false | _ => held end.
Definition disturbs (held : bool) (e : fevent) : bool :=
  match e with FOther e => held && replaces e | _ => false end.

(** The socket is not closed or replaced while a writer is inside. *)
Fixpoint undisturbed (held : bool) (tr : list fevent) : bool :=
  match tr with
  | [] => true
  | e :: tr => negb (disturbs held e) && undisturbed (held_after held e) tr
  end.

(** ** Lemmas *)

Lemma undisturbed_snoc held tr e :
  undisturbed held (tr ++ [e]) = undisturbed held tr && negb (disturbs (foldl held_after held tr) e).
Proof.
  revert held. induction tr as [|x tr IH]; intros held; cbn; [by rewrite andb_true_r|].
  by rewrite IH, andb_assoc.
Qed.

(** What is left of [SendAll] for a writer in phase [w]. *)
Definition remaining (fd : Z) (data : list Z) (w : wphase) (pollout : list poll_ans)
    (sends : list send_ans) (wire : list Z) : IoStatus * (list poll_ans * list send_ans * list Z) :=
  match w with
  | Polling sent => SendAll_loop fd data sent pollout sends wire
  | Writing sent =>
      match sends with
      | [] => (kIoError, (pollout, [], wire))
      | SendFail e :: sends =>
          if retry e then SendAll_loop fd data sent pollout sends wire
          else if bool_decide (e = EPIPE) || bool_decide (e = ECONNRESET)
          then (kDisconnected, (pollout, sends, wire)) else (kIoError, (pollout, sends, wire))
      | SendTake k :: sends =>
          let n := Nat.min k (length data - sent) in
          if (n =? 0)%nat then (kDisconnected, (pollout, sends, wire))
          else SendAll_loop fd data (sent + n) pollout sends (wire ++ take n (drop sent data))
      end
  | Leaving st => (st, (pollout, sends, wire))
  end.

Definition remaining_at (data : list Z) (w : wphase) (c : Sock) :=
  remaining (fd_ c) data w (s_pollout c) (s_send c) (s_wire c).

(** One call of [poll] or [send] does not change what [SendAll] comes to. *)
Lemma send_poll_remaining data sent c w c' :
  send_poll data sent c = (w, c') -> remaining_at data w c' = remaining_at data (Polling sent) c.
Proof.
  unfold send_poll, remaining_at. destruct c as [fd pin pout rv sd wr].
  cbn [remaining fd_ s_pollout s_send s_wire].
  destruct sd; cbn [SendAll_loop].
  all: destruct (sent <? length data)%nat; [|intros; by simplify_eq/=].
  all: destruct (PollFor fd POLLOUT pout) as [wait po]; case_bool_decide; intros; by simplify_eq/=.
Qed.

Lemma send_write_remaining data sent c w c' :
  send_write data sent c = (w, c') -> remaining_at data w c' = remaining_at data (Writing sent) c.
Proof.
  unfold send_write, remaining_at. destruct c as [fd pin pout rv sd wr]; cbn.
  destruct sd as [|[k|e] sd]; [intros; by simplify_eq/=| |].
  - intros [= <- <-]. cbn. destruct (Nat.eqb_spec (Nat.min k (length data - sent)) 0) as [E|E]; [|done].
    cbn. by rewrite E, take_0, app_nil_r.
  - intros [= <- <-]. cbn. destruct (retry e); [done|]. by destruct (bool_decide (e = EPIPE) || _).
Qed.

Lemma send_poll_reads data sent c w c' :
  send_poll data sent c = (w, c') ->
  fd_ c' = fd_ c /\ s_pollin c' = s_pollin c /\ s_recv c' = s_recv c.
Proof. unfold send_poll. repeat case_match; intros; by simplify_eq/=. Qed.

Lemma send_write_reads data sent c w c' :
  send_write data sent c = (w, c') ->
  fd_ c' = fd_ c /\ s_pollin c' = s_pollin c /\ s_recv c' = s_recv c.
Proof. unfold send_write. repeat case_match; intros; by simplify_eq/=. Qed.

Section writes.
Variables (po : list poll_ans) (sd : list send_ans) (wr : list Z).
#[local] Abbreviation gr := (set_writes po sd wr).

(** A read of the I/O thread that does not replace the connection. *)
Lemma io_read_writes s acts s' :
  replaces (EvRead acts) = false -> io_read s = (acts, s') ->
  io_read (set_client (gr (client_socket_ s)) s) = (acts, set_client (gr (client_socket_ s')) s') /\
  same_writes (client_socket_ s) (client_socket_ s').
Proof.
  intros Hr. unfold io_read. cbn [has_client_ set_client listener_ client_socket_].
  destruct (has_client_ s) eqn:Hc; cbn [negb].
  - destruct (WaitReadable (client_socket_ s)) as [w c1] eqn:E1.
    apply (WaitReadable_writes po sd wr) in E1 as [-> W1]. cbn [client_socket_ set_client].
    destruct w; try (by intros [= <- <-]).
    destruct (RecvMessage c1) as [r c2] eqn:E2.
    apply (RecvMessage_writes po sd wr) in E2 as [-> W2].
    assert (W3 : same_writes (client_socket_ s) c2)
      by (destruct W1 as (?&?&?&?), W2 as (?&?&?&?); split_and!; congruence).
    destruct r; try (by intros [= <- <-]). by case_bool_decide; intros [= <- <-].
  - destruct (Accept (listener_ s)) as [[st acc] l].
    destruct st; try (by intros [= <- <-]). destruct acc as [c|]; [|by intros [= <- <-]].
    cbn [client_socket_ set_client set_listener].
    destruct (RecvMessage c) as [[m| | |] c2]; try (by intros [= <- <-]).
    destruct (HandleHello m _) as [[] ?]; by intros [= <- <-].
Qed.
End writes.

(** Steps of the other threads neither see nor change the writing half. *)
Lemma cstep_writes po sd wr b e b' :
  cstep b e b' -> is_send e = false -> replaces e = false ->
  cstep (set_sock (set_writes po sd wr (sock b)) b) e (set_sock (set_writes po sd wr (sock b')) b') /\
  same_writes (sock b) (sock b').
Proof.
  destruct 1; intros Hse Hre; try done; unfold set_sock, sock; cbn [srv io_todo stop_todo callers].
  all: pose (s0 := set_client (set_writes po sd wr (client_socket_ s)) s).
  - split; [by apply (c_reject s0)|done].
  - split; [by apply (c_check s0)|done].
  - split; [by apply (c_alloc s0)|done].
  - pose proof (c_register s0 io st cs tid rq id) as Hs.
    destruct (rq_expect_response rq); (split; [by apply Hs|done]).
  - split; [by eapply (c_no_reply s0)|done].
  - split; [by eapply (c_wait_unknown s0)|done].
  - split; [by eapply (c_wait s0)|done].
  - split; [by eapply (c_return s0)|done].
  - split; [by apply (c_respond_check s0)|done].
  - split; [by eapply (c_poll s0)|done].
  - match goal with E : io_read s = _ |- _ => destruct (io_read_writes po sd wr _ _ _ Hre E) end.
    split; [by apply (c_read s0)|done].
  - destruct a; try done; (split; [apply (c_io s0)|done]).
  - split; [by apply (c_stop_begin s0)|done].
  - destruct a; try done; (split; [by apply (c_stop s0)|done]).
Qed.

(** A thread about to write stays there until it has written. *)
Lemma cstep_writer b e b' tid ph data :
  cstep b e b' -> is_send e = false -> callers b !! tid = Some ph -> frame_to_send ph = Some data ->
  callers b' !! tid = Some ph.
Proof.
  destruct 1; cbn [callers]; intros Hs Hc Hf; try done.
  all: match goal with
       | |- <[?t := _]> _ !! _ = _ => destruct (decide (t = tid)) as [->|]; [simplify_eq/=|by rewrite lookup_insert_ne]
       | |- delete ?t _ !! _ = _ => destruct (decide (t = tid)) as [->|]; [simplify_eq/=|by rewrite lookup_delete_ne]
       end.
Qed.

(** The simulation: while somebody is inside, the coarse system still has the
    writing half from before the lock, and the writer will turn it into what
    [SendAll] makes of it. *)
Definition sim (f : fstate) (c : cstate) : Prop :=
  match f_owner f with
  | None => f_writers f = ∅ /\ c = f_base f
  | Some tid => exists ph data w po sd wr,
      callers (f_base f) !! tid = Some ph /\ frame_to_send ph = Some data /\
      f_writers f = {[tid := w]} /\
      c = set_sock (set_writes po sd wr (sock (f_base f))) (f_base f) /\
      SendAll_loop (fd_ (sock (f_base f))) data 0 po sd wr = remaining_at data w (sock (f_base f))
  end.

Lemma set_writes_id c : set_writes (s_pollout c) (s_send c) (s_wire c) c = c.
Proof. by destruct c. Qed.
Lemma set_sock_id b : set_sock (sock b) b = b.
Proof. by destruct b as [[] ? ? ?]. Qed.

Lemma sim_other o b ws e b' c :
  sim (mkF b o ws) c -> cstep b e b' -> is_send e = false ->
  disturbs (bool_decide (is_Some o)) (FOther e) = false ->
  exists c', cstep c e c' /\ sim (mkF b' o ws) c'.
Proof.
  intros Hsim Hs Hse Hd. destruct o as [tid|]; cbn in *; [|by destruct Hsim as [-> ->]; eauto].
  destruct Hsim as (ph & data & w & po & sd & wr & Hc & Hf & -> & -> & Hr).
  destruct (cstep_writes po sd wr _ _ _ Hs Hse Hd) as [Hs' (E1 & E2 & E3 & E4)].
  eexists. split; [exact Hs'|]. exists ph, data, w, po, sd, wr. split_and!; try done.
  - by eapply cstep_writer.
  - unfold remaining_at. by rewrite E1, E2, E3, E4.
Qed.

(** The writer's own calls are invisible. *)
Lemma sim_call tid ph data b o ws w w' sk c :
  sim (mkF b o ws) c -> callers b !! tid = Some ph -> frame_to_send ph = Some data ->
  ws !! tid = Some w -> remaining_at data w' sk = remaining_at data w (sock b) ->
  fd_ sk = fd_ (sock b) /\ s_pollin sk = s_pollin (sock b) /\ s_recv sk = s_recv (sock b) ->
  sim (mkF (set_sock sk b) o (<[tid := w']> ws)) c.
Proof.
  intros Hsim Hc Hf Hw Hrem (E1 & E2 & E3). destruct o as [t|]; cbn in *.
  - destruct Hsim as (ph' & data' & w'' & po & sd & wr & Hc' & Hf' & -> & -> & Hr).
    apply lookup_singleton_Some in Hw as [-> ->]. simplify_eq.
    exists ph', data', w', po, sd, wr. split_and!; try done.
    + by rewrite insert_singleton_eq.
    + unfold set_sock, sock, set_writes in *. cbn. by rewrite E1, E2, E3.
    + rewrite <- Hrem in Hr. by rewrite <- E1 in Hr.
  - destruct Hsim as [-> _]. by rewrite lookup_empty in Hw.
Qed.

(** Leaving the critical section is the coarse system's write. *)
Lemma sim_unlock tid ph data b o ws st c :
  sim (mkF b o ws) c -> callers b !! tid = Some ph -> frame_to_send ph = Some data ->
  ws !! tid = Some (Leaving st) ->
  delete tid ws = ∅ /\ callers c = callers b /\ io_todo c = io_todo b /\ stop_todo c = stop_todo b /\
  SendAll data (sock c) = (st, sock b) /\ set_client (sock b) (srv c) = srv b.
Proof.
  intros Hsim Hc Hf Hw. destruct o as [t|]; cbn in *.
  - destruct Hsim as (ph' & data' & w'' & po & sd & wr & Hc' & Hf' & -> & -> & Hr).
    apply lookup_singleton_Some in Hw as [-> ->]. simplify_eq. cbn.
    split_and!; try done.
    + by rewrite delete_singleton_eq.
    + unfold SendAll. cbn. rewrite Hr. cbn. by destruct (sock b).
    + by destruct b as [[] ? ? ?].
  - destruct Hsim as [-> _]. by rewrite lookup_empty in Hw.
Qed.

Lemma sim_step f e f' c :
  sim f c -> fstep f e f' -> disturbs (bool_decide (is_Some (f_owner f))) e = false ->
  exists c', sim f' c' /\ match visible e with Some e => cstep c e c' | None => c' = c end.
Proof.
  intros Hsim Hs Hd. destruct Hs; cbn [visible f_owner] in *.
  - exists c. split; [|done]. destruct Hsim as [Hw ->]. cbn in Hw. subst ws.
    exists ph, data, (Polling 0), (s_pollout (sock b)), (s_send (sock b)), (s_wire (sock b)).
    cbn. rewrite set_writes_id, set_sock_id. split_and!; try done.
  - exists c. split; [|done]. eapply sim_call; eauto using send_poll_remaining, send_poll_reads.
  - exists c. split; [|done]. eapply sim_call; eauto using send_write_remaining, send_write_reads.
  - edestruct (sim_unlock tid) as (Hw & Ec & Ei & Es & Esend & Esrv); [done..|].
    destruct c as [s io st' cs]. cbn in Ec, Ei, Es, Esrv. subst.
    eexists. split; [|by eapply c_send]. cbn. split; [done|]. unfold set_callers. by rewrite Esrv.
  - edestruct (sim_unlock tid) as (Hw & Ec & Ei & Es & Esend & Esrv); [done..|].
    destruct c as [s io st' cs]. cbn in Ec, Ei, Es, Esrv. subst.
    eexists. split; [|by eapply c_respond]. cbn. split; [done|]. unfold set_callers. by rewrite Esrv.
  - edestruct sim_other as (c' & H1 & H2); eauto.
Qed.

Lemma owner_held f e f' :
  fstep f e f' -> bool_decide (is_Some (f_owner f')) = held_after (bool_decide (is_Some (f_owner f))) e.
Proof. by destruct 1. Qed.

Lemma run_sim s tr f :
  run fstep (f_initial s) tr f -> undisturbed false tr = true ->
  exists c, run cstep (initial s) (omap visible tr) c /\ sim f c /\
    bool_decide (is_Some (f_owner f)) = foldl held_after false tr.
Proof.
  induction 1 as [|tr f e f' _ IH Hs]; intros Hu.
  - exists (initial s). split_and!; try done. apply run_nil.
  - rewrite undisturbed_snoc in Hu. apply andb_true_iff in Hu as [Hu Hd%negb_true_iff].
    destruct (IH Hu) as (c & Hr & Hsim & Ho). rewrite <- Ho in Hd.
    destruct (sim_step _ _ _ _ Hsim Hs Hd) as (c' & Hsim' & Hv). exists c'. split_and!; [|done|].
    + rewrite omap_snoc. destruct (visible e) as [e'|]; [by eapply run_snoc|].
      subst c'. by rewrite app_nil_r.
    + rewrite foldl_app, <- Ho. cbn. by apply owner_held.
Qed.

(** ** Properties *)

(** C5: the send mutex makes writes atomic.  Let any number of threads call
    [SendRequestToHost] and [SendResponse] while the I/O thread and [Stop] run, each
    frame being written by separate [poll] and [send] calls between taking and
    releasing [send_mutex_], the kernel splitting, interrupting and failing the
    writes as it likes.  As long as the connection is neither closed nor replaced
    while a writer is inside, the execution is one of [cstep], in which a write is
    one whole [SendAll] at the moment the mutex is released, with the same calls and
    results; whenever the mutex is free the two systems are in the same state; and if
    moreover the client stays connected and every write succeeds, the wire then
    carries the whole frames, one after the other, in the order of the releases. *)
Theorem send_mutex_refines s tr f :
  run fstep (f_initial s) tr f -> undisturbed false tr = true ->
  exists c, run cstep (initial s) (omap visible tr) c /\
    callers (f_base f) = callers c /\ pending_ (srv (f_base f)) = pending_ (srv c) /\
    inbound_queue_ (srv (f_base f)) = inbound_queue_ (srv c) /\
    (f_owner f = None -> f_base f = c) /\
    (f_owner f = None -> has_client_ s = true ->
     Forall (fun e => send_ok e = true) (omap visible tr) ->
     s_wire (sock (f_base f)) = s_wire (client_socket_ s) ++ concat (omap frame_of (omap visible tr))).
Proof.
  intros Hr Hu. destruct (run_sim _ _ _ Hr Hu) as (c & Hc & Hsim & _). exists c. split; [done|].
  unfold sim in Hsim. destruct (f_owner f) as [tid|].
  - destruct Hsim as (ph & data & w & po & sd & wr & _ & _ & _ & -> & _). done.
  - destruct Hsim as [_ ->]. split_and!; try done. intros _ Hcl Hok.
    by eapply (run_wire _ _ _ Hc).
Qed.

(** *** Two writers: the response is asked for while the request's frame is half
    written, and a message arrives in between *)

Definition two_rsp : Header := MakeHeader kHelloAck 9 0 0 kSuccess 0 0 kFlagIsResponse 0.
Definition two_server : Server :=
  mkServer "/tmp/s.sock" true true false no_listener
    (mkSock 3 (replicate 70 (PollReady POLLIN)) (replicate 4 (PollReady POLLOUT))
       [RecvBytes (wire_of conc_rsp)] [SendTake 40; SendFail EINTR; SendTake 40; SendTake 64] [])
    1 Queue_init ∅.
Definition two_trace : list fevent :=
  [FOther (EvCheck 0 sample_read); FOther (EvAlloc 0 1); FOther (EvRegister 0 1);
   FOther (EvCheckRespond 1); FLock 0; FPoll 0; FWrite 0; FOther (EvRead [AComplete conc_rsp]);
   FPoll 0; FWrite 0; FPoll 0; FOther (EvIo (AComplete conc_rsp)); FWrite 0; FPoll 0;
   FUnlock (EvSend 0 1 (request_frame sample_read 1) true);
   FLock 1; FPoll 1; FWrite 1; FPoll 1; FUnlock (EvRespond 1 (SerializeMessage two_rsp []) true)].

Tactic Notation "fextend" hyp(R) uconstr(step) :=
  extend R step; unfold set_sock, set_callers in R; cbn [srv io_todo stop_todo callers] in R.

(** The next call of writer [tid], whose thread is in phase [ph]. *)
Ltac writer_call R tid ph data :=
  lazymatch type of R with
  | run _ _ _ (mkF ?b ?o ?ws) =>
      let w := eval vm_compute in (ws !! tid) in
      lazymatch w with
      | Some (Polling ?sent) =>
          let r := eval vm_compute in (send_poll data sent (sock b)) in
          lazymatch r with (?w, ?c) => fextend R (f_poll b o ws tid ph data sent w c _ _ _ _) end
      | Some (Writing ?sent) =>
          let r := eval vm_compute in (send_write data sent (sock b)) in
          lazymatch r with (?w, ?c) => fextend R (f_write b o ws tid ph data sent w c _ _ _ _) end
      end
  end.

Lemma two_run : exists f, run fstep (f_initial two_server) two_trace f /\ f_owner f = None.
Proof.
  pose proof (run_nil fstep (f_initial two_server)) as R. unfold f_initial, initial in R.
  fextend R (f_other _ None ∅ _ _ (c_check _ _ _ _ 0 sample_read _ _) _).
  fextend R (f_other _ None ∅ _ _ (c_alloc _ _ _ _ 0 sample_read 1 2 _ _) _).
  fextend R (f_other _ None ∅ _ _ (c_register _ _ _ _ 0 sample_read 1 _) _).
  fextend R (f_other _ None ∅ _ _ (c_respond_check _ _ _ _ 1 two_rsp [] _ _) _).
  fextend R (f_lock _ ∅ 0 (Registered sample_read 1) (request_frame sample_read 1) _ _ _).
  do 2 writer_call R 0%nat (Registered sample_read 1) (request_frame sample_read 1).
  lazymatch type of R with run _ _ _ (mkF (mkC ?s _ _ _) _ _) =>
    let r := eval vm_compute in (io_read s) in
    lazymatch r with (_, ?s') =>
      fextend R (f_other _ _ _ _ _ (c_read _ _ _ [AComplete conc_rsp] s' _ _ _) _) end end.
  do 3 writer_call R 0%nat (Registered sample_read 1) (request_frame sample_read 1).
  fextend R (f_other _ _ _ _ _ (c_io _ _ _ _ _) _).
  do 2 writer_call R 0%nat (Registered sample_read 1) (request_frame sample_read 1).
  fextend R (f_unlock_request _ _ _ 0 sample_read 1 kOk _ _).
  fextend R (f_lock _ _ 1 (Responding two_rsp []) (SerializeMessage two_rsp []) _ _ _).
  do 3 writer_call R 1%nat (Responding two_rsp []) (SerializeMessage two_rsp []).
  fextend R (f_unlock_response _ _ _ 1 two_rsp [] kOk _ _).
  eexists. split; [exact R|done].
Qed.

Lemma send_mutex_refines_witness :
  exists c, run cstep (initial two_server) (omap visible two_trace) c /\
    s_wire (sock c) = request_frame sample_read 1 ++ SerializeMessage two_rsp [].
Proof.
  destruct two_run as (f & R & Ho).
  destruct (send_mutex_refines two_server two_trace f R) as (c & Hc & _ & _ & _ & Hb & Hw).
  { vm_compute. reflexivity. }
  exists c. split; [exact Hc|]. rewrite <- (Hb Ho), (Hw Ho).
  - vm_compute. reflexivity.
  - reflexivity.
  - vm_compute. repeat constructor.
Defined.

(** [client_socket_.Close()] does not take the mutex: when the I/O thread closes the
    connection while a frame is half written, the writer's next [poll] is on the
    descriptor -1 and its call fails with [kTimeout]; 40 bytes of the frame are out. *)
Theorem close_cuts_frame :
  exists tr f, run fstep (mkF (mkC two_server [AClose; ASetClient false] [] {[0%nat := Registered sample_read 1]}) None ∅) tr f /\
    f_writers f !! 0%nat = Some (Leaving kTimeout) /\
    s_wire (sock (f_base f)) = take 40 (request_frame sample_read 1).
Proof.
  pose proof (run_nil fstep (mkF (mkC two_server [AClose; ASetClient false] [] {[0%nat := Registered sample_read 1]}) None ∅)) as R.
  fextend R (f_lock _ ∅ 0 (Registered sample_read 1) (request_frame sample_read 1) _ _ _).
  do 2 writer_call R 0%nat (Registered sample_read 1) (request_frame sample_read 1).
  fextend R (f_other _ _ _ _ _ (c_io _ _ _ _ _) _).
  writer_call R 0%nat (Registered sample_read 1) (request_frame sample_read 1).
  eexists _, _. split; [exact R|]. vm_compute. split; reflexivity.
Qed.
