(* ===== verification/Dpi.v ===== *)
(** * The DPI-C shim

    Model of [mini-ics/dpi/mini_ics_dpi.cpp]: the C functions a SystemVerilog
    testbench calls, on top of one global [MiniIcsServer].  The simulator's open
    arrays ([svdpi.h]) are not part of the program: an [OpenArray] holds what its
    three accessors answer.  [n] is how many iterations the I/O thread runs while a
    call waits. *)
From S2P Require Import Prelude Protocol Socket Framing Transaction Interface Server.
From stdpp Require Import options.
#[local] Open Scope Z_scope.

(** The global state: the server (if created) and the two staging buffers. *)
Record Dpi := mkDpi {
  g_server : option Server;
  g_inbound_payload : list Z;
  g_response_payload : list Z;
}.

Definition Dpi_init : Dpi := mkDpi None [] [].

(** [socket_path = None]: a null pointer. *)
Definition mini_ics_init (socket_path : option string) (a : listen_ans) (g : Dpi) (os : OS)
  : Z * Dpi * OS :=
  match g_server g with
  | Some _ => (0, g, os)
  | None =>
      match socket_path with
      | None => (-1, g, os)
      | Some path =>
          let '(ok, s, os) := Start a (MiniIcsServer path) os in
          if negb ok then (-1, mkDpi None (g_inbound_payload g) (g_response_payload g), os)
          else (0, mkDpi (Some s) (g_inbound_payload g) (g_response_payload g), os)
      end
  end.

(** [g_server && g_server->IsRunning()]. *)
Definition live_server (g : Dpi) : option Server :=
  match g_server g with
  | Some s => if IsRunning s then Some s else None
  | None => None
  end.

(** The five output arguments of [mini_ics_poll]. *)
Record poll_out := mkPollOut {
  po_msg_type : Z; po_transaction_id : Z; po_address : Z; po_length : Z; po_status : Z }.

(** [args]: no output pointer is null.  Outputs are written only on return 1. *)
Definition mini_ics_poll (n : nat) (args : bool) (g : Dpi) : Z * option poll_out * Dpi :=
  if negb args then (-1, None, g)
  else
    match live_server g with
    | None => (-1, None, g)
    | Some s =>
        let '(msg, s) := PollInbound (IoThreadMain n) s in
        match msg with
        | None => (0, None, mkDpi (Some s) (g_inbound_payload g) (g_response_payload g))
        | Some m =>
            let h := m_header m in
            (1, Some (mkPollOut (h_msg_type h) (h_txn_id h) (h_address h) (h_transfer_len h) (h_status h)),
             mkDpi (Some s) (m_payload m) (g_response_payload g))
        end
    end.

(** [value = false]: the output pointer is null. *)
Definition get_byte (index : Z) (value : bool) (buf : list Z) : Z * option Z :=
  if negb value then (-1, None)
  else if Z.of_nat (length buf) <=? index then (-1, None)
  else (0, Some (buf !!! Z.to_nat index)).

Definition mini_ics_get_payload_byte (index : Z) (value : bool) (g : Dpi) : Z * option Z :=
  get_byte index value (g_inbound_payload g).

Definition mini_ics_get_response_payload_byte (index : Z) (value : bool) (g : Dpi) : Z * option Z :=
  get_byte index value (g_response_payload g).

(** ** Open arrays *)

Record OpenArray := mkOpenArray {
  oa_ptr : option (list Z);   (** [svGetArrayPtr]: the contiguous storage, or null *)
  oa_size : Z;                (** [svSize(handle, 1)] *)
  oa_elem : Z -> option Z;    (** [svGetArrElemPtr1]: the element, or null *)
}.

(** [None]: the copy loop reads past the end of the contiguous storage. *)
Definition CopyOpenArray (h : OpenArray) (length_ : nat) : option (list Z) :=
  match oa_ptr h with
  | Some data => if (length_ <=? length data)%nat then Some (take length_ data) else None
  | None =>
      Some ((fun i => if (Z.of_nat i <? u32 (oa_size h)) then default 0 (oa_elem h (Z.of_nat i)) else 0)
              <$> seq 0 length_)
  end.

(** The payload argument of the two send functions: [length > 0 && payload]. *)
Definition dpi_payload (payload : option OpenArray) (length_ : nat) : option (list Z) :=
  match payload with
  | Some h => if (0 <? length_)%nat then CopyOpenArray h length_ else Some []
  | None => Some []
  end.

(** ** Sending.  [None]: undefined behaviour in [CopyOpenArray]. *)

Definition mini_ics_send_response (msg_type transaction_id address status : Z)
    (payload : option OpenArray) (length_ : nat) (g : Dpi) : option (Z * Dpi) :=
  match live_server g with
  | None => Some (-1, g)
  | Some s =>
      match dpi_payload payload length_ with
      | None => None
      | Some data =>
          let hdr := MakeHeader (MessageType_of (u16 msg_type)) transaction_id address 0
                       (StatusCode_of status) 0 (u32 (Z.of_nat (length data))) kFlagIsResponse 0 in
          let '(ok, s) := SendResponse hdr data s in
          Some (if ok then 0 else -2, mkDpi (Some s) (g_inbound_payload g) (g_response_payload g))
      end
  end.

(** The outputs of [mini_ics_send_request]: transaction id and status. *)
Record request_out := mkRequestOut { ro_transaction_id : Z; ro_status : Z }.

Definition dpi_request (msg_type address : Z) (data : list Z) (length_ : nat) : HostRequest :=
  let type := MessageType_of (u16 msg_type) in
  mkHostRequest type address 0 data (Z.of_nat length_) 0
    (bool_decide (type = kDmaReadReq) || bool_decide (type = kDmaWriteReq)).

Definition mini_ics_send_request (n : nat) (args : bool) (msg_type address : Z)
    (payload : option OpenArray) (length_ : nat) (g : Dpi) : option (Z * option request_out * Dpi) :=
  if negb args then Some (-1, None, g)
  else
    match live_server g with
    | None => Some (-1, None, g)
    | Some s =>
        let type := MessageType_of (u16 msg_type) in
        match (if bool_decide (type = kDmaReadReq) then Some [] else dpi_payload payload length_) with
        | None => None
        | Some data =>
            let rq := dpi_request msg_type address data length_ in
            let '(rsp, id, s) := SendRequestToHost (IoThreadMain n) rq s in
            let txn_id := default 0 id in
            let g1 := mkDpi (Some s) (g_inbound_payload g) (g_response_payload g) in
            if negb (rq_expect_response rq)
            then Some (0, Some (mkRequestOut txn_id (StatusCode_raw kSuccess)), g1)
            else
              match rsp with
              | None => Some (-3, Some (mkRequestOut txn_id (StatusCode_raw kErrorTimeout)), g1)
              | Some m =>
                  Some (if bool_decide (Status (m_header m) = kSuccess) then 0 else -2,
                        Some (mkRequestOut txn_id (h_status (m_header m))),
                        mkDpi (Some s) (g_inbound_payload g) (m_payload m))
              end
        end
    end.

(** [join] as in [Stop]. *)
Definition mini_ics_shutdown (join : Server -> Server) (g : Dpi) (os : OS) : Dpi * OS :=
  match g_server g with
  | Some s => let '(_, os) := Stop join s os in (mkDpi None [] [], os)
  | None => (mkDpi None [] [], os)
  end.

(** ** Lemmas *)

(** Every call sequence keeps the server's invariant. *)
Definition dpi_inv (g : Dpi) : Prop :=
  match g_server g with Some s => server_inv s | None => True end.

Lemma live_server_inv g s : dpi_inv g -> live_server g = Some s -> server_inv s.
Proof. unfold dpi_inv, live_server. destruct (g_server g); [|done]. destruct (IsRunning _); naive_solver. Qed.

Lemma get_byte_spec i buf :
  0 <= i -> get_byte i true buf =
    match buf !! Z.to_nat i with Some b => (0, Some b) | None => (-1, None) end.
Proof.
  intros Hi. unfold get_byte. cbn [negb]. destruct (Z.leb_spec (Z.of_nat (length buf)) i).
  - by rewrite lookup_ge_None_2 by lia.
  - rewrite list_lookup_lookup_total_lt by lia. done.
Qed.

(** One DPI call. *)
Inductive dpi_step (n : nat) : Dpi * OS -> Z -> Dpi * OS -> Prop :=
| dpi_init path a g os rc g' os' :
    Forall conn_bytes_ok (la_accept a) ->
    mini_ics_init path a g os = (rc, g', os') -> dpi_step n (g, os) rc (g', os')
| dpi_poll args g os rc out g' :
    mini_ics_poll n args g = (rc, out, g') -> dpi_step n (g, os) rc (g', os)
| dpi_respond t id addr st p len g os rc g' :
    mini_ics_send_response t id addr st p len g = Some (rc, g') -> dpi_step n (g, os) rc (g', os)
| dpi_send args t addr p len g os rc out g' :
    mini_ics_send_request n args t addr p len g = Some (rc, out, g') -> dpi_step n (g, os) rc (g', os)
| dpi_shutdown acts g os g' os' :
    mini_ics_shutdown (io_apply_all acts) g os = (g', os') -> dpi_step n (g, os) 0 (g', os').

(** What the testbench can rely on in every reachable state. *)
Record dpi_ok (g : Dpi) : Prop := {
  dk_server : dpi_inv g;
  dk_inbound : bytes_ok (g_inbound_payload g);
  dk_response : bytes_ok (g_response_payload g);
}.

Lemma Start_inv a path os ok s os' :
  Forall conn_bytes_ok (la_accept a) -> Start a (MiniIcsServer path) os = (ok, s, os') -> server_inv s.
Proof.
  intros Ha. unfold Start, Listen. cbn [listener_ MiniIcsServer socket_path_].
  repeat case_match; intros; simplify_eq;
    (constructor; [constructor; [constructor|by try constructor]|constructor|apply map_Forall_empty]).
Qed.

Lemma message_payload_ok m : message_ok m -> bytes_ok (m_payload m).
Proof. by intros (_ & _ & ? & _). Qed.

Lemma dpi_step_ok n x rc y : dpi_step n x rc y -> dpi_ok (fst x) -> dpi_ok (fst y).
Proof.
  destruct 1 as [path a g os rc g' os' Ha E|args g os rc out g' E|t id addr st p len g os rc g' E
    |args t addr p len g os rc out g' E|acts g os g' os' E]; cbn [fst]; intros [Hs Hi Hr].
  - unfold mini_ics_init in E. destruct (g_server g) eqn:Eg; [by simplify_eq|].
    destruct path as [path|]; [|by simplify_eq].
    destruct (Start _ _ _) as [[ok s] os1] eqn:ES. apply Start_inv in ES; [|done].
    destruct ok; simplify_eq/=; by constructor.
  - unfold mini_ics_poll in E. destruct args; cbn [negb] in E; [|by simplify_eq].
    destruct (live_server g) as [s|] eqn:El; [|by simplify_eq].
    destruct (PollInbound _ s) as [msg s1] eqn:EP.
    destruct (PollInbound_inv n s msg s1 (live_server_inv _ _ Hs El) EP) as [Hinv Hmsg].
    destruct msg as [m|]; simplify_eq; constructor; cbn; try done.
    by apply message_payload_ok, Hmsg.
  - unfold mini_ics_send_response in E. destruct (live_server g) as [s|] eqn:El; [|by simplify_eq].
    destruct (dpi_payload p len); [|done]. destruct (SendResponse _ _ s) as [ok s1] eqn:ES.
    apply SendResponse_inv in ES; [|by eapply live_server_inv]. simplify_eq. by constructor.
  - unfold mini_ics_send_request in E. destruct args; cbn [negb] in E; [|by simplify_eq].
    destruct (live_server g) as [s|] eqn:El; [|by simplify_eq].
    destruct (if bool_decide _ then _ else _) as [data|]; [|done].
    destruct (SendRequestToHost _ _ s) as [[rsp id] s1] eqn:ES.
    destruct (SendRequestToHost_inv n _ s rsp id s1 (live_server_inv _ _ Hs El) ES) as [Hinv Hmsg].
    destruct (negb _); [|destruct rsp as [m|]]; simplify_eq; constructor; cbn; try done.
    by apply message_payload_ok, Hmsg.
  - unfold mini_ics_shutdown in E. destruct (g_server g); [destruct (Stop _ _ _)|]; simplify_eq;
      by repeat constructor.
Qed.

Lemma dpi_reachable_ok n os0 tr x : run (dpi_step n) (Dpi_init, os0) tr x -> dpi_ok (fst x).
Proof.
  apply (run_invariant (dpi_step n) (fun x => dpi_ok (fst x))); [by repeat constructor|].
  intros. by eapply dpi_step_ok.
Qed.

(** The id [SendRequestToHost] stores: none without a client. *)
Lemma request_id meanwhile rq s rsp id s' :
  SendRequestToHost meanwhile rq s = (rsp, id, s') -> id = if has_client_ s then Some (txn_gen_ s) else None.
Proof.
  unfold SendRequestToHost. destruct (has_client_ s); cbn [negb Next]; [|intros; by simplify_eq].
  repeat case_match; intros; by simplify_eq.
Qed.

(** A request without response, written whole. *)
Lemma request_posted meanwhile rq s c :
  has_client_ s = true -> rq_expect_response rq = false ->
  SendAll (request_frame rq (txn_gen_ s)) (client_socket_ s) = (kOk, c) ->
  SendRequestToHost meanwhile rq s = (None, Some (txn_gen_ s), set_client c (set_txn_gen (u64 (txn_gen_ s + 1)) s)).
Proof.
  unfold SendRequestToHost, request_frame. intros -> -> E. cbn [negb Next client_socket_ set_txn_gen].
  by rewrite E, bool_decide_true.
Qed.

(** ** Properties *)

(** C27: polling.  After any sequence of DPI calls, [mini_ics_poll] on a running
    server returns 1 exactly when a message is taken from the queue; it then hands
    out that message's type, transaction id, address, transfer length and status
    and stages its payload, which reads back byte by byte (-1 from its end on); the
    message is a well-formed host request, never a DMA response.  When there is no
    message nothing is handed out, both staging buffers are unchanged, and as long
    as the client is connected the result is 0.  The response buffer is unchanged in
    any case; without a running server the result is -1 and nothing changes. *)
Theorem dpi_poll_faithful n os0 tr g os :
  run (dpi_step n) (Dpi_init, os0) tr (g, os) ->
  let '(rc, out, g') := mini_ics_poll n true g in
  g_response_payload g' = g_response_payload g /\
  match live_server g with
  | None => rc = -1 /\ out = None /\ g' = g
  | Some s =>
      match fst (PollInbound (IoThreadMain n) s) with
      | None => rc <> 1 /\ out = None /\ g_inbound_payload g' = g_inbound_payload g /\
          (HasClient (snd (PollInbound (IoThreadMain n) s)) = true -> rc = 0)
      | Some m =>
          rc = 1 /\ message_ok m /\ is_request m /\
          out = Some (mkPollOut (MessageType_raw (Type_ (m_header m))) (h_txn_id (m_header m))
                        (h_address (m_header m)) (h_transfer_len (m_header m)) (h_status (m_header m))) /\
          forall i, 0 <= i -> mini_ics_get_payload_byte i true g' =
            match m_payload m !! Z.to_nat i with Some b => (0, Some b) | None => (-1, None) end
      end
  end.
Proof.
  intros Hr. apply dpi_reachable_ok in Hr as [Hs _ _]. cbn [fst] in Hs. unfold mini_ics_poll. cbn [negb].
  destruct (live_server g) as [s|] eqn:El; [|done].
  destruct (PollInbound _ s) as [[m|] s1] eqn:EP; cbn [fst]; [|done].
  destruct (PollInbound_inv n s _ s1 (live_server_inv _ _ Hs El) EP) as [_ Hm].
  destruct (Hm m eq_refl) as [Hok Hrq]. split; [done|]. split_and!; [done..| |].
  - unfold Type_. rewrite MessageType_raw_of; [done|]. destruct Hok as [Hf _]. apply Hf.
  - intros i Hi. by apply get_byte_spec.
Qed.

(** C28: requests, outcome by outcome, after any sequence of DPI calls.  Without
    output pointers or without a running server [mini_ics_send_request] returns -1
    and changes nothing.  Otherwise, with readable payload, the transaction id
    handed out is the one allocated for this very request (0, and none allocated,
    when no client is connected) and the payload staged by the last poll is
    untouched.  A DMA request returns 0 exactly when a successful response arrived,
    -2 when an unsuccessful one did, -3 with status TIMEOUT when none did; the
    response answers that transaction id, its status is handed out and its payload
    reads back byte by byte, no response leaves the response buffer alone, and the
    server keeps no pending entry.  A message without response (MSI_X) that the
    socket takes whole is on the wire and returns 0 with status SUCCESS. *)
Theorem dpi_request_outcome n os0 tr g os args msg_type address payload len :
  run (dpi_step n) (Dpi_init, os0) tr (g, os) ->
  let call := mini_ics_send_request n args msg_type address payload len g in
  (args = false \/ live_server g = None -> call = Some (-1, None, g)) /\
  forall s data, args = true -> live_server g = Some s -> pending_ s !! txn_gen_ s = None ->
    (if bool_decide (MessageType_of (u16 msg_type) = kDmaReadReq) then Some []
     else dpi_payload payload len) = Some data ->
    let rq := dpi_request msg_type address data len in
    exists rc out g' s', call = Some (rc, Some out, g') /\ g_server g' = Some s' /\
      g_inbound_payload g' = g_inbound_payload g /\
      ro_transaction_id out = (if HasClient s then txn_gen_ s else 0) /\
      (rq_expect_response rq = true ->
       pending_ s' !! txn_gen_ s = None /\
       match fst (fst (SendRequestToHost (IoThreadMain n) rq s)) with
       | None => rc = -3 /\ ro_status out = StatusCode_raw kErrorTimeout /\
                 g_response_payload g' = g_response_payload g
       | Some m =>
           (rc = 0 <-> Status (m_header m) = kSuccess) /\ (rc <> 0 -> rc = -2) /\
           answers (txn_gen_ s) m /\ ro_status out = h_status (m_header m) /\
           forall i, 0 <= i -> mini_ics_get_response_payload_byte i true g' =
             match m_payload m !! Z.to_nat i with Some b => (0, Some b) | None => (-1, None) end
       end) /\
      (rq_expect_response rq = false -> HasClient s = true ->
       forall c, SendAll (request_frame rq (txn_gen_ s)) (client_socket_ s) = (kOk, c) ->
       rc = 0 /\ ro_status out = StatusCode_raw kSuccess /\ g_response_payload g' = g_response_payload g /\
       pending_ s' = pending_ s /\
       s_wire (client_socket_ s') = s_wire (client_socket_ s) ++ request_frame rq (txn_gen_ s)).
Proof.
  intros Hr. apply dpi_reachable_ok in Hr as [Hs _ _]. cbn [fst] in Hs.
  cbv zeta. split; [unfold mini_ics_send_request; intros [->|El]; [done|destruct args; [by rewrite El|done]]|].
  intros s data -> El Hfresh Hd. unfold mini_ics_send_request. cbn [negb]. rewrite El, Hd.
  set (rq := dpi_request msg_type address data len).
  destruct (SendRequestToHost _ rq s) as [[rsp id] s1] eqn:ES.
  pose proof (request_id _ _ _ _ _ _ ES) as Hid.
  assert (Htxn : default 0 id = if HasClient s then txn_gen_ s else 0)
    by (unfold HasClient; subst id; by destruct (has_client_ s)).
  destruct (SendRequestToHost_inv n _ s rsp id s1 (live_server_inv _ _ Hs El) ES) as [_ Hm]. cbn [fst].
  destruct (rq_expect_response rq) eqn:Hx; cbn [negb].
  - destruct (request_no_entry _ _ _ _ _ _ Hfresh Hx ES) as [_ Hno].
    destruct rsp as [m|]; do 4 eexists; (split; [reflexivity|]); (split_and!; [done|done|exact Htxn| |done]).
    + intros _. split; [done|]. destruct (Hm m eq_refl) as (_ & txn & -> & Han).
      assert (txn = txn_gen_ s) as -> by (destruct (has_client_ s); congruence).
      destruct (decide (Status (m_header m) = kSuccess)) as [Hst|Hst].
      1: rewrite (bool_decide_true _ Hst). 2: rewrite (bool_decide_false _ Hst).
      all: split; [by split|]. all: split; [done|]. all: split_and!; [done..|].
      all: intros i Hi; by apply get_byte_spec.
    + intros _. by split_and!.
  - do 4 eexists. split; [reflexivity|]. split_and!; [done|done|exact Htxn|done|].
    intros _ Hc c Esend. rewrite (request_posted _ _ _ _ Hc Hx Esend) in ES. injection ES as <- <- <-.
    apply SendAll_safe in Esend as (_ & _ & _ & Hw & _). split_and!; try done. by apply Hw.
Qed.

(** Life cycle.  Initialising twice is a no-op that reports success and a
    null path is refused; [mini_ics_shutdown] is idempotent, and after it every
    other function reports -1, both staging buffers read as empty, and a later
    initialisation starts from a fresh server. *)
Theorem dpi_lifecycle n join join' path a g os :
  (g_server g <> None -> mini_ics_init path a g os = (0, g, os)) /\
  (g_server g = None -> mini_ics_init None a g os = (-1, g, os)) /\
  let '(g1, os1) := mini_ics_shutdown join g os in
  mini_ics_shutdown join' g1 os1 = (g1, os1) /\
  mini_ics_poll n true g1 = (-1, None, g1) /\
  (forall t id addr st p len, mini_ics_send_response t id addr st p len g1 = Some (-1, g1)) /\
  (forall t addr p len, mini_ics_send_request n true t addr p len g1 = Some (-1, None, g1)) /\
  (forall i, 0 <= i -> mini_ics_get_payload_byte i true g1 = (-1, None) /\
                       mini_ics_get_response_payload_byte i true g1 = (-1, None)) /\
  (let '(rc, g2, _) := mini_ics_init (Some "/tmp/a.sock") a g1 os1 in
   (rc = 0 <-> g_server g2 <> None) /\
   forall s, g_server g2 = Some s -> txn_gen_ s = 1 /\ pending_ s = ∅ /\ HasClient s = false).
Proof.
  split; [unfold mini_ics_init; by destruct (g_server g)|].
  split; [unfold mini_ics_init; by intros ->|].
  destruct (mini_ics_shutdown join g os) as [g1 os1] eqn:E.
  assert (Hg : g1 = mkDpi None [] []).
  { unfold mini_ics_shutdown in E. destruct (g_server g); [destruct (Stop _ _ _)|]; by simplify_eq. }
  subst g1. split_and!; try done.
  - intros i Hi. unfold mini_ics_get_payload_byte, mini_ics_get_response_payload_byte.
    by rewrite !get_byte_spec.
  - unfold mini_ics_init. cbn [g_server]. unfold Start.
    destruct (Listen _ _ _ _) as [[[] l] os2]; cbn; split; try done; by intros s [= <-].
Qed.

(** *** A session: initialise, accept a client while polling, read from the host *)

Definition dpi_rsp : Message :=
  mkMessage (MakeHeader kDmaReadRsp 1 0 0 kSuccess 8 2 kFlagIsResponse 0) [17; 34].
Definition dpi_conn : Sock :=
  mkSock 7 (replicate 200 (PollReady POLLIN)) (replicate 4 (PollReady POLLOUT))
    [RecvBytes (wire_of sample_hello ++ wire_of dpi_rsp)] (replicate 4 (SendTake 64)) [].
Definition dpi_listen : listen_ans :=
  mkListenAns 3 0 0 [PollReady POLLIN] [AcceptConn dpi_conn].
Definition dpi_os0 : OS := mkOS ∅ ∅ ∅.
Definition dpi_g1 : Dpi := snd (fst (mini_ics_init (Some "/tmp/s.sock"%string) dpi_listen Dpi_init dpi_os0)).
Definition dpi_os1 : OS := snd (mini_ics_init (Some "/tmp/s.sock"%string) dpi_listen Dpi_init dpi_os0).
Definition dpi_g2 : Dpi := snd (mini_ics_poll 1 true dpi_g1).
Definition dpi_s2 : Server := default (MiniIcsServer "") (g_server dpi_g2).

Lemma dpi_sample_run : run (dpi_step 1) (Dpi_init, dpi_os0) [0; 0] (dpi_g2, dpi_os1).
Proof.
  assert (R1 : run (dpi_step 1) (Dpi_init, dpi_os0) [0] (dpi_g1, dpi_os1)).
  { apply run_one. apply (dpi_init 1 (Some "/tmp/s.sock"%string) dpi_listen); [|reflexivity].
    apply Forall_singleton. cbn [conn_bytes_ok]. apply (bool_decide_unpack _). vm_compute. reflexivity. }
  apply (run_snoc _ _ [0] _ 0 _ R1). apply (dpi_poll 1 true dpi_g1 dpi_os1 0 None dpi_g2).
  unfold dpi_g2. rewrite (surjective_pairing (mini_ics_poll 1 true dpi_g1)) at 1. by f_equal.
Qed.

Lemma dpi_poll_faithful_witness :
  let '(rc, out, g') := mini_ics_poll 1 true dpi_g2 in
  g_response_payload g' = g_response_payload dpi_g2 /\
  match live_server dpi_g2 with
  | None => rc = -1 /\ out = None /\ g' = dpi_g2
  | Some s =>
      match fst (PollInbound (IoThreadMain 1) s) with
      | None => rc <> 1 /\ out = None /\ g_inbound_payload g' = g_inbound_payload dpi_g2 /\
          (HasClient (snd (PollInbound (IoThreadMain 1) s)) = true -> rc = 0)
      | Some m =>
          rc = 1 /\ message_ok m /\ is_request m /\
          out = Some (mkPollOut (MessageType_raw (Type_ (m_header m))) (h_txn_id (m_header m))
                        (h_address (m_header m)) (h_transfer_len (m_header m)) (h_status (m_header m))) /\
          forall i, 0 <= i -> mini_ics_get_payload_byte i true g' =
            match m_payload m !! Z.to_nat i with Some b => (0, Some b) | None => (-1, None) end
      end
  end.
Proof. exact (dpi_poll_faithful 1 dpi_os0 [0; 0] dpi_g2 dpi_os1 dpi_sample_run). Defined.

Lemma dpi_request_outcome_witness :
  exists rc out g' s',
    mini_ics_send_request 1 true (MessageType_raw kDmaReadReq) 0x1000 None 2 dpi_g2 = Some (rc, Some out, g') /\
    g_server g' = Some s' /\ ro_transaction_id out = 1 /\ pending_ s' !! 1 = None.
Proof.
  destruct (dpi_request_outcome 1 dpi_os0 [0; 0] dpi_g2 dpi_os1 true (MessageType_raw kDmaReadReq) 0x1000 None 2
              dpi_sample_run) as [_ H].
  destruct (H dpi_s2 [] eq_refl) as (rc & out & g' & s' & E & Hg & _ & Hid & Hdma & _).
  - vm_compute. reflexivity.
  - vm_compute. reflexivity.
  - reflexivity.
  - exists rc, out, g', s'. split_and!; [exact E|exact Hg|exact Hid|].
    exact (proj1 (Hdma eq_refl)).
Defined.

(** The read completes with the host's bytes. *)
Example dpi_request_example :
  match mini_ics_send_request 1 true (MessageType_raw kDmaReadReq) 0x1000 None 2 dpi_g2 with
  | Some (rc, Some out, g') => rc = 0 /\ ro_transaction_id out = 1 /\ g_response_payload g' = [17; 34]
  | _ => False
  end.
Proof. vm_compute. split_and!; reflexivity. Qed.

(** An interrupt that cannot be sent is reported as sent: with no client connected,
    [mini_ics_send_request] for MSI_X returns 0 with status SUCCESS. *)
Theorem msix_without_client_reports_success :
  exists g', mini_ics_send_request 1 true (MessageType_raw kMsiX) 0 None 0 dpi_g1 =
    Some (0, Some (mkRequestOut 0 (StatusCode_raw kSuccess)), g') /\
  option_map HasClient (g_server dpi_g1) = Some false /\
  option_map (fun s => s_wire (client_socket_ s)) (g_server g') = Some [].
Proof. eexists. split; [vm_compute; reflexivity|]. vm_compute. split; reflexivity. Qed.

(** A client that says HELLO and then closes the connection. *)
Definition gone_conn : Sock :=
  mkSock 7 (replicate 200 (PollReady POLLIN)) (replicate 4 (PollReady POLLOUT))
    [RecvBytes (wire_of sample_hello); RecvBytes []] (replicate 4 (SendTake 64)) [].
Definition gone_g1 : Dpi :=
  snd (fst (mini_ics_init (Some "/tmp/s.sock"%string)
              (mkListenAns 3 0 0 [PollReady POLLIN] [AcceptConn gone_conn]) Dpi_init dpi_os0)).
Definition gone_g2 : Dpi := snd (mini_ics_poll 1 true gone_g1).

(** [mini_ics_dpi.hpp] says that [mini_ics_poll] returns -1 when the server observed
    the client disconnect.  It returns 0: here the second poll is the one during
    which the I/O thread sees the end of the stream. *)
Theorem poll_after_disconnect_returns_zero :
  let '(rc, _, g3) := mini_ics_poll 1 true gone_g2 in
  option_map HasClient (g_server gone_g2) = Some true /\
  option_map HasClient (g_server g3) = Some false /\ rc = 0 /\
  fst (fst (mini_ics_poll 1 true g3)) = 0.
Proof. vm_compute. split_and!; reflexivity. Qed.
