(* ===== verification/Verilator.v ===== *)
(** * The Verilator harness

    Model of [rtl/alex/verilator_qemu_main.cpp]: the harness that drives the
    Verilated endpoint's pins, the descriptor-ring DMA engine and the message loop
    of [main].  The Verilated design is generated code and a parameter: a type of
    states, what its three [eval]s of one clock do to a state under given input
    pins, the output pins of a state, and whether it has called [$finish].  The server is any [ServerOps].  [None]
    stands for an access the C++ standard leaves undefined (an index past the end of
    a vector, a shift by 64 or more). *)
From S2P Require Import Prelude Protocol Socket Framing Interface.
From stdpp Require Import options.
#[local] Open Scope Z_scope.
#[local] Open Scope cxx_scope.

(** ** Pins *)

Record mmio_in := mkMmioIn { mi_valid : bool; mi_write : bool; mi_addr : Z; mi_len : Z; mi_data : Z }.
Record desc_in := mkDescIn { de_valid : bool; de_pcie_addr : Z; de_ram_addr : Z; de_len : Z; de_tag : Z }.
Record cpl_in := mkCplIn { cp_valid : bool; cp_sop : bool; cp_eop : bool; cp_error : bool;
  cp_hdr_hi : Z; cp_hdr_lo : Z; cp_words : list Z }.
Record pins := mkPins { p_rst : bool; p_mmio : mmio_in; p_read : desc_in; p_write : desc_in;
  p_cpl : cpl_in; p_rd_req_ready : bool; p_wr_req_ready : bool }.

Record outputs := mkOutputs {
  mmio_req_ready : bool; mmio_rsp_valid : bool; mmio_rsp_data : Z; mmio_rsp_status : Z;
  doorbell_pulse : bool;
  dma_read_desc_ready : bool; dma_rd_req_valid : bool; dma_rd_req_addr : Z; dma_rd_req_len : Z;
  dma_read_status_valid : bool; dma_read_status_error : Z;
  dma_write_desc_ready : bool; dma_wr_req_valid : bool; dma_wr_req_addr : Z; dma_wr_req_len : Z;
  dma_wr_req_words : list Z;
  dma_write_status_valid : bool; dma_write_status_error : Z }.

(** [rtl_finished]: the design has executed [$finish], [Verilated::gotFinish()]. *)
Class Rtl (T : Type) := {
  rtl_clock : pins -> T -> T; rtl_out : T -> outputs; rtl_finished : T -> bool }.

Record Harness (T : Type) := mkHarness { top_ : T; in_ : pins; sim_time_ : Z; doorbell_seen_ : bool }.
Arguments mkHarness {T} _ _ _ _.
Arguments top_ {T} _.
Arguments in_ {T} _.
Arguments sim_time_ {T} _.
Arguments doorbell_seen_ {T} _.

(** ** Byte helpers *)

Definition DecodeLe (p : list Z) : Z :=
  foldl (fun v i => v `|` (p !!! i << (8 * Z.of_nat i))) 0 (seq 0 (Nat.min (length p) 8)).

Definition EncodeLe (value : Z) (length_ : nat) : option (list Z) :=
  if (length_ <=? 8)%nat
  then Some ((fun i => u8 (value >> (8 * Z.of_nat i))) <$> seq 0 length_)
  else None.

Definition ReadLe16 (p : list Z) (off : nat) : Z :=
  if (off + 2 <=? length p)%nat then u16 (p !!! off `|` (p !!! (off + 1)%nat << 8)) else 0.

(** The loop [for (i = 0; i < n && off + i < p.size(); ++i) v |= p[off+i] << (8*i)]. *)
Definition read_le (n : nat) (p : list Z) (off : nat) : Z :=
  foldl (fun v i => v `|` (p !!! (off + i)%nat << (8 * Z.of_nat i))) 0
    (seq 0 (Nat.min n (length p - off))).

Definition ReadLe32 (p : list Z) (off : nat) : Z := u32 (read_le 4 p off).
Definition ReadLe64 (p : list Z) (off : nat) : Z := u64 (read_le 8 p off).

(** [p[off+i] = uint8_t(v >> (8*i))] for [i < n]. *)
Fixpoint StoreLe_loop (p : list Z) (off : nat) (v : Z) (is_ : list nat) : list Z :=
  match is_ with
  | [] => p
  | i :: is_ => StoreLe_loop (<[(off + i)%nat := u8 (v >> (8 * Z.of_nat i))]> p) off v is_
  end.
Definition StoreLe (p : list Z) (off : nat) (v : Z) (n : nat) : list Z :=
  StoreLe_loop p off v (seq 0 n).

(** [words[i / 8] |= uint64_t(data[offset + i]) << (8 * (i % 8))] for [i < n]. *)
Definition pack_words (data : list Z) (offset n : nat) : list Z :=
  foldl (fun words i =>
           alter (fun x => x `|` (data !!! (offset + i)%nat << (8 * Z.of_nat (i mod 8)))) (i / 8)%nat words)
    [0; 0; 0; 0] (seq 0 n).

(** [payload[j] = uint8_t(words[j / 8] >> (8 * (j % 8)))] for [j < min(req_len, 32)]. *)
Definition unpack_words (words : list Z) (req_len : nat) : list Z :=
  ((fun j => u8 (words !!! (j / 8)%nat >> (8 * Z.of_nat (j mod 8)))) <$> seq 0 (Nat.min req_len 32))
  ++ replicate (req_len - 32) 0.

(** ** Driving the pins *)

Section Harness.
Context {T : Type} `{Rtl T}.
Implicit Types h : Harness T.

Definition set_in (p : pins) h : Harness T := mkHarness (top_ h) p (sim_time_ h) (doorbell_seen_ h).
Definition set_mmio (x : mmio_in) h : Harness T :=
  let p := in_ h in
  set_in (mkPins (p_rst p) x (p_read p) (p_write p) (p_cpl p) (p_rd_req_ready p) (p_wr_req_ready p)) h.
Definition set_read_desc (x : desc_in) h : Harness T :=
  let p := in_ h in
  set_in (mkPins (p_rst p) (p_mmio p) x (p_write p) (p_cpl p) (p_rd_req_ready p) (p_wr_req_ready p)) h.
Definition set_write_desc (x : desc_in) h : Harness T :=
  let p := in_ h in
  set_in (mkPins (p_rst p) (p_mmio p) (p_read p) x (p_cpl p) (p_rd_req_ready p) (p_wr_req_ready p)) h.
Definition set_cpl (x : cpl_in) h : Harness T :=
  let p := in_ h in
  set_in (mkPins (p_rst p) (p_mmio p) (p_read p) (p_write p) x (p_rd_req_ready p) (p_wr_req_ready p)) h.
Definition set_rst (b : bool) h : Harness T :=
  let p := in_ h in
  set_in (mkPins b (p_mmio p) (p_read p) (p_write p) (p_cpl p) (p_rd_req_ready p) (p_wr_req_ready p)) h.
Definition clear_doorbell h : Harness T := mkHarness (top_ h) (in_ h) (sim_time_ h) false.

Definition out h : outputs := rtl_out (top_ h).

Definition Tick h : Harness T :=
  let t := rtl_clock (in_ h) (top_ h) in
  mkHarness t (in_ h) (u64 (sim_time_ h + 1))
    (if doorbell_pulse (rtl_out t) then true else doorbell_seen_ h).

(** [for (i = 0; i < n && !ready(); ++i) Tick();] *)
Fixpoint tick_until (ready : outputs -> bool) (n : nat) h : Harness T :=
  match n with
  | O => h
  | S n => if ready (out h) then h else tick_until ready n (Tick h)
  end.

(** [for (i = 0; i < n; ++i) { Tick(); if (ready()) { accepted = true; break; } }] *)
Fixpoint tick_accept (ready : outputs -> bool) (n : nat) h : bool * Harness T :=
  match n with
  | O => (false, h)
  | S n => let h := Tick h in if ready (out h) then (true, h) else tick_accept ready n h
  end.

(** [Some (result, status)]: returned true. *)
Definition Mmio (write : bool) (address len data : Z) h : option (Z * Z) * Harness T :=
  let h := set_mmio (mkMmioIn false write address len data) h in
  let h := tick_until mmio_req_ready 100 h in
  if negb (mmio_req_ready (out h)) then (None, h)
  else
    let h := Tick (set_mmio (mkMmioIn true write address len data) h) in
    let h := set_mmio (mkMmioIn false write address len data) h in
    let h := tick_until mmio_rsp_valid 200 h in
    if negb (mmio_rsp_valid (out h)) then (None, h)
    else
      let r := (mmio_rsp_data (out h), mmio_rsp_status (out h)) in
      (Some r, Tick h).

Definition Reset h : Harness T := set_rst false (Nat.iter 4 Tick (set_rst true h)).

Definition idle_desc : desc_in := mkDescIn false 0 0 0 0.
Definition InitDmaPorts h : Harness T :=
  let p := in_ h in
  set_in (mkPins (p_rst p) (p_mmio p) idle_desc idle_desc
            (mkCplIn false false false false 0 0 [0; 0; 0; 0]) true true) h.

Definition SendCompletion (tag byte_count lower_addr : Z) (data : list Z) (offset length_ : nat)
    (error : bool) h : option (Harness T) :=
  if negb (offset + Nat.min length_ 32 <=? length data)%nat then None
  else
    let hdr_hi := (0x4a << 56) `|` u64 (Z.of_nat (length_ / 4) << 32) `|` (byte_count & 0xfff) in
    let hdr_lo := u64 (tag << 40) `|` ((lower_addr & 0x7f) << 32) in
    let hdr_hi := if error then hdr_hi `|` (1 << 13) else hdr_hi in
    let words := pack_words data offset (Nat.min length_ 32) in
    let err := cp_error (p_cpl (in_ h)) in
    let h := Tick (set_cpl (mkCplIn true true true err hdr_hi hdr_lo words) h) in
    Some (set_cpl (mkCplIn false false false err hdr_hi hdr_lo words) h).

(** The chunk loop of [DmaRead], [chunks] enough for the length. *)
Fixpoint send_chunks (chunks : nat) (tag req_len : Z) (payload : list Z) (sent : Z) h
  : option (Harness T) :=
  match chunks with
  | O => Some h
  | S chunks =>
      if sent <? req_len then
        let chunk := Z.min 32 (req_len - sent) in
        h ← SendCompletion tag (req_len - sent) (u8 (u64 (dma_rd_req_addr (out h) + sent) & 0x7f))
              payload (Z.to_nat sent) (Z.to_nat chunk) false h;
        send_chunks chunks tag req_len payload (sent + chunk) h
      else Some h
  end.

Context {W : Type} `{ServerOps W}.
Implicit Types w : W.

Definition failed (rsp : option Message) : bool :=
  match rsp with
  | None => true
  | Some m => negb (bool_decide (Status (m_header m) = kSuccess))
  end.

Definition payload_of (rsp : option Message) : list Z :=
  match rsp with Some m => m_payload m | None => [] end.

(** The wait loop of [DmaRead]: result, harness and world; [None]: undefined. *)
Fixpoint read_wait (n : nat) (tag sim_time : Z) h w : option (bool * Harness T * W) :=
  match n with
  | O => Some (false, h, w)
  | S n =>
      let h := Tick h in
      hw ← (if dma_rd_req_valid (out h) then
              let req_len := u16 (dma_rd_req_len (out h)) in
              let '(rsp, _, w) := op_request (mkHostRequest kDmaReadReq (dma_rd_req_addr (out h)) 0 []
                                                req_len sim_time true) w in
              let payload := payload_of rsp in
              if failed rsp then
                h ← SendCompletion tag 0 0 [] 0 4 true h; Some (h, w)
              else
                h ← send_chunks (Z.to_nat req_len) tag req_len payload 0 h; Some (h, w)
            else Some (h, w));
      let '(h, w) := hw in
      if dma_read_status_valid (out h) then Some (dma_read_status_error (out h) =? 0, h, w)
      else read_wait n tag sim_time h w
  end.

Definition DmaRead (address ram_addr len tag sim_time : Z) h w : option (bool * Harness T * W) :=
  let '(accepted, h) :=
    tick_accept dma_read_desc_ready 1000 (set_read_desc (mkDescIn true address ram_addr len tag) h) in
  let h := set_read_desc (mkDescIn false address ram_addr len tag) h in
  if negb accepted then Some (false, h, w) else read_wait 2000 tag sim_time h w.

Fixpoint write_wait (n : nat) (sim_time : Z) h w : bool * Harness T * W :=
  match n with
  | O => (false, h, w)
  | S n =>
      let h := Tick h in
      if dma_wr_req_valid (out h) then
        let req_len := u16 (dma_wr_req_len (out h)) in
        let payload := unpack_words (dma_wr_req_words (out h)) (Z.to_nat req_len) in
        let '(rsp, _, w) := op_request (mkHostRequest kDmaWriteReq (dma_wr_req_addr (out h)) 0 payload
                                          req_len sim_time true) w in
        if failed rsp then (false, h, w)
        else if dma_write_status_valid (out h) then (dma_write_status_error (out h) =? 0, h, w)
        else write_wait n sim_time h w
      else if dma_write_status_valid (out h) then (dma_write_status_error (out h) =? 0, h, w)
      else write_wait n sim_time h w
  end.

Definition DmaWrite (address ram_addr len tag sim_time : Z) h w : bool * Harness T * W :=
  let '(accepted, h) :=
    tick_accept dma_write_desc_ready 1000 (set_write_desc (mkDescIn true address ram_addr len tag) h) in
  let h := set_write_desc (mkDescIn false address ram_addr len tag) h in
  if negb accepted then (false, h, w) else write_wait 2000 sim_time h w.
End Harness.

(** ** The descriptor ring *)

Definition kDescBytes : Z := 32.
Definition kCplBytes : Z := 16.
Definition kRamBytes : Z := 64 * 1024.
Definition kMaxTransfer : Z := 4096.

(** The fields of a 32-byte descriptor. *)
Record descriptor := mkDescriptor {
  d_host_addr : Z; d_ram_addr : Z; d_length : Z; d_opcode : Z; d_flags : Z; d_tag : Z }.

Definition parse_descriptor (desc : list Z) : descriptor :=
  mkDescriptor (ReadLe64 desc 0) (ReadLe32 desc 8) (ReadLe16 desc 12)
    (desc !!! 14%nat) (desc !!! 15%nat) (ReadLe32 desc 16).

Definition descriptor_valid (d : descriptor) : bool :=
  negb (d_length d =? 0) && (d_length d <=? kMaxTransfer) &&
  (u64 (d_ram_addr d + d_length d) <=? kRamBytes) && ((d_opcode d =? 0) || (d_opcode d =? 1)).

(** The completion entry written for ring index [index]. *)
Definition completion_entry (tag status bytes index : Z) : list Z :=
  let cpl := replicate 16 0 in
  let cpl := StoreLe cpl 0 tag 4 in
  let cpl := StoreLe cpl 4 status 2 in
  let cpl := StoreLe cpl 8 bytes 4 in
  StoreLe cpl 12 index 4.

(** The fetch and completion requests of slot [index % count]. *)
Definition fetch_request (desc_base count index sim_time : Z) : HostRequest :=
  mkHostRequest kDmaReadReq (u64 (desc_base + u64 (index mod count * kDescBytes))) 0 [] kDescBytes sim_time true.
Definition completion_request (cpl_base count index sim_time tag status bytes : Z) : HostRequest :=
  mkHostRequest kDmaWriteReq (u64 (cpl_base + u64 (index mod count * kCplBytes))) 0
    (completion_entry tag status bytes index) kCplBytes sim_time true.
Definition ring_msix (sim_time : Z) : HostRequest := mkHostRequest kMsiX 0 0 [] 0 sim_time false.

(** How the loop of [main] was left. *)
Inductive loop_exit :=
| Looping      (** not yet, after the given number of passes *)
| OnShutdown   (** [stop] was set *)
| OnFinish.    (** [Verilated::gotFinish()] *)

Section Ring.
Context {T : Type} `{Rtl T} {W : Type} `{ServerOps W}.
Implicit Types (h : Harness T) (w : W).

(** From the descriptor reply to (status, bytes, tag, flags). *)
Definition run_descriptor (desc_rsp : option Message) (sim_time : Z) h w
  : option (Z * Z * Z * Z * Harness T * W) :=
  match desc_rsp with
  | None => Some (1, 0, 0, 0, h, w)
  | Some m =>
      if bool_decide (Status (m_header m) = kSuccess) &&
         (Z.of_nat (length (m_payload m)) =? kDescBytes) then
        let d := parse_descriptor (m_payload m) in
        if descriptor_valid d then
          if d_opcode d =? 0 then
            r ← DmaRead (d_host_addr d) (u16 (d_ram_addr d)) (d_length d) (u8 (d_tag d)) sim_time h w;
            let '(ok, h, w) := r in
            Some (if (ok : bool) then 0 else 1, if (ok : bool) then d_length d else 0, d_tag d, d_flags d, h, w)
          else
            let '(ok, h, w) := DmaWrite (d_host_addr d) (u16 (d_ram_addr d)) (d_length d) (u8 (d_tag d)) sim_time h w in
            Some (if (ok : bool) then 0 else 1, if (ok : bool) then d_length d else 0, d_tag d, d_flags d, h, w)
        else Some (6, 0, d_tag d, d_flags d, h, w)
      else Some (h_status (m_header m), 0, 0, 0, h, w)
  end.

(** [n] iterations of the descriptor loop from [index]. *)
Fixpoint ring_loop (n : nat) (desc_base cpl_base count index sim_time : Z) h w
  : option (bool * Harness T * W) :=
  match n with
  | O => Some (true, h, w)
  | S n =>
      let '(desc_rsp, _, w) := op_request (fetch_request desc_base count index sim_time) w in
      r ← run_descriptor desc_rsp sim_time h w;
      let '(status, bytes, tag, flags, h, w) := r in
      let '(cpl_rsp, _, w) :=
        op_request (completion_request cpl_base count index sim_time tag status bytes) w in
      if failed cpl_rsp then Some (false, h, w)
      else
        let w := if negb ((flags & 1) =? 0)
                 then let '(_, _, w) := op_request (ring_msix sim_time) w in w else w in
        if negb (status =? 0) then Some (false, h, w)
        else ring_loop n desc_base cpl_base count (u32 (index + 1)) sim_time h w
  end.

(** The result and [*head] afterwards. *)
Definition RunGenericDma (desc_base cpl_base count tail head sim_time : Z) h w
  : option (bool * Z * Harness T * W) :=
  if (count =? 0) || (1024 <? count) || (tail <? head) || (count <? tail - head)
  then Some (false, head, h, w)
  else
    r ← ring_loop (Z.to_nat (tail - head)) desc_base cpl_base count head sim_time h w;
    let '(ok, h, w) := r in
    Some (ok, if (ok : bool) then tail else head, h, w).

(** ** The message loop of [main] *)

Record Regs := mkRegs {
  r_asq : Z; r_acq : Z; r_desc_base : Z; r_cpl_base : Z;
  r_desc_count : Z; r_desc_head : Z; r_dma_control : Z; r_dma_status : Z }.

Definition Regs_init : Regs := mkRegs 0 0 0 0 0 0 0 0.

(** The register latches of an MMIO write. *)
Definition latch (addr v : Z) (r : Regs) : Regs :=
  let lo x := (x & 0xffffffff00000000) `|` v in
  let hi x := (x & 0xffffffff) `|` u64 (v << 32) in
  mkRegs
    (if addr =? 0x28 then v else r_asq r)
    (if addr =? 0x30 then v else r_acq r)
    (let x := if addr =? 0x1040 then lo (r_desc_base r) else r_desc_base r in
     if addr =? 0x1044 then hi x else x)
    (let x := if addr =? 0x1048 then lo (r_cpl_base r) else r_cpl_base r in
     if addr =? 0x104c then hi x else x)
    (if addr =? 0x1050 then u32 v else r_desc_count r)
    (r_desc_head r)
    (if addr =? 0x105c then u32 v else r_dma_control r)
    (if (addr =? 0x105c) && negb ((u32 v & 2) =? 0) then 0 else r_dma_status r).

Definition set_dma (head status : Z) (r : Regs) : Regs :=
  mkRegs (r_asq r) (r_acq r) (r_desc_base r) (r_cpl_base r) (r_desc_count r) head
    (r_dma_control r) status.

Definition reply_status (status : Z) : StatusCode := if status =? 0 then kSuccess else kErrorGeneric.

Definition respond (hdr : Header) (p : list Z) w : W := snd (op_respond hdr p w).

(** The doorbell of the software queue: read 64 bytes, write a completion, MSI-X. *)
Definition queue_completion : list Z := (fun i => u8 (0xc0 + Z.of_nat i)) <$> seq 0 16.

Definition ring_doorbell (r : Regs) (sim_time : Z) w : W :=
  let '(read, _, w) := op_request (mkHostRequest kDmaReadReq (r_asq r) 0 [] 64 sim_time true) w in
  match read with
  | None => w
  | Some _ =>
      let '(_, _, w) := op_request (mkHostRequest kDmaWriteReq (r_acq r) 0 queue_completion 16 sim_time true) w in
      let '(_, _, w) := op_request (mkHostRequest kMsiX 0 0 [] 0 sim_time false) w in
      w
  end.

(** What follows the response to an MMIO write. *)
Definition after_write (addr v : Z) (r : Regs) h w : option (Regs * Harness T * W) :=
  x ← (if (addr =? 0x1054) && negb ((r_dma_control r & 1) =? 0) && negb (r_desc_count r =? 0) then
         y ← RunGenericDma (r_desc_base r) (r_cpl_base r) (r_desc_count r) (u32 v) (r_desc_head r)
               (sim_time_ h) h w;
         let '(ok, head, h, w) := y in
         Some (set_dma head (if (ok : bool) then 0 else 1) r, h, w)
       else Some (r, h, w));
  let '(r, h, w) := x in
  if (addr =? 0x1000) && doorbell_seen_ h
  then Some (r, clear_doorbell h, ring_doorbell r (sim_time_ (clear_doorbell h)) w)
  else Some (r, h, w).

Definition mmio_length (msg : Message) : Z :=
  if negb (h_transfer_len (m_header msg) =? 0) then h_transfer_len (m_header msg)
  else u32 (Z.of_nat (length (m_payload msg))).

(** The access itself: (result, status). *)
Definition access (is_write : bool) (msg : Message) (r : Regs) h : Z * Z * Harness T :=
  let addr := h_address (m_header msg) in
  if negb is_write && (addr =? 0x1058) then (r_dma_status r, 0, h)
  else
    match Mmio is_write addr (mmio_length msg) (DecodeLe (m_payload msg)) h with
    | (Some (result, status), h) => (result, status, h)
    | (None, h) => (0, 5, h)
    end.

(** One message; the flag is [stop]. *)
Definition handle_message (msg : Message) (r : Regs) h w : option (bool * Regs * Harness T * W) :=
  let txn := h_txn_id (m_header msg) in
  let addr := h_address (m_header msg) in
  match Type_ (m_header msg) with
  | kResetReq =>
      let h := Reset h in
      Some (false, r, h, respond (MakeHeader kResetRsp txn 0 0 kSuccess (sim_time_ h) 0 kFlagIsResponse 0) [] w)
  | kMmioWriteReq =>
      let '(_, status, h) := access true msg r h in
      let v := DecodeLe (m_payload msg) in
      let r := latch addr v r in
      let w := respond (MakeHeader kMmioWriteRsp txn addr 0 (reply_status status) (sim_time_ h) 0
                          kFlagIsResponse 0) [] w in
      x ← after_write addr v r h w;
      let '(r, h, w) := x in
      Some (false, r, h, w)
  | kMmioReadReq =>
      let '(result, status, h) := access false msg r h in
      payload ← (if status =? 0 then EncodeLe result (Z.to_nat (mmio_length msg)) else Some []);
      let n := u32 (Z.of_nat (length payload)) in
      Some (false, r, h, respond (MakeHeader kMmioReadRsp txn addr 0 (reply_status status) (sim_time_ h) n
                                    kFlagIsResponse n) payload w)
  | kShutdown => Some (true, r, h, w)
  | _ => Some (false, r, h, w)
  end.

(** [n] passes of [while (!stop && !Verilated::gotFinish())]. *)
Fixpoint main_loop (n : nat) (r : Regs) h w : option (loop_exit * Regs * Harness T * W) :=
  match n with
  | O => Some (Looping, r, h, w)
  | S n =>
      if rtl_finished (top_ h) then Some (OnFinish, r, h, w)
      else
        let '(inbound, w) := op_poll w in
        match inbound with
        | None => main_loop n r (Tick h) w
        | Some msg =>
            x ← handle_message msg r h w;
            let '(stop, r, h, w) := x in
            if (stop : bool) then Some (OnShutdown, r, h, w) else main_loop n r h w
        end
  end.

(** The harness before the loop; [p0] is what the input pins of a new design hold. *)
Definition main_harness (top : T) (p0 : pins) : Harness T :=
  let h := mkHarness top p0 0 false in
  let m := p_mmio p0 in
  let h := set_mmio (mkMmioIn false (mi_write m) (mi_addr m) (mi_len m) (mi_data m)) h in
  Reset (InitDmaPorts (set_rst true h)).

(** [main] from a started server on, for [n] passes of its loop. *)
Definition main_ (n : nat) (top : T) (p0 : pins) w : option (loop_exit * Regs * Harness T * W) :=
  main_loop n Regs_init (main_harness top p0) w.
End Ring.

(** ** Lemmas on bytes *)

Lemma read_le_slice n p off :
  bytes_ok p -> (off + n <= length p)%nat -> read_le n p off = le_value (slice off n p).
Proof.
  intros Hp Hl. unfold read_le. rewrite Nat.min_l by lia.
  rewrite foldl_lor_le_value by done. by rewrite read_bytes_slice.
Qed.

Lemma ReadLe16_slice p off :
  bytes_ok p -> (off + 2 <= length p)%nat -> ReadLe16 p off = le_value (slice off 2 p).
Proof.
  intros Hp Hl. unfold ReadLe16. rewrite (proj2 (Nat.leb_le _ _)) by done.
  rewrite <- (read_bytes_slice p off 2) by done. unfold read_bytes. cbn [seq fmap list_fmap le_value].
  rewrite Nat.add_0_r. pose proof (lookup_total_byte p off Hp) as H0.
  pose proof (lookup_total_byte p (off + 1) Hp) as H1. unfold in_width in *.
  rewrite lor_disjoint_add by lia. rewrite wrap_id; [lia|unfold in_width; lia].
Qed.

Lemma le_value_slice_bound p off n :
  bytes_ok p -> (off + n <= length p)%nat -> 0 <= le_value (slice off n p) < 256 ^ Z.of_nat n.
Proof.
  intros Hp Hl. pose proof (le_value_bound (slice off n p) (slice_ok off n p Hp)) as Hb.
  unfold slice in *. rewrite length_take, length_drop in Hb. by rewrite Nat.min_l in Hb by lia.
Qed.

Lemma ReadLe32_slice p off :
  bytes_ok p -> (off + 4 <= length p)%nat -> ReadLe32 p off = le_value (slice off 4 p).
Proof.
  intros Hp Hl. unfold ReadLe32. rewrite read_le_slice by done.
  apply wrap_id, (le_value_slice_bound p off 4); done.
Qed.

Lemma ReadLe64_slice p off :
  bytes_ok p -> (off + 8 <= length p)%nat -> ReadLe64 p off = le_value (slice off 8 p).
Proof.
  intros Hp Hl. unfold ReadLe64. rewrite read_le_slice by done.
  apply wrap_id, (le_value_slice_bound p off 8); done.
Qed.

Lemma completion_entry_layout tag status bytes index :
  completion_entry tag status bytes index =
  le_bytes 4 tag ++ le_bytes 2 status ++ [0; 0] ++ le_bytes 4 bytes ++ le_bytes 4 index.
Proof. rewrite <- !encode_loop_le. reflexivity. Qed.

(** [struct pcie_vip_dma_desc] as the guest driver fills it ([memset] to 0 first). *)
Definition encode_descriptor (d : descriptor) : list Z :=
  le_bytes 8 (d_host_addr d) ++ le_bytes 4 (d_ram_addr d) ++ le_bytes 2 (d_length d) ++
  [d_opcode d; d_flags d] ++ le_bytes 4 (d_tag d) ++ replicate 12 0.

Record descriptor_fits (d : descriptor) : Prop := {
  df_host : in_width 64 (d_host_addr d); df_ram : in_width 32 (d_ram_addr d);
  df_len : in_width 16 (d_length d); df_op : in_width 8 (d_opcode d);
  df_flags : in_width 8 (d_flags d); df_tag : in_width 32 (d_tag d) }.

Lemma encode_descriptor_bytes d : descriptor_fits d -> bytes_ok (encode_descriptor d).
Proof.
  intros []. unfold encode_descriptor. rewrite !Forall_app. split_and!; auto with bytes. by repeat constructor.
Qed.

Lemma parse_encode d : descriptor_fits d -> parse_descriptor (encode_descriptor d) = d.
Proof.
  intros Hd. pose proof (encode_descriptor_bytes d Hd) as Hb. destruct Hd.
  assert (Hl : length (encode_descriptor d) = 32%nat).
  { unfold encode_descriptor. rewrite !length_app, !length_le_bytes, length_replicate. done. }
  unfold parse_descriptor.
  rewrite ReadLe64_slice, !ReadLe32_slice, ReadLe16_slice by (done || lia).
  replace (slice 0 8 (encode_descriptor d)) with (le_bytes 8 (d_host_addr d)) by reflexivity.
  replace (slice 8 4 (encode_descriptor d)) with (le_bytes 4 (d_ram_addr d)) by reflexivity.
  replace (slice 12 2 (encode_descriptor d)) with (le_bytes 2 (d_length d)) by reflexivity.
  replace (slice 16 4 (encode_descriptor d)) with (le_bytes 4 (d_tag d)) by reflexivity.
  rewrite !le_value_id by done. by destruct d.
Qed.

(** [struct pcie_vip_dma_cpl] and how the guest driver reads it. *)
Record dma_cpl := mkCompletion { c_tag : Z; c_status : Z; c_reserved : Z; c_bytes : Z; c_sequence : Z }.
Definition read_completion (p : list Z) : dma_cpl :=
  mkCompletion (le_value (slice 0 4 p)) (le_value (slice 4 2 p)) (le_value (slice 6 2 p))
    (le_value (slice 8 4 p)) (le_value (slice 12 4 p)).

Lemma read_completion_entry tag status bytes index :
  in_width 32 tag -> in_width 32 bytes -> in_width 32 index ->
  read_completion (completion_entry tag status bytes index) = mkCompletion tag (u16 status) 0 bytes index.
Proof.
  intros. rewrite completion_entry_layout. unfold read_completion. set (p := _ ++ _).
  replace (slice 0 4 p) with (le_bytes 4 tag) by reflexivity.
  replace (slice 4 2 p) with (le_bytes 2 status) by reflexivity.
  replace (slice 6 2 p) with [0; 0] by reflexivity.
  replace (slice 8 4 p) with (le_bytes 4 bytes) by reflexivity.
  replace (slice 12 4 p) with (le_bytes 4 index) by reflexivity.
  rewrite !(le_value_id 4) by done. f_equal. apply le_value_le_bytes.
Qed.

(** A valid descriptor stays inside the device RAM, and the narrower parameters of
    [DmaRead] and [DmaWrite] lose nothing of its address and length. *)
Lemma descriptor_valid_bounds d :
  descriptor_fits d -> descriptor_valid d = true ->
  0 < d_length d <= 4096 /\ d_ram_addr d + d_length d <= 65536 /\
  u16 (d_ram_addr d) = d_ram_addr d /\ (d_opcode d = 0 \/ d_opcode d = 1).
Proof.
  intros [_ Hr Hl _ _ _]. unfold descriptor_valid, kMaxTransfer, kRamBytes, in_width in *.
  rewrite wrap_id by (unfold in_width; lia). rewrite !andb_true_iff, orb_true_iff, negb_true_iff.
  rewrite Z.eqb_neq, !Z.leb_le, !Z.eqb_eq. intros [[[? ?] ?] ?].
  split_and!; try lia. apply wrap_id. unfold in_width. lia.
Qed.

(** ** Lemmas on the DMA engine *)

Definition transfer_call (t : MessageType) (c : call) : Prop :=
  match c with CRequest rq _ _ => rq_type rq = t | _ => False end.

Section Traces.
Context {T : Type} `{Rtl T} {W : Type} `{ServerOps W}.
Implicit Types (h : Harness T) (w : W).

Lemma read_wait_trace n tag st h w l ok h' w' l' :
  read_wait n tag st h (w, l) = Some (ok, h', (w', l')) ->
  exists t, l' = l ++ t /\ Forall (transfer_call kDmaReadReq) t.
Proof.
  revert h w l. induction n as [|n IH]; intros h w l; cbn [read_wait].
  { intros; simplify_eq. exists []. by rewrite app_nil_r. }
  destruct (dma_rd_req_valid (out (Tick h))).
  - cbn [op_request logged]. destruct (op_request _ w) as [[rsp id] w1].
    set (c := CRequest _ _ _). destruct (failed rsp).
    { cbn. done. }
    destruct (send_chunks _ _ _ _ _ _) as [h1|]; cbn [mbind option_bind]; [|done].
    assert (Hc : transfer_call kDmaReadReq c) by done.
    destruct (dma_read_status_valid _); intros E.
    + simplify_eq. exists [c]. split; [done|by constructor].
    + apply IH in E as (t & -> & Ht). exists (c :: t). rewrite <- app_assoc. by split; [|constructor].
  - cbn [mbind option_bind]. destruct (dma_read_status_valid _); intros E; [|by apply IH in E].
    simplify_eq. exists []. by rewrite app_nil_r.
Qed.

Lemma DmaRead_trace a r len tag st h w l ok h' w' l' :
  DmaRead a r len tag st h (w, l) = Some (ok, h', (w', l')) ->
  exists t, l' = l ++ t /\ Forall (transfer_call kDmaReadReq) t.
Proof.
  unfold DmaRead. destruct (tick_accept _ _ _) as [acc h1]. destruct acc; cbn [negb].
  - apply read_wait_trace.
  - intros; simplify_eq. exists []. by rewrite app_nil_r.
Qed.

Lemma write_wait_trace n st h w l ok h' w' l' :
  write_wait n st h (w, l) = (ok, h', (w', l')) ->
  exists t, l' = l ++ t /\ Forall (transfer_call kDmaWriteReq) t.
Proof.
  revert h w l. induction n as [|n IH]; intros h w l; cbn [write_wait].
  { intros; simplify_eq. exists []. by rewrite app_nil_r. }
  destruct (dma_wr_req_valid (out (Tick h))).
  - cbn [op_request logged]. destruct (op_request _ w) as [[rsp id] w1]. set (c := CRequest _ _ _).
    assert (Hc : transfer_call kDmaWriteReq c) by done.
    destruct (failed rsp); [|destruct (dma_write_status_valid _)]; intros E;
      try (simplify_eq; exists [c]; split; [done|by constructor]).
    apply IH in E as (t & -> & Ht). exists (c :: t). rewrite <- app_assoc. by split; [|constructor].
  - destruct (dma_write_status_valid _); intros E; [|by apply IH in E].
    simplify_eq. exists []. by rewrite app_nil_r.
Qed.

Lemma DmaWrite_trace a r len tag st h w l ok h' w' l' :
  DmaWrite a r len tag st h (w, l) = (ok, h', (w', l')) ->
  exists t, l' = l ++ t /\ Forall (transfer_call kDmaWriteReq) t.
Proof.
  unfold DmaWrite. destruct (tick_accept _ _ _) as [acc h1]. destruct acc; cbn [negb].
  - apply write_wait_trace.
  - intros; simplify_eq. exists []. by rewrite app_nil_r.
Qed.

(** A reply that carries a whole descriptor. *)
Definition fetched (r : option Message) : option descriptor :=
  match r with
  | Some m => if bool_decide (Status (m_header m) = kSuccess) && (Z.of_nat (length (m_payload m)) =? kDescBytes)
              then Some (parse_descriptor (m_payload m)) else None
  | None => None
  end.

(** Outcome of a descriptor and the transfers it may cause. *)
Inductive descriptor_outcome (r : option Message) : Z -> Z -> Z -> Z -> list call -> Prop :=
| outcome_missing : r = None -> descriptor_outcome r 1 0 0 0 []
| outcome_rejected m :
    r = Some m -> fetched r = None -> descriptor_outcome r (h_status (m_header m)) 0 0 0 []
| outcome_invalid d :
    fetched r = Some d -> descriptor_valid d = false ->
    descriptor_outcome r 6 0 (d_tag d) (d_flags d) []
| outcome_transfer d (ok : bool) t :
    fetched r = Some d -> descriptor_valid d = true ->
    Forall (transfer_call (if d_opcode d =? 0 then kDmaReadReq else kDmaWriteReq)) t ->
    descriptor_outcome r (if ok then 0 else 1) (if ok then d_length d else 0) (d_tag d) (d_flags d) t.

Lemma run_descriptor_trace r st h w l status bytes tag flags h' w' l' :
  run_descriptor r st h (w, l) = Some (status, bytes, tag, flags, h', (w', l')) ->
  exists t, l' = l ++ t /\ descriptor_outcome r status bytes tag flags t.
Proof.
  unfold run_descriptor. destruct r as [m|].
  2:{ intros; simplify_eq. exists []. rewrite app_nil_r. by split; [|constructor]. }
  destruct (_ && _) eqn:Ef.
  2:{ intros; simplify_eq. exists []. rewrite app_nil_r. split; [done|].
      apply (outcome_rejected _ m); [done|]. cbn. by rewrite Ef. }
  assert (Hf : fetched (Some m) = Some (parse_descriptor (m_payload m))) by (cbn; by rewrite Ef).
  destruct (descriptor_valid _) eqn:Hv.
  2:{ intros; simplify_eq. exists []. rewrite app_nil_r. split; [done|]. by apply outcome_invalid. }
  destruct (_ =? 0) eqn:Hop.
  - destruct (DmaRead _ _ _ _ _ _ _) as [[[ok h1] [w1 l1]]|] eqn:E; cbn [mbind option_bind]; [|done].
    intros; simplify_eq. apply DmaRead_trace in E as (t & -> & Ht). exists t. split; [done|].
    apply outcome_transfer; [done|done|]. by rewrite Hop.
  - destruct (DmaWrite _ _ _ _ _ _ _) as [[ok h1] [w1 l1]] eqn:E.
    intros; simplify_eq. apply DmaWrite_trace in E as (t & -> & Ht). exists t. split; [done|].
    apply outcome_transfer; [done|done|]. by rewrite Hop.
Qed.

(** The calls for one ring entry, and whether the engine goes on: fetch, transfer,
    exactly one completion record, and the interrupt the descriptor asks for. *)
Inductive ring_entry (desc_base cpl_base count index st : Z) : list call -> bool -> Prop :=
| ring_entry_done r id status bytes tag flags t cr cid irq (go : bool) :
    descriptor_outcome r status bytes tag flags t ->
    match failed cr with
    | true => irq = [] /\ go = false
    | false => go = (status =? 0) /\
        if negb ((flags & 1) =? 0) then exists ir iid, irq = [CRequest (ring_msix st) ir iid] else irq = []
    end ->
    ring_entry desc_base cpl_base count index st
      (CRequest (fetch_request desc_base count index st) r id :: t ++
       CRequest (completion_request cpl_base count index st tag status bytes) cr cid :: irq) go.

(** Consecutive entries; only the last one may have stopped the engine. *)
Inductive ring_trace (desc_base cpl_base count st : Z) : Z -> nat -> list call -> bool -> Prop :=
| ring_trace_done index : ring_trace desc_base cpl_base count st index 0 [] true
| ring_trace_stop index n t :
    ring_entry desc_base cpl_base count index st t false ->
    ring_trace desc_base cpl_base count st index (S n) t false
| ring_trace_next index n t ts ok :
    ring_entry desc_base cpl_base count index st t true ->
    ring_trace desc_base cpl_base count st (u32 (index + 1)) n ts ok ->
    ring_trace desc_base cpl_base count st index (S n) (t ++ ts) ok.

Lemma ring_loop_trace n db cb count index st h w l ok h' w' l' :
  ring_loop n db cb count index st h (w, l) = Some (ok, h', (w', l')) ->
  exists t, l' = l ++ t /\ ring_trace db cb count st index n t ok.
Proof.
  revert index h w l. induction n as [|n IH]; intros index h w l; cbn [ring_loop].
  { intros; simplify_eq. exists []. rewrite app_nil_r. by split; [|constructor]. }
  cbn [op_request logged]. destruct (op_request _ w) as [[r id] w1].
  destruct (run_descriptor _ _ _ _) as [[[[[[status bytes] tag] flags] h1] [w2 l2]]|] eqn:Er;
    cbn [mbind option_bind]; [|done].
  apply run_descriptor_trace in Er as (t & -> & Hd).
  destruct (op_request _ w2) as [[cr cid] w3].
  set (fetch := CRequest _ r id). set (cpl := CRequest _ cr cid).
  destruct (failed cr) eqn:Ec.
  { intros; simplify_eq. exists (fetch :: t ++ [cpl]). split; [by rewrite <- !app_assoc|].
    apply ring_trace_stop. econstructor; [done|]. by rewrite Ec. }
  set (irqs := if negb ((flags & 1) =? 0)
               then let '(ir, iid, _) := op_request (ring_msix st) w3 in [CRequest (ring_msix st) ir iid]
               else []).
  assert (Hent : ring_entry db cb count index st (fetch :: t ++ cpl :: irqs) (status =? 0)).
  { econstructor; [done|]. rewrite Ec. split; [done|]. unfold irqs.
    destruct (negb _); [|done]. destruct (op_request _ w3) as [[ir iid] w4]. eauto. }
  set (w4 := if negb ((flags & 1) =? 0) then _ else _).
  assert (Hw4 : exists w5, w4 = (w5, l ++ fetch :: t ++ cpl :: irqs)).
  { unfold w4, irqs. destruct (negb _).
    - destruct (op_request _ w3) as [[ir iid] w5]. eexists. by rewrite <- !app_assoc.
    - eexists. by rewrite <- !app_assoc. }
  destruct Hw4 as [w5 ->]. clearbody irqs. destruct (status =? 0); cbn [negb]; intros E.
  - apply IH in E as (ts & -> & Hts). eexists. split; [by rewrite <- app_assoc|].
    apply (ring_trace_next _ _ _ _ _ _ _ _ _ Hent Hts).
  - simplify_eq. eexists. split; [done|]. by apply ring_trace_stop.
Qed.
End Traces.

(** ** Lemmas on the message loop *)

Definition rtl_initiated (c : call) : Prop := match c with CRequest _ _ _ => True | _ => False end.

Section Main.
Context {T : Type} `{Rtl T} {W : Type} `{ServerOps W}.
Implicit Types (h : Harness T) (w : W) (msg : Message).

Lemma Tick_width h : in_width 64 (sim_time_ (Tick h)).
Proof. cbn. auto with width. Qed.

Lemma tick_until_width f n h : in_width 64 (sim_time_ h) -> in_width 64 (sim_time_ (tick_until f n h)).
Proof.
  revert h. induction n as [|n IH]; intros h Hh; cbn [tick_until]; [done|].
  destruct (f _); [done|]. apply IH, Tick_width.
Qed.

Lemma Mmio_width wr a len d h x h' :
  in_width 64 (sim_time_ h) -> Mmio wr a len d h = (x, h') -> in_width 64 (sim_time_ h').
Proof.
  intros Hh. unfold Mmio. set (h1 := tick_until mmio_req_ready 100 _).
  assert (H1 : in_width 64 (sim_time_ h1)) by (by apply tick_until_width).
  destruct (negb _); [intros; by simplify_eq|]. set (h2 := tick_until mmio_rsp_valid 200 _).
  assert (H2 : in_width 64 (sim_time_ h2)) by (by apply tick_until_width, wrap_range).
  destruct (negb _); intros; simplify_eq; [done|apply Tick_width].
Qed.

Lemma access_width wr msg r h v st h' :
  in_width 64 (sim_time_ h) -> access wr msg r h = (v, st, h') -> in_width 64 (sim_time_ h').
Proof.
  intros Hh. unfold access. destruct (_ && _); [intros; by simplify_eq|].
  destruct (Mmio _ _ _ _ _) as [[[? ?]|] h1] eqn:E; intros; simplify_eq; by eapply Mmio_width.
Qed.

Lemma ring_trace_requests db cb count st index n t ok :
  ring_trace db cb count st index n t ok -> Forall rtl_initiated t.
Proof.
  assert (Ht : forall ty t, Forall (transfer_call ty) t -> Forall rtl_initiated t).
  { intros ty t' Hf. eapply Forall_impl; [exact Hf|]. by intros []. }
  assert (He : forall i t go, ring_entry db cb count i st t go -> Forall rtl_initiated t).
  { intros i t' go []. constructor; [done|]. apply Forall_app. split.
    - match goal with Hd : descriptor_outcome _ _ _ _ _ _ |- _ => destruct Hd; eauto using Forall_nil end.
    - constructor; [done|]. destruct (failed cr); [by destruct_and!; subst|].
      destruct_and!. destruct (negb _); [|by subst].
      match goal with Hi : exists _ _, _ |- _ => destruct Hi as (? & ? & ->) end. by repeat constructor. }
  induction 1; eauto using Forall_nil. apply Forall_app. eauto.
Qed.

Lemma RunGenericDma_trace db cb count tail head st h w l ok head' h' w' l' :
  RunGenericDma db cb count tail head st h (w, l) = Some (ok, head', h', (w', l')) ->
  (count <> 0 /\ count <= 1024 /\ head <= tail /\ tail - head <= count /\
   head' = (if ok then tail else head) /\
   exists t, l' = l ++ t /\ ring_trace db cb count st head (Z.to_nat (tail - head)) t ok) \/
  ((count = 0 \/ 1024 < count \/ tail < head \/ count < tail - head) /\
   ok = false /\ head' = head /\ h' = h /\ l' = l).
Proof.
  unfold RunGenericDma. destruct (_ || _) eqn:Eg.
  { intros; simplify_eq. right. rewrite !orb_true_iff, Z.eqb_eq, !Z.ltb_lt in Eg. split; [tauto|done]. }
  destruct (ring_loop _ _ _ _ _ _ _ _) as [[[ok1 h1] [w1 l1]]|] eqn:E; cbn [mbind option_bind]; [|done].
  intros; simplify_eq. apply ring_loop_trace in E as (t & -> & Ht). left.
  rewrite !orb_false_iff, Z.eqb_neq, !Z.ltb_ge in Eg. split_and!; [lia..|done|by exists t].
Qed.

Lemma ring_doorbell_trace r st w l w' l' :
  ring_doorbell r st (w, l) = (w', l') -> exists t, l' = l ++ t /\ Forall rtl_initiated t.
Proof.
  unfold ring_doorbell. cbn [op_request logged].
  destruct (op_request _ w) as [[[m|] id] w1]; cbn.
  2:{ intros; simplify_eq. eexists. split; [done|]. by repeat constructor. }
  destruct (op_request _ w1) as [[m1 id1] w2]. destruct (op_request _ w2) as [[m2 id2] w3].
  intros; simplify_eq. rewrite <- !app_assoc. eexists. split; [done|]. by repeat constructor.
Qed.

Lemma after_write_trace addr v r h w l r' h' w' l' :
  after_write addr v r h (w, l) = Some (r', h', (w', l')) ->
  exists t, l' = l ++ t /\ Forall rtl_initiated t.
Proof.
  unfold after_write. match goal with |- context [?x ≫= _] => set (first := x) end.
  destruct first as [[[r1 h1] [w1 l1]]|] eqn:E1; cbn [mbind option_bind]; [|done].
  assert (H1 : exists t, l1 = l ++ t /\ Forall rtl_initiated t).
  { unfold first in E1. destruct (_ && _).
    - destruct (RunGenericDma _ _ _ _ _ _ _ _) as [[[[ok hd] h2] [w2 l2]]|] eqn:E; cbn in E1; simplify_eq.
      apply RunGenericDma_trace in E as [(_ & _ & _ & _ & _ & t & -> & Ht)|(_ & _ & _ & _ & ->)].
      + exists t. split; [done|]. by eapply ring_trace_requests.
      + exists []. by rewrite app_nil_r.
    - simplify_eq. exists []. by rewrite app_nil_r. }
  clearbody first. clear E1. destruct H1 as (t & -> & Ht). destruct (_ && _); intros E; simplify_eq; [|by exists t].
  match goal with Hw : ring_doorbell _ _ _ = _ |- _ => apply ring_doorbell_trace in Hw as (t2 & -> & Ht2) end.
  exists (t ++ t2). rewrite app_assoc. split; [done|]. by apply Forall_app.
Qed.

Lemma EncodeLe_bytes v n p : EncodeLe v n = Some p -> bytes_ok p /\ length p = n /\ (n <= 8)%nat.
Proof.
  unfold EncodeLe. destruct (_ <=? _)%nat eqn:E; [|done]. intros; simplify_eq.
  apply Nat.leb_le in E. rewrite length_fmap, length_seq. split_and!; [|done|done].
  apply Forall_fmap, Forall_true. intros i. cbn. by apply wrap_range.
Qed.
End Main.

(** ** Definedness

    The engine indexes the reply of a DMA read without looking at its length; it
    stays defined against a host that answers every DMA read with success and
    exactly the bytes asked for. *)
Definition reads_filled (W : Type) `{ServerOps W} : Prop :=
  forall rq (w : W) r id w', rq_type rq = kDmaReadReq -> 0 <= rq_transfer_len rq -> op_request rq w = (r, id, w') ->
    exists m, r = Some m /\ Status (m_header m) = kSuccess /\
      Z.of_nat (length (m_payload m)) = rq_transfer_len rq.

Section Defined.
Context {T : Type} `{Rtl T} {W : Type} `{ServerOps W}.
Implicit Types (h : Harness T) (w : W) (msg : Message).

Lemma SendCompletion_defined tag bc la data off len err h :
  is_Some (SendCompletion tag bc la data off len err h) <-> (off + Nat.min len 32 <= length data)%nat.
Proof.
  unfold SendCompletion. destruct (_ <=? _)%nat eqn:E; cbn [negb].
  - apply Nat.leb_le in E. split; [done|by eexists].
  - apply Nat.leb_gt in E. split; [by intros []|lia].
Qed.

Lemma send_chunks_defined n tag req_len payload sent h :
  0 <= sent -> Z.of_nat (length payload) = req_len ->
  is_Some (send_chunks n tag req_len payload sent h).
Proof.
  revert sent h. induction n as [|n IH]; intros sent h Hs Hl; cbn [send_chunks]; [by eexists|].
  destruct (Z.ltb_spec sent req_len); [|by eexists].
  match goal with |- is_Some (?x ≫= _) => assert (is_Some x) as [h1 ->] by (apply SendCompletion_defined; lia) end.
  apply IH; [lia|done].
Qed.

(** The chunk budget is enough: a larger one changes nothing. *)
Lemma send_chunks_fuel n k tag req_len payload sent h :
  0 <= sent -> req_len - sent <= Z.of_nat n ->
  send_chunks (n + k) tag req_len payload sent h = send_chunks n tag req_len payload sent h.
Proof.
  revert sent h. induction n as [|n IH]; intros sent h Hs Hl; cbn [send_chunks Nat.add].
  - destruct k; cbn [send_chunks]; [done|]. by destruct (Z.ltb_spec sent req_len); [lia|].
  - destruct (Z.ltb_spec sent req_len); [|done].
    destruct (SendCompletion _ _ _ _ _ _ _ _) as [h1|]; cbn [mbind option_bind]; [|done]. apply IH; lia.
Qed.

Context (Hfill : reads_filled W).

Lemma read_wait_defined n tag st h w : is_Some (read_wait n tag st h w).
Proof using Hfill.
  revert h w. induction n as [|n IH]; intros h w; cbn [read_wait]; [by eexists|].
  destruct (dma_rd_req_valid _).
  - destruct (op_request _ w) as [[r id] w1] eqn:E. pose proof E as (m & -> & Hst & Hl)%Hfill; [|done|by apply wrap_range].
    unfold failed. rewrite (bool_decide_true _ Hst). cbn [negb payload_of].
    match goal with |- context [send_chunks ?a ?b ?c ?d ?e ?f] =>
      assert (is_Some (send_chunks a b c d e f)) as [h1 ->] by (by apply send_chunks_defined) end.
    cbn [mbind option_bind]. destruct (dma_read_status_valid _); [by eexists|apply IH].
  - cbn [mbind option_bind]. destruct (dma_read_status_valid _); [by eexists|apply IH].
Qed.

Lemma run_descriptor_defined r st h w : is_Some (run_descriptor r st h w).
Proof using Hfill.
  unfold run_descriptor. destruct r as [m|]; [|by eexists]. destruct (_ && _); [|by eexists].
  destruct (descriptor_valid _); [|by eexists]. destruct (_ =? 0).
  - unfold DmaRead. destruct (tick_accept _ _ _) as [[] h1]; cbn [negb mbind option_bind]; [|by eexists].
    match goal with |- context [read_wait ?a ?b ?c ?d ?e] =>
      destruct (read_wait_defined a b c d e) as [[[ok h2] w2] ->] end.
    by eexists.
  - destruct (DmaWrite _ _ _ _ _ _ _) as [[ok h1] w1]. by eexists.
Qed.

Lemma ring_loop_defined n db cb count index st h w : is_Some (ring_loop n db cb count index st h w).
Proof using Hfill.
  revert index h w. induction n as [|n IH]; intros index h w; cbn [ring_loop]; [by eexists|].
  destruct (op_request _ w) as [[r id] w1]. destruct (run_descriptor_defined r st h w1) as [x ->].
  destruct x as [[[[[status bytes] tag] flags] h1] w2]. cbn [mbind option_bind].
  destruct (op_request _ w2) as [[cr cid] w3]. destruct (failed cr); [by eexists|].
  destruct (negb (status =? 0)); [by eexists|apply IH].
Qed.

Lemma RunGenericDma_defined db cb count tail head st h w :
  is_Some (RunGenericDma db cb count tail head st h w).
Proof using Hfill.
  unfold RunGenericDma. destruct (_ || _); [by eexists|].
  match goal with |- context [ring_loop ?a ?b ?c ?d ?e ?f ?g ?i] =>
    destruct (ring_loop_defined a b c d e f g i) as [[[ok h1] w1] ->] end.
  by eexists.
Qed.

Lemma after_write_defined addr v r h w : is_Some (after_write addr v r h w).
Proof using Hfill.
  unfold after_write. destruct (_ && _).
  - match goal with |- context [RunGenericDma ?a ?b ?c ?d ?e ?f ?g ?i] =>
      destruct (RunGenericDma_defined a b c d e f g i) as [[[[ok hd] h1] w1] ->] end.
    cbn [mbind option_bind]. by destruct (_ && _); eexists.
  - cbn [mbind option_bind]. by destruct (_ && _); eexists.
Qed.

Lemma handle_message_defined msg r h w :
  (Type_ (m_header msg) = kMmioReadReq -> mmio_length msg <= 8) ->
  is_Some (handle_message msg r h w).
Proof using Hfill.
  intros Hlen. unfold handle_message. destruct (Type_ _) eqn:Et; try by eexists.
  - destruct (access _ _ _ _) as [[res status] h1]. destruct (status =? 0); [|by eexists].
    unfold EncodeLe. specialize (Hlen eq_refl). rewrite (proj2 (Nat.leb_le _ _)) by lia. by eexists.
  - destruct (access _ _ _ _) as [[res status] h1].
    match goal with |- context [after_write ?a ?b ?c ?d ?e] =>
      destruct (after_write_defined a b c d e) as [[[r1 h2] w1] ->] end.
    by eexists.
Qed.
End Defined.

Section Answers.
Context {T : Type} `{Rtl T} {W : Type} `{ServerOps W}.
Implicit Types (h : Harness T) (w : W) (msg : Message).

Lemma Reset_width h : in_width 64 (sim_time_ (Reset h)).
Proof. cbn. by apply wrap_range. Qed.

(** The calls made for one message: the answer first, then what it started. *)
Definition answered_once msg (t : list call) : Prop :=
  match response_type (Type_ (m_header msg)) with
  | Some _ => exists hdr p ok t', t = CRespond hdr p ok :: t' /\ answer_to msg hdr p /\ Forall rtl_initiated t'
  | None => t = []
  end.

Lemma handle_message_answers msg r h w l stop r' h' w' l' :
  message_ok msg -> in_width 64 (sim_time_ h) ->
  handle_message msg r h (w, l) = Some (stop, r', h', (w', l')) ->
  (stop = true <-> Type_ (m_header msg) = kShutdown) /\
  exists t, l' = l ++ t /\ answered_once msg t.
Proof.
  intros Hm Hw. unfold handle_message, answered_once, respond.
  pose proof (fits_address _ (proj1 Hm)) as Ha.
  destruct (Type_ _) eqn:Et; cbn [response_type];
    try (intros; simplify_eq; split; [done|]; exists []; by rewrite app_nil_r).
  - (* MMIO read *)
    destruct (access _ _ _ _) as [[res status] h1] eqn:Ea. apply access_width in Ea as Hw1; [|done].
    match goal with |- context [?x ≫= _] => destruct x as [p|] eqn:Ep end; cbn [mbind option_bind]; [|done].
    assert (Hp : bytes_ok p /\ Z.of_nat (length p) <= 8).
    { destruct (status =? 0); [|simplify_eq; by repeat constructor].
      apply EncodeLe_bytes in Ep as (Hp & Hl & Hn). split; [done|lia]. }
    destruct Hp as [Hp Hl]. rewrite wrap_id by (unfold in_width; lia).
    rewrite logged_respond. destruct (op_respond _ _ w) as [ok w1]. cbn [snd]. intros; simplify_eq.
    split; [done|]. eexists. split; [done|]. eexists _, p, ok, []. split; [done|]. split; [|done].
    apply (response_answers msg kMmioReadRsp); rewrite ?Et; try done; [lia|unfold in_width; lia].
  - (* MMIO write *)
    destruct (access _ _ _ _) as [[res status] h1] eqn:Ea. apply access_width in Ea as Hw1; [|done].
    rewrite logged_respond. destruct (op_respond _ _ w) as [ok w1]. cbn [snd].
    destruct (after_write _ _ _ _ _) as [[[r1 h2] [w2 l2]]|] eqn:Ew; cbn [mbind option_bind]; [|done].
    apply after_write_trace in Ew as (t & -> & Ht). intros; simplify_eq.
    split; [done|]. eexists. split; [by rewrite <- app_assoc|].
    eexists _, [], ok, t. split; [done|]. split; [|done].
    apply (response_answers msg kMmioWriteRsp _ _ _ []); rewrite ?Et; done.
  - (* RESET *)
    rewrite logged_respond. destruct (op_respond _ _ w) as [ok w1]. cbn [snd]. intros; simplify_eq.
    split; [done|]. eexists. split; [done|]. eexists _, [], ok, []. split; [done|]. split; [|done].
    apply (response_answers msg kResetRsp 0 kSuccess _ [] 0); rewrite ?Et; try done.
    apply Reset_width.
Qed.
End Answers.

(** ** Sessions *)

Section Sessions.
Context {T : Type} `{Rtl T} {W : Type} `{ServerContract W}.
Implicit Types (h : Harness T) (w : W) (msg : Message).

(** What every part of the harness keeps. *)
Definition good h w : Prop := in_width 64 (sim_time_ h) /\ op_inv w.

Lemma request_inv rq w : op_inv w -> op_inv (op_request rq w).2.
Proof. intros Hi. destruct (op_request rq w) as [[m id] w'] eqn:E. by eapply inv_request. Qed.

Lemma tick_accept_width f n h b h' :
  in_width 64 (sim_time_ h) -> tick_accept f n h = (b, h') -> in_width 64 (sim_time_ h').
Proof.
  revert h. induction n as [|n IH]; intros h Hh; cbn [tick_accept]; [intros; by simplify_eq|].
  destruct (f _); [intros; simplify_eq; apply Tick_width|]. apply IH, Tick_width.
Qed.

Lemma send_chunks_width n tag len p sent h h' :
  in_width 64 (sim_time_ h) -> send_chunks n tag len p sent h = Some h' -> in_width 64 (sim_time_ h').
Proof.
  revert sent h. induction n as [|n IH]; intros sent h Hh; cbn [send_chunks]; [intros; by simplify_eq|].
  destruct (_ <? _); [|intros; by simplify_eq].
  unfold SendCompletion. destruct (negb _); cbn [mbind option_bind]; [done|].
  apply IH. cbn. by apply wrap_range.
Qed.

Lemma read_wait_good n tag st h w b h' w' :
  good h w -> read_wait n tag st h w = Some (b, h', w') -> good h' w'.
Proof.
  revert h w. induction n as [|n IH]; intros h w [Hh Hw]; cbn [read_wait]; [intros; by simplify_eq|].
  destruct (dma_rd_req_valid _).
  - match goal with |- context [op_request ?q w] => pose proof (request_inv q w Hw) as Hr;
      destruct (op_request q w) as [[r id] w1] end. cbn in Hr.
    destruct (failed r); [cbn; done|].
    destruct (send_chunks _ _ _ _ _ _) as [h1|] eqn:E; cbn [mbind option_bind]; [|done].
    apply send_chunks_width in E; [|apply Tick_width].
    destruct (dma_read_status_valid _); [intros; by simplify_eq|by apply IH].
  - cbn [mbind option_bind]. pose proof (Tick_width h).
    destruct (dma_read_status_valid _); [intros; by simplify_eq|by apply IH].
Qed.

Lemma write_wait_good n st h w b h' w' :
  good h w -> write_wait n st h w = (b, h', w') -> good h' w'.
Proof.
  revert h w. induction n as [|n IH]; intros h w [Hh Hw]; cbn [write_wait]; [intros; by simplify_eq|].
  pose proof (Tick_width h). destruct (dma_wr_req_valid _).
  - match goal with |- context [op_request ?q w] => pose proof (request_inv q w Hw) as Hr;
      destruct (op_request q w) as [[r id] w1] end. cbn in Hr.
    destruct (failed r); [intros; by simplify_eq|].
    destruct (dma_write_status_valid _); [intros; by simplify_eq|by apply IH].
  - destruct (dma_write_status_valid _); [intros; by simplify_eq|by apply IH].
Qed.

Lemma run_descriptor_good r st h w status bytes tag flags h' w' :
  good h w -> run_descriptor r st h w = Some (status, bytes, tag, flags, h', w') -> good h' w'.
Proof.
  intros [Hh Hw]. unfold run_descriptor. destruct r as [m|]; [|intros; by simplify_eq].
  destruct (_ && _); [|intros; by simplify_eq]. destruct (descriptor_valid _); [|intros; by simplify_eq].
  destruct (_ =? 0).
  - unfold DmaRead. destruct (tick_accept _ _ _) as [[] h1] eqn:E; apply tick_accept_width in E;
      try done; cbn [negb].
    + destruct (read_wait _ _ _ _ _) as [[[ok h2] w2]|] eqn:Er; cbn [mbind option_bind]; [|done].
      apply read_wait_good in Er; [|done]. intros; by simplify_eq.
    + intros; by simplify_eq/=.
  - unfold DmaWrite. destruct (tick_accept _ _ _) as [[] h1] eqn:E; apply tick_accept_width in E;
      try done; cbn [negb].
    + destruct (write_wait _ _ _ _) as [[ok h2] w2] eqn:Er.
      apply write_wait_good in Er; [|done]. intros; by simplify_eq.
    + intros; by simplify_eq/=.
Qed.

Lemma ring_loop_good n db cb count index st h w ok h' w' :
  good h w -> ring_loop n db cb count index st h w = Some (ok, h', w') -> good h' w'.
Proof.
  revert index h w. induction n as [|n IH]; intros index h w [Hh Hw]; cbn [ring_loop]; [intros; by simplify_eq|].
  pose proof (request_inv (fetch_request db count index st) w Hw) as Hr.
  destruct (op_request _ w) as [[r id] w1]. cbn in Hr.
  destruct (run_descriptor _ _ _ _) as [[[[[[status bytes] tag] flags] h1] w2]|] eqn:Er;
    cbn [mbind option_bind]; [|done].
  apply run_descriptor_good in Er as [Hh1 Hw2]; [|done].
  pose proof (request_inv (completion_request cb count index st tag status bytes) w2 Hw2) as Hc.
  destruct (op_request _ w2) as [[cr cid] w3]. cbn in Hc.
  destruct (failed cr); [intros; by simplify_eq|]. set (w4 := if negb ((flags & 1) =? 0) then _ else _).
  assert (Hw4 : op_inv w4).
  { unfold w4. destruct (negb _); [|done]. pose proof (request_inv (ring_msix st) w3 Hc).
    by destruct (op_request _ w3) as [[? ?] ?]. }
  destruct (negb (status =? 0)); [intros; by simplify_eq|]. by apply IH.
Qed.

Lemma RunGenericDma_good db cb count tail head st h w ok head' h' w' :
  good h w -> RunGenericDma db cb count tail head st h w = Some (ok, head', h', w') -> good h' w'.
Proof.
  intros Hg. unfold RunGenericDma. destruct (_ || _); [intros; by simplify_eq|].
  destruct (ring_loop _ _ _ _ _ _ _ _) as [[[ok1 h1] w1]|] eqn:E; cbn [mbind option_bind]; [|done].
  intros; simplify_eq. by eapply ring_loop_good.
Qed.

Lemma ring_doorbell_inv r st w : op_inv w -> op_inv (ring_doorbell r st w).
Proof.
  intros Hw. unfold ring_doorbell.
  match goal with |- context [op_request ?q w] => pose proof (request_inv q w Hw) as R1;
    destruct (op_request q w) as [[[m|] id] w1] end; cbn in R1; [|done].
  match goal with |- context [op_request ?q w1] => pose proof (request_inv q w1 R1) as R2;
    destruct (op_request q w1) as [[m1 id1] w2] end. cbn in R2.
  match goal with |- context [op_request ?q w2] => pose proof (request_inv q w2 R2) as R3;
    destruct (op_request q w2) as [[m2 id2] w3] end. done.
Qed.

Lemma after_write_good addr v r h w r' h' w' :
  good h w -> after_write addr v r h w = Some (r', h', w') -> good h' w'.
Proof.
  intros Hg. unfold after_write. match goal with |- context [?x ≫= _] => set (first := x) end.
  assert (Hf : forall r1 h1 w1, first = Some (r1, h1, w1) -> good h1 w1).
  { intros r1 h1 w1. unfold first. destruct (_ && _); [|intros; by simplify_eq].
    destruct (RunGenericDma _ _ _ _ _ _ _ _) as [[[[ok hd] h2] w2]|] eqn:E; cbn; [|done].
    intros; simplify_eq. by eapply RunGenericDma_good. }
  destruct first as [[[r1 h1] w1]|]; cbn [mbind option_bind]; [|done].
  destruct (Hf _ _ _ eq_refl) as [Hh1 Hw1]. destruct (_ && _); intros; simplify_eq; [|done].
  split; [done|]. by apply ring_doorbell_inv.
Qed.

Lemma respond_inv hdr p w : op_inv w -> op_inv (respond hdr p w).
Proof. intros Hi. unfold respond. destruct (op_respond _ _ w) as [ok w'] eqn:E. by eapply inv_respond. Qed.

Lemma handle_message_good msg r h w stop r' h' w' :
  good h w -> handle_message msg r h w = Some (stop, r', h', w') -> good h' w'.
Proof.
  intros [Hh Hw]. unfold handle_message. destruct (Type_ _); try (intros; by simplify_eq).
  - destruct (access _ _ _ _) as [[res status] h1] eqn:E. apply access_width in E; [|done].
    match goal with |- context [?x ≫= _] => destruct x end; cbn [mbind option_bind]; [|done].
    intros; simplify_eq. split; [done|by apply respond_inv].
  - destruct (access _ _ _ _) as [[res status] h1] eqn:E. apply access_width in E; [|done].
    destruct (after_write _ _ _ _ _) as [[[r1 h2] w2]|] eqn:Ew; cbn [mbind option_bind]; [|done].
    intros; simplify_eq. eapply after_write_good; [|done]. split; [done|by apply respond_inv].
  - intros; simplify_eq. split; [apply Reset_width|by apply respond_inv].
Qed.
End Sessions.

Section Session_traces.
Context {T : Type} `{Rtl T} {W : Type} `{ServerContract W}.
Implicit Types (h : Harness T) (w : W) (msg : Message).

(** A whole session: idle polls, requests answered once each, SHUTDOWN or [$finish]
    last. *)
Inductive harness_trace : list call -> loop_exit -> Prop :=
| harness_running : harness_trace [] Looping
| harness_finished : harness_trace [] OnFinish
| harness_idle t b : harness_trace t b -> harness_trace (CPoll None :: t) b
| harness_message m t ts b :
    Type_ (m_header m) <> kShutdown -> answered_once m t -> harness_trace ts b ->
    harness_trace (CPoll (Some m) :: t ++ ts) b
| harness_stop m : Type_ (m_header m) = kShutdown -> harness_trace [CPoll (Some m)] OnShutdown.

Definition is_poll (c : call) : bool := match c with CPoll _ => true | _ => false end.
Definition polls (t : list call) : nat := length (filter (fun c => is_poll c = true) t).

(** [n] polls make a loop that goes on; [$finish] has been called when it ended so. *)
Definition exit_ok (n : nat) (stop : loop_exit) (t : list call) (h : Harness T) : Prop :=
  match stop with
  | Looping => polls t = n
  | OnShutdown => True
  | OnFinish => rtl_finished (top_ h) = true /\ (polls t < n)%nat
  end.

Lemma exit_ok_poll n stop m t ts h :
  Forall (fun c => is_poll c = false) t -> exit_ok n stop ts h -> exit_ok (S n) stop (CPoll m :: t ++ ts) h.
Proof.
  intros Hn. assert (E : polls (CPoll m :: t ++ ts) =
    S (polls ts)).
  { unfold polls. rewrite filter_cons_True, filter_app by done. cbn [length].
    rewrite length_app. replace (length (filter _ t)) with 0%nat; [done|].
    induction Hn as [|c t Hc _ IH]; [done|]. rewrite filter_cons_False by (by rewrite Hc). done. }
  unfold exit_ok. rewrite E. destruct stop; [lia|done|intros [? ?]; split; [done|lia]].
Qed.

Lemma answered_no_poll m t : answered_once m t -> Forall (fun c => is_poll c = false) t.
Proof.
  unfold answered_once. destruct (response_type _); [|by intros ->].
  intros (hdr & p & ok & t' & -> & _ & Ht). constructor; [done|].
  eapply Forall_impl; [exact Ht|]. by intros [].
Qed.

Lemma main_loop_session n r h w l stop r' h' w' l' :
  good h (w, l) -> main_loop n r h (w, l) = Some (stop, r', h', (w', l')) ->
  good h' (w', l') /\ exists t, l' = l ++ t /\ harness_trace t stop /\ exit_ok n stop t h'.
Proof.
  revert r h w l. induction n as [|n IH]; intros r h w l Hg; cbn [main_loop].
  { intros; simplify_eq. split; [done|]. exists []. rewrite app_nil_r. split_and!; [done|constructor|done]. }
  destruct (rtl_finished (top_ h)) eqn:Hfin.
  { intros; simplify_eq. split; [done|]. exists []. rewrite app_nil_r. split_and!; [done|constructor|].
    split; [done|cbn; lia]. }
  destruct Hg as [Hh Hi]. destruct (op_poll (w, l)) as [[msg|] [w1 l1]] eqn:Ep;
    pose proof (inv_poll _ _ _ Hi Ep) as Hi1; pose proof Ep as Hl;
    cbn in Hl; destruct (op_poll w) as [m0 w0]; simplify_eq.
  - destruct (poll_request _ _ _ Hi Ep) as [Hm _].
    destruct (handle_message _ _ _ _) as [[[[stop1 r1] h1] [w2 l2]]|] eqn:Eh; cbn [mbind option_bind]; [|done].
    apply handle_message_good in Eh as Hg1; [|done].
    apply handle_message_answers in Eh as [Hstop (t & -> & Ht)]; [|done|done].
    destruct stop1.
    + intros; simplify_eq. split; [done|]. destruct Hstop as [Hs _]. specialize (Hs eq_refl).
      unfold answered_once in Ht. rewrite Hs in Ht. cbn in Ht. subst. exists [CPoll (Some msg)].
      rewrite app_nil_r. split_and!; [done|by constructor|done].
    + intros E. apply IH in E as [? (ts & -> & Hts & Hex)]; [|done]. split; [done|].
      exists (CPoll (Some msg) :: t ++ ts). split_and!; [by rewrite <- !app_assoc| |].
      * constructor; [|done|done]. by rewrite <- Hstop.
      * apply exit_ok_poll; [by eapply answered_no_poll|done].
  - intros E. apply IH in E as [? (ts & -> & Hts & Hex)]; [|split; [apply Tick_width|done]].
    split; [done|]. exists (CPoll None :: ts). rewrite <- app_assoc. split_and!; [done|by constructor|].
    by apply (exit_ok_poll _ _ _ []).
Qed.

Lemma main_loop_defined n r h w :
  reads_filled W ->
  (forall w1 m w2, op_poll w1 = (Some m, w2) -> Type_ (m_header m) = kMmioReadReq -> mmio_length m <= 8) ->
  is_Some (main_loop n r h w).
Proof.
  intros Hf Hs. revert r h w. induction n as [|n IH]; intros r h w; cbn [main_loop]; [by eexists|].
  destruct (rtl_finished _); [by eexists|].
  destruct (op_poll w) as [[msg|] w1] eqn:Ep; [|apply IH].
  destruct (handle_message_defined Hf msg r h w1) as [[[[stop r1] h1] w2] ->]; [by eapply Hs|].
  cbn [mbind option_bind]. destruct stop; [by eexists|apply IH].
Qed.
End Session_traces.

Lemma reads_filled_logged W `{ServerOps W} : reads_filled W -> reads_filled (W * list call).
Proof.
  intros Hf rq [w l] r id w' Ht Hl. cbn. destruct (op_request rq w) as [[m i] w1] eqn:E.
  intros; simplify_eq. by eapply Hf.
Qed.

(** ** A toy design and a host that answers from memory, for witnesses *)
Inductive toy := TIdle | TRead (d : desc_in) | TWrite (d : desc_in) | TDone.

#[local] Instance toy_rtl : Rtl toy := {
  rtl_clock p t :=
    match t with
    | TIdle => if de_valid (p_read p) then TRead (p_read p)
               else if de_valid (p_write p) then TWrite (p_write p) else TIdle
    | TRead d => if cp_valid (p_cpl p) then TDone else TRead d
    | TWrite d => TWrite d
    | TDone => TIdle
    end;
  rtl_out t :=
    let d := match t with TRead d | TWrite d => d | _ => idle_desc end in
    let reading := match t with TRead _ => true | _ => false end in
    let writing := match t with TWrite _ => true | _ => false end in
    let finished := match t with TDone => true | _ => false end in
    mkOutputs true true 0x2a 0 false true reading (de_pcie_addr d) (de_len d) finished 0
      true writing (de_pcie_addr d) (de_len d) [0; 0; 0; 0] writing 0;
  rtl_finished _ := false }.

Record FilledHost := mkFilledHost { fh_memory : Z -> Z }.

#[local] Instance filled_ops : ServerOps FilledHost := {
  op_poll w := (None, w);
  op_respond h p w := (true, w);
  op_request rq w :=
    let payload := (fun i => u8 (fh_memory w (rq_address rq + Z.of_nat i))) <$> seq 0 (Z.to_nat (rq_transfer_len rq)) in
    let rt := if bool_decide (rq_type rq = kDmaReadReq) then kDmaReadRsp else kDmaWriteRsp in
    (Some (mkMessage (MakeHeader rt 7 0 0 kSuccess 0 (rq_transfer_len rq) 0 0) payload), Some 7, w) }.

Lemma filled_reads : reads_filled FilledHost.
Proof.
  intros rq w r id w' Ht Hl E. cbn in E. simplify_eq. eexists. split; [done|].
  cbn [m_payload m_header]. rewrite length_fmap, length_seq. split; [done|lia].
Qed.

Definition toy_harness : Harness toy :=
  InitDmaPorts (mkHarness TIdle (mkPins false (mkMmioIn false false 0 0 0) idle_desc idle_desc
    (mkCplIn false false false false 0 0 []) true true) 0 false).

Definition toy_descriptor : descriptor := mkDescriptor 0x2000 0 32 0 1 0x100.
Definition toy_memory (a : Z) : Z := encode_descriptor toy_descriptor !!! Z.to_nat (a - 0x1000).

Definition toy_message (t : MessageType) (addr tlen : Z) (p : list Z) : Message :=
  mkMessage (MakeHeader t 9 addr 0 kSuccess 0 (Z.of_nat (length p)) 0 tlen) p.

(** ** Properties *)

Section Properties.
Context {T : Type} `{Rtl T} {W : Type} `{ServerOps W}.
Implicit Types (h : Harness T) (w : W) (msg : Message).


(** A DMA read the host does not answer with success makes the harness index an
    empty vector. *)
Theorem failed_dma_read_undefined n tag st h w rq r id w' :
  dma_rd_req_valid (out (Tick h)) = true ->
  rq = mkHostRequest kDmaReadReq (dma_rd_req_addr (out (Tick h))) 0 [] (u16 (dma_rd_req_len (out (Tick h)))) st true ->
  op_request rq w = (r, id, w') -> failed r = true ->
  read_wait (S n) tag st h w = None.
Proof. intros Hv -> E Hf. cbn [read_wait]. by rewrite Hv, E, Hf. Qed.

(** A successful reply of the wrong size is reported to the guest as a success of
    0 bytes with tag 0. *)
Theorem short_descriptor_reports_success m st h w :
  h_status (m_header m) = 0 -> length (m_payload m) <> 32%nat ->
  run_descriptor (Some m) st h w = Some (0, 0, 0, 0, h, w).
Proof.
  intros Hs Hl. unfold run_descriptor, kDescBytes. rewrite (proj2 (Z.eqb_neq _ _)) by lia.
  by rewrite andb_false_r, Hs.
Qed.

(** The head is never reset: a driver run that restarts its tail at or below the old
    head gets no request, no completion record and no interrupt. *)
Theorem rerun_makes_no_request db cb count tail head st h w :
  0 < count <= 1024 -> tail <= head ->
  RunGenericDma db cb count tail head st h w = Some (bool_decide (tail = head), head, h, w).
Proof.
  intros Hc Ht. unfold RunGenericDma. rewrite (proj2 (Z.eqb_neq _ _)), (proj2 (Z.ltb_ge 1024 count)) by lia.
  cbn [orb]. destruct (Z.ltb_spec tail head) as [Hlt|Hge]; cbn [orb].
  - rewrite bool_decide_false by lia. done.
  - assert (tail = head) as -> by lia. rewrite Z.sub_diag, bool_decide_true by done.
    by rewrite (proj2 (Z.ltb_ge count 0)) by lia.
Qed.
End Properties.

Section Session_property.
Context {T : Type} `{Rtl T} {W : Type} `{ServerContract W}.

End Session_property.

(** C30: The ring entries agree with the guest driver's structures: a descriptor laid
    out by the driver is parsed to its own fields, an accepted one is 1 to 4096
    bytes inside the 64 KiB device RAM with an address and length that survive the
    16-bit parameters of the DMA engine, and the driver reads back from a completion
    record exactly the tag, status, byte count and index that were written. *)
Theorem ring_layout_roundtrip d status bytes index :
  descriptor_fits d -> in_width 32 bytes -> in_width 32 index ->
  parse_descriptor (encode_descriptor d) = d /\
  (descriptor_valid d = true ->
   0 < d_length d <= 4096 /\ d_ram_addr d + d_length d <= 65536 /\
   u16 (d_ram_addr d) = d_ram_addr d /\ (d_opcode d = 0 \/ d_opcode d = 1)) /\
  length (completion_entry (d_tag d) status bytes index) = 16%nat /\
  read_completion (completion_entry (d_tag d) status bytes index)
  = mkCompletion (d_tag d) (u16 status) 0 bytes index.
Proof.
  intros Hd Hb Hi. split_and!; [by apply parse_encode|by apply descriptor_valid_bounds| |].
  - by rewrite completion_entry_layout.
  - apply read_completion_entry; [apply (df_tag _ Hd)|done|done].
Qed.

(** ** Witnesses *)

Lemma toy_descriptor_fits : descriptor_fits toy_descriptor.
Proof. by constructor. Defined.

Lemma ring_layout_roundtrip_witness :
  parse_descriptor (encode_descriptor toy_descriptor) = toy_descriptor /\
  descriptor_valid toy_descriptor = true /\ d_ram_addr toy_descriptor + 32 <= 65536 /\
  read_completion (completion_entry 0x100 0 64 5) = mkCompletion 0x100 0 0 64 5.
Proof.
  destruct (ring_layout_roundtrip toy_descriptor 0 64 5 toy_descriptor_fits) as (H1 & H2 & _ & H4); [done..|].
  split_and!; [exact H1|done|apply H2; done|exact H4].
Defined.


(** A host that only sends. *)
Record PollHost := mkPollHost { ph_messages : list Message }.

#[local] Instance poll_ops : ServerOps PollHost := {
  op_poll w := match ph_messages w with [] => (None, w) | m :: ms => (Some m, mkPollHost ms) end;
  op_respond h p w := (true, w);
  op_request rq w := (None, Some 1, w) }.

#[local] Instance poll_contract : ServerContract PollHost.
Proof.
  refine {| op_inv w := Forall (fun m => message_ok m /\ is_request m) (ph_messages w) |}.
  - intros [[|m0 ms]] m w' Hi E; cbn in *; simplify_eq; [done|]. by apply Forall_cons in Hi as [_ Hi].
  - intros h p w ok w' Hi E. cbn in E. by simplify_eq.
  - intros rq w m id w' Hi E. cbn in E. by simplify_eq.
  - intros [[|m0 ms]] m w' Hi E; cbn in *; simplify_eq. by apply Forall_cons in Hi as [Hi _].
  - intros rq w m id w' Hi E. cbn in E. by simplify_eq.
Defined.

