(* ===== verification/Guest.v ===== *)
(** * The guest driver

    Model of [guest/pcie-vip/driver/pcie_vip.c] and
    [guest/pcie-vip/include/pcie_vip_uapi.h].  The Linux kernel services the driver
    calls are the class [Kernel]; what is on the other side of the BAR and of the
    coherent DMA buffers is part of the kernel's state, so it may change in every
    call.  A coherent buffer is named by its DMA address.  [logged_kernel] adds a call
    trace to any kernel, so that the driver's behaviour can be stated for every
    kernel and every device at once. *)
From S2P Require Import Prelude Protocol Verilator.
From stdpp Require Import options.
#[local] Open Scope Z_scope.
#[local] Open Scope cxx_scope.

(** ** Constants *)

Definition VIP_DMA_DESC_BASE_LO : Z := 0x1040.
Definition VIP_DMA_DESC_BASE_HI : Z := 0x1044.
Definition VIP_DMA_CPL_BASE_LO : Z := 0x1048.
Definition VIP_DMA_CPL_BASE_HI : Z := 0x104c.
Definition VIP_DMA_DESC_COUNT : Z := 0x1050.
Definition VIP_DMA_DESC_TAIL : Z := 0x1054.
Definition VIP_DMA_STATUS : Z := 0x1058.
Definition VIP_DMA_CONTROL : Z := 0x105c.

Definition EIO : Z := 5.
Definition ENOMEM : Z := 12.
Definition EFAULT : Z := 14.
Definition ENODEV : Z := 19.
Definition EINVAL : Z := 22.
Definition ENOTTY : Z := 25.
Definition ETIMEDOUT : Z := 110.

(** [_IO('V', 0)] and [_IOWR('V', 1, struct pcie_vip_run_config)] (24 bytes). *)
Definition PCIE_VIP_IOC_RUN : Z := (0x56 << 8) `|` 0.
Definition PCIE_VIP_IOC_RUN_CONFIG : Z := (3 << 30) `|` (24 << 16) `|` (0x56 << 8) `|` 1.

Record run_config := mkRunConfig {
  cfg_length : Z; cfg_iterations : Z; cfg_completed : Z; cfg_last_status : Z; cfg_elapsed_ns : Z }.

Definition set_completed (n : Z) (c : run_config) : run_config :=
  mkRunConfig (cfg_length c) (cfg_iterations c) n (cfg_last_status c) (cfg_elapsed_ns c).
Definition set_result (status elapsed : Z) (c : run_config) : run_config :=
  mkRunConfig (cfg_length c) (cfg_iterations c) (cfg_completed c) status elapsed.

(** ** Kernel services *)

Class Kernel (K : Type) := {
  dma_alloc_coherent : Z -> K -> option Z * K;
  dma_free_coherent : Z -> Z -> K -> K;             (** size, DMA address *)
  mutex_lock : K -> K;
  mutex_unlock : K -> K;
  ktime_get_ns : K -> Z * K;
  cpu_store : Z -> list Z -> K -> K;                (** into a coherent buffer *)
  cpu_load : Z -> nat -> K -> list Z * K;
  iowrite32 : Z -> Z -> K -> K;                     (** BAR0 offset, value *)
  ioread32 : Z -> K -> Z * K;
  msleep : Z -> K -> K;
  reinit_completion : K -> K;
  wait_for_completion_timeout : K -> Z * K;         (** remaining jiffies *)
}.

Inductive kcall :=
| KAlloc (size : Z) (r : option Z) | KFree (size addr : Z)
| KLock | KUnlock | KTime (v : Z)
| KStore (addr : Z) (bs : list Z) | KLoad (addr : Z) (bs : list Z)
| KWrite (off v : Z) | KRead (off v : Z)
| KSleep (ms : Z) | KReinit | KWait (left : Z).

#[global] Instance logged_kernel {K} `{Kernel K} : Kernel (K * list kcall) := {
  dma_alloc_coherent n '(k, l) := let '(r, k) := dma_alloc_coherent n k in (r, (k, l ++ [KAlloc n r]));
  dma_free_coherent n a '(k, l) := (dma_free_coherent n a k, l ++ [KFree n a]);
  mutex_lock '(k, l) := (mutex_lock k, l ++ [KLock]);
  mutex_unlock '(k, l) := (mutex_unlock k, l ++ [KUnlock]);
  ktime_get_ns '(k, l) := let '(v, k) := ktime_get_ns k in (v, (k, l ++ [KTime v]));
  cpu_store a bs '(k, l) := (cpu_store a bs k, l ++ [KStore a bs]);
  cpu_load a n '(k, l) := let '(bs, k) := cpu_load a n k in (bs, (k, l ++ [KLoad a bs]));
  iowrite32 o v '(k, l) := (iowrite32 o v k, l ++ [KWrite o v]);
  ioread32 o '(k, l) := let '(v, k) := ioread32 o k in (v, (k, l ++ [KRead o v]));
  msleep n '(k, l) := (msleep n k, l ++ [KSleep n]);
  reinit_completion '(k, l) := (reinit_completion k, l ++ [KReinit]);
  wait_for_completion_timeout '(k, l) :=
    let '(v, k) := wait_for_completion_timeout k in (v, (k, l ++ [KWait v]));
}.

(** ** Data the driver prepares and checks *)

(** [src[i] = 0xa0 + (i & 0x3f)]. *)
Definition pattern (length : nat) : list Z :=
  (fun i => u8 (0xa0 + (Z.of_nat i & 0x3f))) <$> seq 0 length.

Definition read_descriptor (src length : Z) : descriptor := mkDescriptor src 0 (u16 length) 0 0 0x100.
Definition write_descriptor (dst length : Z) : descriptor := mkDescriptor dst 0 (u16 length) 1 1 0x101.

(** The test of the two completion records ([cpl]: their 32 bytes). *)
Definition completions_ok (length : Z) (cpl : list Z) : bool :=
  let c0 := read_completion (slice 0 16 cpl) in
  let c1 := read_completion (slice 16 16 cpl) in
  negb (negb (c_tag c0 =? 0x100) || negb (c_status c0 =? 0) || negb (c_bytes c0 =? length) ||
        negb (c_tag c1 =? 0x101) || negb (c_status c1 =? 0) || negb (c_bytes c1 =? length)).

(** The four buffers of a run. *)
Record buffers := mkBuffers { b_desc : Z; b_cpl : Z; b_src : Z; b_dst : Z }.

Section Driver.
Context {K : Type} `{Kernel K}.
Implicit Types k : K.

(** [for (i = 0; i < n; ++i) { if (ioread32(STATUS) == 0) break; msleep(1); }];
    true: left by [break]. *)
Fixpoint poll_idle (n : nat) k : bool * K :=
  match n with
  | O => (false, k)
  | S n =>
      let '(v, k) := ioread32 VIP_DMA_STATUS k in
      if v =? 0 then (true, k) else poll_idle n (msleep 1 k)
  end.

(** One pass of the loop, [tail] already advanced: 0 or the error. *)
Definition iteration (b : buffers) (length tail : Z) k : Z * K :=
  let k := cpu_store (b_cpl b) (replicate 32 0) k in
  let k := cpu_store (b_dst b) (replicate (Z.to_nat length) 0) k in
  let k := cpu_store (b_src b) (pattern (Z.to_nat length)) k in
  let '(idle, k) := poll_idle 50 k in
  if negb idle then (- ETIMEDOUT, k)
  else
    let k := reinit_completion k in
    let k := iowrite32 VIP_DMA_DESC_TAIL tail k in
    let '(timeout, k) := wait_for_completion_timeout k in
    if timeout =? 0 then (- ETIMEDOUT, k)
    else
      let '(dst, k) := cpu_load (b_dst b) (Z.to_nat length) k in
      if negb (bool_decide (dst = pattern (Z.to_nat length))) then (- EIO, k)
      else
        let '(cpl, k) := cpu_load (b_cpl b) 32 k in
        if negb (completions_ok length cpl) then (- EIO, k) else (0, k).

(** [n] more passes, [iter] done so far. *)
Fixpoint iterate (n : nat) (b : buffers) (length iter tail : Z) (cfg : run_config) k
  : Z * run_config * K :=
  match n with
  | O => (0, cfg, k)
  | S n =>
      let tail := u32 (tail + 2) in
      let '(ret, k) := iteration b length tail k in
      if negb (ret =? 0) then (ret, cfg, k)
      else
        let cfg := set_completed (u32 (iter + 1)) cfg in
        iterate n b length (u32 (iter + 1)) tail cfg k
  end.

(** The descriptors and the ring registers. *)
Definition program_ring (b : buffers) (length : Z) k : K :=
  let k := cpu_store (b_desc b) (replicate 64 0) k in
  let k := cpu_store (b_desc b) (encode_descriptor (read_descriptor (b_src b) length)) k in
  let k := cpu_store (b_desc b + 32) (encode_descriptor (write_descriptor (b_dst b) length)) k in
  let k := iowrite32 VIP_DMA_DESC_BASE_LO (u32 (b_desc b)) k in
  let k := iowrite32 VIP_DMA_DESC_BASE_HI (u32 (b_desc b >> 32)) k in
  let k := iowrite32 VIP_DMA_CPL_BASE_LO (u32 (b_cpl b)) k in
  let k := iowrite32 VIP_DMA_CPL_BASE_HI (u32 (b_cpl b >> 32)) k in
  let k := iowrite32 VIP_DMA_DESC_COUNT 2 k in
  iowrite32 VIP_DMA_CONTROL 1 k.

(** From [mutex_lock] to [mutex_unlock]. *)
Definition run_locked (b : buffers) (length iterations : Z) (cfg : run_config) k
  : Z * run_config * K :=
  let k := mutex_lock k in
  let '(start_ns, k) := ktime_get_ns k in
  let cfg := set_result 0 0 (set_completed 0 cfg) in
  let k := program_ring b length k in
  let '(ret, cfg, k) := iterate (Z.to_nat iterations) b length 0 0 cfg k in
  let '(end_ns, k) := ktime_get_ns k in
  let cfg := set_result (if negb (ret =? 0) then u32 (- ret) else 0) (u64 (end_ns - start_ns)) cfg in
  (ret, cfg, mutex_unlock k).

Definition free_if (size : Z) (a : option Z) k : K :=
  match a with Some a => dma_free_coherent size a k | None => k end.

Definition pcie_vip_run_config (cfg : run_config) k : Z * run_config * K :=
  let length := if negb (cfg_length cfg =? 0) then cfg_length cfg else 64 in
  let iterations := if negb (cfg_iterations cfg =? 0) then cfg_iterations cfg else 1 in
  if (length =? 0) || (4096 <? length) || (iterations =? 0) || (1024 <? iterations)
  then (- EINVAL, cfg, k)
  else
    let '(desc, k) := dma_alloc_coherent 64 k in
    let '(cpl, k) := dma_alloc_coherent 32 k in
    let '(src, k) := dma_alloc_coherent length k in
    let '(dst, k) := dma_alloc_coherent length k in
    let '(ret, cfg, k) :=
      match desc, cpl, src, dst with
      | Some desc, Some cpl, Some src, Some dst =>
          run_locked (mkBuffers desc cpl src dst) length iterations cfg k
      | _, _, _, _ => (- ENOMEM, cfg, k)
      end in
    let k := free_if length dst k in
    let k := free_if length src k in
    let k := free_if 32 cpl k in
    let k := free_if 64 desc k in
    (ret, cfg, k).

Definition pcie_vip_run k : Z * K :=
  let '(ret, _, k) := pcie_vip_run_config (mkRunConfig 64 1 0 0 0) k in (ret, k).

(** [arg] is what [copy_from_user] delivers, [None] a bad address; [writable]
    whether [copy_to_user] succeeds.  Also returns the structure stored at [arg]. *)
Definition pcie_vip_ioctl (cmd : Z) (arg : option run_config) (writable : bool) k
  : Z * option run_config * K :=
  if cmd =? PCIE_VIP_IOC_RUN then
    let '(ret, k) := pcie_vip_run k in (ret, arg, k)
  else if cmd =? PCIE_VIP_IOC_RUN_CONFIG then
    match arg with
    | None => (- EFAULT, None, k)
    | Some cfg =>
        let '(ret, cfg', k) := pcie_vip_run_config cfg k in
        if negb writable then (- EFAULT, arg, k) else (ret, Some cfg', k)
    end
  else (- ENOTTY, arg, k).
End Driver.

(** ** Probe and remove

    What the PCI core, the allocator and the interrupt core answer to the calls of
    [pcie_vip_probe], in order.  Resources obtained through [devm_]/[pcim_] calls
    other than the interrupt are released by the device core and not listed. *)
Record probe_env := mkProbeEnv {
  e_kzalloc : bool; e_enable_device : Z; e_iomap_regions : Z; e_bar0 : bool;
  e_dma_mask64 : Z; e_dma_mask32 : Z; e_irq_vectors : Z; e_request_irq : Z;
  e_cmd : bool; e_completion : bool; e_misc_register : Z }.

Inductive resource := RVectors | RIrq | RCmd | RCompletion | RMisc.

#[global] Instance resource_eq_dec : EqDecision resource.
Proof. solve_decision. Defined.
#[global] Instance resource_countable : Countable resource.
Proof.
  refine (inj_countable'
    (fun r => match r with RVectors => 0 | RIrq => 1 | RCmd => 2 | RCompletion => 3 | RMisc => 4 end)
    (fun n => match n with 0 => RVectors | 1 => RIrq | 2 => RCmd | 3 => RCompletion | _ => RMisc end) _).
  by intros [].
Defined.

Inductive pevent := Acquire (r : resource) | Release (r : resource).

(** The labels [err_dma] and [err_vectors]. *)
Definition err_vectors : list pevent := [Release RVectors].
Definition err_dma (e : probe_env) : list pevent :=
  (if e_completion e then [Release RCompletion] else []) ++
  (if e_cmd e then [Release RCmd] else []) ++ err_vectors.

Definition pcie_vip_probe (e : probe_env) : Z * list pevent :=
  if negb (e_kzalloc e) then (- ENOMEM, [])
  else if negb (e_enable_device e =? 0) then (e_enable_device e, [])
  else if negb (e_iomap_regions e =? 0) then (e_iomap_regions e, [])
  else if negb (e_bar0 e) then (- ENODEV, [])
  else
    let ret := e_dma_mask64 e in
    let ret := if negb (ret =? 0) then e_dma_mask32 e else ret in
    if negb (ret =? 0) then (ret, [])
    else if e_irq_vectors e <? 0 then (e_irq_vectors e, [])
    else
      let tr := [Acquire RVectors] in
      if negb (e_request_irq e =? 0) then (e_request_irq e, tr ++ err_vectors)
      else
        let tr := tr ++ [Acquire RIrq] in
        let tr := tr ++ (if e_cmd e then [Acquire RCmd] else []) in
        let tr := tr ++ (if e_completion e then [Acquire RCompletion] else []) in
        if negb (e_cmd e) || negb (e_completion e) then (- ENOMEM, tr ++ err_dma e)
        else if negb (e_misc_register e =? 0) then (e_misc_register e, tr ++ err_dma e)
        else (0, tr ++ [Acquire RMisc]).

Definition pcie_vip_remove : list pevent :=
  [Release RMisc; Release RIrq; Release RCompletion; Release RCmd; Release RVectors].

(** The resources held after a sequence of events; [None]: acquired twice or
    released while not held. *)
Definition replay_event (e : pevent) (held : gset resource) : option (gset resource) :=
  match e with
  | Acquire r => if decide (r ∈ held) then None else Some ({[r]} ∪ held)
  | Release r => if decide (r ∈ held) then Some (held ∖ {[r]}) else None
  end.
Fixpoint replay (held : gset resource) (tr : list pevent) : option (gset resource) :=
  match tr with [] => Some held | e :: tr => replay_event e held ≫= fun held => replay held tr end.

(** Every call of [probe] succeeds (one of the two DMA masks is enough). *)
Definition probe_succeeds (e : probe_env) : bool :=
  e_kzalloc e && (e_enable_device e =? 0) && (e_iomap_regions e =? 0) && e_bar0 e &&
  ((e_dma_mask64 e =? 0) || (e_dma_mask32 e =? 0)) && (0 <=? e_irq_vectors e) &&
  (e_request_irq e =? 0) && e_cmd e && e_completion e && (e_misc_register e =? 0).

(** ** Traces of a run *)

(** Reads of the status register until it is 0, at most [n]. *)
Inductive idle_polls : nat -> list kcall -> bool -> Prop :=
| polls_exhausted : idle_polls 0 [] false
| polls_idle n : idle_polls (S n) [KRead VIP_DMA_STATUS 0] true
| polls_busy n v t r :
    v <> 0 -> idle_polls n t r -> idle_polls (S n) (KRead VIP_DMA_STATUS v :: KSleep 1 :: t) r.

(** The preparation of the buffers in every pass. *)
Definition prepare (b : buffers) (length : Z) : list kcall :=
  [KStore (b_cpl b) (replicate 32 0); KStore (b_dst b) (replicate (Z.to_nat length) 0);
   KStore (b_src b) (pattern (Z.to_nat length))].

Definition kick (tail left : Z) : list kcall := [KReinit; KWrite VIP_DMA_DESC_TAIL tail; KWait left].

(** One pass and its result: 0 only when the device was idle, raised its interrupt,
    and both the data and the completion records that were read are right. *)
Inductive pass_trace (b : buffers) (length tail : Z) : list kcall -> Z -> Prop :=
| pass_busy t :
    idle_polls 50 t false -> pass_trace b length tail (prepare b length ++ t) (- ETIMEDOUT)
| pass_no_interrupt t :
    idle_polls 50 t true ->
    pass_trace b length tail (prepare b length ++ t ++ kick tail 0) (- ETIMEDOUT)
| pass_bad_data t v d :
    idle_polls 50 t true -> v <> 0 -> d <> pattern (Z.to_nat length) ->
    pass_trace b length tail (prepare b length ++ t ++ kick tail v ++ [KLoad (b_dst b) d]) (- EIO)
| pass_bad_completion t v c :
    idle_polls 50 t true -> v <> 0 -> completions_ok length c = false ->
    pass_trace b length tail
      (prepare b length ++ t ++ kick tail v ++
       [KLoad (b_dst b) (pattern (Z.to_nat length)); KLoad (b_cpl b) c]) (- EIO)
| pass_good t v c :
    idle_polls 50 t true -> v <> 0 -> completions_ok length c = true ->
    pass_trace b length tail
      (prepare b length ++ t ++ kick tail v ++
       [KLoad (b_dst b) (pattern (Z.to_nat length)); KLoad (b_cpl b) c]) 0.

(** At most [n] passes with tails [tail+2], [tail+4], ...: how many were good, and
    the result. *)
Inductive passes_trace (b : buffers) (length : Z) : nat -> Z -> list kcall -> nat -> Z -> Prop :=
| passes_done tail : passes_trace b length 0 tail [] 0 0
| passes_failed n tail t ret :
    pass_trace b length (tail + 2) t ret -> ret <> 0 -> passes_trace b length (S n) tail t 0 ret
| passes_next n tail t ts m ret :
    pass_trace b length (tail + 2) t 0 -> passes_trace b length n (tail + 2) ts m ret ->
    passes_trace b length (S n) tail (t ++ ts) (S m) ret.

Definition program_trace (b : buffers) (length : Z) : list kcall :=
  [KStore (b_desc b) (replicate 64 0);
   KStore (b_desc b) (encode_descriptor (read_descriptor (b_src b) length));
   KStore (b_desc b + 32) (encode_descriptor (write_descriptor (b_dst b) length));
   KWrite VIP_DMA_DESC_BASE_LO (u32 (b_desc b)); KWrite VIP_DMA_DESC_BASE_HI (u32 (b_desc b >> 32));
   KWrite VIP_DMA_CPL_BASE_LO (u32 (b_cpl b)); KWrite VIP_DMA_CPL_BASE_HI (u32 (b_cpl b >> 32));
   KWrite VIP_DMA_DESC_COUNT 2; KWrite VIP_DMA_CONTROL 1].

Definition frees (size : Z) (a : option Z) : list kcall :=
  match a with Some a => [KFree size a] | None => [] end.

(** The whole run: every buffer obtained is freed once, in reverse order, after the
    last use; the registers are touched only under the lock. *)
Inductive run_trace (length iterations : Z) (cfg : run_config)
  : list kcall -> Z -> run_config -> Prop :=
| run_no_memory desc cpl src dst :
    desc = None \/ cpl = None \/ src = None \/ dst = None ->
    run_trace length iterations cfg
      ([KAlloc 64 desc; KAlloc 32 cpl; KAlloc length src; KAlloc length dst] ++
       frees length dst ++ frees length src ++ frees 32 cpl ++ frees 64 desc)
      (- ENOMEM) cfg
| run_complete desc cpl src dst start end_ t m ret :
    passes_trace (mkBuffers desc cpl src dst) length (Z.to_nat iterations) 0 t m ret ->
    run_trace length iterations cfg
      ([KAlloc 64 (Some desc); KAlloc 32 (Some cpl); KAlloc length (Some src); KAlloc length (Some dst);
        KLock; KTime start] ++ program_trace (mkBuffers desc cpl src dst) length ++ t ++
       [KTime end_; KUnlock; KFree length dst; KFree length src; KFree 32 cpl; KFree 64 desc])
      ret (mkRunConfig (cfg_length cfg) (cfg_iterations cfg) (Z.of_nat m) (- ret) (u64 (end_ - start))).

(** ** Lemmas on traces *)

Section Traces.
Context {K : Type} `{Kernel K}.
Implicit Types k : K.

Lemma poll_idle_trace n k l r k' l' :
  poll_idle n (k, l) = (r, (k', l')) -> exists t, l' = l ++ t /\ idle_polls n t r.
Proof.
  revert k l. induction n as [|n IH]; intros k l; cbn [poll_idle].
  { intros; simplify_eq. exists []. rewrite app_nil_r. by split; [|constructor]. }
  cbn [ioread32 logged_kernel]. destruct (ioread32 VIP_DMA_STATUS k) as [v k1].
  destruct (Z.eqb_spec v 0) as [->|Hv].
  - intros; simplify_eq. eexists. by split; [|constructor].
  - cbn [msleep logged_kernel]. intros E. apply IH in E as (t & -> & Ht).
    exists (KRead VIP_DMA_STATUS v :: KSleep 1 :: t). rewrite <- !app_assoc. by split; [|constructor].
Qed.

Lemma iteration_trace b len tail k l ret k' l' :
  iteration b len tail (k, l) = (ret, (k', l')) ->
  exists t, l' = l ++ t /\ pass_trace b len tail t ret.
Proof.
  unfold iteration. cbn [cpu_store logged_kernel].
  destruct (poll_idle 50 _) as [idle [k1 l1]] eqn:Ep.
  apply poll_idle_trace in Ep as (t & -> & Ht). rewrite <- !app_assoc. cbn [app].
  destruct idle; cbn [negb].
  2:{ intros; simplify_eq. eexists. split; [done|]. by apply pass_busy. }
  cbn [reinit_completion iowrite32 wait_for_completion_timeout cpu_load logged_kernel].
  destruct (wait_for_completion_timeout _) as [v k2].
  destruct (Z.eqb_spec v 0) as [->|Hv].
  { intros; simplify_eq. eexists. split; [by rewrite <- !app_assoc|]. by apply pass_no_interrupt. }
  destruct (cpu_load _ _ k2) as [d k3]. case_bool_decide as Hd; cbn [negb].
  2:{ intros; simplify_eq. eexists. split; [by rewrite <- !app_assoc|]. by apply pass_bad_data. }
  subst d. destruct (cpu_load _ _ k3) as [c k4]. destruct (completions_ok len c) eqn:Hc; cbn [negb];
    intros; simplify_eq; (eexists; split; [by rewrite <- !app_assoc|]).
  - by apply pass_good.
  - by apply pass_bad_completion.
Qed.

(** The codes a pass can return. *)
Lemma pass_trace_code b len tail t ret :
  pass_trace b len tail t ret -> ret = 0 \/ ret = - ETIMEDOUT \/ ret = - EIO.
Proof. destruct 1; auto. Qed.

Lemma passes_trace_code b len n tail t m ret :
  passes_trace b len n tail t m ret ->
  (m <= n)%nat /\ (ret = 0 /\ m = n \/ (m < n)%nat /\ (ret = - ETIMEDOUT \/ ret = - EIO)).
Proof.
  induction 1 as [|n tail t ret Hp Hr|n tail t ts m ret _ _ IH]; [lia| |lia].
  apply pass_trace_code in Hp. destruct Hp as [?|[?|?]]; [done|lia..].
Qed.

Lemma iterate_trace n b len iter tail cfg k l ret cfg' k' l' :
  0 <= iter -> iter + Z.of_nat n < 2 ^ 32 -> 0 <= tail -> tail + 2 * Z.of_nat n < 2 ^ 32 ->
  cfg_completed cfg = iter ->
  iterate n b len iter tail cfg (k, l) = (ret, cfg', (k', l')) ->
  exists t m, l' = l ++ t /\ passes_trace b len n tail t m ret /\
    cfg' = set_completed (iter + Z.of_nat m) cfg.
Proof.
  revert iter tail cfg k l. induction n as [|n IH]; intros iter tail cfg k l Hi Hi' Ht Ht' Hc; cbn [iterate].
  { intros; simplify_eq. exists [], 0%nat. rewrite app_nil_r, Z.add_0_r. split_and!; [done|constructor|].
    by destruct cfg'. }
  rewrite !(wrap_id 32) by (unfold in_width; lia).
  destruct (iteration b len (tail + 2) (k, l)) as [r [k1 l1]] eqn:Ei.
  apply iteration_trace in Ei as (t & -> & Hp). destruct (Z.eqb_spec r 0) as [->|Hr]; cbn [negb].
  - intros E. apply IH in E as (ts & m & -> & Hts & ->); [|lia..|done].
    exists (t ++ ts), (S m). rewrite <- app_assoc. split_and!; [done|by econstructor|].
    unfold set_completed. cbn. f_equal. lia.
  - intros; simplify_eq. exists t, 0%nat. split_and!; [done|by constructor|].
    destruct cfg'. unfold set_completed. cbn. by rewrite Z.add_0_r.
Qed.

Lemma program_ring_trace b len k l :
  exists k', program_ring b len (k, l) = (k', l ++ program_trace b len).
Proof.
  eexists. unfold program_ring. cbn [cpu_store iowrite32 logged_kernel]. by rewrite <- !app_assoc.
Qed.

Lemma free_if_trace size a k l :
  exists k', free_if size a (k, l) = (k', l ++ frees size a).
Proof. destruct a; eexists; cbn; [done|by rewrite app_nil_r]. Qed.

Lemma run_locked_trace b len iters cfg k l ret cfg' k' l' :
  0 <= iters <= 1024 ->
  run_locked b len iters cfg (k, l) = (ret, cfg', (k', l')) ->
  exists start end_ t m,
    l' = l ++ [KLock; KTime start] ++ program_trace b len ++ t ++ [KTime end_; KUnlock] /\
    passes_trace b len (Z.to_nat iters) 0 t m ret /\
    cfg' = mkRunConfig (cfg_length cfg) (cfg_iterations cfg) (Z.of_nat m) (- ret) (u64 (end_ - start)).
Proof.
  intros Hi. unfold run_locked. cbn [mutex_lock ktime_get_ns logged_kernel].
  destruct (ktime_get_ns _) as [start k1].
  destruct (program_ring_trace b len k1 ((l ++ [KLock]) ++ [KTime start])) as [k2 ->].
  destruct (iterate _ _ _ _ _ _ _) as [[r c] [k3 l3]] eqn:Ei.
  apply iterate_trace in Ei as (t & m & -> & Ht & ->); [|lia..|done].
  destruct (ktime_get_ns k3) as [end_ k4]. cbn [mutex_unlock logged_kernel]. intros; simplify_eq.
  exists start, end_, t, m. split_and!; [by rewrite <- !app_assoc|done|].
  apply passes_trace_code in Ht as (_ & Hr). unfold set_result, set_completed. cbn.
  f_equal. unfold ETIMEDOUT, EIO in Hr. destruct Hr as [[-> _]|[_ [-> | ->]]]; reflexivity.
Qed.

Lemma free_all_trace len dst src cpl desc k l :
  exists k', free_if 64 desc (free_if 32 cpl (free_if len src (free_if len dst (k, l))))
    = (k', l ++ frees len dst ++ frees len src ++ frees 32 cpl ++ frees 64 desc).
Proof.
  destruct (free_if_trace len dst k l) as [k1 ->]. destruct (free_if_trace len src k1 (l ++ frees len dst)) as [k2 ->].
  destruct (free_if_trace 32 cpl k2 ((l ++ frees len dst) ++ frees len src)) as [k3 ->].
  destruct (free_if_trace 64 desc k3 (((l ++ frees len dst) ++ frees len src) ++ frees 32 cpl)) as [k4 ->].
  exists k4. by rewrite <- !app_assoc.
Qed.

(** Recording the trace does not change a run. *)
Lemma poll_idle_erase n k l :
  exists l', poll_idle n (k, l) = ((poll_idle n k).1, ((poll_idle n k).2, l')).
Proof.
  revert k l. induction n as [|n IH]; intros k l; cbn [poll_idle]; [by eexists|].
  cbn [ioread32 logged_kernel]. destruct (ioread32 _ k) as [v k1]. destruct (v =? 0); [by eexists|].
  apply IH.
Qed.

Lemma iteration_erase b len tail k l :
  exists l', iteration b len tail (k, l) = ((iteration b len tail k).1, ((iteration b len tail k).2, l')).
Proof.
  unfold iteration. cbn [cpu_store logged_kernel].
  match goal with |- context [poll_idle 50 (?k1, ?l1)] => destruct (poll_idle_erase 50 k1 l1) as [l2 ->];
    destruct (poll_idle 50 k1) as [[] k2] end; cbn; [|by eexists].
  destruct (wait_for_completion_timeout _) as [v k3]. destruct (v =? 0); [by eexists|].
  destruct (cpu_load _ _ k3) as [d k4]. destruct (negb _); [by eexists|].
  destruct (cpu_load _ _ k4) as [c k5]. destruct (negb _); by eexists.
Qed.

Lemma iterate_erase n b len iter tail cfg k l :
  exists l', iterate n b len iter tail cfg (k, l) =
    ((iterate n b len iter tail cfg k).1, ((iterate n b len iter tail cfg k).2, l')).
Proof.
  revert iter tail cfg k l. induction n as [|n IH]; intros iter tail cfg k l; cbn [iterate]; [by eexists|].
  destruct (iteration_erase b len (u32 (tail + 2)) k l) as [l1 ->].
  destruct (iteration _ _ _ k) as [r k1]; cbn [fst snd]. destruct (negb _); [by eexists|apply IH].
Qed.

Lemma run_config_erase cfg k l :
  exists l', pcie_vip_run_config cfg (k, l) =
    ((pcie_vip_run_config cfg k).1, ((pcie_vip_run_config cfg k).2, l')).
Proof.
  unfold pcie_vip_run_config. destruct (_ || _); [by eexists|].
  cbn [dma_alloc_coherent logged_kernel].
  destruct (dma_alloc_coherent 64 k) as [desc k1]. destruct (dma_alloc_coherent 32 k1) as [cpl k2].
  destruct (dma_alloc_coherent _ k2) as [src k3]. destruct (dma_alloc_coherent _ k3) as [dst k4].
  destruct desc as [desc|], cpl as [cpl|], src as [src|], dst as [dst|]; try (by eexists).
  unfold run_locked. cbn [mutex_lock ktime_get_ns logged_kernel].
  destruct (ktime_get_ns _) as [start k5]. unfold program_ring. cbn [cpu_store iowrite32 logged_kernel].
  match goal with |- context [iterate ?n ?b ?len ?i ?t ?c (?k6, ?l6)] =>
    destruct (iterate_erase n b len i t c k6 l6) as [l7 ->]; destruct (iterate n b len i t c k6) as [[r c'] k7] end.
  cbn. destruct (ktime_get_ns k7) as [end_ k8]. by eexists.
Qed.

(** The parameters the driver works with. *)
Definition run_length (cfg : run_config) : Z := if negb (cfg_length cfg =? 0) then cfg_length cfg else 64.
Definition run_iterations (cfg : run_config) : Z := if negb (cfg_iterations cfg =? 0) then cfg_iterations cfg else 1.

Lemma run_config_trace cfg k l ret cfg' k' l' :
  in_width 32 (cfg_length cfg) -> in_width 32 (cfg_iterations cfg) ->
  pcie_vip_run_config cfg (k, l) = (ret, cfg', (k', l')) ->
  (4096 < run_length cfg \/ 1024 < run_iterations cfg) /\ ret = - EINVAL /\ cfg' = cfg /\ l' = l /\ k' = k \/
  0 < run_length cfg <= 4096 /\ 0 < run_iterations cfg <= 1024 /\
  exists t, l' = l ++ t /\ run_trace (run_length cfg) (run_iterations cfg) cfg t ret cfg'.
Proof.
  intros Hl Hi. unfold pcie_vip_run_config. fold (run_length cfg). fold (run_iterations cfg).
  assert (Hrl : 0 < run_length cfg)
    by (unfold run_length, in_width in *; destruct (Z.eqb_spec (cfg_length cfg) 0); cbn; lia).
  assert (Hri : 0 < run_iterations cfg)
    by (unfold run_iterations, in_width in *; destruct (Z.eqb_spec (cfg_iterations cfg) 0); cbn; lia).
  rewrite (proj2 (Z.eqb_neq (run_length cfg) 0)), (proj2 (Z.eqb_neq (run_iterations cfg) 0)) by lia.
  destruct (Z.ltb_spec 4096 (run_length cfg)); cbn [orb]; [intros; simplify_eq; left; auto|].
  destruct (Z.ltb_spec 1024 (run_iterations cfg)); [intros; simplify_eq; left; auto|].
  cbn [dma_alloc_coherent logged_kernel].
  destruct (dma_alloc_coherent 64 k) as [desc k1]. destruct (dma_alloc_coherent 32 k1) as [cpl k2].
  destruct (dma_alloc_coherent _ k2) as [src k3]. destruct (dma_alloc_coherent _ k3) as [dst k4].
  intros E. right. split; [lia|]. split; [lia|]. revert E. rewrite <- !app_assoc. cbn [app].
  set (l1 := l ++ _).
  assert (Hnone : desc = None \/ cpl = None \/ src = None \/ dst = None ->
    (let k := free_if 64 desc (free_if 32 cpl (free_if (run_length cfg) src (free_if (run_length cfg) dst (k4, l1)))) in
     (- ENOMEM, cfg, k)) = (ret, cfg', (k', l')) ->
    exists t, l' = l ++ t /\ run_trace (run_length cfg) (run_iterations cfg) cfg t ret cfg').
  { intros Hn. destruct (free_all_trace (run_length cfg) dst src cpl desc k4 l1) as [k5 ->].
    cbn. intros; simplify_eq. eexists. unfold l1. rewrite <- app_assoc. split; [done|]. by apply run_no_memory. }
  destruct desc as [desc|], cpl as [cpl|], src as [src|], dst as [dst|]; try (apply Hnone; by auto).
  clear Hnone. destruct (run_locked _ _ _ _ _) as [[r c] [k5 l5]] eqn:Er.
  apply run_locked_trace in Er as (start & end_ & t & m & -> & Ht & ->); [|lia].
  match goal with |- context [free_if 64 _ (free_if 32 _ (free_if _ _ (free_if _ _ (k5, ?l5))))] =>
    destruct (free_all_trace (run_length cfg) (Some dst) (Some src) (Some cpl) (Some desc) k5 l5) as [k6 ->] end.
  intros; simplify_eq. eexists. unfold l1. rewrite <- !app_assoc. split; [done|]. by apply run_complete.
Qed.
End Traces.

(** No pass allocates. *)
Definition is_alloc (c : kcall) : bool := match c with KAlloc _ _ => true | _ => false end.

Lemma idle_polls_no_alloc n t r : idle_polls n t r -> Forall (fun c => is_alloc c = false) t.
Proof. induction 1; by repeat constructor. Qed.

Lemma pass_no_alloc b len tail t ret : pass_trace b len tail t ret -> Forall (fun c => is_alloc c = false) t.
Proof.
  destruct 1; match goal with H : idle_polls _ _ _ |- _ => apply idle_polls_no_alloc in H end;
    repeat (apply Forall_app; split); try done; by repeat constructor.
Qed.

Lemma passes_no_alloc b len n tail t m ret :
  passes_trace b len n tail t m ret -> Forall (fun c => is_alloc c = false) t.
Proof.
  induction 1 as [|? ? ? ? Hp|? ? ? ? ? ? Hp _ IH]; [done|by eapply pass_no_alloc|].
  apply Forall_app. split; [by eapply pass_no_alloc|done].
Qed.

(** A run with the kernel calls [t] that returned [ret], and what that code means. *)
Record ran (cfg : run_config) (t : list kcall) (ret : Z) (cfg' : run_config) : Prop := {
  ran_trace : run_trace (run_length cfg) (run_iterations cfg) cfg t ret cfg';
  ran_codes : ret = 0 \/ ret = - ENOMEM \/ ret = - ETIMEDOUT \/ ret = - EIO;
  ran_kept : cfg_length cfg' = cfg_length cfg /\ cfg_iterations cfg' = cfg_iterations cfg;
  ran_memory : ret = - ENOMEM <-> exists size, KAlloc size None ∈ t;
  ran_untouched : ret = - ENOMEM -> cfg' = cfg;
  ran_passed : ret = 0 <-> ret <> - ENOMEM /\ cfg_completed cfg' = run_iterations cfg;
  ran_failed : ret = - ETIMEDOUT \/ ret = - EIO -> 0 <= cfg_completed cfg' < run_iterations cfg;
  ran_status : ret <> - ENOMEM -> cfg_last_status cfg' = - ret;
}.

Lemma run_trace_ran cfg t ret cfg' :
  0 < run_iterations cfg -> run_trace (run_length cfg) (run_iterations cfg) cfg t ret cfg' -> ran cfg t ret cfg'.
Proof.
  intros Hi Ht. pose proof Ht as Ht0. destruct Ht as [desc cpl src dst Hn|desc cpl src dst start end_ t m ret Ht].
  - split; try done; try (by auto); try lia; [|split; [done|lia]|intros [?|?]; done].
    split; [|done]. intros _. destruct Hn as [->|[->|[->| ->]]]; [exists 64|exists 32|exists (run_length cfg)..];
      apply elem_of_app; left; rewrite !elem_of_cons; auto.
  - pose proof (passes_no_alloc _ _ _ _ _ _ _ Ht) as Hna.
    apply passes_trace_code in Ht as [_ Hr]. unfold ETIMEDOUT, EIO, ENOMEM in *.
    split; try done; cbn [cfg_completed cfg_last_status] in *; unfold ETIMEDOUT, EIO, ENOMEM in *; try lia.
    split; [lia|]. intros [size Hin]. exfalso. rewrite Forall_forall in Hna.
    rewrite !elem_of_app, !elem_of_cons, !elem_of_nil in Hin. unfold program_trace in Hin.
    rewrite !elem_of_cons, !elem_of_nil in Hin.
    destruct Hin as [Hin|[Hin|[Hin|Hin]]]; [by naive_solver|by naive_solver|by apply Hna in Hin|by naive_solver].
Qed.

Section Outcome.
Context {K : Type} `{Kernel K}.

Lemma run_config_ran cfg (k : K) ret cfg' k' t :
  in_width 32 (cfg_length cfg) -> in_width 32 (cfg_iterations cfg) ->
  run_length cfg <= 4096 /\ run_iterations cfg <= 1024 ->
  pcie_vip_run_config cfg (k, []) = (ret, cfg', (k', t)) -> ran cfg t ret cfg'.
Proof.
  intros Hl Hi Hr E. apply run_config_trace in E; [|done|done].
  destruct E as [([?|?] & _)|(_ & ? & t' & -> & Ht)]; [lia..|]. apply run_trace_ran; [lia|done].
Qed.
End Outcome.

(** ** Properties *)

Section Run_properties.
Context {K : Type} `{Kernel K}.

(** C6: a run of the driver, whatever the kernel and the device do.  Parameters out
    of range touch nothing.  Otherwise the calls are: four allocations; if one
    fails, nothing else; else, under the run lock, the descriptors and ring
    registers, then one pass after the other with tails 2, 4, 6, ..., ending at the
    first pass that is not good, and a pass is good only when the device was idle,
    raised its interrupt in time and the data and both completion records that were
    read back are right; finally every buffer obtained is freed exactly once.  The
    reported number of completed passes is the number of good ones and the reported
    status is the error returned. *)
Theorem driver_run_trace cfg (k : K) :
  in_width 32 (cfg_length cfg) -> in_width 32 (cfg_iterations cfg) ->
  exists ret cfg' k' t, pcie_vip_run_config cfg (k, []) = (ret, cfg', (k', t)) /\
    ((4096 < run_length cfg \/ 1024 < run_iterations cfg) /\ ret = - EINVAL /\ cfg' = cfg /\ t = [] /\ k' = k \/
     0 < run_length cfg <= 4096 /\ 0 < run_iterations cfg <= 1024 /\
     run_trace (run_length cfg) (run_iterations cfg) cfg t ret cfg').
Proof.
  intros Hl Hi. destruct (pcie_vip_run_config cfg (k, [])) as [[ret cfg'] [k' t]] eqn:E.
  exists ret, cfg', k', t. split; [done|].
  apply run_config_trace in E; [|done|done]. destruct E as [?|(? & ? & t' & -> & ?)]; [by left|by right].
Qed.

(** C33: the control interface, branch by branch, with the kernel calls it makes.  An
    unknown command gives ENOTTY and a structure that cannot be read EFAULT, with no
    effect.  The plain command runs the driver once with 64 bytes and leaves the
    caller's structure alone.  With parameters out of range the configured command
    touches nothing (EINVAL); otherwise it makes a run ([run_trace], see
    [driver_run_trace]), ENOMEM meaning that an allocation failed, 0 that all passes
    completed, ETIMEDOUT or EIO that a pass failed, with the count and the error in
    the structure; and the structure and the code of the run are handed back, except
    that when it cannot be written the run has been made, the result is EFAULT and
    the caller's structure is as before. *)
Theorem driver_ioctl_codes cmd arg writable (k : K) :
  (forall cfg, arg = Some cfg -> in_width 32 (cfg_length cfg) /\ in_width 32 (cfg_iterations cfg)) ->
  exists ret out k' t, pcie_vip_ioctl cmd arg writable (k, []) = (ret, out, (k', t)) /\
  if decide (cmd = PCIE_VIP_IOC_RUN) then
    out = arg /\ exists cfg', ran (mkRunConfig 64 1 0 0 0) t ret cfg'
  else if decide (cmd = PCIE_VIP_IOC_RUN_CONFIG) then
    match arg with
    | None => ret = - EFAULT /\ out = None /\ t = [] /\ k' = k
    | Some cfg =>
        if decide (run_length cfg <= 4096 /\ run_iterations cfg <= 1024) then
          exists r cfg', ran cfg t r cfg' /\
            if writable then ret = r /\ out = Some cfg' else ret = - EFAULT /\ out = arg
        else ret = (if writable then - EINVAL else - EFAULT) /\ out = arg /\ t = [] /\ k' = k
    end
  else ret = - ENOTTY /\ out = arg /\ t = [] /\ k' = k.
Proof.
  intros Hw. unfold pcie_vip_ioctl, pcie_vip_run.
  destruct (Z.eqb_spec cmd PCIE_VIP_IOC_RUN) as [->|Hc].
  { destruct (pcie_vip_run_config _ (k, [])) as [[ret cfg'] [k' t]] eqn:E.
    do 4 eexists. split; [done|]. rewrite decide_True by done. split; [done|]. exists cfg'.
    by apply (run_config_ran _ k _ _ k'). }
  destruct (Z.eqb_spec cmd PCIE_VIP_IOC_RUN_CONFIG) as [->|Hc'].
  2:{ do 4 eexists. split; [done|]. by rewrite !decide_False by done. }
  destruct arg as [cfg|]; [|do 4 eexists; split; [done|]; by rewrite decide_False, decide_True by done].
  destruct (Hw cfg eq_refl) as [Hl Hi].
  destruct (pcie_vip_run_config cfg (k, [])) as [[ret cfg'] [k' t]] eqn:E.
  destruct (decide (run_length cfg <= 4096 /\ run_iterations cfg <= 1024)) as [Hr|Hr].
  - pose proof (run_config_ran _ _ _ _ _ _ Hl Hi Hr E) as Hran.
    destruct writable; cbn [negb]; do 4 eexists; (split; [done|]);
      rewrite decide_False, decide_True by done; by exists ret, cfg'.
  - apply run_config_trace in E; [|done|done]. destruct E as [(_ & -> & -> & -> & ->)|(? & ? & _)]; [|lia].
    destruct writable; do 4 eexists; (split; [done|]); by rewrite decide_False, decide_True by done.
Qed.
End Run_properties.

(** C38: probing unwinds.  [probe] returns 0 exactly when every step succeeded, and
    then holds all of its resources, which [remove] gives back, the interrupt before
    the vectors it uses; on any failure whatever was obtained is released, once, the
    managed interrupt excepted. *)
Theorem probe_unwinds e :
  let '(ret, tr) := pcie_vip_probe e in
  if probe_succeeds e
  then ret = 0 /\ replay ∅ tr = Some {[RVectors; RIrq; RCmd; RCompletion; RMisc]} /\
       replay ∅ (tr ++ pcie_vip_remove) = Some ∅ /\
       (exists pre, tr ++ pcie_vip_remove = pre ++ [Release RVectors] /\
          replay ∅ pre = Some {[RVectors]})
  else ret <> 0 /\ exists held, replay ∅ tr = Some held /\ held ⊆ {[RIrq]}.
Proof.
  destruct e as [kz en io bar m64 m32 vec irq cmd cpl misc].
  unfold pcie_vip_probe, probe_succeeds, err_dma, err_vectors, pcie_vip_remove. cbn -[replay].
  assert (Hz : forall x, (x =? 0) = false -> x <> 0) by (intros; by apply Z.eqb_neq).
  destruct kz; cbn -[replay]; [|by split; [|exists ∅]].
  destruct (en =? 0) eqn:Een; cbn -[replay]; [|by split; [auto|exists ∅]].
  destruct (io =? 0) eqn:Eio; cbn -[replay]; [|by split; [auto|exists ∅]].
  destruct bar; cbn -[replay]; [|by split; [|exists ∅]].
  replace (negb ((if negb (m64 =? 0) then m32 else m64) =? 0)) with (negb ((m64 =? 0) || (m32 =? 0)))
    by (destruct (m64 =? 0) eqn:E; cbn; by rewrite ?E).
  destruct ((m64 =? 0) || (m32 =? 0)) eqn:Em; cbn -[replay].
  2:{ apply orb_false_iff in Em as [E1 E2]. rewrite E1. cbn. by split; [auto|exists ∅]. }
  rewrite Z.leb_antisym. destruct (vec <? 0) eqn:Ev; cbn -[replay].
  { apply Z.ltb_lt in Ev. split; [lia|by exists ∅]. }
  destruct (irq =? 0) eqn:Eirq; cbn -[replay].
  2:{ split; [auto|]. exists ∅. by vm_compute. }
  destruct cmd, cpl; cbn -[replay];
    try (split; [done|]; exists {[RIrq]}; split; [by vm_compute|done]).
  destruct (misc =? 0) eqn:Emisc; cbn -[replay].
  - split; [done|]. split; [by vm_compute|]. split; [by vm_compute|].
    eexists [_; _; _; _; _; _; _; _; _]. split; [done|by vm_compute].
  - split; [auto|]. exists {[RIrq]}. split; [by vm_compute|done].
Qed.

(** The error path of [probe] frees the vectors while the managed interrupt that
    uses them is still registered, which [remove] is careful not to do. *)
Theorem probe_error_frees_vectors_in_use e :
  e_misc_register e <> 0 -> probe_succeeds (mkProbeEnv (e_kzalloc e) (e_enable_device e) (e_iomap_regions e)
    (e_bar0 e) (e_dma_mask64 e) (e_dma_mask32 e) (e_irq_vectors e) (e_request_irq e) (e_cmd e)
    (e_completion e) 0) = true ->
  exists pre held, (pcie_vip_probe e).2 = pre ++ [Release RVectors] /\
    replay ∅ pre = Some held /\ RIrq ∈ held.
Proof.
  destruct e as [kz en io bar m64 m32 vec irq cmd cpl misc]. cbn. intros Hm.
  unfold probe_succeeds, pcie_vip_probe, err_dma, err_vectors. cbn -[replay].
  rewrite !andb_true_iff, orb_true_iff. intros (((((((((-> & ->) & ->) & ->) & Hmask) & Hv) & ->) & ->) & ->) & _).
  cbn -[replay]. apply Z.eqb_neq in Hm as ->.
  replace (_ =? 0) with true by (destruct Hmask as [E|E]; destruct (m64 =? 0) eqn:E'; cbn; congruence).
  rewrite Z.leb_antisym, negb_true_iff in Hv. rewrite Hv. cbn -[replay].
  eexists [_; _; _; _; _; _], {[RIrq; RVectors]}. split; [done|]. split; [by vm_compute|set_solver].
Qed.

(** ** Witnesses *)

(** A kernel whose device never raises an interrupt and never leaves idle. *)
Record DeafKernel := mkDeaf { deaf_next : Z }.
#[local] Instance deaf_kernel : Kernel DeafKernel := {
  dma_alloc_coherent n k := (Some (deaf_next k), mkDeaf (deaf_next k + n));
  dma_free_coherent _ _ k := k; mutex_lock k := k; mutex_unlock k := k;
  ktime_get_ns k := (7, k); cpu_store _ _ k := k; cpu_load _ n k := (replicate n 0, k);
  iowrite32 _ _ k := k; ioread32 _ k := (0, k); msleep _ k := k; reinit_completion k := k;
  wait_for_completion_timeout k := (0, k) }.

Lemma driver_run_trace_witness :
  exists ret cfg' k' t,
    pcie_vip_run_config (mkRunConfig 16 2 9 9 9) (mkDeaf 0x1000, []) = (ret, cfg', (k', t)) /\
    ret = - ETIMEDOUT /\ cfg_completed cfg' = 0 /\
    run_trace 16 2 (mkRunConfig 16 2 9 9 9) t ret cfg'.
Proof.
  destruct (driver_run_trace (mkRunConfig 16 2 9 9 9) (mkDeaf 0x1000)) as (ret & cfg' & k' & t & E & H);
    [by vm_compute|by vm_compute|].
  exists ret, cfg', k', t. split; [exact E|]. vm_compute in E. injection E as <- <- _ _.
  split; [done|]. split; [done|]. destruct H as [([H|H] & _)|(_ & _ & H)]; [by vm_compute in H..|exact H].
Defined.

(** The run is made although its result cannot be stored. *)
Lemma driver_ioctl_codes_witness :
  exists k' t, pcie_vip_ioctl PCIE_VIP_IOC_RUN_CONFIG (Some (mkRunConfig 16 2 9 9 9)) false (mkDeaf 0x1000, []) =
    (- EFAULT, Some (mkRunConfig 16 2 9 9 9), (k', t)) /\
    exists r cfg', ran (mkRunConfig 16 2 9 9 9) t r cfg' /\ KWrite VIP_DMA_DESC_TAIL 2 ∈ t.
Proof.
  destruct (driver_ioctl_codes PCIE_VIP_IOC_RUN_CONFIG (Some (mkRunConfig 16 2 9 9 9)) false (mkDeaf 0x1000))
    as (ret & out & k' & t & E & H); [intros cfg [= <-]; by vm_compute|].
  destruct H as (r & cfg' & Hran & -> & ->). exists k', t. split; [exact E|]. exists r, cfg'. split; [exact Hran|].
  vm_compute in E. injection E as _ <-. apply list_elem_of_In. repeat first [left; reflexivity|right].
Defined.
