(* ===== verification/Qemu.v ===== *)
(** * The QEMU device

    Model of [hw/misc/pcie-vip.c], the device that [patches/qemu-pcie-vip.patch] adds
    to QEMU: the second implementation of the wire protocol, the remote call a BAR
    access makes, the reader thread and the bottom half that serves the endpoint's DMA
    and interrupts.  QEMU's own services ([pci_dma_read], [pci_dma_write],
    [msix_notify]) are the class [PciBus].  The socket loops, the
    connection and the life cycle are in [QemuLink]. *)
From S2P Require Import Prelude Protocol.
From stdpp Require Import options.
#[local] Open Scope Z_scope.
#[local] Open Scope cxx_scope.

(** ** Constants and data *)

Definition PCIE_VIP_MSIX_VECTORS : Z := 4.
Definition MICS_MAGIC : Z := 0x5343494d.
Definition MICS_VERSION : Z := 2.
Definition MICS_HEADER_SIZE : nat := 64.
Definition MICS_MAX_PAYLOAD : Z := 16 * 1024 * 1024.
Definition MICS_FLAG_RESPONSE : Z := 1.

Definition MICS_MMIO_READ_REQ : Z := 3.
Definition MICS_MMIO_READ_RSP : Z := 4.
Definition MICS_MMIO_WRITE_REQ : Z := 5.
Definition MICS_MMIO_WRITE_RSP : Z := 6.
Definition MICS_DMA_READ_REQ : Z := 7.
Definition MICS_DMA_READ_RSP : Z := 8.
Definition MICS_DMA_WRITE_REQ : Z := 9.
Definition MICS_DMA_WRITE_RSP : Z := 10.
Definition MICS_MSIX : Z := 11.

Definition MICS_STATUS_SUCCESS : Z := 0.
Definition MICS_STATUS_OUT_OF_BOUNDS : Z := 6.

Record MicsHeader := mkMics {
  q_type : Z; q_flags : Z; q_payload_len : Z; q_txn_id : Z; q_sim_timestamp : Z;
  q_address : Z; q_byte_enable : Z; q_status : Z; q_transfer_len : Z }.

Record MicsMessage := mkMicsMessage { qm_h : MicsHeader; qm_payload : list Z }.

#[global] Instance MicsHeader_eq_dec : EqDecision MicsHeader.
Proof. solve_decision. Defined.
#[global] Instance MicsMessage_eq_dec : EqDecision MicsMessage.
Proof. solve_decision. Defined.

(** ** Codec *)

Definition get_le16 (p : list Z) (off : nat) : Z :=
  u16 (p !!! off `|` (p !!! (off + 1)%nat << 8)).
Definition get_le32 (p : list Z) (off : nat) : Z :=
  p !!! off `|` (p !!! (off + 1)%nat << 8) `|` (p !!! (off + 2)%nat << 16) `|`
  (p !!! (off + 3)%nat << 24).
Definition get_le64 (p : list Z) (off : nat) : Z :=
  get_le32 p off `|` (get_le32 p (off + 4) << 32).

Definition put_le16 (off : nat) (value : Z) (p : list Z) : list Z :=
  let p := <[off := u8 value]> p in
  <[(off + 1)%nat := u8 (value >> 8)]> p.
Definition put_le32 (off : nat) (value : Z) (p : list Z) : list Z :=
  let p := <[off := u8 value]> p in
  let p := <[(off + 1)%nat := u8 (value >> 8)]> p in
  let p := <[(off + 2)%nat := u8 (value >> 16)]> p in
  <[(off + 3)%nat := u8 (value >> 24)]> p.
Definition put_le64 (off : nat) (value : Z) (p : list Z) : list Z :=
  let p := put_le32 off (u32 value) p in
  put_le32 (off + 4) (u32 (value >> 32)) p.

Definition mics_encode_header (h : MicsHeader) : list Z :=
  let out := replicate MICS_HEADER_SIZE 0 in
  let out := put_le32 0 MICS_MAGIC out in
  let out := put_le16 4 MICS_VERSION out in
  let out := put_le16 6 (q_type h) out in
  let out := put_le16 8 (q_flags h) out in
  let out := put_le16 10 (Z.of_nat MICS_HEADER_SIZE) out in
  let out := put_le32 12 (q_payload_len h) out in
  let out := put_le64 16 (q_txn_id h) out in
  let out := put_le64 24 (q_sim_timestamp h) out in
  let out := put_le64 32 (q_address h) out in
  let out := put_le64 40 (q_byte_enable h) out in
  let out := put_le32 48 (q_status h) out in
  put_le32 56 (q_transfer_len h) out.

Definition mics_decode_header (in_ : list Z) : option MicsHeader :=
  if negb (get_le32 in_ 0 =? MICS_MAGIC) || negb (get_le16 in_ 4 =? MICS_VERSION) ||
     negb (get_le16 in_ 10 =? Z.of_nat MICS_HEADER_SIZE)
  then None
  else
    let h := mkMics (get_le16 in_ 6) (get_le16 in_ 8) (get_le32 in_ 12) (get_le64 in_ 16)
               (get_le64 in_ 24) (get_le64 in_ 32) (get_le64 in_ 40) (get_le32 in_ 48)
               (get_le32 in_ 56) in
    if q_payload_len h <=? MICS_MAX_PAYLOAD then Some h else None.

(** The same header as the C++ code sees it, and back. *)
Definition to_header (h : MicsHeader) : Header :=
  mkHeader kProtocolMagic kProtocolVersion (q_type h) (q_flags h) (Z.of_nat kHeaderSize)
    (q_payload_len h) (q_txn_id h) (q_sim_timestamp h) (q_address h) (q_byte_enable h)
    (q_status h) 0 (q_transfer_len h) 0.
Definition of_header (h : Header) : MicsHeader :=
  mkMics (h_msg_type h) (h_flags h) (h_payload_len h) (h_txn_id h) (h_sim_timestamp h)
    (h_address h) (h_byte_enable h) (h_status h) (h_transfer_len h).

Definition to_message (m : MicsMessage) : Message := mkMessage (to_header (qm_h m)) (qm_payload m).
Definition of_message (m : Message) : MicsMessage := mkMicsMessage (of_header (m_header m)) (m_payload m).

(** ** The device *)

Record PcieVip := mkVip {
  connected : bool; next_txn_id : Z;
  pending_active : bool; pending_done : bool; pending_txn_id : Z;
  pending_response : option MicsMessage;
  work_queue : list MicsMessage;
  max_transfer : Z }.

Definition set_rpc (active done : bool) (txn : Z) (rsp : option MicsMessage) (s : PcieVip) : PcieVip :=
  mkVip (connected s) (next_txn_id s) active done txn rsp (work_queue s) (max_transfer s).
Definition set_work_queue (q : list MicsMessage) (s : PcieVip) : PcieVip :=
  mkVip (connected s) (next_txn_id s) (pending_active s) (pending_done s) (pending_txn_id s)
    (pending_response s) q (max_transfer s).
Definition set_connected (b : bool) (s : PcieVip) : PcieVip :=
  mkVip b (next_txn_id s) (pending_active s) (pending_done s) (pending_txn_id s)
    (pending_response s) (work_queue s) (max_transfer s).

Definition pcie_vip_next_txn (s : PcieVip) : Z * PcieVip :=
  (next_txn_id s, mkVip (connected s) (u64 (next_txn_id s + 1)) (pending_active s) (pending_done s)
     (pending_txn_id s) (pending_response s) (work_queue s) (max_transfer s)).

(** [now] is [qemu_clock_get_ns]. *)
Definition pcie_vip_header (now type txn_id address byte_enable payload_len transfer_len flags status : Z)
  : MicsHeader :=
  mkMics type flags payload_len txn_id now address byte_enable status transfer_len.

(** [pcie_vip_rpc], cut where it gives [state_lock] up.  Begin: is the slot free? *)
Definition rpc_begin (request : MicsHeader) (s : PcieVip) : bool * PcieVip :=
  if negb (connected s) || pending_active s then (false, s)
  else (true, set_rpc true false (q_txn_id request) None s).

(** The condition of the wait loop turned false. *)
Definition rpc_ready (s : PcieVip) : bool := negb (connected s && negb (pending_done s)).

(** After the wait (or its time-out). *)
Definition rpc_finish (expected : Z) (s : PcieVip) : option MicsMessage * PcieVip :=
  match pending_response s with
  | Some r =>
      if pending_done s && (q_type (qm_h r) =? expected) && (q_status (qm_h r) =? MICS_STATUS_SUCCESS)
      then (Some r, set_rpc false false (pending_txn_id s) None s)
      else (None, set_rpc false false (pending_txn_id s) (Some r) s)
  | None => (None, set_rpc false false (pending_txn_id s) None s)
  end.

(** The label [out]: the request could not be sent. *)
Definition rpc_abort (s : PcieVip) : PcieVip :=
  set_rpc false false (pending_txn_id s) (pending_response s) s.

(** One message in [pcie_vip_reader]; true: the bottom half was scheduled. *)
Definition reader_message (msg : MicsMessage) (s : PcieVip) : bool * PcieVip :=
  let t := q_type (qm_h msg) in
  if negb ((q_flags (qm_h msg) & MICS_FLAG_RESPONSE) =? 0) then
    if pending_active s && (q_txn_id (qm_h msg) =? pending_txn_id s)
    then (false, set_rpc (pending_active s) true (pending_txn_id s) (Some msg) s)
    else (false, s)
  else if (t =? MICS_DMA_READ_REQ) || (t =? MICS_DMA_WRITE_REQ) || (t =? MICS_MSIX)
  then (true, set_work_queue (work_queue s ++ [msg]) s)
  else (false, s).

(** The end of [pcie_vip_reader]. *)
Definition reader_exit (s : PcieVip) : PcieVip := set_connected false s.

(** ** BAR accesses *)

Definition byte_enables (addr size : Z) : Z := u64 (((1 << size) - 1) << (addr & 7)).

Definition mmio_read_request (now addr size : Z) (s : PcieVip) : MicsHeader * PcieVip :=
  let '(txn, s) := pcie_vip_next_txn s in
  (pcie_vip_header now MICS_MMIO_READ_REQ txn addr (byte_enables addr size) 0 size 0 MICS_STATUS_SUCCESS, s).

(** The value the guest reads. *)
Definition mmio_read_value (size : Z) (response : option MicsMessage) : Z :=
  match response with
  | Some r =>
      if q_payload_len (qm_h r) =? size
      then foldl (fun v i => v `|` (qm_payload r !!! i << (8 * Z.of_nat i))) 0 (seq 0 (Z.to_nat size))
      else 2 ^ 64 - 1
  | None => 2 ^ 64 - 1
  end.

Definition mmio_write_request (now addr value size : Z) (s : PcieVip) : MicsMessage * PcieVip :=
  let '(txn, s) := pcie_vip_next_txn s in
  (mkMicsMessage
     (pcie_vip_header now MICS_MMIO_WRITE_REQ txn addr (byte_enables addr size) size size 0 MICS_STATUS_SUCCESS)
     ((fun i => u8 (value >> (8 * Z.of_nat i))) <$> seq 0 (Z.to_nat size)), s).

(** ** The bottom half *)

Class PciBus (M : Type) := {
  pci_dma_read : Z -> Z -> M -> option (list Z);   (** [None]: not MEMTX_OK *)
  pci_dma_write : Z -> list Z -> M -> option M;
  msix_notify : Z -> M -> M;
}.

(** [mics_send]: whether the message was handed over whole; [L] is what it works on,
    the connected flag included. *)
Class MicsLink (L : Type) := { link_send : MicsHeader -> list Z -> L -> bool * L }.

(** The response [pcie_vip_send_status] builds. *)
Definition status_response (now : Z) (request : MicsMessage) (response_type status : Z) (payload : list Z)
  : MicsMessage :=
  mkMicsMessage
    (pcie_vip_header now response_type (q_txn_id (qm_h request)) (q_address (qm_h request)) 0
       (Z.of_nat (length payload)) (q_transfer_len (qm_h request)) MICS_FLAG_RESPONSE status) payload.

Section Work.
Context {M : Type} `{PciBus M} {L : Type} `{MicsLink L}.

(** A failed send is logged and otherwise ignored. *)
Definition pcie_vip_send_status (now : Z) (request : MicsMessage) (response_type status : Z) (payload : list Z)
    (l : L) : L :=
  let r := status_response now request response_type status payload in
  let '(_, l) := link_send (qm_h r) (qm_payload r) l in l.

(** One work item. *)
Definition process_item (now limit : Z) (work : MicsMessage) (m : M) (l : L) : M * L :=
  let h := qm_h work in
  let len := q_transfer_len h in
  if q_type h =? MICS_DMA_READ_REQ then
    let result := if negb (len =? 0) && (len <=? limit) then pci_dma_read (q_address h) len m else None in
    match result with
    | Some data => (m, pcie_vip_send_status now work MICS_DMA_READ_RSP MICS_STATUS_SUCCESS data l)
    | None => (m, pcie_vip_send_status now work MICS_DMA_READ_RSP MICS_STATUS_OUT_OF_BOUNDS [] l)
    end
  else if q_type h =? MICS_DMA_WRITE_REQ then
    let result := if negb (len =? 0) && (len <=? limit) && (len =? q_payload_len h)
                  then pci_dma_write (q_address h) (qm_payload work) m else None in
    match result with
    | Some m => (m, pcie_vip_send_status now work MICS_DMA_WRITE_RSP MICS_STATUS_SUCCESS [] l)
    | None => (m, pcie_vip_send_status now work MICS_DMA_WRITE_RSP MICS_STATUS_OUT_OF_BOUNDS [] l)
    end
  else if q_type h =? MICS_MSIX then
    if q_address h <? PCIE_VIP_MSIX_VECTORS then (msix_notify (q_address h) m, l) else (m, l)
  else (m, l).

Fixpoint process_items (now limit : Z) (works : list MicsMessage) (m : M) (l : L) : M * L :=
  match works with
  | [] => (m, l)
  | w :: works => let '(m, l) := process_item now limit w m l in process_items now limit works m l
  end.

(** [pcie_vip_process_work] pops the head until the queue is empty: [work_queue s] is what
    it finds, together with what the reader appends before the last look. *)
Definition pcie_vip_process_work (now : Z) (s : PcieVip) (m : M) (l : L) : PcieVip * M * L :=
  let '(m, l) := process_items now (max_transfer s) (work_queue s) m l in
  (set_work_queue [] s, m, l).
End Work.

(** ** Lemmas on the codec *)

Lemma u32_byte v k : 0 <= k < 4 -> u8 (u32 v >> (8 * k)) = (v / 256 ^ k) mod 256.
Proof.
  intros Hk. unfold wrap. rewrite Z.shiftr_div_pow2, Z.pow_mul_r by lia. change (2 ^ 8) with 256.
  assert (E : 2 ^ 32 = 256 ^ k * 256 ^ (4 - k)) by (rewrite <- Z.pow_add_r by lia; by replace (k + (4 - k)) with 4 by lia).
  rewrite E, Z.rem_mul_r by lia. rewrite (Z.mul_comm (256 ^ k)), Z.div_add by lia.
  rewrite (Z.div_small (v mod _)) by (apply Z.mod_pos_bound; lia). rewrite Z.add_0_l.
  replace (256 ^ (4 - k)) with (256 * 256 ^ (3 - k)) by (rewrite <- (Z.pow_succ_r 256 (3 - k)) by lia; f_equal; lia).
  rewrite Z.rem_mul_r by lia. rewrite (Z.mul_comm 256), Z.mod_add, Z.mod_mod by lia. done.
Qed.

Lemma put_le32_u32 off v p :
  put_le32 off (u32 v) p = put_le32 off v p.
Proof.
  unfold put_le32. pose proof (u32_byte v 0) as H0. pose proof (u32_byte v 1) as H1.
  pose proof (u32_byte v 2) as H2. pose proof (u32_byte v 3) as H3.
  rewrite Z.mul_0_r, Z.shiftr_0_r, Z.pow_0_r, Z.div_1_r in H0.
  change (8 * 1) with 8 in H1. change (8 * 2) with 16 in H2. change (8 * 3) with 24 in H3. rewrite H0, H1, H2, H3 by lia.
  unfold wrap. by rewrite !Z.shiftr_div_pow2 by lia.
Qed.

Lemma put_le16_PutU16 off v p : put_le16 off v p = PutU16 off v p.
Proof. unfold put_le16, PutU16. by rewrite !mask_byte. Qed.

Lemma put_le32_PutU32 off v p : put_le32 off v p = PutU32 off v p.
Proof. unfold put_le32, PutU32. by rewrite !mask_byte. Qed.

Lemma put_le64_PutU64 off v p : put_le64 off v p = PutU64 off v p.
Proof.
  unfold put_le64. rewrite !put_le32_u32. unfold put_le32, PutU64. cbn [seq foldl].
  rewrite !mask_byte, !Z.shiftr_shiftr by lia. rewrite Nat.add_0_r, Z.mul_0_r, Z.shiftr_0_r.
  rewrite <- !Nat.add_assoc. done.
Qed.

Lemma get_le32_value p off : bytes_ok p -> get_le32 p off = le_value (read_bytes p off 4).
Proof.
  intros Hp. unfold get_le32, read_bytes. cbn [seq fmap list_fmap]. rewrite Nat.add_0_r.
  apply lor4_le_value. repeat constructor; by apply lookup_total_byte.
Qed.

Lemma get_le32_GetU32 p off : bytes_ok p -> get_le32 p off = GetU32 p off.
Proof. intros Hp. by rewrite GetU32_le, get_le32_value. Qed.

Lemma get_le16_GetU16 p off : bytes_ok p -> get_le16 p off = GetU16 p off.
Proof.
  intros Hp. unfold get_le16, GetU16.
  rewrite !(wrap_id 16 (p !!! _)); [done|..]; eapply in_width_mono, lookup_total_byte; (done || lia).
Qed.

Lemma get_le64_GetU64 p off : bytes_ok p -> get_le64 p off = GetU64 p off.
Proof.
  intros Hp. unfold get_le64. rewrite GetU64_le, !get_le32_value by done.
  pose proof (le_value_bound _ (read_bytes_ok p off 4 Hp)) as Hb. rewrite length_read_bytes in Hb.
  rewrite lor_disjoint_add by lia.
  assert (E : read_bytes p off 8 = read_bytes p off 4 ++ read_bytes p (off + 4) 4).
  { unfold read_bytes. cbn. rewrite <- !Nat.add_assoc. done. }
  rewrite E, le_value_app, length_read_bytes. lia.
Qed.

Lemma mics_encode_SerializeHeader h : mics_encode_header h = SerializeHeader (to_header h).
Proof.
  unfold mics_encode_header. rewrite !put_le16_PutU16, !put_le64_PutU64, !put_le32_PutU32.
  unfold SerializeHeader, to_header.
  cbn [h_magic h_version h_msg_type h_flags h_header_len h_payload_len h_txn_id
    h_sim_timestamp h_address h_byte_enable h_status h_reserved h_transfer_len h_reserved2].
  unfold PutU16, PutU32, PutU64. reflexivity.
Qed.

Lemma mics_decode_DeserializeHeader data :
  bytes_ok data -> mics_decode_header data = of_header <$> (DeserializeHeader data MICS_HEADER_SIZE).1.
Proof.
  intros Hp. unfold mics_decode_header, DeserializeHeader.
  rewrite !get_le16_GetU16, !get_le32_GetU32, !get_le64_GetU64 by done. cbn [q_payload_len].
  change (MICS_HEADER_SIZE <? kHeaderSize)%nat with false. cbn iota.
  unfold ReadHeaderFields. cbn [h_magic h_version h_header_len h_payload_len].
  change MICS_MAGIC with kProtocolMagic. change MICS_VERSION with kProtocolVersion.
  change (Z.of_nat MICS_HEADER_SIZE) with (Z.of_nat kHeaderSize). change MICS_MAX_PAYLOAD with kMaxPayloadSize.
  destruct (GetU32 data 0 =? _); cbn [negb orb]; [|done].
  destruct (GetU16 data 4 =? _); cbn [negb orb]; [|done].
  destruct (GetU16 data 10 =? _); cbn [negb]; [|done].
  rewrite Z.gtb_ltb, Z.ltb_antisym. by destruct (_ <=? _).
Qed.

(** ** The remote call, the reader thread and the bottom half, interleaved

    [calls]: the threads inside [pcie_vip_rpc], with their request and the response
    type they expect. *)
Record vstate := mkV { vip : PcieVip; calls : gmap nat (MicsHeader * Z) }.

Inductive vevent :=
| QRefuse (tid : nat)
| QBegin (tid : nat) (request : MicsHeader) (expected : Z)
| QAbort (tid : nat)
| QReturn (tid : nat) (r : option MicsMessage)
| QMessage (m : MicsMessage)
| QExit
| QNextTxn (txn : Z)
| QWork.

Inductive vstep : vstate -> vevent -> vstate -> Prop :=
| v_refuse s cs tid h :
    cs !! tid = None -> rpc_begin h s = (false, s) -> vstep (mkV s cs) (QRefuse tid) (mkV s cs)
| v_begin s cs tid h expected s' :
    cs !! tid = None -> rpc_begin h s = (true, s') ->
    vstep (mkV s cs) (QBegin tid h expected) (mkV s' (<[tid := (h, expected)]> cs))
| v_abort s cs tid c :
    cs !! tid = Some c -> vstep (mkV s cs) (QAbort tid) (mkV (rpc_abort s) (delete tid cs))
| v_return s cs tid h expected (timed_out : bool) r s' :
    cs !! tid = Some (h, expected) -> rpc_ready s = true \/ timed_out = true ->
    rpc_finish expected s = (r, s') -> vstep (mkV s cs) (QReturn tid r) (mkV s' (delete tid cs))
| v_message s cs m b s' :
    reader_message m s = (b, s') -> vstep (mkV s cs) (QMessage m) (mkV s' cs)
| v_exit s cs : vstep (mkV s cs) QExit (mkV (reader_exit s) cs)
| v_next_txn s cs txn s' :
    pcie_vip_next_txn s = (txn, s') -> vstep (mkV s cs) (QNextTxn txn) (mkV s' cs)
| v_work s cs : vstep (mkV s cs) QWork (mkV (set_work_queue [] s) cs).

(** [m] is a successful response to [h] of the expected type. *)
Definition answers_call (h : MicsHeader) (expected : Z) (m : MicsMessage) : Prop :=
  (q_flags (qm_h m) & MICS_FLAG_RESPONSE) <> 0 /\ q_txn_id (qm_h m) = q_txn_id h /\
  q_type (qm_h m) = expected /\ q_status (qm_h m) = MICS_STATUS_SUCCESS.

(** The call in progress, if any, in an execution that has produced [tr]. *)
Definition call_inv (tr : list vevent) (v : vstate) : Prop :=
  (pending_active (vip v) = false /\ calls v = ∅) \/
  (exists tid h expected tr1 tr2,
     pending_active (vip v) = true /\ calls v = {[tid := (h, expected)]} /\
     pending_txn_id (vip v) = q_txn_id h /\ tr = tr1 ++ QBegin tid h expected :: tr2 /\
     (pending_done (vip v) = true -> exists m, pending_response (vip v) = Some m /\
        QMessage m ∈ tr2 /\ (q_flags (qm_h m) & MICS_FLAG_RESPONSE) <> 0 /\
        q_txn_id (qm_h m) = q_txn_id h)).

(** Steps that leave the slot of the call in progress alone. *)
Lemma call_inv_frame tr s cs e s' :
  pending_active s' = pending_active s -> pending_done s' = pending_done s ->
  pending_txn_id s' = pending_txn_id s -> pending_response s' = pending_response s ->
  call_inv tr (mkV s cs) -> call_inv (tr ++ [e]) (mkV s' cs).
Proof.
  intros E1 E2 E3 E4 [[Ha Hc]|(tid & h & ex & tr1 & tr2 & Ha & Hc & Ht & -> & Hd)].
  - left. cbn in *. by rewrite E1.
  - right. exists tid, h, ex, tr1, (tr2 ++ [e]). cbn in *. rewrite E1, E2, E3, E4.
    split_and!; [done|done|done|by rewrite <- app_assoc|].
    intros Hdone. destruct (Hd Hdone) as (m & ? & ? & ?). exists m. split_and!; [done|set_solver|naive_solver..].
Qed.

Lemma call_inv_step tr v e v' : call_inv tr v -> vstep v e v' -> call_inv (tr ++ [e]) v'.
Proof.
  intros Hi. destruct 1 as [s cs tid h Hn Hb|s cs tid h ex s' Hn Hb|s cs tid c Hc|s cs tid h ex b r s' Hc _ Hf|
    s cs m b s' Hm|s cs|s cs txn s' Hx|s cs].
  - by (eapply call_inv_frame; [..|exact Hi]).
  - unfold rpc_begin in Hb. destruct (connected s), (pending_active s) eqn:Ha; simplify_eq/=.
    destruct Hi as [[_ Hcs]|(? & ? & ? & ? & ? & Ha' & _)]; [|cbn in *; congruence].
    right. exists tid, h, ex, tr, []. cbn in *. subst cs. by rewrite insert_empty.
  - left. destruct Hi as [[_ Hcs]|(tid' & h & ex & ? & ? & _ & Hcs & _)]; cbn in *; subst cs; [done|].
    apply lookup_singleton_Some in Hc as [-> _]. by rewrite delete_singleton_eq.
  - left. destruct Hi as [[_ Hcs]|(tid' & h' & ex' & ? & ? & _ & Hcs & _)]; cbn in *; subst cs; [done|].
    apply lookup_singleton_Some in Hc as [-> _]. rewrite delete_singleton_eq. split; [|done].
    unfold rpc_finish in Hf. destruct (pending_response s) as [m0|]; [destruct (_ && _)|]; by simplify_eq/=.
  - unfold reader_message in Hm. destruct (Z.eqb_spec (q_flags (qm_h m) & MICS_FLAG_RESPONSE) 0) as [Hz|Hz]; cbn in Hm.
    + destruct (_ || _); simplify_eq; by (eapply call_inv_frame; [..|exact Hi]).
    + destruct (pending_active s) eqn:Ha; cbn in Hm; [|simplify_eq; by (eapply call_inv_frame; [..|exact Hi])].
      destruct (Z.eqb_spec (q_txn_id (qm_h m)) (pending_txn_id s)) as [Htx|]; simplify_eq/=;
        [|by (eapply call_inv_frame; [..|exact Hi])].
      destruct Hi as [[Ha' _]|(tid & h & ex & tr1 & tr2 & _ & Hcs & Ht & -> & _)]; [cbn in *; congruence|].
      right. exists tid, h, ex, tr1, (tr2 ++ [QMessage m]). cbn in *.
      split_and!; [done|done|done|by rewrite <- app_assoc|]. intros _. exists m.
      split_and!; [done|set_solver|done|congruence].
  - by (eapply call_inv_frame; [..|exact Hi]).
  - unfold pcie_vip_next_txn in Hx. simplify_eq. by (eapply call_inv_frame; [..|exact Hi]).
  - by (eapply call_inv_frame; [..|exact Hi]).
Qed.

Definition vip_idle (s : PcieVip) : Prop := pending_active s = false.

Lemma call_inv_run s0 tr v : vip_idle s0 -> run vstep (mkV s0 ∅) tr v -> call_inv tr v.
Proof. intros H0. induction 1; [by left|by eapply call_inv_step]. Qed.

(** ** Lemmas on the bottom half *)

(** [r] is the response to the request [w] with the given type, status and data. *)
Record response_to (w : MicsMessage) (type status : Z) (data : list Z) (r : MicsMessage) : Prop := {
  rt_type : q_type (qm_h r) = type;
  rt_txn : q_txn_id (qm_h r) = q_txn_id (qm_h w);
  rt_address : q_address (qm_h r) = q_address (qm_h w);
  rt_transfer : q_transfer_len (qm_h r) = q_transfer_len (qm_h w);
  rt_flags : q_flags (qm_h r) = MICS_FLAG_RESPONSE;
  rt_status : q_status (qm_h r) = status;
  rt_data : qm_payload r = data;
  rt_length : q_payload_len (qm_h r) = Z.of_nat (length data);
}.

Lemma status_response_to now w type status data :
  response_to w type status data (status_response now w type status data).
Proof. done. Qed.

Section Served.
Context {M : Type} `{PciBus M} (limit : Z).

Definition in_limit (w : MicsMessage) : Prop :=
  q_transfer_len (qm_h w) <> 0 /\ q_transfer_len (qm_h w) <= limit.

(** What serving one item means: the effect on the bus and the response. *)
Inductive work_served (m : M) (w : MicsMessage) : option MicsMessage -> M -> Prop :=
| work_read d r :
    q_type (qm_h w) = MICS_DMA_READ_REQ -> in_limit w ->
    pci_dma_read (q_address (qm_h w)) (q_transfer_len (qm_h w)) m = Some d ->
    response_to w MICS_DMA_READ_RSP MICS_STATUS_SUCCESS d r -> work_served m w (Some r) m
| work_read_refused r :
    q_type (qm_h w) = MICS_DMA_READ_REQ ->
    ~ in_limit w \/ pci_dma_read (q_address (qm_h w)) (q_transfer_len (qm_h w)) m = None ->
    response_to w MICS_DMA_READ_RSP MICS_STATUS_OUT_OF_BOUNDS [] r -> work_served m w (Some r) m
| work_write m' r :
    q_type (qm_h w) = MICS_DMA_WRITE_REQ -> in_limit w -> q_transfer_len (qm_h w) = q_payload_len (qm_h w) ->
    pci_dma_write (q_address (qm_h w)) (qm_payload w) m = Some m' ->
    response_to w MICS_DMA_WRITE_RSP MICS_STATUS_SUCCESS [] r -> work_served m w (Some r) m'
| work_write_refused r :
    q_type (qm_h w) = MICS_DMA_WRITE_REQ ->
    ~ in_limit w \/ q_transfer_len (qm_h w) <> q_payload_len (qm_h w) \/
      pci_dma_write (q_address (qm_h w)) (qm_payload w) m = None ->
    response_to w MICS_DMA_WRITE_RSP MICS_STATUS_OUT_OF_BOUNDS [] r -> work_served m w (Some r) m
| work_interrupt :
    q_type (qm_h w) = MICS_MSIX -> q_address (qm_h w) < PCIE_VIP_MSIX_VECTORS ->
    work_served m w None (msix_notify (q_address (qm_h w)) m)
| work_bad_vector :
    q_type (qm_h w) = MICS_MSIX -> PCIE_VIP_MSIX_VECTORS <= q_address (qm_h w) -> work_served m w None m
| work_other :
    ~ q_type (qm_h w) ∈ [MICS_DMA_READ_REQ; MICS_DMA_WRITE_REQ; MICS_MSIX] -> work_served m w None m.

(** A whole queue, in order. *)
Inductive works_served : M -> list MicsMessage -> list MicsMessage -> M -> Prop :=
| works_done m : works_served m [] [] m
| works_next m w r m1 ws rs m2 :
    work_served m w r m1 -> works_served m1 ws rs m2 -> works_served m (w :: ws) (option_list r ++ rs) m2.

(** Handing the responses over. *)
Definition send_responses {L} `{MicsLink L} (rs : list MicsMessage) (l : L) : L :=
  foldl (fun l r => (link_send (qm_h r) (qm_payload r) l).2) l rs.

Lemma in_limit_dec w :
  (in_limit w /\ negb (q_transfer_len (qm_h w) =? 0) && (q_transfer_len (qm_h w) <=? limit) = true) \/
  (~ in_limit w /\ negb (q_transfer_len (qm_h w) =? 0) && (q_transfer_len (qm_h w) <=? limit) = false).
Proof.
  unfold in_limit. destruct (Z.eqb_spec (q_transfer_len (qm_h w)) 0); [right; by split; [lia|]|].
  destruct (Z.leb_spec (q_transfer_len (qm_h w)) limit); [left|right]; by split; [lia|].
Qed.

Lemma process_item_served {L} `{MicsLink L} now w (m : M) (l : L) m' l' :
  process_item now limit w m l = (m', l') ->
  exists r, work_served m w r m' /\ l' = send_responses (option_list r) l.
Proof.
  unfold process_item, send_responses.
  assert (Hsend : forall t st d, pcie_vip_send_status now w t st d l =
    foldl (fun l r => (link_send (qm_h r) (qm_payload r) l).2) l [status_response now w t st d]).
  { intros t st d. unfold pcie_vip_send_status. cbn [foldl]. by destruct (link_send _ _ l). }
  destruct (Z.eqb_spec (q_type (qm_h w)) MICS_DMA_READ_REQ) as [Ht|Ht].
  { destruct (in_limit_dec w) as [[Hin ->]|[Hin ->]];
      [destruct (pci_dma_read _ _ m) as [d|] eqn:Ed|]; intros [= <- <-]; rewrite Hsend; eexists (Some _); (split; [|reflexivity]).
    - eapply work_read; eauto using status_response_to.
    - apply work_read_refused; auto using status_response_to.
    - apply work_read_refused; auto using status_response_to. }
  destruct (Z.eqb_spec (q_type (qm_h w)) MICS_DMA_WRITE_REQ) as [Hw|Hw].
  { destruct (in_limit_dec w) as [[Hin ->]|[Hin ->]]; cbn [andb];
      [destruct (Z.eqb_spec (q_transfer_len (qm_h w)) (q_payload_len (qm_h w)));
       [destruct (pci_dma_write _ _ m) as [d|] eqn:Ed|]|]; intros [= <- <-]; rewrite Hsend; eexists (Some _); (split; [|reflexivity]).
    - eapply work_write; eauto using status_response_to.
    - apply work_write_refused; auto using status_response_to.
    - apply work_write_refused; auto using status_response_to.
    - apply work_write_refused; auto using status_response_to. }
  destruct (Z.eqb_spec (q_type (qm_h w)) MICS_MSIX) as [Hx|Hx].
  - destruct (Z.ltb_spec (q_address (qm_h w)) PCIE_VIP_MSIX_VECTORS); intros [= <- <-]; exists None; (split; [|done]).
    + by apply work_interrupt.
    + by apply work_bad_vector.
  - intros [= <- <-]. exists None. split; [|done]. apply work_other.
    rewrite !elem_of_cons, elem_of_nil. tauto.
Qed.

Lemma process_items_served {L} `{MicsLink L} now ws (m : M) (l : L) m' l' :
  process_items now limit ws m l = (m', l') ->
  exists rs, works_served m ws rs m' /\ l' = send_responses rs l.
Proof.
  revert m l. induction ws as [|w ws IH]; intros m l; cbn [process_items].
  { intros [= <- <-]. exists []. by split; [constructor|]. }
  destruct (process_item now limit w m l) as [m1 l1] eqn:Ei. intros E.
  apply process_item_served in Ei as (r & Hr & ->). apply IH in E as (rs & Hrs & ->).
  exists (option_list r ++ rs). split; [by eapply works_next|]. unfold send_responses. by rewrite foldl_app.
Qed.
End Served.

(** ** Properties *)

(** C16: the two implementations of the wire format agree.  The device's encoder
    writes exactly the bytes the C++ encoder writes for the same fields, and its
    decoder accepts exactly the 64-byte headers the C++ decoder accepts and reads the
    same fields from them. *)
Theorem qemu_codec_interop h data :
  bytes_ok data ->
  mics_encode_header h = SerializeHeader (to_header h) /\
  mics_decode_header data = of_header <$> (DeserializeHeader data MICS_HEADER_SIZE).1 /\
  of_header (to_header h) = h.
Proof.
  intros Hd. split; [apply mics_encode_SerializeHeader|].
  split; [by apply mics_decode_DeserializeHeader|by destruct h].
Qed.

(** C12: BAR accesses are correlated.  In every interleaving of vCPU threads, the reader
    thread, disconnection and the bottom half, at most one remote call is in progress,
    and a call that returns a response returns one that arrived while it was in
    progress, carries its own transaction id, and is a success of the type it expects;
    a late answer to a call that timed out is never returned. *)
Theorem rpc_correlation s0 tr1 tid m tr2 v :
  vip_idle s0 -> run vstep (mkV s0 ∅) (tr1 ++ QReturn tid (Some m) :: tr2) v ->
  (size (calls v) <= 1)%nat /\
  exists h expected tra trb, tr1 = tra ++ QBegin tid h expected :: trb /\ QMessage m ∈ trb /\
    answers_call h expected m.
Proof.
  intros H0 Hr. split.
  - apply call_inv_run in Hr; [|done]. destruct Hr as [[_ ->]|(? & ? & ? & ? & ? & _ & -> & _)].
    + rewrite map_size_empty. lia.
    + by rewrite map_size_singleton.
  - apply run_inv_step in Hr as (v1 & v2 & Hr1 & Hs). apply call_inv_run in Hr1; [|done].
    inversion Hs as [| | |s cs tid' h ex b r s' Hc _ Hf| | | |]; simplify_eq.
    destruct Hr1 as [[_ Hcs]|(tid2 & h2 & ex2 & tra & trb & _ & Hcs & Ht & -> & Hd)]; cbn in *; subst cs; [done|].
    apply lookup_singleton_Some in Hc as [-> [= -> ->]].
    unfold rpc_finish in Hf. destruct (pending_response s) as [m0|] eqn:Em; [|done].
    destruct (_ && _) eqn:Eg; simplify_eq.
    rewrite !andb_true_iff, !Z.eqb_eq in Eg. destruct Eg as [[Hdone Hty] Hst].
    destruct (Hd Hdone) as (m1 & [= <-] & Hin & Hfl & Htx).
    exists h, ex, tra, trb. by repeat split.
Qed.

(** ** Witnesses *)

Definition sample_mics : MicsHeader := mkMics 5 0 4 17 3 0x1054 0xf 0 4.

Lemma qemu_codec_interop_witness :
  mics_encode_header sample_mics = SerializeHeader (to_header sample_mics) /\
  mics_decode_header (mics_encode_header sample_mics) = Some sample_mics /\
  mics_decode_header (mics_encode_header sample_mics) =
    of_header <$> (DeserializeHeader (mics_encode_header sample_mics) MICS_HEADER_SIZE).1.
Proof.
  destruct (qemu_codec_interop sample_mics (mics_encode_header sample_mics)) as (H1 & H2 & _).
  { rewrite mics_encode_SerializeHeader. apply SerializeHeader_bytes. }
  split; [exact H1|]. split; [by vm_compute|exact H2].
Defined.

Definition sample_vip : PcieVip := mkVip true 2 false false 0 None [] (1024 * 1024).
Definition sample_rsp : MicsMessage := mkMicsMessage (mkMics 6 1 0 17 0 0x1054 0 0 0) [].

Lemma rpc_correlation_witness :
  exists v, run vstep (mkV sample_vip ∅) ([QBegin 1 sample_mics 6; QMessage sample_rsp] ++ [QReturn 1 (Some sample_rsp)]) v /\
    (size (calls v) <= 1)%nat /\ exists h expected tra trb,
      [QBegin 1 sample_mics 6; QMessage sample_rsp] = tra ++ QBegin 1 h expected :: trb /\
      QMessage sample_rsp ∈ trb /\ answers_call h expected sample_rsp.
Proof.
  assert (Hr : exists v, run vstep (mkV sample_vip ∅)
    ([QBegin 1 sample_mics 6; QMessage sample_rsp] ++ [QReturn 1 (Some sample_rsp)]) v).
  { eexists. eapply run_snoc; [eapply (run_snoc _ _ [_]); [eapply (run_snoc _ _ []); [constructor|]|]|].
    - by eapply v_begin.
    - by eapply v_message.
    - eapply (v_return _ _ 1%nat sample_mics 6 false); [by vm_compute|by left|by vm_compute]. }
  destruct Hr as [v Hr]. exists v. split; [exact Hr|].
  apply (rpc_correlation sample_vip [QBegin 1 sample_mics 6; QMessage sample_rsp] 1 sample_rsp [] v); [done|exact Hr].
Defined.
