(* ===== verification/QemuLink.v ===== *)
(** * The QEMU device's connection

    The rest of [hw/misc/pcie-vip.c] (in [patches/qemu-pcie-vip.patch]): the byte loops
    over the socket, [mics_send] and [mics_recv], the connection and handshake, reset,
    and the device's life cycle.  The socket is the scripted one of [Socket]; what
    QEMU's own calls answer while the device is realized is a record.  The handshake
    and framing theorems meet the C++ side of [Framing] and [Server]. *)
From S2P Require Import Prelude Protocol Socket Framing Transaction Interface Server Qemu.
From stdpp Require Import options.
#[local] Open Scope Z_scope.
#[local] Open Scope cxx_scope.

Definition MICS_HELLO : Z := 1.
Definition MICS_HELLO_ACK : Z := 2.
Definition MICS_RESET_REQ : Z := 12.
Definition MICS_RESET_RSP : Z := 13.

(** ** Byte loops *)

Fixpoint wait_fd (answers : list poll_ans) : bool * list poll_ans :=
  match answers with
  | [] => (false, [])
  | PollReady revents :: rest => ((revents & (POLLERR `|` POLLHUP `|` POLLNVAL)) =? 0, rest)
  | PollZero :: rest => (false, rest)
  | PollFail EINTR :: rest => wait_fd rest
  | PollFail _ :: rest => (false, rest)
  end.

(** [need] bytes are missing; [polled]: inside the inner loop, after [wait_fd]. *)
Fixpoint recv_loop (need : nat) (got : list Z) (polled : bool) (pollin : list poll_ans) (recvs : list recv_ans)
  : bool * (list Z * list poll_ans * list recv_ans) :=
  if (need =? 0)%nat then (true, (got, pollin, recvs))
  else
    let '(ready, pollin) := if polled then (true, pollin) else wait_fd pollin in
    if negb ready then (false, (got, pollin, recvs))
    else
      match recvs with
      | [] => (false, (got, pollin, []))
      | RecvFail EINTR :: recvs => recv_loop need got true pollin recvs
      | RecvFail _ :: recvs => (false, (got, pollin, recvs))
      | RecvBytes [] :: recvs => (false, (got, pollin, recvs))
      | RecvBytes bs :: recvs =>
          if (length bs <=? need)%nat
          then recv_loop (need - length bs) (got ++ bs) false pollin recvs
          else (true, (got ++ take need bs, pollin, RecvBytes (drop need bs) :: recvs))
      end.

Definition recv_all (n : nat) (s : Sock) : bool * list Z * Sock :=
  let '(ok, (got, pollin, recvs)) := recv_loop n [] false (s_pollin s) (s_recv s) in
  (ok, got, mkSock (fd_ s) pollin (s_pollout s) recvs (s_send s) (s_wire s)).

(** [data] is what is left to send. *)
Fixpoint send_loop (data : list Z) (polled : bool) (pollout : list poll_ans) (sends : list send_ans) (wire : list Z)
  : bool * (list poll_ans * list send_ans * list Z) :=
  if (length data =? 0)%nat then (true, (pollout, sends, wire))
  else
    let '(ready, pollout) := if polled then (true, pollout) else wait_fd pollout in
    if negb ready then (false, (pollout, sends, wire))
    else
      match sends with
      | [] => (false, (pollout, [], wire))
      | SendFail EINTR :: sends => send_loop data true pollout sends wire
      | SendFail _ :: sends => (false, (pollout, sends, wire))
      | SendTake k :: sends =>
          let n := Nat.min k (length data) in
          if (n =? 0)%nat then (false, (pollout, sends, wire))
          else send_loop (drop n data) false pollout sends (wire ++ take n data)
      end.

Definition send_all_locked (data : list Z) (s : Sock) : bool * Sock :=
  let '(ok, (pollout, sends, wire)) := send_loop data false (s_pollout s) (s_send s) (s_wire s) in
  (ok, mkSock (fd_ s) (s_pollin s) pollout (s_recv s) sends wire).

(** ** Messages *)

Definition mics_send (connected : bool) (h : MicsHeader) (payload : list Z) (s : Sock) : bool * Sock :=
  if negb connected then (false, s)
  else
    let '(ok, s) := send_all_locked (mics_encode_header h) s in
    if ok && negb (q_payload_len h =? 0)
    then send_all_locked (take (Z.to_nat (q_payload_len h)) payload) s
    else (ok, s).

Definition mics_recv (s : Sock) : option MicsMessage * Sock :=
  let '(ok, wire, s) := recv_all MICS_HEADER_SIZE s in
  if negb ok then (None, s)
  else
    match mics_decode_header wire with
    | None => (None, s)
    | Some h =>
        if negb (q_payload_len h =? 0) then
          let '(ok, payload, s) := recv_all (Z.to_nat (q_payload_len h)) s in
          if negb ok then (None, s) else (Some (mkMicsMessage h payload), s)
        else (Some (mkMicsMessage h []), s)
    end.

(** The device's end of the connection as the bottom half uses it: what the reads of
    [s->connected] give, one per [mics_send] and false once they are used up, and the
    socket. *)
Record qlink := mkLink { lk_connected : list bool; lk_sock : Sock }.

#[export] Instance qlink_send : MicsLink qlink := {|
  link_send h payload l :=
    let connected := hd false (lk_connected l) in
    let '(ok, s) := mics_send connected h payload (lk_sock l) in
    (ok, mkLink (tail (lk_connected l)) s) |}.

(** ** Connection and life cycle *)

(** The attempts: descriptor from [socket] and whether [connect] succeeded; the deadline
    is past after the last one (there is at least one). *)
Fixpoint pcie_vip_connect (attempts : list (Z * bool)) (os : OS) : option Z * OS :=
  match attempts with
  | [] => (None, os)
  | (fd, ok) :: attempts =>
      if fd <? 0 then (None, os)
      else
        let os := sys_open fd os in
        if (ok : bool) then (Some fd, os) else pcie_vip_connect attempts (sys_close fd os)
  end.

Definition hello_header (now txn : Z) : MicsHeader :=
  pcie_vip_header now MICS_HELLO txn 0 0 0 0 0 MICS_STATUS_SUCCESS.

Definition pcie_vip_handshake (now txn : Z) (s : Sock) : bool * Sock :=
  let hello := hello_header now txn in
  let '(sent, s) := mics_send true hello [] s in
  if negb sent then (false, s)
  else
    let '(r, s) := mics_recv s in
    match r with
    | None => (false, s)
    | Some m =>
        ((q_type (qm_h m) =? MICS_HELLO_ACK) && (q_txn_id (qm_h m) =? txn) &&
         (q_status (qm_h m) =? MICS_STATUS_SUCCESS), s)
    end.

(** The request [pcie_vip_reset] makes, if any. *)
Definition reset_request (now : Z) (s : PcieVip) : option MicsHeader * PcieVip :=
  if negb (connected s) then (None, s)
  else
    let '(txn, s) := pcie_vip_next_txn s in
    (Some (pcie_vip_header now MICS_RESET_REQ txn 0 0 0 0 0 MICS_STATUS_SUCCESS), s).

(** What a realized device holds besides its memory. *)
Record held := mkHeld { he_bh : bool; he_msix : bool; he_fd : Z; he_connected : bool; he_blocker : bool; he_thread : bool }.
Definition holds_nothing : held := mkHeld false false (-1) false false false.

(** The answers of the PCI core, the socket and the migration code. *)
Record realize_env := mkRealizeEnv {
  re_path : option string; re_pcie_cap : Z; re_msix : Z; re_attempts : list (Z * bool); re_sock : Sock; re_blocker : Z; re_now : Z }.

(** The labels of the error path. *)
Definition err_bh (h : held) : held :=
  mkHeld false (he_msix h) (he_fd h) (he_connected h) (he_blocker h) (he_thread h).
Definition err_msix (h : held) : held :=
  err_bh (mkHeld (he_bh h) false (he_fd h) (he_connected h) (he_blocker h) (he_thread h)).
Definition err_socket (h : held) (os : OS) : held * OS :=
  (err_msix (mkHeld (he_bh h) (he_msix h) (-1) false (he_blocker h) (he_thread h)), sys_close (he_fd h) os).

(** True: realized.  The mutexes, the condition variable and the PCIe capability, which
    the code sets up first and never gives back on its own, are not part of [held]. *)
Definition pcie_vip_realize (e : realize_env) (os : OS) : bool * held * OS :=
  let h := mkHeld true false (-1) false false false in
  if re_pcie_cap e <? 0 then (false, err_bh h, os)
  else if negb (re_msix e =? 0) then (false, err_bh h, os)
  else
    let h := mkHeld true true (-1) false false false in
    let '(fd, os) :=
      match re_path e with
      | None => (None, os)   (** [!s->socket_path] *)
      | Some path =>
          if (sun_path_size <=? String.length path)%nat then (None, os) else pcie_vip_connect (re_attempts e) os
      end in
    match fd with
    | None => (false, err_msix h, os)
    | Some fd =>
        let h := mkHeld true true fd true false false in
        let '(ok, _) := pcie_vip_handshake (re_now e) 1 (re_sock e) in
        if negb ok then (false, err_msix h, os)
        else if re_blocker e <? 0 then let '(h, os) := err_socket h os in (false, h, os)
        else (true, mkHeld true true fd true true true, os)
    end.

Definition pcie_vip_exit (h : held) (os : OS) : held * OS :=
  let thread := if he_connected h || (0 <=? he_fd h) then false else he_thread h in
  let os := if 0 <=? he_fd h then sys_close (he_fd h) os else os in
  (mkHeld false false (-1) false false thread, os).

(** ** Lemmas *)

Lemma recv_loop_safe need got polled pollin recvs ok got' pollin' recvs' :
  recv_loop need got polled pollin recvs = (ok, (got', pollin', recvs')) ->
  exists bs, got' = got ++ bs /\ stream_of recvs = bs ++ stream_of recvs' /\ (length bs <= need)%nat /\
    (ok = true -> length bs = need).
Proof.
  revert need got polled pollin. induction recvs as [|a recvs IH]; intros need got polled pollin; cbn [recv_loop];
    (destruct (Nat.eqb_spec need 0) as [->|Hn];
     [intros; simplify_eq; exists []; by rewrite app_nil_r|]);
    (destruct (if polled then (true, pollin) else wait_fd pollin) as [ready pollin1]);
    (destruct ready; cbn [negb]; [|intros; simplify_eq; exists []; rewrite app_nil_r; split_and!; (done || (cbn; lia))]).
  - intros; simplify_eq. exists []. rewrite app_nil_r. split_and!; (done || (cbn; lia)).
  - assert (Hstop : forall r, r = recv_bytes a -> r = [] -> (false, (got, pollin1, recvs)) = (ok, (got', pollin', recvs')) ->
      exists bs, got' = got ++ bs /\ stream_of (a :: recvs) = bs ++ stream_of recvs' /\ (length bs <= need)%nat /\ (ok = true -> length bs = need)).
    { intros r -> Hr. intros; simplify_eq. exists []. cbn [stream_of]. rewrite Hr, app_nil_r. split_and!; (done || (cbn; lia)). }
    destruct a as [[|b bs]|[]]; try (by apply (Hstop [])).
    + destruct (Nat.leb_spec (length (b :: bs)) need) as [Hfit|Hbig]; cbn iota.
      * intros E. apply IH in E as (bs' & -> & Hs & Hl & Hk). exists ((b :: bs) ++ bs').
        cbn [stream_of recv_bytes]. rewrite Hs, !app_assoc, length_app. split_and!; [done..|lia|]. intros Hok. specialize (Hk Hok). lia.
      * intros; simplify_eq. exists (take need (b :: bs)). cbn [stream_of recv_bytes]. rewrite app_assoc, take_drop, length_take.
        split_and!; [done|done|lia|lia].
    + intros E. apply IH in E as (bs' & ? & Hs & ? & ?). by exists bs'.
Qed.

Lemma recv_all_safe n s ok got s' :
  recv_all n s = (ok, got, s') ->
  stream s = got ++ stream s' /\ (length got <= n)%nat /\ (ok = true -> length got = n) /\
  fd_ s' = fd_ s /\ s_wire s' = s_wire s /\ s_send s' = s_send s /\ s_pollout s' = s_pollout s.
Proof.
  unfold recv_all, stream. destruct (recv_loop _ _ _ _ _) as [ok1 [[got1 pollin1] recvs1]] eqn:E. intros; simplify_eq.
  apply recv_loop_safe in E as (bs & -> & Hs & Hl & Hk). by split_and!.
Qed.

Lemma send_loop_safe data polled pollout sends wire ok pollout' sends' wire' :
  send_loop data polled pollout sends wire = (ok, (pollout', sends', wire')) ->
  exists n, wire' = wire ++ take n data /\ (n <= length data)%nat /\ (ok = true -> n = length data).
Proof.
  revert data polled pollout wire. induction sends as [|a sends IH]; intros data polled pollout wire; cbn [send_loop];
    (destruct (Nat.eqb_spec (length data) 0) as [Hz|Hn];
     [intros; simplify_eq; exists 0%nat; rewrite take_0, app_nil_r; split_and!; (done || (cbn; lia))|]);
    (destruct (if polled then (true, pollout) else wait_fd pollout) as [ready pollout1]);
    (destruct ready; cbn [negb]; [|intros; simplify_eq; exists 0%nat; rewrite take_0, app_nil_r; split_and!; (done || (cbn; lia))]).
  - intros; simplify_eq. exists 0%nat. rewrite take_0, app_nil_r. split_and!; (done || (cbn; lia)).
  - assert (Hstop : (false, (pollout1, sends, wire)) = (ok, (pollout', sends', wire')) ->
      exists n, wire' = wire ++ take n data /\ (n <= length data)%nat /\ (ok = true -> n = length data)).
    { intros; simplify_eq. exists 0%nat. rewrite take_0, app_nil_r. split_and!; (done || (cbn; lia)). }
    destruct a as [k|[]]; try (by apply Hstop).
    + destruct (Nat.eqb_spec (Nat.min k (length data)) 0); [by apply Hstop|]. intros E.
      apply IH in E as (n1 & -> & Hle & Hk). rewrite length_drop in *. exists (Nat.min k (length data) + n1)%nat.
      split; [by rewrite <- app_assoc, take_take_drop|]. split; [lia|]. intros Hok. specialize (Hk Hok). lia.
    + apply IH.
Qed.

Lemma send_all_safe data s ok s' :
  send_all_locked data s = (ok, s') ->
  exists n, s_wire s' = s_wire s ++ take n data /\ (ok = true -> n = length data) /\
    s_recv s' = s_recv s /\ s_pollin s' = s_pollin s /\ fd_ s' = fd_ s.
Proof.
  unfold send_all_locked. destruct (send_loop _ _ _ _ _) as [ok1 [[p1 s1] w1]] eqn:E. intros; simplify_eq.
  apply send_loop_safe in E as (n & -> & _ & Hk). by exists n.
Qed.

(** *** A kernel that delivers *)

Definition no_hup (a : poll_ans) : Prop := match a with PollReady r => (r & POLLHUP) = 0 | _ => True end.
Definition no_again (a : recv_ans) : Prop := a <> RecvFail EAGAIN.

(** As [readable], but this side takes a hang-up for an error even when bytes are left,
    and does not retry [EAGAIN]. *)
Definition qemu_readable (k : nat) (s : Sock) : Prop :=
  readable k s /\ Forall no_hup (s_pollin s) /\ Forall no_again (s_recv s).

Lemma wait_fd_live events answers :
  Forall (poll_live events) answers -> Forall no_hup answers -> (1 <= count_ok events answers)%nat ->
  exists rest, wait_fd answers = (true, rest) /\ Forall (poll_live events) rest /\ Forall no_hup rest /\
    count_ok events answers = S (count_ok events rest).
Proof.
  intros Hl Hh. induction Hl as [|a answers Ha Hl IH]; [by cbn; lia|]. apply Forall_cons in Hh as [Hh0 Hh]. intros Hc.
  destruct Ha as [Ha| ->].
  - pose proof Ha as Ha'. destruct a as [r| |]; try done. cbn in Ha, Hh0. apply andb_true_iff in Ha as [He _]. apply Z.eqb_eq in He.
    exists answers. split_and!; [|done|done|].
    + cbn [wait_fd]. rewrite Z.land_lor_distr_r in He. apply Z.lor_eq_0_iff in He as [E1 E2].
      rewrite !Z.land_lor_distr_r, E1, E2, Hh0. done.
    + unfold count_ok. by rewrite filter_cons_True.
  - unfold count_ok in *. rewrite filter_cons_False in Hc |- * by done. by apply IH.
Qed.

Lemma recv_loop_live k need got (polled : bool) pollin recvs :
  Forall (poll_live POLLIN) pollin -> Forall no_hup pollin -> Forall recv_live recvs -> Forall no_again recvs ->
  (recvs_weight recvs + k <= count_ok POLLIN pollin + (if polled then 1 else 0))%nat ->
  (need <= length (stream_of recvs))%nat -> (polled = true -> need <> 0)%nat ->
  exists got' pollin' recvs', recv_loop need got polled pollin recvs = (true, (got', pollin', recvs')) /\
    Forall (poll_live POLLIN) pollin' /\ Forall no_hup pollin' /\ Forall recv_live recvs' /\ Forall no_again recvs' /\
    (recvs_weight recvs' + k <= count_ok POLLIN pollin')%nat.
Proof.
  intros Hp Hh Hr Ha. revert need got polled pollin Hp Hh.
  induction Hr as [|a recvs Ha0 Hr IH]; intros need got polled pollin Hp Hh Hw Hn Hpn.
  { destruct need; [|cbn in Hn; lia]. destruct polled; [by specialize (Hpn eq_refl)|]. cbn [recv_loop Nat.eqb].
    do 3 eexists. split; [done|]. rewrite Nat.add_0_r in Hw. by split_and!. }
  apply Forall_cons in Ha as [Hna Ha]. cbn [recv_loop]. destruct (Nat.eqb_spec need 0) as [->|Hnz].
  { destruct polled; [by specialize (Hpn eq_refl)|]. do 3 eexists. split; [done|]. rewrite Nat.add_0_r in Hw.
    by split_and!; try constructor. }
  assert (Hw1 : (1 <= recv_weight a)%nat) by (destruct a as [[|b bs]|e]; cbn in *; [done|lia|lia]).
  cbn [recvs_weight stream_of] in *.
  assert (Hwait : exists pollin1, (if polled then (true, pollin) else wait_fd pollin) = (true, pollin1) /\
    Forall (poll_live POLLIN) pollin1 /\ Forall no_hup pollin1 /\
    (count_ok POLLIN pollin + (if polled then 1 else 0) = S (count_ok POLLIN pollin1))%nat).
  { destruct polled; [exists pollin; split_and!; [done..|lia]|].
    destruct (wait_fd_live POLLIN pollin Hp Hh) as (rest & E & ? & ? & Hc); [lia|]. exists rest. split_and!; [done..|lia]. }
  destruct Hwait as (pollin1 & -> & Hp1 & Hh1 & Hc). cbn [negb].
  destruct a as [[|b bs]|e]; cbn [recv_live recv_bytes recv_weight] in *; [done| |].
  - rewrite length_app in Hn. destruct (Nat.leb_spec (length (b :: bs)) need) as [Hfit|Hbig].
    + apply IH; [done|done|done|lia|lia|done].
    + do 3 eexists. split; [done|]. split_and!; [done|done| | |].
      * constructor; [|done]. cbn. intros E%(f_equal length). rewrite length_drop in E. cbn in *. lia.
      * by constructor.
      * cbn [recvs_weight recv_weight]. rewrite length_drop. lia.
  - destruct e; try done. apply IH; [done|done|done|lia|cbn in Hn; lia|done].
Qed.

Lemma recv_all_live k n s :
  qemu_readable k s -> (n <= length (stream s))%nat ->
  exists s', recv_all n s = (true, take n (stream s), s') /\ stream s' = drop n (stream s) /\ qemu_readable k s' /\
    s_wire s' = s_wire s /\ s_send s' = s_send s /\ s_pollout s' = s_pollout s /\ fd_ s' = fd_ s.
Proof.
  intros ([Hfd Hp Hr Hw] & Hh & Ha) Hn.
  destruct (recv_loop_live k n [] false (s_pollin s) (s_recv s)) as (got & p' & r' & E & Hp' & Hh' & Hr' & Ha' & Hw');
    [done|done|done|done|lia|done|done|].
  destruct (recv_all n s) as [[ok got1] s'] eqn:ER. pose proof ER as ER'. unfold recv_all in ER. rewrite E in ER. simplify_eq.
  apply recv_all_safe in ER' as (Hs & _ & Hl & _). specialize (Hl eq_refl).
  eexists. rewrite Hs, take_app_length', drop_app_length' by done. split_and!; try done; by repeat split.
Qed.

(** A message on the wire is received. *)
Lemma mics_recv_frame k s m rest :
  qemu_readable k s -> message_ok m -> stream s = wire_of m ++ rest ->
  exists s', mics_recv s = (Some (of_message m), s') /\ stream s' = rest /\ qemu_readable k s' /\
    s_wire s' = s_wire s /\ s_send s' = s_send s /\ s_pollout s' = s_pollout s /\ fd_ s' = fd_ s.
Proof.
  intros Hr Hm Hs. destruct m as [h p]. unfold wire_of, message_ok in *. cbn [m_header m_payload] in Hs, Hm.
  rewrite SerializeMessage_app, <- app_assoc in Hs. pose proof (length_SerializeHeader h) as Hlen.
  destruct (recv_all_live k MICS_HEADER_SIZE s Hr) as (s1 & E1 & Hs1 & Hr1 & Hx1).
  { rewrite Hs, length_app, Hlen. unfold MICS_HEADER_SIZE, kHeaderSize. lia. }
  rewrite Hs, take_app_length' in E1 by done. rewrite Hs, drop_app_length' in Hs1 by done.
  unfold mics_recv. rewrite E1. cbn [negb].
  rewrite mics_decode_DeserializeHeader by (by apply SerializeHeader_bytes).
  rewrite (DeserializeHeader_frame h p Hm : DeserializeHeader _ MICS_HEADER_SIZE = _). cbn [fst fmap option_fmap option_map].
  destruct Hm as (_ & _ & _ & Hpl). cbn [q_payload_len of_header]. rewrite Hpl, Nat2Z.id.
  destruct p as [|b p].
  { exists s1. cbn. split; [done|]. by rewrite Hs1. }
  rewrite (proj2 (Z.eqb_neq _ _)) by (cbn; lia). cbn [negb].
  destruct (recv_all_live k (length (b :: p)) s1 Hr1) as (s2 & E2 & Hs2 & Hr2 & Hx2).
  { rewrite Hs1, length_app. lia. }
  rewrite E2, Hs1, take_app_length. cbn [negb]. rewrite Hs1, drop_app_length in Hs2. exists s2. split; [done|].
  split; [done|]. split; [done|]. destruct Hx1 as (? & ? & ? & ?), Hx2 as (? & ? & ? & ?). split_and!; congruence.
Qed.

(** *** A kernel that takes what it is given *)

(** As [writable], with the same two differences. *)
Definition qemu_writable (n : nat) (s : Sock) : Prop :=
  writable n s /\ Forall no_hup (s_pollout s) /\ Forall (fun a => a <> SendFail EAGAIN) (s_send s).

Lemma send_loop_live n data (polled : bool) pollout sends wire :
  Forall (poll_live POLLOUT) pollout -> Forall no_hup pollout -> Forall send_live sends ->
  Forall (fun a => a <> SendFail EAGAIN) sends ->
  (length sends <= count_ok POLLOUT pollout + (if polled then 1 else 0))%nat ->
  (n + length data <= send_takes sends)%nat -> (polled = true -> data <> []) ->
  exists pollout' sends' wire', send_loop data polled pollout sends wire = (true, (pollout', sends', wire')) /\
    Forall (poll_live POLLOUT) pollout' /\ Forall no_hup pollout' /\ Forall send_live sends' /\
    Forall (fun a => a <> SendFail EAGAIN) sends' /\
    (length sends' <= count_ok POLLOUT pollout')%nat /\ (n <= send_takes sends')%nat.
Proof.
  intros Hp Hh Hs Ha. revert data polled pollout wire Hp Hh.
  induction Hs as [|a sends Ha0 Hs IH]; intros data polled pollout wire Hp Hh Hw Hn Hpn; cbn [send_loop];
    (destruct (Nat.eqb_spec (length data) 0) as [Hz|Hnz];
     [apply nil_length_inv in Hz as ->; destruct polled; [by specialize (Hpn eq_refl)|];
      do 3 eexists; split; [done|]; split_and!; (done || (by constructor) || (cbn in *; lia))|]).
  { cbn in Hn. lia. }
  pose proof Ha as Ha1. apply Forall_cons in Ha1 as [Hna Ha1]. cbn [length send_takes] in *.
  assert (Hwait : exists pollout1, (if polled then (true, pollout) else wait_fd pollout) = (true, pollout1) /\
    Forall (poll_live POLLOUT) pollout1 /\ Forall no_hup pollout1 /\
    (count_ok POLLOUT pollout + (if polled then 1 else 0) = S (count_ok POLLOUT pollout1))%nat).
  { destruct polled; [exists pollout; split_and!; [done..|lia]|].
    destruct (wait_fd_live POLLOUT pollout Hp Hh) as (rest & E & ? & ? & Hc); [lia|]. exists rest. split_and!; [done..|lia]. }
  destruct Hwait as (pollout1 & -> & Hp1 & Hh1 & Hc). cbn [negb].
  destruct a as [k|e]; cbn [send_live] in Ha0.
  - destruct (Nat.eqb_spec (Nat.min k (length data)) 0); [lia|]. cbn [send_takes] in Hn. apply IH; [done..|lia| |done]. rewrite length_drop. lia.
  - destruct e; try done. apply IH; [done..|lia|lia|]. intros _ ->. done.
Qed.

Lemma send_all_live n data s :
  qemu_writable (n + length data) s ->
  exists s', send_all_locked data s = (true, s') /\ s_wire s' = s_wire s ++ data /\ qemu_writable n s'.
Proof.
  intros ([Hfd Hp Hs Hw Ht] & Hh & Ha).
  destruct (send_loop_live n data false (s_pollout s) (s_send s) (s_wire s)) as (p' & s' & w' & E & ? & ? & ? & ? & ? & ?);
    [done..|lia|done|done|].
  destruct (send_all_locked data s) as [ok s1] eqn:ES. pose proof ES as ES'. unfold send_all_locked in ES.
  rewrite E in ES. simplify_eq. apply send_all_safe in ES' as (k & Hk & Hl & _). specialize (Hl eq_refl) as ->.
  rewrite firstn_all in Hk. eexists. by split_and!.
Qed.

(** Whatever happens, a prefix of the message's frame is on the wire, and nothing of it
    when the device is disconnected. *)
Lemma mics_send_safe c h p s ok s' :
  q_payload_len h = Z.of_nat (length p) -> mics_send c h p s = (ok, s') ->
  exists piece, s_wire s' = s_wire s ++ piece /\ piece `prefix_of` wire_of (to_message (mkMicsMessage h p)) /\
    (piece <> [] -> c = true).
Proof.
  intros Hl. unfold mics_send. destruct c; cbn [negb]; [|intros; simplify_eq; exists []; rewrite app_nil_r; split_and!; (done || apply prefix_nil)].
  destruct (send_all_locked (mics_encode_header h) s) as [ok1 s1] eqn:E1.
  apply send_all_safe in E1 as (n1 & Hw1 & Hk1 & _).
  unfold wire_of. cbn [to_message m_header m_payload qm_h qm_payload]. rewrite SerializeMessage_app, <- mics_encode_SerializeHeader.
  rewrite Hl, Nat2Z.id, firstn_all.
  destruct (ok1 && _) eqn:Ec; [|intros; simplify_eq; exists (take n1 (mics_encode_header h));
    split_and!; [done|apply prefix_app_r, prefix_take|done]].
  apply andb_true_iff in Ec as [-> _]. specialize (Hk1 eq_refl) as ->. rewrite firstn_all in Hw1.
  intros E2. apply send_all_safe in E2 as (n2 & Hw2 & _). exists (mics_encode_header h ++ take n2 p).
  rewrite Hw2, Hw1, app_assoc. split_and!; [done|apply prefix_app, prefix_take|done].
Qed.

Lemma mics_send_live n h p s :
  q_payload_len h = Z.of_nat (length p) ->
  qemu_writable (n + length (wire_of (to_message (mkMicsMessage h p)))) s ->
  exists s', mics_send true h p s = (true, s') /\ qemu_writable n s' /\
    s_wire s' = s_wire s ++ wire_of (to_message (mkMicsMessage h p)).
Proof.
  intros Hl. unfold wire_of. cbn [to_message m_header m_payload qm_h qm_payload].
  rewrite SerializeMessage_app, <- mics_encode_SerializeHeader, length_app, Nat.add_assoc, <- Nat.add_assoc,
    (Nat.add_comm (length (mics_encode_header h))), Nat.add_assoc. intros Hw.
  apply send_all_live in Hw as (s1 & E1 & Hw1 & Hq1). unfold mics_send. cbn [negb]. rewrite E1, Hl, Nat2Z.id, firstn_all.
  destruct p as [|b p].
  - exists s1. cbn [length] in *. rewrite (app_nil_r (mics_encode_header h)). rewrite Nat.add_0_r in Hq1. by split_and!.
  - apply send_all_live in Hq1 as (s2 & E2 & Hw2 & Hq2). rewrite (proj2 (Z.eqb_neq _ _)) by (cbn; lia). cbn [andb negb]. exists s2. split_and!; [done..|].
    by rewrite Hw2, Hw1, app_assoc.
Qed.

(** The frames of messages, and handing a list of them over. *)
Definition mics_frame (r : MicsMessage) : list Z := wire_of (to_message r).
Definition sized (r : MicsMessage) : Prop := q_payload_len (qm_h r) = Z.of_nat (length (qm_payload r)).

Lemma send_responses_cons r rs (l : qlink) :
  send_responses (r :: rs) l = send_responses rs (link_send (qm_h r) (qm_payload r) l).2.
Proof. done. Qed.

Lemma send_responses_safe rs l :
  Forall sized rs ->
  exists pieces, s_wire (lk_sock (send_responses rs l)) = s_wire (lk_sock l) ++ concat pieces /\
    Forall2 (fun piece r => piece `prefix_of` mics_frame r) pieces rs /\
    (forall i piece, pieces !! i = Some piece -> piece <> [] -> lk_connected l !! i = Some true).
Proof.
  intros Hs. revert l. induction Hs as [|[h p] rs Hr Hs IH]; intros [cs s].
  { exists []. split_and!; [by rewrite app_nil_r|constructor|done]. }
  rewrite send_responses_cons. cbn [link_send qlink_send qm_h qm_payload lk_connected lk_sock].
  destruct (mics_send _ h p s) as [ok s1] eqn:E. cbn [snd].
  apply mics_send_safe in E as (piece & Hw & Hp & Hc); [|done].
  destruct (IH (mkLink (tail cs) s1)) as (pieces & Hws & Hps & Hcs). exists (piece :: pieces).
  rewrite Hws. cbn [lk_sock lk_connected concat] in *. split; [by rewrite Hw, app_assoc|].
  split; [by constructor|]. intros [|i] q; cbn [lookup list_lookup].
  - intros [= ->] Hne. specialize (Hc Hne). destruct cs as [|c cs]; cbn in *; [done|by subst].
  - intros Hi Hne. specialize (Hcs i q Hi Hne). by destruct cs.
Qed.

Lemma send_responses_live n rs l :
  Forall sized rs -> (exists rest, lk_connected l = replicate (length rs) true ++ rest) ->
  qemu_writable (n + length (concat (mics_frame <$> rs))) (lk_sock l) ->
  s_wire (lk_sock (send_responses rs l)) = s_wire (lk_sock l) ++ concat (mics_frame <$> rs) /\
  qemu_writable n (lk_sock (send_responses rs l)).
Proof.
  intros Hs. revert l. induction Hs as [|[h p] rs Hr Hs IH]; intros [cs s] [rest Hc] Hw; cbn [lk_connected lk_sock] in *.
  { cbn in *. rewrite Nat.add_0_r in Hw. by rewrite app_nil_r. }
  subst cs. cbn [fmap list_fmap concat] in *. rewrite length_app, (Nat.add_comm (length (mics_frame _))), Nat.add_assoc in Hw.
  rewrite send_responses_cons. cbn [link_send qlink_send qm_h qm_payload lk_connected lk_sock length replicate app hd tail].
  destruct (mics_send_live _ h p s Hr Hw) as (s1 & -> & Hq & Hw1). cbn [snd].
  destruct (IH (mkLink (replicate (length rs) true ++ rest) s1)) as [Hws Hq']; [by exists rest|done|].
  split; [|done]. rewrite Hws. cbn [lk_sock]. by rewrite Hw1, app_assoc.
Qed.

Lemma works_served_sized {M} `{PciBus M} limit (m : M) ws rs m' : works_served limit m ws rs m' -> Forall sized rs.
Proof.
  induction 1 as [|m w r m1 ws rs m2 Hw _ IH]; [constructor|]. apply Forall_app. split; [|done].
  destruct Hw; cbn [option_list]; repeat constructor;
    match goal with Hr : response_to _ _ _ _ _ |- _ => destruct Hr; unfold sized; congruence end.
Qed.

(** A message that was sent is on the wire as the C++ side writes it. *)
Lemma mics_send_wire h p s s' :
  q_payload_len h = Z.of_nat (length p) -> mics_send true h p s = (true, s') ->
  s_wire s' = s_wire s ++ wire_of (to_message (mkMicsMessage h p)) /\ s_recv s' = s_recv s /\ s_pollin s' = s_pollin s /\ fd_ s' = fd_ s.
Proof.
  intros Hl. unfold mics_send. cbn [negb]. destruct (send_all_locked (mics_encode_header h) s) as [ok s1] eqn:E1.
  apply send_all_safe in E1 as (n1 & Hw1 & Hk1 & Hr1 & Hp1 & Hf1).
  unfold wire_of. cbn [to_message m_header m_payload qm_h qm_payload]. rewrite SerializeMessage_app, <- mics_encode_SerializeHeader.
  rewrite Hl, Nat2Z.id. destruct ok; cbn [andb]; [|done]. specialize (Hk1 eq_refl) as ->. rewrite firstn_all in Hw1.
  destruct p as [|b p].
  { change (Z.of_nat (length []) =? 0) with true. cbn [negb]. intros; simplify_eq. by rewrite app_nil_r. }
  rewrite (proj2 (Z.eqb_neq _ _)) by (cbn; lia). cbn [negb]. rewrite firstn_all. intros E2.
  apply send_all_safe in E2 as (n2 & Hw2 & Hk2 & Hr2 & Hp2 & Hf2). specialize (Hk2 eq_refl) as ->.
  rewrite firstn_all in Hw2. rewrite Hw2, Hw1, <- app_assoc. split_and!; congruence.
Qed.

Lemma open_close fd os : fd ∉ os_open os -> os_open (sys_close fd (sys_open fd os)) = os_open os.
Proof. intros Hf. cbn. set_solver. Qed.

Lemma connect_opens attempts os fd os' :
  Forall (fun a => a.1 ∉ os_open os) attempts -> pcie_vip_connect attempts os = (fd, os') ->
  match fd with
  | Some fd => 0 <= fd /\ (fd ∉ os_open os) /\ os_open os' = {[fd]} ∪ os_open os
  | None => os_open os' = os_open os
  end.
Proof.
  revert os. induction attempts as [|[f ok] attempts IH]; intros os Hf; cbn [pcie_vip_connect]; [intros; by simplify_eq|].
  apply Forall_cons in Hf as [Hf0 Hf]. destruct (Z.ltb_spec f 0); [intros; by simplify_eq|].
  destruct ok; [intros; simplify_eq; by split_and!|]. intros E. cbn [fst] in Hf0.
  pose proof (open_close f os Hf0) as Ho. rewrite <- Ho. apply (IH (sys_close f (sys_open f os))); [|done].
  by rewrite Ho.
Qed.

Lemma hello_frame now txn : in_width 64 now -> in_width 64 txn ->
  frame_ok (to_header (hello_header now txn)) [].
Proof. intros Hn Ht. split_and!; try done; constructor; done. Qed.

Lemma hello_ack_frame now txn : in_width 64 now -> in_width 64 txn ->
  message_ok (mkMessage (HelloAckHeader (to_message (mkMicsMessage (hello_header now txn) []))) []).
Proof. intros Hn Ht. split_and!; try done; constructor; done. Qed.

(** ** Properties *)

(** C18: the two ends of the socket understand each other.  Whatever way the kernels
    split the bytes, a message the QEMU device has sent is received by the C++ server
    with the same fields and payload, and a message the C++ side has written is
    received by the device, each leaving the stream at the next message. *)
Theorem qemu_link_interop h p s s' k r q m rest :
  frame_ok (to_header h) p -> mics_send true h p s = (true, s') ->
  readable k r -> stream r = drop (length (s_wire s)) (s_wire s') ++ rest ->
  qemu_readable k q -> message_ok m -> stream q = wire_of m ++ rest ->
  (exists r', RecvMessage r = (RecvMsg (to_message (mkMicsMessage h p)), r') /\ stream r' = rest) /\
  (exists q', mics_recv q = (Some (of_message m), q') /\ stream q' = rest).
Proof.
  intros Hf Hsend Hr Hs Hq Hm Hsq. split.
  - apply mics_send_wire in Hsend as (Hw & _); [|apply Hf].
    rewrite Hw, drop_app_length in Hs.
    destruct (RecvMessage_frame k r (to_message (mkMicsMessage h p)) rest) as (r' & E & Hr' & _); [done|exact Hf|done|].
    by exists r'.
  - destruct (mics_recv_frame k q m rest) as (q' & E & Hq' & _); [done..|]. by exists q'.
Qed.


(** The handshake of the device against the server: the HELLO is the frame the server
    expects, and the server's acknowledgement of it is accepted. *)
Theorem handshake_interop now txn k s s1 rest :
  in_width 64 now -> in_width 64 txn ->
  let hello := to_message (mkMicsMessage (hello_header now txn) []) in
  mics_send true (hello_header now txn) [] s = (true, s1) -> qemu_readable k s1 ->
  stream s1 = wire_of (mkMessage (HelloAckHeader hello) []) ++ rest ->
  Type_ (m_header hello) = kHello /\ message_ok hello /\
  exists s', pcie_vip_handshake now txn s = (true, s') /\ s_wire s' = s_wire s ++ wire_of hello /\ stream s' = rest.
Proof.
  intros Hn Ht hello Hsend Hr Hs. split; [done|]. split; [by apply hello_frame|].
  destruct (mics_recv_frame k s1 (mkMessage (HelloAckHeader hello) []) rest Hr) as (s2 & E2 & Hs2 & _ & Hw2 & _);
    [by apply hello_ack_frame|done|].
  pose proof Hsend as Hsend'. apply mics_send_wire in Hsend' as (Hw & _); [|done].
  exists s2. unfold pcie_vip_handshake. rewrite Hsend. cbn [negb]. rewrite E2. split; [|split; [by rewrite Hw2, Hw|done]].
  cbn [of_message qm_h of_header m_header q_type q_txn_id q_status HelloAckHeader hello to_message to_header h_txn_id
    MakeHeader h_msg_type h_status hello_header pcie_vip_header]. by rewrite !Z.eqb_refl.
Qed.

(** C39: the life cycle of the device.  Given fresh descriptors, a realized device holds
    its bottom half, vectors, socket, migration blocker and reader thread, and [exit]
    gives all of them back with the table of open descriptors as before; a device that
    could not be realized holds none of them and has closed its socket, except when it
    was the handshake that failed. *)
Theorem realize_lifecycle e os :
  Forall (fun a => a.1 ∉ os_open os) (re_attempts e) ->
  let '(ok, h, os') := pcie_vip_realize e os in
  if ok
  then (he_bh h && he_msix h && he_connected h && he_blocker h && he_thread h) = true /\ 0 <= he_fd h /\
       os_open os' = {[he_fd h]} ∪ os_open os /\
       (pcie_vip_exit h os').1 = holds_nothing /\ os_open (pcie_vip_exit h os').2 = os_open os
  else (he_bh h || he_msix h || he_blocker h || he_thread h) = false /\
       (h = holds_nothing /\ os_open os' = os_open os \/
        (pcie_vip_handshake (re_now e) 1 (re_sock e)).1 = false /\ 0 <= he_fd h /\ os_open os' = {[he_fd h]} ∪ os_open os).
Proof.
  intros Hf. unfold pcie_vip_realize. destruct (re_pcie_cap e <? 0); [by split; [|left]|].
  destruct (negb (re_msix e =? 0)); [by split; [|left]|].
  set (r := match re_path e with Some _ => _ | None => _ end).
  assert (Hr : match r with (Some fd, os') => 0 <= fd /\ (fd ∉ os_open os) /\ os_open os' = {[fd]} ∪ os_open os
                          | (None, os') => os_open os' = os_open os end).
  { unfold r. destruct (re_path e) as [path|]; [|done]. destruct (_ <=? _)%nat; [done|]. destruct (pcie_vip_connect _ os) as [fd os'] eqn:E.
    by apply connect_opens in E. }
  destruct r as [[fd|] os1]; [|by split; [|left]]. destruct Hr as (Hfd & Hnew & Ho).
  destruct (pcie_vip_handshake _ 1 _) as [ok s] eqn:Eh. destruct ok; cbn [negb].
  - destruct (re_blocker e <? 0).
    + cbn. split; [done|]. left. split; [done|]. rewrite Ho. set_solver.
    + cbn [he_bh he_msix he_connected he_blocker he_thread he_fd]. split_and!; [done|done|done|by cbn|].
      unfold pcie_vip_exit. cbn [he_fd snd]. rewrite (proj2 (Z.leb_le 0 fd)) by done. cbn. rewrite Ho. set_solver.
  - cbn. split; [done|]. by right.
Qed.

(** A failed handshake leaves the socket open and the device marked connected. *)
Theorem handshake_failure_leaks_socket e path os fd os1 s' :
  0 <= re_pcie_cap e -> re_msix e = 0 -> re_path e = Some path -> (String.length path < sun_path_size)%nat ->
  pcie_vip_connect (re_attempts e) os = (Some fd, os1) ->
  pcie_vip_handshake (re_now e) 1 (re_sock e) = (false, s') ->
  exists h, pcie_vip_realize e os = (false, h, os1) /\ he_fd h = fd /\ he_connected h = true.
Proof.
  intros Hc Hm Hpath Hp Ec Eh. unfold pcie_vip_realize. rewrite (proj2 (Z.ltb_ge _ _)), Hm, Hpath by lia.
  rewrite (proj2 (Nat.leb_gt _ _)) by done. cbn [Z.eqb negb]. rewrite Ec, Eh. by eexists.
Qed.

(** ** Witnesses *)

Definition link_sock (bytes : list Z) : Sock :=
  mkSock 7 (replicate 200 (PollReady POLLIN)) (replicate 10 (PollReady POLLOUT))
    [RecvBytes (take 10 bytes); RecvFail EINTR; RecvBytes (drop 10 bytes)] (replicate 10 (SendTake 30)) [].

Definition link_request : MicsHeader := pcie_vip_header 5 MICS_MMIO_WRITE_REQ 9 0x1054 15 4 4 0 MICS_STATUS_SUCCESS.
Definition link_reply : Message := mkMessage (MakeHeader kMmioWriteRsp 9 0x1054 0 kSuccess 6 0 kFlagIsResponse 0) [].
Definition link_sent : list Z := wire_of (to_message (mkMicsMessage link_request [2; 0; 0; 0])).

Lemma link_readable bytes : (10 < length bytes)%nat -> (length bytes < 190)%nat -> qemu_readable 1 (link_sock bytes).
Proof.
  intros Hb Hl. assert (Hp : Forall (poll_live POLLIN) (replicate 200 (PollReady POLLIN))) by (apply Forall_replicate; by left).
  split; [|split; [by apply Forall_replicate|by repeat constructor]].
  constructor; cbn [fd_ link_sock s_pollin s_recv]; [done|done| |].
  - rewrite !Forall_cons. split_and!; try done; cbn; intros E%(f_equal length); rewrite ?length_take, ?length_drop in E;
      change (length (@nil Z)) with 0%nat in E; lia.
  - cbn [recvs_weight recv_weight]. rewrite length_take, length_drop.
    change (count_ok POLLIN (replicate 200 (PollReady POLLIN))) with 200%nat. lia.
Qed.

Lemma link_request_ok : frame_ok (to_header link_request) [2; 0; 0; 0].
Proof. split_and!; try done; repeat constructor; done. Qed.

Lemma link_reply_ok : message_ok link_reply.
Proof. split_and!; try done; constructor; done. Qed.

Lemma qemu_link_interop_witness :
  (exists r', RecvMessage (link_sock link_sent) = (RecvMsg (to_message (mkMicsMessage link_request [2; 0; 0; 0])), r')) /\
  (exists q', mics_recv (link_sock (wire_of link_reply)) = (Some (of_message link_reply), q')).
Proof.
  destruct (mics_send true link_request [2; 0; 0; 0] (link_sock [])) as [ok s'] eqn:E.
  assert (Hok : ok = true) by (by vm_compute in E; injection E as <- _). subst ok.
  destruct (qemu_link_interop link_request [2; 0; 0; 0] (link_sock []) s' 1 (link_sock link_sent)
    (link_sock (wire_of link_reply)) link_reply []) as [(r' & Hr & _) (q' & Hq & _)].
  - exact link_request_ok.
  - exact E.
  - apply link_readable; vm_compute; lia.
  - vm_compute in E. injection E as <-. by vm_compute.
  - apply link_readable; vm_compute; lia.
  - exact link_reply_ok.
  - by vm_compute.
  - split; [by exists r'|by exists q'].
Defined.

(** A guest of sixteen bytes that counts its interrupts. *)
#[local] Instance small_bus : PciBus (list Z * nat) := {|
  pci_dma_read a n m :=
    if (0 <=? a) && (a + n <=? 16) then Some (take (Z.to_nat n) (drop (Z.to_nat a) m.1)) else None;
  pci_dma_write a d m :=
    if (0 <=? a) && (a + Z.of_nat (length d) <=? 16)
    then Some (take (Z.to_nat a) m.1 ++ d ++ drop (Z.to_nat a + length d) m.1, m.2) else None;
  msix_notify _ m := (m.1, S m.2) |}.

Definition bh_work (type txn address len : Z) (p : list Z) : MicsMessage :=
  mkMicsMessage (mkMics type 0 (Z.of_nat (length p)) txn 0 address 0 0 len) p.

(** A write, a read of what it wrote, an interrupt and a read that is too long. *)
Definition bh_queue : list MicsMessage :=
  [bh_work MICS_DMA_WRITE_REQ 1 4 2 [7; 8]; bh_work MICS_DMA_READ_REQ 2 4 3 []; bh_work MICS_MSIX 3 0 0 [];
   bh_work MICS_DMA_READ_REQ 4 4 99 []].

Definition bh_vip : PcieVip := mkVip true 2 false false 0 None bh_queue 64.
Definition bh_sock : Sock := mkSock 7 [] (replicate 400 (PollReady POLLOUT)) [] (replicate 400 (SendTake 30)) [].
Definition bh_link : qlink := mkLink [true; true; true] bh_sock.

Lemma mics_frame_length r type status w d :
  response_to w type status d r -> length (mics_frame r) = (64 + length d)%nat.
Proof.
  intros [_ _ _ _ _ _ Hd _]. unfold mics_frame, wire_of. rewrite <- Hd.
  cbn [to_message m_header m_payload]. by rewrite SerializeMessage_app, length_app, length_SerializeHeader.
Qed.

(** Three responses, the second one with the three bytes asked for. *)
Lemma bh_served rs m' :
  works_served 64 (replicate 16 0, 0%nat) bh_queue rs m' ->
  length rs = 3%nat /\ length (concat (mics_frame <$> rs)) = 195%nat.
Proof.
  intros Hw. inversion Hw as [|? ? r1 m1 ? rs1 ? H1 Hw1]; subst. inversion Hw1 as [|? ? r2 m2 ? rs2 ? H2 Hw2]; subst.
  inversion Hw2 as [|? ? r3 m3 ? rs3 ? H3 Hw3]; subst. inversion Hw3 as [|? ? r4 m4 ? rs4 ? H4 Hw4]; subst.
  inversion Hw4; subst.
  inversion H1 as [| |? q1 _ _ _ Ed1 Hr1|? ? Hno _| | |]; try discriminate; subst; cycle 1.
  { exfalso. destruct Hno as [Hno|[Hno|Hno]]; [|by cbn in Hno|by vm_compute in Hno]. apply Hno. done. }
  { by cbn in *; set_solver. }
  vm_compute in Ed1. simplify_eq.
  inversion H2 as [d2 q2 _ _ Ed2 Hr2|? ? Hno _| | | | |]; try discriminate; subst; cycle 1.
  { exfalso. destruct Hno as [Hno|Hno]; [|by vm_compute in Hno]. apply Hno. done. }
  { by cbn in *; set_solver. }
  vm_compute in Ed2. simplify_eq.
  assert (r3 = None) as -> by (by inversion H3).
  inversion H4 as [? ? _ [_ Hno] _ _|? q4 _ Hr4| | | | |]; try discriminate; subst; [by vm_compute in Hno| |by cbn in *; set_solver].
  split; [done|]. apply mics_frame_length in Hr1, Hr2, Hr4.
  match goal with |- context [mics_frame <$> ?l] => let l' := eval cbn in l in change l with l' end.
  rewrite !fmap_cons. cbn [concat]. by rewrite !length_app, Hr1, Hr2, Hr4.
Qed.


Definition link_env : realize_env :=
  mkRealizeEnv (Some "/tmp/pcie-vip.sock") 0 0 [(4, false); (4, true)]
    (link_sock (wire_of (mkMessage (HelloAckHeader (to_message (mkMicsMessage (hello_header 5 1) []))) []))) 0 5.

Lemma realize_lifecycle_witness :
  exists h os', pcie_vip_realize link_env (mkOS {[3]} ∅ ∅) = (true, h, os') /\ he_fd h = 4 /\
    os_open (pcie_vip_exit h os').2 = {[3]}.
Proof.
  assert (Hf : Forall (fun a : Z * bool => a.1 ∉ os_open (mkOS {[3]} ∅ ∅)) (re_attempts link_env))
    by (repeat constructor; cbn; set_solver).
  pose proof (realize_lifecycle link_env (mkOS {[3]} ∅ ∅) Hf) as H.
  destruct (pcie_vip_realize link_env (mkOS {[3]} ∅ ∅)) as [[ok h] os'] eqn:E.
  assert (Ek : ok = true /\ he_fd h = 4) by (vm_compute in E; by injection E as <- <- _). destruct Ek as [-> Hfd].
  destruct H as (_ & _ & _ & _ & Ho). exists h, os'. split; [reflexivity|]. split; [exact Hfd|exact Ho].
Defined.
