(* ===== verification/Vm.v ===== *)
(** * The guest, QEMU and the harness together

    A virtual machine runs the driver of [Guest]; its BAR accesses go through the
    device of [Qemu] to the harness of [Verilator], whose DMA requests come back to the
    device and reach guest memory.  The transport between the two processes is the one
    verified in [Server], [Framing] and [Concurrency]: here a request is delivered as
    the message it is.  The Verilated design is a parameter that promises to move data
    ([DmaRtl]); when it has called [$finish] the harness's loop is over and a call is
    left unanswered.  A BAR write returns when the harness has finished with the message;
    the guest's only action after starting a transfer is to wait for the interrupt.
    [None] is a harness that performed an undefined access. *)
From S2P Require Import Prelude Protocol Socket Framing Interface Server Verilator Guest Qemu.
From stdpp Require Import options.
#[local] Open Scope Z_scope.
#[local] Open Scope cxx_scope.

(** ** Guest memory *)

Record Mem := mkMem { mem : Z -> Z; irqs : Z; mapped : Z -> bool }.

Definition mem_read (f : Z -> Z) (a n : Z) : list Z := f <$> seqZ a n.
Definition mem_write (f : Z -> Z) (a : Z) (bs : list Z) : Z -> Z :=
  fun x => if (a <=? x) && (x <? a + Z.of_nat (length bs)) then bs !!! Z.to_nat (x - a) else f x.
Definition all_mapped (m : Mem) (a n : Z) : bool := forallb (mapped m) (seqZ a n).

(** [complete(&vip->irq_done)] on vector 0, the only one with a handler. *)
Definition pcie_vip_irq (m : Mem) : Mem := mkMem (mem m) (irqs m + 1) (mapped m).

#[global] Instance mem_bus : PciBus Mem := {
  pci_dma_read a n m := if all_mapped m a n then Some (mem_read (mem m) a n) else None;
  pci_dma_write a p m :=
    if all_mapped m a (Z.of_nat (length p)) then Some (mkMem (mem_write (mem m) a p) (irqs m) (mapped m)) else None;
  msix_notify v m := if v =? 0 then pcie_vip_irq m else m }.

(** ** The other end of the harness's socket *)

Record Host := mkHost { ho_vip : PcieVip; ho_bus : Mem; ho_txn : Z; ho_now : Z }.

(** The transport: a message goes out whole while the device is connected. *)
Record pipe := mkPipe { pp_connected : bool; pp_sent : list MicsMessage }.

#[global] Instance pipe_send : MicsLink pipe := {
  link_send h p l :=
    if pp_connected l then (true, mkPipe true (pp_sent l ++ [mkMicsMessage h p])) else (false, l) }.

#[global] Instance host_ops : ServerOps Host := {
  op_poll w := (None, w);
  op_respond h p w :=
    let '(_, v) := reader_message (of_message (mkMessage h p)) (ho_vip w) in
    (true, mkHost v (ho_bus w) (ho_txn w) (ho_now w));
  op_request rq w :=
    let id := ho_txn w in
    let m := of_message (mkMessage (request_header rq id) (rq_payload rq)) in
    let '(_, v) := reader_message m (ho_vip w) in
    let '(v, b, l) := pcie_vip_process_work (ho_now w) v (ho_bus w) (mkPipe (connected v) []) in
    (if rq_expect_response rq then to_message <$> head (pp_sent l) else None, Some id,
     mkHost v b (u64 (id + 1)) (ho_now w)) }.

(** The device is connected, has nothing queued and takes transfers of a page. *)
Definition host_ok (w : Host) : Prop :=
  connected (ho_vip w) = true /\ work_queue (ho_vip w) = [] /\ 4096 <= max_transfer (ho_vip w).

(** Serving a DMA request changes nothing of the device but the bus. *)
Definition served (w w' : Host) : Prop := ho_vip w' = ho_vip w /\ ho_now w' = ho_now w.

(** ** What the Verilated design promises

    While [idle], a descriptor moves the bytes it names between host memory and the
    RAM of the design, through the harness's request and completion pins; clocking it
    and register accesses leave the RAM alone. *)
Class DmaRtl (T : Type) `{Rtl T} := {
  idle : Harness T -> Prop;
  ram : Harness T -> Z -> Z;
  idle_running h : idle h -> rtl_finished (top_ h) = false;
  idle_tick h : idle h -> idle (Tick h) /\ forall i, ram (Tick h) i = ram h i;
  idle_mmio wr a len d h x h' :
    idle h -> Mmio wr a len d h = (x, h') -> idle h' /\ forall i, ram h' i = ram h i;
  dma_read_law h (w : Host) addr ra len tag st :
    idle h -> host_ok w -> 0 < len <= 4096 -> 0 <= ra -> ra + len <= 65536 ->
    0 <= addr -> addr + len <= 2 ^ 64 -> in_width 8 tag ->
    (forall x, addr <= x < addr + len -> mapped (ho_bus w) x = true /\ in_width 8 (mem (ho_bus w) x)) ->
    exists h' w', DmaRead addr ra len tag st h w = Some (true, h', w') /\ idle h' /\
      served w w' /\ ho_bus w' = ho_bus w /\
      forall i, ram h' i = if (ra <=? i) && (i <? ra + len) then mem (ho_bus w) (addr + (i - ra)) else ram h i;
  dma_write_law h (w : Host) addr ra len tag st :
    idle h -> host_ok w -> 0 < len <= 4096 -> 0 <= ra -> ra + len <= 65536 ->
    0 <= addr -> addr + len <= 2 ^ 64 -> in_width 8 tag ->
    (forall i, ra <= i < ra + len -> in_width 8 (ram h i)) ->
    (forall x, addr <= x < addr + len -> mapped (ho_bus w) x = true) ->
    exists h' w', DmaWrite addr ra len tag st h w = (true, h', w') /\ idle h' /\
      served w w' /\ irqs (ho_bus w') = irqs (ho_bus w) /\ mapped (ho_bus w') = mapped (ho_bus w) /\
      (forall i, ram h' i = ram h i) /\
      forall x, mem (ho_bus w') x =
        if (addr <=? x) && (x <? addr + len) then ram h (ra + (x - addr)) else mem (ho_bus w) x;
}.

(** ** The machine as the driver's kernel *)

Section Machine.
Context {T : Type} `{Rtl T}.

(** [vm_allocs]: what the allocator will answer. *)
Record Vm := mkVm { vm_host : Host; vm_regs : Regs; vm_h : Harness T; vm_allocs : list (option Z) }.

(** How many times the harness's loop finds no message before the next one. *)
Variable passes : Vm -> nat.

(** A remote call: the request is handled by the harness. *)
Definition vm_rpc (msg : MicsMessage) (expected : Z) (vm : Vm) : option (option MicsMessage * Vm) :=
  let w := vm_host vm in
  let '(ok, v) := rpc_begin (qm_h msg) (ho_vip w) in
  if negb ok then Some (None, vm)
  else
    let w := mkHost v (ho_bus w) (ho_txn w) (ho_now w) in
    let h := Nat.iter (passes vm) Tick (vm_h vm) in
    x ← (if rtl_finished (top_ h) then Some (true, vm_regs vm, h, w)
         else handle_message (to_message msg) (vm_regs vm) h w);
    let '(_, r, h, w) := x in
    let '(rsp, v) := rpc_finish expected (ho_vip w) in
    Some (rsp, mkVm (mkHost v (ho_bus w) (ho_txn w) (ho_now w)) r h (vm_allocs vm)).

Definition set_vip (v : PcieVip) (vm : Vm) : Vm :=
  let w := vm_host vm in mkVm (mkHost v (ho_bus w) (ho_txn w) (ho_now w)) (vm_regs vm) (vm_h vm) (vm_allocs vm).
Definition set_bus (b : Mem) (vm : Vm) : Vm :=
  let w := vm_host vm in mkVm (mkHost (ho_vip w) b (ho_txn w) (ho_now w)) (vm_regs vm) (vm_h vm) (vm_allocs vm).
Definition vm_bus (vm : Vm) : Mem := ho_bus (vm_host vm).

Definition vm_write (off v : Z) (vm : Vm) : option Vm :=
  let '(msg, vip) := mmio_write_request (ho_now (vm_host vm)) off v 4 (ho_vip (vm_host vm)) in
  x ← vm_rpc msg MICS_MMIO_WRITE_RSP (set_vip vip vm);
  Some x.2.

Definition vm_read (off : Z) (vm : Vm) : option (Z * Vm) :=
  let '(hdr, vip) := mmio_read_request (ho_now (vm_host vm)) off 4 (ho_vip (vm_host vm)) in
  x ← vm_rpc (mkMicsMessage hdr []) MICS_MMIO_READ_RSP (set_vip vip vm);
  Some (u32 (mmio_read_value 4 x.1), x.2).

Definition vm_kernel : Kernel (option Vm) := {|
  dma_alloc_coherent n k :=
    match k with
    | Some vm =>
        match vm_allocs vm with
        | a :: rest => (a, Some (mkVm (vm_host vm) (vm_regs vm) (vm_h vm) rest))
        | [] => (None, Some vm)
        end
    | None => (None, None)
    end;
  dma_free_coherent _ _ k := k;
  mutex_lock k := k;
  mutex_unlock k := k;
  ktime_get_ns k := (match k with Some vm => ho_now (vm_host vm) | None => 0 end, k);
  cpu_store a bs k :=
    vm ← k; let b := vm_bus vm in Some (set_bus (mkMem (mem_write (mem b) a bs) (irqs b) (mapped b)) vm);
  cpu_load a n k :=
    (match k with Some vm => mem_read (mem (vm_bus vm)) a (Z.of_nat n) | None => [] end, k);
  iowrite32 o v k := k ≫= vm_write o v;
  ioread32 o k := match k ≫= vm_read o with Some (v, vm) => (v, Some vm) | None => (0, None) end;
  msleep _ k := vm ← k; Some (mkVm (vm_host vm) (vm_regs vm) (Nat.iter (passes vm) Tick (vm_h vm)) (vm_allocs vm));
  reinit_completion k :=
    vm ← k; let b := vm_bus vm in Some (set_bus (mkMem (mem b) 0 (mapped b)) vm);
  wait_for_completion_timeout k :=
    match k with
    | Some vm =>
        let b := vm_bus vm in
        if irqs b =? 0 then (0, Some vm) else (1, Some (set_bus (mkMem (mem b) (irqs b - 1) (mapped b)) vm))
    | None => (0, None)
    end |}.
End Machine.
Arguments Vm T : clear implicits.

(** ** Lemmas on memory *)

Lemma length_mem_read f a n : length (mem_read f a n) = Z.to_nat n.
Proof. unfold mem_read. by rewrite length_fmap, length_seqZ. Qed.

Lemma mem_read_ext f g a n : (forall x, a <= x < a + n -> f x = g x) -> mem_read f a n = mem_read g a n.
Proof.
  intros E. unfold mem_read. apply list_fmap_ext. intros i x Hx.
  apply lookup_seqZ in Hx. apply E. lia.
Qed.

Lemma mem_read_lookup f a n i : 0 <= i < n -> mem_read f a n !!! Z.to_nat i = f (a + i).
Proof.
  intros Hi. unfold mem_read. apply list_lookup_total_correct. rewrite list_lookup_fmap.
  rewrite (proj2 (lookup_seqZ a n (Z.to_nat i) (a + i))) by lia. done.
Qed.

Lemma mem_read_eq f a bs :
  (forall i, 0 <= i < Z.of_nat (length bs) -> f (a + i) = bs !!! Z.to_nat i) ->
  mem_read f a (Z.of_nat (length bs)) = bs.
Proof.
  intros E. apply list_eq_same_length with (n := length bs); [done|by rewrite length_mem_read, Nat2Z.id|].
  intros i x y Hi Hx Hy. unfold mem_read in Hx. rewrite list_lookup_fmap in Hx.
  rewrite (proj2 (lookup_seqZ a _ i (a + Z.of_nat i))) in Hx by lia. injection Hx as <-.
  rewrite E, Nat2Z.id by lia. by apply list_lookup_total_correct.
Qed.

Lemma mem_read_eq' f a n bs :
  Z.of_nat (length bs) = n -> (forall i, 0 <= i < n -> f (a + i) = bs !!! Z.to_nat i) -> mem_read f a n = bs.
Proof. intros <-. apply mem_read_eq. Qed.

Lemma mem_write_in f a bs x :
  a <= x < a + Z.of_nat (length bs) -> mem_write f a bs x = bs !!! Z.to_nat (x - a).
Proof. intros [? ?]. unfold mem_write. by rewrite (proj2 (Z.leb_le _ _)), (proj2 (Z.ltb_lt _ _)). Qed.

Lemma mem_write_out f a bs x :
  x < a \/ a + Z.of_nat (length bs) <= x -> mem_write f a bs x = f x.
Proof.
  intros Ho. unfold mem_write. destruct (Z.leb_spec a x); [|done]. destruct (Z.ltb_spec x (a + Z.of_nat (length bs))); [lia|done].
Qed.

Lemma mem_read_write f a bs : mem_read (mem_write f a bs) a (Z.of_nat (length bs)) = bs.
Proof. apply mem_read_eq. intros i Hi. rewrite mem_write_in by lia. f_equal. lia. Qed.

Lemma mem_read_write' f a bs n : n = Z.of_nat (length bs) -> mem_read (mem_write f a bs) a n = bs.
Proof. intros ->. apply mem_read_write. Qed.

Lemma mem_read_frame f a bs x n :
  x + n <= a \/ a + Z.of_nat (length bs) <= x -> mem_read (mem_write f a bs) x n = mem_read f x n.
Proof. intros Ho. apply mem_read_ext. intros y Hy. apply mem_write_out. lia. Qed.

Lemma all_mapped_true m a n : (forall x, a <= x < a + n -> mapped m x = true) -> all_mapped m a n = true.
Proof.
  intros E. unfold all_mapped. apply forallb_forall. intros x Hx%list_elem_of_In.
  apply elem_of_seqZ in Hx. apply E. lia.
Qed.

(** ** Lemmas on the host *)

Lemma vip_eta s : mkVip (connected s) (next_txn_id s) (pending_active s) (pending_done s) (pending_txn_id s)
  (pending_response s) (work_queue s) (max_transfer s) = s.
Proof. by destruct s. Qed.

(** The device answers one request at a time. *)
Lemma host_request rq w :
  host_ok w -> In (rq_type rq) [kDmaReadReq; kDmaWriteReq; kMsiX] ->
  op_request rq w =
    let '(b, l) := process_item (ho_now w) (max_transfer (ho_vip w))
      (of_message (mkMessage (request_header rq (ho_txn w)) (rq_payload rq))) (ho_bus w) (mkPipe true []) in
    (if rq_expect_response rq then to_message <$> head (pp_sent l) else None, Some (ho_txn w),
     mkHost (ho_vip w) b (u64 (ho_txn w + 1)) (ho_now w)).
Proof.
  intros (Hc & Hq & _) Ht. cbn [op_request host_ops].
  assert (Em : exists b, reader_message (of_message (mkMessage (request_header rq (ho_txn w)) (rq_payload rq))) (ho_vip w)
    = (b, set_work_queue [of_message (mkMessage (request_header rq (ho_txn w)) (rq_payload rq))] (ho_vip w))).
  { unfold reader_message. cbn. rewrite Hq. destruct Ht as [<-|[<-|[<-|[]]]]; by eexists. }
  destruct Em as [b ->]. unfold pcie_vip_process_work. cbn [work_queue set_work_queue max_transfer process_items connected].
  rewrite Hc. destruct (process_item _ _ _ _ _) as [m l].
  assert (set_work_queue [] (set_work_queue [of_message (mkMessage (request_header rq (ho_txn w)) (rq_payload rq))] (ho_vip w)) = ho_vip w) as ->.
  { unfold set_work_queue. cbn. rewrite <- Hq. apply vip_eta. }
  done.
Qed.

Lemma MakeHeader_transfer t txn a be st ts pl fl tl :
  tl <> 0 -> h_transfer_len (MakeHeader t txn a be st ts pl fl tl) = tl.
Proof. intros Htl. unfold MakeHeader. cbn. by rewrite (proj2 (Z.eqb_neq _ _)). Qed.

Lemma host_read rq w :
  host_ok w -> rq_type rq = kDmaReadReq -> rq_expect_response rq = true ->
  0 < rq_transfer_len rq <= 4096 ->
  (forall x, rq_address rq <= x < rq_address rq + rq_transfer_len rq -> mapped (ho_bus w) x = true) ->
  exists m w', op_request rq w = (Some m, Some (ho_txn w), w') /\ served w w' /\ ho_bus w' = ho_bus w /\
    Status (m_header m) = kSuccess /\ h_status (m_header m) = 0 /\
    m_payload m = mem_read (mem (ho_bus w)) (rq_address rq) (rq_transfer_len rq).
Proof.
  intros Hok Ht He Hl Hm. rewrite host_request by (rewrite ?Ht; cbn; auto). pose proof Hok as (_ & _ & Hmax).
  unfold process_item. cbn [of_message of_header qm_h q_type q_transfer_len q_address m_header].
  unfold request_header. rewrite MakeHeader_transfer by lia. cbn [h_msg_type MakeHeader h_address].
  rewrite Ht, He. cbn [MessageType_raw Z.eqb MICS_DMA_READ_REQ Pos.eqb].
  rewrite (proj2 (Z.eqb_neq _ _)), (proj2 (Z.leb_le _ _)) by lia. cbn [negb andb pci_dma_read mem_bus].
  rewrite all_mapped_true by done. do 2 eexists. split; [done|]. by split_and!.
Qed.

Lemma host_write rq w :
  host_ok w -> rq_type rq = kDmaWriteReq -> rq_expect_response rq = true ->
  0 < rq_transfer_len rq <= 4096 -> rq_transfer_len rq = Z.of_nat (length (rq_payload rq)) ->
  (forall x, rq_address rq <= x < rq_address rq + rq_transfer_len rq -> mapped (ho_bus w) x = true) ->
  exists m w', op_request rq w = (Some m, Some (ho_txn w), w') /\ served w w' /\
    ho_bus w' = mkMem (mem_write (mem (ho_bus w)) (rq_address rq) (rq_payload rq)) (irqs (ho_bus w)) (mapped (ho_bus w)) /\
    Status (m_header m) = kSuccess.
Proof.
  intros Hok Ht He Hl Hp Hm. rewrite host_request by (rewrite ?Ht; cbn; auto). pose proof Hok as (_ & _ & Hmax).
  unfold process_item. cbn [of_message of_header qm_h q_type q_transfer_len q_address q_payload_len qm_payload m_header m_payload].
  unfold request_header. rewrite MakeHeader_transfer by lia. cbn [h_msg_type MakeHeader h_address h_payload_len].
  rewrite Ht, He. cbn [MessageType_raw Z.eqb MICS_DMA_READ_REQ MICS_DMA_WRITE_REQ Pos.eqb].
  rewrite wrap_id by (unfold in_width; lia). rewrite <- Hp, Z.eqb_refl.
  rewrite (proj2 (Z.eqb_neq _ _)), (proj2 (Z.leb_le _ _)) by lia. cbn [negb andb pci_dma_write mem_bus].
  rewrite <- Hp, all_mapped_true by done. do 2 eexists. split; [done|]. by split_and!.
Qed.

Lemma host_msix rq w :
  host_ok w -> rq_type rq = kMsiX -> rq_address rq = 0 -> rq_expect_response rq = false ->
  exists w', op_request rq w = (None, Some (ho_txn w), w') /\ served w w' /\ ho_bus w' = pcie_vip_irq (ho_bus w).
Proof.
  intros Hok Ht Ha He. rewrite host_request by (rewrite ?Ht; cbn; auto).
  unfold process_item. cbn. rewrite Ht, Ha, He. cbn. eexists. by split.
Qed.

Lemma served_ok w w' : served w w' -> host_ok w -> host_ok w'.
Proof. intros [E _]. unfold host_ok. by rewrite E. Qed.

Lemma served_trans w1 w2 w3 : served w1 w2 -> served w2 w3 -> served w1 w3.
Proof. intros [] []. split; congruence. Qed.

(** ** The two descriptors of the driver *)

Definition apart (a n b m : Z) : Prop := a + n <= b \/ b + m <= a.

(** The four buffers are mapped, inside the address space and do not overlap. *)
Record buffers_ok (len : Z) (b : buffers) (mp : Z -> bool) : Prop := {
  bo_len : 0 < len <= 4096;
  bo_desc : 0 <= b_desc b /\ b_desc b + 64 <= 2 ^ 64;
  bo_cpl : 0 <= b_cpl b /\ b_cpl b + 32 <= 2 ^ 64;
  bo_src : 0 <= b_src b /\ b_src b + len <= 2 ^ 64;
  bo_dst : 0 <= b_dst b /\ b_dst b + len <= 2 ^ 64;
  bo_map : forall x, b_desc b <= x < b_desc b + 64 \/ b_cpl b <= x < b_cpl b + 32 \/
    b_src b <= x < b_src b + len \/ b_dst b <= x < b_dst b + len -> mp x = true;
  bo_desc_cpl : apart (b_desc b) 64 (b_cpl b) 32;
  bo_desc_src : apart (b_desc b) 64 (b_src b) len;
  bo_desc_dst : apart (b_desc b) 64 (b_dst b) len;
  bo_cpl_src : apart (b_cpl b) 32 (b_src b) len;
  bo_cpl_dst : apart (b_cpl b) 32 (b_dst b) len;
  bo_src_dst : apart (b_src b) len (b_dst b) len;
}.

(** The ring and the source buffer are filled in. *)
Record prepared (len : Z) (b : buffers) (f : Z -> Z) : Prop := {
  pr_desc0 : mem_read f (b_desc b) 32 = encode_descriptor (read_descriptor (b_src b) len);
  pr_desc1 : mem_read f (b_desc b + 32) 32 = encode_descriptor (write_descriptor (b_dst b) len);
  pr_src : mem_read f (b_src b) len = pattern (Z.to_nat len);
}.

Lemma length_pattern n : length (pattern n) = n.
Proof. unfold pattern. by rewrite length_fmap, length_seq. Qed.

Lemma pattern_bytes n i : in_width 8 (pattern n !!! i).
Proof.
  apply lookup_total_byte. unfold pattern. apply Forall_fmap, Forall_true. intros j. cbn. by apply wrap_range.
Qed.

Lemma length_encode_descriptor d : length (encode_descriptor d) = 32%nat.
Proof. unfold encode_descriptor. by rewrite !length_app, !length_le_bytes, length_replicate. Qed.

Lemma driver_descriptors_fit len b mp :
  buffers_ok len b mp ->
  descriptor_fits (read_descriptor (b_src b) len) /\ descriptor_valid (read_descriptor (b_src b) len) = true /\
  descriptor_fits (write_descriptor (b_dst b) len) /\ descriptor_valid (write_descriptor (b_dst b) len) = true.
Proof.
  intros []. unfold read_descriptor, write_descriptor. rewrite (wrap_id 16) by (unfold in_width; lia).
  assert (Hv : forall a o f t, o = 0 \/ o = 1 -> descriptor_valid (mkDescriptor a 0 len o f t) = true).
  { intros a o f t Ho. unfold descriptor_valid, kMaxTransfer, kRamBytes. cbn.
    rewrite (proj2 (Z.eqb_neq _ _)), (proj2 (Z.leb_le _ _)) by lia.
    rewrite wrap_id by (unfold in_width; lia). rewrite (proj2 (Z.leb_le _ _)) by lia. by destruct Ho as [-> | ->]. }
  split_and!; auto; constructor; cbn; unfold in_width; lia.
Qed.

Section Ring.
Context {T : Type} `{DmaRtl T}.

(** Fetching and parsing the descriptor in slot [i] of the ring. *)
Lemma fetch_slot len b w j i st f :
  host_ok w -> buffers_ok len b (mapped (ho_bus w)) -> mem (ho_bus w) = f -> 0 <= j ->
  (i = 0 \/ i = 1) ->
  exists m w1, op_request (fetch_request (b_desc b) 2 (2 * j + i) st) w = (Some m, Some (ho_txn w), w1) /\
    served w w1 /\ ho_bus w1 = ho_bus w /\ Status (m_header m) = kSuccess /\
    m_payload m = mem_read f (b_desc b + 32 * i) 32.
Proof.
  intros Hok [] <- Hj Hi.
  assert (Ea : u64 (b_desc b + u64 ((2 * j + i) mod 2 * kDescBytes)) = b_desc b + 32 * i).
  { rewrite (Z.add_comm (2 * j)), (Z.mul_comm 2 j), Z.mod_add by lia. rewrite (Z.mod_small i) by lia.
    unfold kDescBytes. rewrite (wrap_id 64 (i * 32)) by (unfold in_width; lia). rewrite wrap_id by (unfold in_width; lia). lia. }
  destruct (host_read (fetch_request (b_desc b) 2 (2 * j + i) st) w) as (m & w1 & E & Hs & Hb & Hst & _ & Hp);
    [done|done|done|cbn; unfold kDescBytes; lia| |].
  { cbn [rq_address fetch_request rq_transfer_len]. rewrite Ea. unfold kDescBytes. intros x Hx. apply bo_map0. lia. }
  exists m, w1. split_and!; try done. rewrite Hp. cbn [rq_address fetch_request rq_transfer_len]. by rewrite Ea.
Qed.

(** Writing the completion record of slot [i]. *)
Lemma complete_slot len b w j i st tag :
  host_ok w -> buffers_ok len b (mapped (ho_bus w)) -> 0 <= j -> (i = 0 \/ i = 1) ->
  exists m w1, op_request (completion_request (b_cpl b) 2 (2 * j + i) st tag 0 len) w = (Some m, Some (ho_txn w), w1) /\
    served w w1 /\ failed (Some m) = false /\
    ho_bus w1 = mkMem (mem_write (mem (ho_bus w)) (b_cpl b + 16 * i) (completion_entry tag 0 len (2 * j + i)))
                  (irqs (ho_bus w)) (mapped (ho_bus w)).
Proof.
  intros Hok [] Hj Hi.
  assert (Ea : u64 (b_cpl b + u64 ((2 * j + i) mod 2 * kCplBytes)) = b_cpl b + 16 * i).
  { rewrite (Z.add_comm (2 * j)), (Z.mul_comm 2 j), Z.mod_add by lia. rewrite (Z.mod_small i) by lia.
    unfold kCplBytes. rewrite (wrap_id 64 (i * 16)) by (unfold in_width; lia). rewrite wrap_id by (unfold in_width; lia). lia. }
  destruct (host_write (completion_request (b_cpl b) 2 (2 * j + i) st tag 0 len) w) as (m & w1 & E & Hs & Hb & Hst);
    [done|done|done|cbn; unfold kCplBytes; lia|cbn [rq_transfer_len rq_payload completion_request]; by rewrite completion_entry_layout| |].
  { cbn [rq_address completion_request rq_transfer_len]. rewrite Ea. unfold kCplBytes. intros x Hx. apply bo_map0. lia. }
  exists m, w1. split_and!; [done|done| |].
  - cbn. by rewrite (bool_decide_true _ Hst).
  - rewrite Hb. cbn [rq_address completion_request rq_payload]. by rewrite Ea.
Qed.

(** A fetched descriptor of the driver is run. *)
Lemma run_parsed m d st h (w : Host) :
  Status (m_header m) = kSuccess -> m_payload m = encode_descriptor d -> descriptor_fits d -> descriptor_valid d = true ->
  run_descriptor (Some m) st h w =
    if d_opcode d =? 0 then
      r ← DmaRead (d_host_addr d) (u16 (d_ram_addr d)) (d_length d) (u8 (d_tag d)) st h w;
      let '(ok, h, w) := r in
      Some (if (ok : bool) then 0 else 1, if (ok : bool) then d_length d else 0, d_tag d, d_flags d, h, w)
    else
      let '(ok, h, w) := DmaWrite (d_host_addr d) (u16 (d_ram_addr d)) (d_length d) (u8 (d_tag d)) st h w in
      Some (if (ok : bool) then 0 else 1, if (ok : bool) then d_length d else 0, d_tag d, d_flags d, h, w).
Proof.
  intros Hs Hp Hf Hv. unfold run_descriptor. rewrite (bool_decide_true _ Hs), Hp, length_encode_descriptor.
  cbn [andb]. by rewrite parse_encode, Hv.
Qed.

Lemma ring_loop_step n db cb count index st h (w : Host) r id1 w1 bytes tag flags h1 w2 cr id2 w3 :
  op_request (fetch_request db count index st) w = (r, id1, w1) ->
  run_descriptor r st h w1 = Some (0, bytes, tag, flags, h1, w2) ->
  op_request (completion_request cb count index st tag 0 bytes) w2 = (cr, id2, w3) -> failed cr = false ->
  ring_loop (S n) db cb count index st h w =
  ring_loop n db cb count (u32 (index + 1)) st h1
    (if negb ((flags & 1) =? 0) then (op_request (ring_msix st) w3).2 else w3).
Proof.
  intros E1 E2 E3 Ef. cbn [ring_loop]. rewrite E1, E2. cbn [mbind option_bind]. rewrite E3, Ef. cbn [Z.eqb negb].
  destruct (negb _); [|done]. by destruct (op_request _ w3) as [[? ?] ?].
Qed.

(** What a run of the two descriptors leaves behind. *)
Record transferred (len : Z) (b : buffers) (j : Z) (f f' : Z -> Z) : Prop := {
  tr_dst : mem_read f' (b_dst b) len = pattern (Z.to_nat len);
  tr_cpl0 : mem_read f' (b_cpl b) 16 = completion_entry 0x100 0 len (2 * j);
  tr_cpl1 : mem_read f' (b_cpl b + 16) 16 = completion_entry 0x101 0 len (2 * j + 1);
  tr_frame : forall x, (x < b_dst b \/ b_dst b + len <= x) -> (x < b_cpl b \/ b_cpl b + 32 <= x) -> f' x = f x;
}.

Lemma length_completion_entry tag st n i : length (completion_entry tag st n i) = 16%nat.
Proof. by rewrite completion_entry_layout. Qed.

(** The first descriptor: the source buffer is copied into the RAM of the design. *)
Lemma ring_first n len b j st h w :
  idle h -> host_ok w -> buffers_ok len b (mapped (ho_bus w)) ->
  prepared len b (mem (ho_bus w)) -> 0 <= j -> 2 * j + 1 < 2 ^ 32 ->
  exists h1 w1, ring_loop (S n) (b_desc b) (b_cpl b) 2 (2 * j) st h w =
      ring_loop n (b_desc b) (b_cpl b) 2 (2 * j + 1) st h1 w1 /\
    idle h1 /\ served w w1 /\ (forall i, 0 <= i < len -> ram h1 i = pattern (Z.to_nat len) !!! Z.to_nat i) /\
    ho_bus w1 = mkMem (mem_write (mem (ho_bus w)) (b_cpl b) (completion_entry 0x100 0 len (2 * j)))
                  (irqs (ho_bus w)) (mapped (ho_bus w)).
Proof.
  intros Hid Hok Hb [Hd0 _ Hsrc] Hj Hj'. pose proof Hb as Hb'. destruct Hb'.
  destruct (driver_descriptors_fit len b _ Hb) as (Hf & Hv & _ & _).
  destruct (fetch_slot len b w j 0 st _ Hok Hb eq_refl Hj) as (m & w1 & E1 & Hs1 & Hbus1 & Hst1 & Hp1); [by left|].
  rewrite Z.mul_0_r, !Z.add_0_r in *. rewrite Hd0 in Hp1.
  assert (Hbyte : forall i, 0 <= i < len -> mem (ho_bus w) (b_src b + i) = pattern (Z.to_nat len) !!! Z.to_nat i).
  { intros i Hi. rewrite <- Hsrc. by rewrite mem_read_lookup. }
  destruct (dma_read_law h w1 (b_src b) 0 len 0 st) as (h1 & w2 & E2 & Hid1 & Hs2 & Hbus2 & Hram); try (done || lia).
  { by eapply served_ok. }
  { rewrite Hbus1. intros x Hx. split; [apply bo_map0; lia|].
    replace x with (b_src b + (x - b_src b)) by lia. rewrite Hbyte by lia. apply pattern_bytes. }
  assert (Hs02 : served w w2) by (by eapply served_trans).
  destruct (complete_slot len b w2 j 0 st 0x100) as (cr & w3 & E3 & Hs3 & Hf3 & Hbus3);
    [by eapply served_ok|by rewrite Hbus2, Hbus1|done|by left|].
  rewrite Z.mul_0_r, !Z.add_0_r in *.
  eexists h1, w3. split.
  { assert (Er : run_descriptor (Some m) st h w1 = Some (0, len, 0x100, 0, h1, w2)).
    { rewrite (run_parsed m _ _ _ _ Hst1 Hp1 Hf Hv). cbn [d_opcode read_descriptor Z.eqb d_host_addr d_ram_addr d_length d_tag d_flags].
      rewrite (wrap_id 16 len) by (unfold in_width; lia).
      change (u16 0) with 0. change (u8 0x100) with 0. by rewrite E2. }
    rewrite (ring_loop_step n _ _ _ _ _ _ _ _ _ _ _ _ _ _ _ _ _ _ E1 Er E3 Hf3).
    rewrite (wrap_id 32) by (unfold in_width; lia). done.
  }
  split_and!; [done|by eapply served_trans| |by rewrite Hbus3, Hbus2, Hbus1].
  intros i Hi. rewrite Hram, (proj2 (Z.leb_le _ _)), (proj2 (Z.ltb_lt _ _)) by lia. cbn [andb].
  rewrite Hbus1, Z.sub_0_r. by apply Hbyte.
Qed.

(** The second: the RAM is copied to the destination, and the interrupt raised. *)
Lemma ring_second n len b j st h w :
  idle h -> host_ok w -> buffers_ok len b (mapped (ho_bus w)) ->
  mem_read (mem (ho_bus w)) (b_desc b + 32) 32 = encode_descriptor (write_descriptor (b_dst b) len) ->
  (forall i, 0 <= i < len -> ram h i = pattern (Z.to_nat len) !!! Z.to_nat i) ->
  0 <= j -> 2 * j + 2 < 2 ^ 32 ->
  exists h1 w1, ring_loop (S n) (b_desc b) (b_cpl b) 2 (2 * j + 1) st h w =
      ring_loop n (b_desc b) (b_cpl b) 2 (2 * j + 2) st h1 w1 /\
    idle h1 /\ served w w1 /\ irqs (ho_bus w1) = irqs (ho_bus w) + 1 /\ mapped (ho_bus w1) = mapped (ho_bus w) /\
    forall x, mem (ho_bus w1) x =
      if (b_cpl b + 16 <=? x) && (x <? b_cpl b + 32) then completion_entry 0x101 0 len (2 * j + 1) !!! Z.to_nat (x - (b_cpl b + 16))
      else if (b_dst b <=? x) && (x <? b_dst b + len) then pattern (Z.to_nat len) !!! Z.to_nat (x - b_dst b)
      else mem (ho_bus w) x.
Proof.
  intros Hid Hok Hb Hd1 Hram0 Hj Hj'. pose proof Hb as Hb'. destruct Hb'.
  destruct (driver_descriptors_fit len b _ Hb) as (_ & _ & Hf & Hv).
  destruct (fetch_slot len b w j 1 st _ Hok Hb eq_refl Hj) as (m & w1 & E1 & Hs1 & Hbus1 & Hst1 & Hp1); [by right|].
  rewrite Z.mul_1_r in Hp1. rewrite Hd1 in Hp1.
  destruct (dma_write_law h w1 (b_dst b) 0 len 1 st) as (h1 & w2 & E2 & Hid1 & Hs2 & Hirq2 & Hmap2 & _ & Hmem2); try (done || lia).
  { by eapply served_ok. }
  { intros i Hi. rewrite Hram0 by lia. apply pattern_bytes. }
  { rewrite Hbus1. intros x Hx. apply bo_map0. lia. }
  rewrite Hbus1 in Hirq2, Hmap2.
  assert (Hs02 : served w w2) by (by eapply served_trans).
  destruct (complete_slot len b w2 j 1 st 0x101) as (cr & w3 & E3 & Hs3 & Hf3 & Hbus3);
    [by eapply served_ok|by rewrite Hmap2|done|by right|].
  destruct (host_msix (ring_msix st) w3) as (w4 & E4 & Hs4 & Hbus4); [|done|done|done|].
  { eapply served_ok; [exact Hs3|]. by eapply served_ok. }
  eexists h1, w4. split.
  { assert (Er : run_descriptor (Some m) st h w1 = Some (0, len, 0x101, 1, h1, w2)).
    { rewrite (run_parsed m _ _ _ _ Hst1 Hp1 Hf Hv). cbn [d_opcode write_descriptor Z.eqb d_host_addr d_ram_addr d_length d_tag d_flags].
      rewrite (wrap_id 16 len) by (unfold in_width; lia).
      change (u16 0) with 0. change (u8 0x101) with 1. by rewrite E2. }
    rewrite (ring_loop_step n _ _ _ _ _ _ _ _ _ _ _ _ _ _ _ _ _ _ E1 Er E3 Hf3).
    rewrite (wrap_id 32) by (unfold in_width; lia). cbn [Z.land Z.eqb negb Pos.land]. rewrite E4. cbn [snd].
      by replace (2 * j + 1 + 1) with (2 * j + 2) by lia.
  }
  rewrite Hbus4, Hbus3. cbn [pcie_vip_irq irqs mapped mem]. split_and!; [done| |lia|done|].
  { eapply served_trans; [exact Hs02|]. by eapply served_trans. }
  intros x. unfold mem_write. rewrite length_completion_entry, Z.mul_1_r. replace (b_cpl b + 16 + Z.of_nat 16) with (b_cpl b + 32) by lia.
  destruct (_ && _); [done|]. rewrite Hmem2, Hbus1. destruct (Z.leb_spec (b_dst b) x), (Z.ltb_spec x (b_dst b + len)); cbn [andb]; try done.
  rewrite Z.add_0_l. apply Hram0. lia.
Qed.

(** One pass of the driver as the engine sees it. *)
Lemma run_dma_pass len b j st h w :
  idle h -> host_ok w -> buffers_ok len b (mapped (ho_bus w)) ->
  prepared len b (mem (ho_bus w)) -> 0 <= j -> 2 * j + 2 < 2 ^ 32 ->
  exists h1 w1, RunGenericDma (b_desc b) (b_cpl b) 2 (2 * j + 2) (2 * j) st h w = Some (true, 2 * j + 2, h1, w1) /\
    idle h1 /\ served w w1 /\ irqs (ho_bus w1) = irqs (ho_bus w) + 1 /\ mapped (ho_bus w1) = mapped (ho_bus w) /\
    transferred len b j (mem (ho_bus w)) (mem (ho_bus w1)).
Proof.
  intros Hid Hok Hb Hp Hj Hj'.
  destruct (ring_first 1 len b j st h w) as (h1 & w1 & E1 & Hid1 & Hs1 & Hram1 & Hbus1); try (done || lia).
  pose proof Hb as [Hlen _ _ _ _ _ Hdc _ _ _ Hcd _]. unfold apart in Hdc, Hcd.
  destruct (ring_second 0 len b j st h1 w1) as (h2 & w2 & E2 & Hid2 & Hs2 & Hirq2 & Hmap2 & Hmem2);
    [done|by eapply served_ok|by rewrite Hbus1| |done|lia|lia|].
  { rewrite <- (pr_desc1 _ _ _ Hp). apply mem_read_ext. intros x Hx. rewrite Hbus1. cbn [mem].
    apply mem_write_out. rewrite length_completion_entry. lia. }
  rewrite Hbus1 in Hirq2, Hmap2, Hmem2. cbn [irqs mapped mem] in Hirq2, Hmap2, Hmem2.
  exists h2, w2. unfold RunGenericDma. cbn [Z.eqb orb]. change (1024 <? 2) with false.
  replace (2 * j + 2 - 2 * j) with 2 by lia. change (2 <? 2) with false.
  rewrite (proj2 (Z.ltb_ge _ _)) by lia. cbn [orb]. change (Z.to_nat 2) with 2%nat. rewrite E1, E2. cbn [ring_loop mbind option_bind].
  split_and!; [done|done|by eapply served_trans|done|done|].
  assert (Hout : forall x, x < b_cpl b + 16 \/ b_cpl b + 32 <= x -> x < b_dst b \/ b_dst b + len <= x ->
    mem (ho_bus w2) x = mem_write (mem (ho_bus w)) (b_cpl b) (completion_entry 0x100 0 len (2 * j)) x).
  { intros x Hc Hd. rewrite Hmem2. destruct (Z.leb_spec (b_cpl b + 16) x), (Z.ltb_spec x (b_cpl b + 32)); cbn [andb]; [lia|..];
      destruct (Z.leb_spec (b_dst b) x), (Z.ltb_spec x (b_dst b + len)); cbn [andb]; (done || lia). }
  constructor.
  - apply mem_read_eq'; [rewrite length_pattern; lia|]. intros i Hi. rewrite Hmem2.
    destruct (Z.leb_spec (b_cpl b + 16) (b_dst b + i)), (Z.ltb_spec (b_dst b + i) (b_cpl b + 32)); cbn [andb]; [lia|..];
      (rewrite (proj2 (Z.leb_le _ _)), (proj2 (Z.ltb_lt _ _)) by lia; cbn [andb]; f_equal; lia).
  - rewrite <- (mem_read_write (mem (ho_bus w)) (b_cpl b) (completion_entry 0x100 0 len (2 * j))).
    rewrite length_completion_entry. apply mem_read_ext. intros x Hx. apply Hout; lia.
  - apply mem_read_eq'; [by rewrite length_completion_entry|]. intros i Hi.
    rewrite Hmem2, (proj2 (Z.leb_le _ _)), (proj2 (Z.ltb_lt _ _)) by lia. cbn [andb]. f_equal. lia.
  - intros x Hd Hc. rewrite Hout by lia. apply mem_write_out. rewrite length_completion_entry. lia.
Qed.
End Ring.

(** ** BAR accesses on the machine *)

Lemma foldl_le_bytes n v :
  0 <= v < 256 ^ Z.of_nat n ->
  foldl (fun x i => x `|` (le_bytes n v !!! i << (8 * Z.of_nat i))) 0 (seq 0 n) = v.
Proof.
  intros Hv. change (foldl (fun x i => x `|` (le_bytes n v !!! (0 + i)%nat << (8 * Z.of_nat i))) 0 (seq 0 n) = v).
  rewrite foldl_lor_le_value by auto with bytes. rewrite read_bytes_slice by (rewrite ?length_le_bytes; lia). unfold slice.
  rewrite drop_0, take_ge by (rewrite length_le_bytes; lia). by apply le_value_id.
Qed.

Lemma DecodeLe_le_bytes n v :
  (n <= 8)%nat -> 0 <= v < 256 ^ Z.of_nat n -> DecodeLe (le_bytes n v) = v.
Proof.
  intros Hn Hv. unfold DecodeLe. rewrite length_le_bytes, Nat.min_l by lia. by apply foldl_le_bytes.
Qed.

Lemma latch_base x v : in_width 64 v ->
  (((x & 0xffffffff00000000) `|` u32 v) & 0xffffffff) `|` u64 (u32 (v >> 32) << 32) = v.
Proof.
  intros Hv. unfold in_width, wrap in *. change 0xffffffff with (Z.ones 32). rewrite Z.land_lor_distr_l, <- Z.land_assoc.
  change (Z.land 0xffffffff00000000 (Z.ones 32)) with 0. rewrite Z.land_0_r, Z.lor_0_l.
  rewrite Z.land_ones, Z.mod_mod by lia.
  rewrite Z.shiftr_div_pow2, Z.shiftl_mul_pow2 by lia.
  assert (0 <= v / 2 ^ 32 < 2 ^ 32) by (split; [apply Z.div_pos|apply Z.div_lt_upper_bound]; lia).
  rewrite (Z.mod_small (v / 2 ^ 32)) by lia. rewrite (Z.mod_small (_ * _)) by lia.
  rewrite <- Z.shiftl_mul_pow2 by lia. pose proof (Z.mod_pos_bound v (2 ^ 32)).
  rewrite lor_disjoint_add by lia. pose proof (Z.div_mod v (2 ^ 32)). lia.
Qed.

Section Access.
Context {T : Type} `{DmaRtl T} (passes : Vm T -> nat).
Implicit Types (vm : Vm T) (w : Host) (h : Harness T).

(** Between two accesses: the device is up with its call slot free, and the design is
    at rest. *)
Record vm_ok vm : Prop := {
  vo_host : host_ok (vm_host vm);
  vo_free : pending_active (ho_vip (vm_host vm)) = false;
  vo_txn : in_width 64 (next_txn_id (ho_vip (vm_host vm)));
  vo_idle : idle (vm_h vm);
}.

Lemma idle_ticks n h : idle h -> idle (Nat.iter n Tick h).
Proof. intros Hi. induction n; [done|]. by apply idle_tick. Qed.

(** The call is over. *)
Definition hung_up (expected : Z) (r : Regs) h w vm : Vm T :=
  mkVm (mkHost (rpc_finish expected (ho_vip w)).2 (ho_bus w) (ho_txn w) (ho_now w)) r h (vm_allocs vm).

Lemma hung_up_ok e r h w vm :
  host_ok w -> in_width 64 (next_txn_id (ho_vip w)) -> idle h ->
  vm_ok (hung_up e r h w vm).
Proof.
  intros Hw Hn Hi. unfold hung_up, rpc_finish. destruct w as [[c n a d p [m|] q mt] b t now]; cbn in *;
    [destruct (_ && _)|]; by constructor.
Qed.

Lemma access_idle wr msg r h x st h' :
  idle h -> access wr msg r h = (x, st, h') -> idle h'.
Proof.
  intros Hi. unfold access. destruct (negb wr && _); [intros; by simplify_eq|].
  destruct (Mmio _ _ _ _ h) as [[[res s]|] h1] eqn:E; intros; simplify_eq; by eapply idle_mmio.
Qed.

(** A register write up to the work that follows its response. *)
Lemma vm_write_eq off v vm :
  vm_ok vm -> in_width 32 v ->
  exists h w, idle h /\ host_ok w /\ in_width 64 (next_txn_id (ho_vip w)) /\
    ho_bus w = vm_bus vm /\ ho_now w = ho_now (vm_host vm) /\
    vm_write passes off v vm =
      (x ← after_write off v (latch off v (vm_regs vm)) h w;
       let '(r, h', w') := x in Some (hung_up MICS_MMIO_WRITE_RSP r h' w' vm)).
Proof.
  intros [Hok Hfree Htxn Hidle] Hv. pose proof Hok as (Hc & Hq & Hmt).
  unfold vm_write, mmio_write_request, pcie_vip_next_txn, vm_rpc, rpc_begin, set_vip.
  cbn [vm_host ho_vip connected pending_active qm_h vm_h]. rewrite Hc, Hfree. cbn [negb orb].
  match goal with |- context [passes ?vm'] => set (n := passes vm') end.
  pose proof (idle_ticks n (vm_h vm) Hidle) as Hi1. rewrite (idle_running _ Hi1).
  unfold handle_message.
  match goal with |- context [to_message ?m] => set (msg := m) end.
  change (Type_ (m_header (to_message msg))) with kMmioWriteReq. cbn iota.
  destruct (access _ _ _ _) as [[res st] h1] eqn:Ea.
  pose proof (access_idle _ _ _ _ _ _ _ Hi1 Ea) as Hi2.
  assert (Ev : DecodeLe (m_payload (to_message msg)) = v).
  { cbn [msg to_message m_payload qm_payload]. rewrite encode_loop_le. by apply DecodeLe_le_bytes; [lia|]. }
  rewrite Ev. cbn [to_message m_header to_header h_txn_id h_address msg qm_h pcie_vip_header q_txn_id q_address vm_regs].
  unfold respond. cbn [op_respond host_ops]. unfold reader_message.
  cbn [of_message qm_h m_header of_header q_flags q_txn_id MakeHeader h_flags h_txn_id h_msg_type q_type ho_vip set_rpc
    pending_active pending_txn_id]. change (negb ((kFlagIsResponse & MICS_FLAG_RESPONSE) =? 0)) with true.
  rewrite Z.eqb_refl. cbn [andb snd].
  eexists h1, _. split_and!; [done|..| |]; cycle 4.
  { match goal with |- context [after_write ?a ?b ?c ?d ?w0] => instantiate (1 := w0);
      destruct (after_write a b c d w0) as [[[r2 h2] w2]|] end; cbn [mbind option_bind]; [|done].
    unfold hung_up. by destruct (rpc_finish _ _). }
  all: cbn; try done. apply wrap_range. lia.
Qed.

(** A ring register other than the tail. *)
Lemma vm_write_reg off v vm :
  vm_ok vm -> in_width 32 v -> off <> 0x1054 -> off <> 0x1000 ->
  exists vm', vm_write passes off v vm = Some vm' /\ vm_ok vm' /\ vm_regs vm' = latch off v (vm_regs vm) /\
    vm_bus vm' = vm_bus vm.
Proof.
  intros Hok Hv H1 H2. destruct (vm_write_eq off v vm Hok Hv) as (h & w & Hi & Hw & Hn & Hb & _ & ->).
  unfold after_write. rewrite (proj2 (Z.eqb_neq off 0x1054)), (proj2 (Z.eqb_neq off 0x1000)) by done.
  cbn [andb mbind option_bind]. eexists. split; [done|]. split; [by apply hung_up_ok|by split].
Qed.

(** The status register. *)
Lemma vm_read_status vm :
  vm_ok vm -> in_width 32 (r_dma_status (vm_regs vm)) ->
  exists vm', vm_read passes 0x1058 vm = Some (r_dma_status (vm_regs vm), vm') /\ vm_ok vm' /\
    vm_regs vm' = vm_regs vm /\ vm_bus vm' = vm_bus vm.
Proof.
  intros [Hok Hfree Htxn Hidle] Hs. pose proof Hok as (Hc & Hq & Hmt).
  unfold vm_read, mmio_read_request, pcie_vip_next_txn, vm_rpc, rpc_begin, set_vip.
  cbn [vm_host ho_vip connected pending_active qm_h vm_h vm_regs]. rewrite Hc, Hfree. cbn [negb orb].
  match goal with |- context [passes ?vm'] => set (n := passes vm') end.
  pose proof (idle_ticks n (vm_h vm) Hidle) as Hi1. rewrite (idle_running _ Hi1).
  set (h1 := Nat.iter n Tick (vm_h vm)) in *.
  match goal with |- context [to_message ?m] => set (msg := m) end.
  assert (Ea : access false (to_message msg) (vm_regs vm) h1 = (r_dma_status (vm_regs vm), 0, h1)) by done.
  assert (Ee : EncodeLe (r_dma_status (vm_regs vm)) (Z.to_nat (mmio_length (to_message msg)))
    = Some (le_bytes 4 (r_dma_status (vm_regs vm)))) by (rewrite <- encode_loop_le; done).
  unfold handle_message. change (Type_ (m_header (to_message msg))) with kMmioReadReq. cbn iota.
  rewrite Ea. cbn iota beta zeta. change (0 =? 0) with true. cbn iota. rewrite Ee. cbn [mbind option_bind].
  rewrite length_le_bytes. unfold respond. cbn [op_respond host_ops]. unfold reader_message.
  cbn [of_message qm_h m_header of_header q_flags q_txn_id MakeHeader h_flags h_txn_id h_msg_type q_type ho_vip set_rpc
    pending_active pending_txn_id to_message to_header msg pcie_vip_header].
  change (negb ((kFlagIsResponse & MICS_FLAG_RESPONSE) =? 0)) with true.
  rewrite Z.eqb_refl. cbn [andb snd fst rpc_finish ho_vip pending_response pending_done set_rpc qm_h q_type q_status
    connected next_txn_id].
  cbn -[mmio_read_value le_bytes u64 u32].
  match goal with |- context [mmio_read_value 4 ?r] => assert (Er : mmio_read_value 4 r = r_dma_status (vm_regs vm)) end.
  { unfold mmio_read_value. cbn [qm_h q_payload_len qm_payload]. change (u32 _ =? 4) with true. cbn iota.
    by apply (foldl_le_bytes 4). }
  rewrite Er, (wrap_id 32) by done. eexists. split; [done|].
  split; [|by split]. constructor; cbn; try done. apply wrap_range; lia.
Qed.

(** The ring registers hold the driver's ring. *)
Record ring_regs (b : buffers) (head : Z) (r : Regs) : Prop := {
  rr_desc : r_desc_base r = b_desc b;
  rr_cpl : r_cpl_base r = b_cpl b;
  rr_count : r_desc_count r = 2;
  rr_control : r_dma_control r = 1;
  rr_head : r_desc_head r = head;
  rr_status : r_dma_status r = 0;
}.

Lemma after_write_tail v b head r h w :
  ring_regs b head r -> in_width 32 v ->
  after_write 0x1054 v (latch 0x1054 v r) h w =
    (y ← RunGenericDma (b_desc b) (b_cpl b) 2 v head (sim_time_ h) h w;
     let '(ok, head', h', w') := y in Some (set_dma head' (if (ok : bool) then 0 else 1) r, h', w')).
Proof.
  intros [] Hv. unfold after_write.
  replace (latch 0x1054 v r) with r by (by destruct r).
  rewrite rr_desc0, rr_cpl0, rr_count0, rr_control0, rr_head0, (wrap_id 32) by done. cbn [Z.eqb andb negb Z.land Pos.land Pos.eqb].
  by destruct (RunGenericDma _ _ _ _ _ _ _ _) as [[[[ok head'] h'] w']|].
Qed.

(** Starting a pass runs it. *)
Lemma vm_kick len b j vm :
  vm_ok vm -> ring_regs b (2 * j) (vm_regs vm) -> buffers_ok len b (mapped (vm_bus vm)) ->
  prepared len b (mem (vm_bus vm)) -> 0 <= j -> 2 * j + 2 < 2 ^ 32 ->
  exists vm', vm_write passes 0x1054 (2 * j + 2) vm = Some vm' /\ vm_ok vm' /\
    ring_regs b (2 * j + 2) (vm_regs vm') /\
    irqs (vm_bus vm') = irqs (vm_bus vm) + 1 /\ mapped (vm_bus vm') = mapped (vm_bus vm) /\
    transferred len b j (mem (vm_bus vm)) (mem (vm_bus vm')).
Proof.
  intros Hok Hr Hb Hp Hj Hj'.
  destruct (vm_write_eq 0x1054 (2 * j + 2) vm Hok) as (h & w & Hi & Hw & Hn & Hbus & _ & ->); [unfold in_width; lia|].
  rewrite (after_write_tail _ b (2 * j)) by (done || unfold in_width; lia). rewrite <- Hbus in *.
  destruct (run_dma_pass len b j (sim_time_ h) h w) as (h1 & w1 & -> & Hi1 & Hs & Hirq & Hmap & Htr); [done..|].
  cbn [mbind option_bind]. eexists. split; [done|]. split.
  { apply hung_up_ok; [by eapply served_ok| |done]. by rewrite (proj1 Hs). }
  split; [by destruct Hr|]. by split_and!.
Qed.

(** A tail the head has already reached starts nothing. *)
Lemma vm_kick_stale b tail head vm :
  vm_ok vm -> ring_regs b head (vm_regs vm) -> in_width 32 tail -> tail <= head ->
  exists vm', vm_write passes 0x1054 tail vm = Some vm' /\ vm_ok vm' /\ vm_bus vm' = vm_bus vm.
Proof.
  intros Hok Hr Ht Hle.
  destruct (vm_write_eq 0x1054 tail vm Hok Ht) as (h & w & Hi & Hw & Hn & Hbus & _ & ->).
  rewrite (after_write_tail _ b head), rerun_makes_no_request by (done || lia).
  cbn [mbind option_bind]. eexists. split; [done|]. split; [by apply hung_up_ok|done].
Qed.
End Access.

(** ** A run of the driver on the machine *)

Section Run.
Context {T : Type} `{DmaRtl T} (passes : Vm T -> nat).
Implicit Types (vm : Vm T).
Let machine : Kernel (option (Vm T)) := vm_kernel passes.
#[local] Existing Instance machine.

(** The state between two passes: [j] done. *)
Record armed (len : Z) (b : buffers) (j : Z) vm : Prop := {
  ar_ok : vm_ok vm;
  ar_regs : ring_regs b j (vm_regs vm);
  ar_buffers : buffers_ok len b (mapped (vm_bus vm));
  ar_desc0 : mem_read (mem (vm_bus vm)) (b_desc b) 32 = encode_descriptor (read_descriptor (b_src b) len);
  ar_desc1 : mem_read (mem (vm_bus vm)) (b_desc b + 32) 32 = encode_descriptor (write_descriptor (b_dst b) len);
}.

Lemma set_bus_ok m vm : vm_ok vm -> vm_ok (set_bus m vm).
Proof. intros []. by constructor. Qed.

(** A store outside the descriptors. *)
Lemma armed_store len b j vm a bs :
  armed len b j vm -> apart (b_desc b) 64 a (Z.of_nat (length bs)) ->
  armed len b j (set_bus (mkMem (mem_write (mem (vm_bus vm)) a bs) (irqs (vm_bus vm)) (mapped (vm_bus vm))) vm).
Proof.
  intros [Hok Hr Hb E0 E1] Ha. unfold apart in Ha. split; [by apply set_bus_ok|done|done|..];
    cbn [vm_bus set_bus vm_host ho_bus mem].
  - by rewrite mem_read_frame by lia.
  - by rewrite mem_read_frame by lia.
Qed.

(** The device is found idle at once. *)
Lemma poll_armed len b j vm :
  armed len b j vm ->
  exists vm', poll_idle 50 (Some vm) = (true, Some vm') /\ armed len b j vm' /\ vm_bus vm' = vm_bus vm.
Proof.
  intros [Hok Hr Hb E0 E1]. pose proof (rr_status _ _ _ Hr) as Hs.
  destruct (vm_read_status passes vm Hok) as (vm' & Ev & Hok' & Hr' & Hbus); [by rewrite Hs|].
  exists vm'. cbn [poll_idle machine vm_kernel ioread32 mbind option_bind]. unfold VIP_DMA_STATUS. rewrite Ev, Hs.
  split; [done|]. split; [|done]. by constructor; rewrite ?Hr', ?Hbus.
Qed.

(** The buffers of a pass are filled in and the device is found idle. *)
Lemma pass_prepared len b head vm :
  armed len b head vm ->
  exists vm', poll_idle 50 (cpu_store (b_src b) (pattern (Z.to_nat len))
      (cpu_store (b_dst b) (replicate (Z.to_nat len) 0) (cpu_store (b_cpl b) (replicate 32 0) (Some vm))))
      = (true, Some vm') /\
    armed len b head vm' /\ prepared len b (mem (vm_bus vm')).
Proof.
  intros Ha. pose proof (ar_buffers _ _ _ _ Ha) as [Hlen _ _ _ _ _ Hdc Hds Hdd _ _ _].
  cbn [cpu_store machine vm_kernel mbind option_bind].
  set (vm1 := set_bus _ vm). assert (Ha1 : armed len b head vm1) by (by apply armed_store).
  set (vm2 := set_bus _ vm1).
  assert (Ha2 : armed len b head vm2) by (apply armed_store; [done|]; by rewrite length_replicate, Z2Nat.id by lia).
  set (vm3 := set_bus _ vm2).
  assert (Ha3 : armed len b head vm3) by (apply armed_store; [done|]; by rewrite length_pattern, Z2Nat.id by lia).
  destruct (poll_armed _ _ _ _ Ha3) as (vm4 & E4 & Ha4 & Hbus4). fold machine. rewrite E4. exists vm4.
  split; [done|]. split; [done|]. destruct Ha4. constructor; [done|done|].
  rewrite Hbus4. rewrite <- (mem_read_write (mem (vm_bus vm2)) (b_src b) (pattern (Z.to_nat len))). cbn [vm3 vm_bus set_bus vm_host ho_bus mem].
  by rewrite length_pattern, Z2Nat.id by lia.
Qed.

Lemma mem_read_app f a n m : 0 <= n -> 0 <= m -> mem_read f a (n + m) = mem_read f a n ++ mem_read f (a + n) m.
Proof. intros. unfold mem_read. by rewrite seqZ_app, fmap_app. Qed.

(** The driver accepts the records of a pass. *)
Lemma transferred_completions len b j f f' :
  0 < len <= 4096 -> 0 <= j -> 2 * j + 1 < 2 ^ 32 -> transferred len b j f f' ->
  completions_ok len (mem_read f' (b_cpl b) 32) = true.
Proof.
  intros Hl Hj Hj' []. change 32 with (16 + 16). rewrite mem_read_app, tr_cpl2, tr_cpl3 by lia.
  unfold completions_ok, slice. rewrite drop_0, take_app_length', drop_app_length' by (by rewrite length_completion_entry).
  rewrite take_ge by (by rewrite length_completion_entry).
  rewrite !read_completion_entry by (unfold in_width; lia). cbn [c_tag c_status c_bytes]. change (u16 0) with 0. by rewrite !Z.eqb_refl.
Qed.

(** A good pass. *)
Lemma iteration_good len b j vm :
  armed len b (2 * j) vm -> 0 <= j -> 2 * j + 2 < 2 ^ 32 ->
  exists vm', iteration b len (2 * j + 2) (Some vm) = (0, Some vm') /\ armed len b (2 * j + 2) vm'.
Proof.
  intros Ha Hj Hj'. destruct (pass_prepared _ _ _ _ Ha) as (vm1 & E1 & Ha1 & Hp1).
  unfold iteration, VIP_DMA_DESC_TAIL. rewrite E1. cbn [negb reinit_completion machine vm_kernel mbind option_bind iowrite32].
  set (vm2 := set_bus _ vm1). destruct Ha1 as [Hok1 Hr1 Hb1 D0 D1].
  destruct (vm_kick passes len b j vm2) as (vm3 & -> & Hok3 & Hr3 & Hirq & Hmap & Htr);
    [by apply set_bus_ok|done|done|done|lia|lia|].
  pose proof Hb1 as [Hlen _ _ _ _ _ Hdc _ Hdd _ _ _]. unfold apart in Hdc, Hdd.
  cbn [wait_for_completion_timeout cpu_load machine vm_kernel].
  rewrite (proj2 (Z.eqb_neq (irqs (vm_bus vm3)) 0)) by (rewrite Hirq; done). cbn [Z.eqb].
  set (vm4 := set_bus _ vm3). change (mem (vm_bus vm4)) with (mem (vm_bus vm3)).
  rewrite Z2Nat.id, (tr_dst _ _ _ _ _ Htr), bool_decide_true by (done || lia). cbn [negb].
  change (Z.of_nat 32) with 32. rewrite (transferred_completions _ _ _ _ _ Hlen Hj ltac:(lia) Htr). cbn [negb].
  exists vm4. split; [done|]. constructor; [by apply set_bus_ok|done| | |].
  - change (buffers_ok len b (mapped (vm_bus vm3))). by rewrite Hmap.
  - rewrite <- D0. apply mem_read_ext. intros x Hx. apply (tr_frame _ _ _ _ _ Htr); lia.
  - rewrite <- D1. apply mem_read_ext. intros x Hx. apply (tr_frame _ _ _ _ _ Htr); lia.
Qed.

(** A pass whose tail the head has already reached. *)
Lemma iteration_stale len b head tail vm :
  armed len b head vm -> in_width 32 tail -> tail <= head ->
  exists vm', iteration b len tail (Some vm) = (- ETIMEDOUT, Some vm').
Proof.
  intros Ha Ht Hle. destruct (pass_prepared _ _ _ _ Ha) as (vm1 & E1 & Ha1 & _).
  unfold iteration, VIP_DMA_DESC_TAIL. rewrite E1. cbn [negb reinit_completion machine vm_kernel mbind option_bind iowrite32].
  set (vm2 := set_bus _ vm1). destruct Ha1 as [Hok1 Hr1 _ _ _].
  destruct (vm_kick_stale passes b tail head vm2) as (vm3 & -> & _ & Hbus); [by apply set_bus_ok|done|done|done|].
  cbn [wait_for_completion_timeout machine vm_kernel]. rewrite Hbus. by eexists.
Qed.

Lemma iterate_good n len b j cfg vm :
  armed len b (2 * j) vm -> 0 <= j -> 2 * (j + Z.of_nat n) < 2 ^ 32 ->
  exists vm', iterate n b len j (2 * j) cfg (Some vm) =
      (0, if (n =? 0)%nat then cfg else set_completed (j + Z.of_nat n) cfg, Some vm') /\
    armed len b (2 * (j + Z.of_nat n)) vm'.
Proof.
  revert j cfg vm. induction n as [|n IH]; intros j cfg vm Ha Hj Hn; cbn [iterate].
  { exists vm. by rewrite Z.add_0_r. }
  rewrite (wrap_id 32) by (unfold in_width; lia).
  destruct (iteration_good len b j vm) as (vm1 & -> & Ha1); [done|lia|lia|]. cbn [Z.eqb negb].
  rewrite !(wrap_id 32 (j + 1)) by (unfold in_width; lia). replace (2 * j + 2) with (2 * (j + 1)) in * by lia.
  destruct (IH (j + 1) (set_completed (j + 1) cfg) vm1) as (vm2 & -> & Ha2); [done|lia|lia|].
  exists vm2. replace (j + Z.of_nat (S n)) with (j + 1 + Z.of_nat n) by lia. split; [|done].
  destruct n; cbn [Nat.eqb]; [by rewrite Z.add_0_r|done].
Qed.

(** The six register writes leave the driver's ring in the registers. *)
Lemma programmed_regs b r :
  in_width 64 (b_desc b) -> in_width 64 (b_cpl b) -> r_dma_status r = 0 ->
  ring_regs b (r_desc_head r)
    (latch 0x105c 1 (latch 0x1050 2
      (latch 0x104c (u32 (b_cpl b >> 32)) (latch 0x1048 (u32 (b_cpl b))
        (latch 0x1044 (u32 (b_desc b >> 32)) (latch 0x1040 (u32 (b_desc b)) r)))))).
Proof.
  intros Hd Hc Hs. constructor; cbn; try done; by apply latch_base.
Qed.

Lemma write_regs ws vm :
  vm_ok vm -> Forall (fun w => in_width 32 w.2 /\ w.1 <> 0x1054 /\ w.1 <> 0x1000) ws ->
  exists vm', foldl (fun k w => iowrite32 w.1 w.2 k) (Some vm) ws = Some vm' /\ vm_ok vm' /\
    vm_regs vm' = foldl (fun r w => latch w.1 w.2 r) (vm_regs vm) ws /\ vm_bus vm' = vm_bus vm.
Proof.
  intros Hok Hws. revert vm Hok. induction Hws as [|[o v] ws (Hv & H1 & H2) _ IH]; intros vm Hok; [by exists vm|].
  cbn [foldl fst snd] in *. destruct (vm_write_reg passes o v vm Hok Hv H1 H2) as (vm1 & E1 & Hok1 & Hr1 & Hb1).
  cbn [iowrite32 machine vm_kernel mbind option_bind] in *. rewrite E1. destruct (IH vm1 Hok1) as (vm2 & E2 & Hok2 & Hr2 & Hb2).
  exists vm2. split; [exact E2|]. split; [done|]. by rewrite Hr2, Hr1, Hb2, Hb1.
Qed.

(** Programming the ring. *)
Lemma program_ring_armed len b vm :
  vm_ok vm -> buffers_ok len b (mapped (vm_bus vm)) -> r_dma_status (vm_regs vm) = 0 ->
  exists vm', program_ring b len (Some vm) = Some vm' /\ armed len b (r_desc_head (vm_regs vm)) vm'.
Proof.
  intros Hok Hb Hs. pose proof Hb as [Hlen Hd Hc _ _ _ _ _ _ _ _ _].
  assert (Hwd : in_width 64 (b_desc b) /\ in_width 64 (b_cpl b)) by (unfold in_width; lia). destruct Hwd as [Hwd Hwc].
  unfold program_ring. cbn [cpu_store machine vm_kernel mbind option_bind].
  set (vm3 := set_bus _ (set_bus _ (set_bus _ vm))). 
  assert (Hok3 : vm_ok vm3) by (by repeat apply set_bus_ok).
  destruct (write_regs [(VIP_DMA_DESC_BASE_LO, u32 (b_desc b)); (VIP_DMA_DESC_BASE_HI, u32 (b_desc b >> 32));
      (VIP_DMA_CPL_BASE_LO, u32 (b_cpl b)); (VIP_DMA_CPL_BASE_HI, u32 (b_cpl b >> 32));
      (VIP_DMA_DESC_COUNT, 2); (VIP_DMA_CONTROL, 1)] vm3) as (vm' & Ev & Hok' & Hr' & Hbus'); [done| |].
  { repeat constructor; cbn [fst snd]; try done; apply wrap_range; lia. }
  cbn [foldl fst snd] in Ev. exists vm'. split; [exact Ev|].
  assert (Hmem : mem (vm_bus vm') = mem_write (mem_write (mem_write (mem (vm_bus vm)) (b_desc b) (replicate 64 0))
     (b_desc b) (encode_descriptor (read_descriptor (b_src b) len)))
     (b_desc b + 32) (encode_descriptor (write_descriptor (b_dst b) len))) by (by rewrite Hbus').
  constructor; [done| |by rewrite Hbus'| |].
  - rewrite Hr'. by apply programmed_regs.
  - by rewrite Hmem, mem_read_frame, mem_read_write' by (rewrite ?length_encode_descriptor; lia).
  - by rewrite Hmem, mem_read_write' by (by rewrite length_encode_descriptor).
Qed.

Lemma run_locked_good len n b cfg vm :
  vm_ok vm -> buffers_ok len b (mapped (vm_bus vm)) -> r_dma_status (vm_regs vm) = 0 ->
  r_desc_head (vm_regs vm) = 0 -> 0 < n <= 1024 ->
  exists cfg' vm', run_locked b len n cfg (Some vm) = (0, cfg', Some vm') /\
    cfg_completed cfg' = n /\ cfg_last_status cfg' = 0 /\ armed len b (2 * n) vm'.
Proof.
  intros Hok Hb Hs Hh Hn. unfold run_locked. cbn [mutex_lock ktime_get_ns machine vm_kernel]. fold machine.
  destruct (program_ring_armed len b vm Hok Hb Hs) as (vm1 & -> & Ha1). rewrite Hh in Ha1.
  destruct (iterate_good (Z.to_nat n) len b 0 (set_result 0 0 (set_completed 0 cfg)) vm1) as (vm2 & E2 & Ha2); [done|lia|lia|].
  change (2 * 0) with 0 in E2. rewrite Z.add_0_l, Z2Nat.id in * by lia. rewrite E2. destruct (Z.to_nat n) eqn:En; [lia|].
  do 2 eexists. split; [done|]. by split_and!.
Qed.

Lemma run_locked_stale len n b cfg vm :
  vm_ok vm -> buffers_ok len b (mapped (vm_bus vm)) -> r_dma_status (vm_regs vm) = 0 ->
  2 <= r_desc_head (vm_regs vm) -> 0 < n <= 1024 ->
  exists cfg' vm', run_locked b len n cfg (Some vm) = (- ETIMEDOUT, cfg', Some vm') /\ cfg_completed cfg' = 0.
Proof.
  intros Hok Hb Hs Hh Hn. unfold run_locked. cbn [mutex_lock ktime_get_ns machine vm_kernel]. fold machine.
  destruct (program_ring_armed len b vm Hok Hb Hs) as (vm1 & -> & Ha1).
  destruct (Z.to_nat n) eqn:En; [lia|]. cbn [iterate]. change (u32 (0 + 2)) with 2.
  destruct (iteration_stale len b _ 2 vm1 Ha1) as (vm2 & ->); [done|done|].
  do 2 eexists. by split.
Qed.

(** What the allocator answers: four fresh buffers. *)
Definition allocates (len : Z) vm (b : buffers) : Prop :=
  vm_allocs vm = [Some (b_desc b); Some (b_cpl b); Some (b_src b); Some (b_dst b)] /\
  buffers_ok len b (mapped (vm_bus vm)).

Lemma run_config_locked cfg vm b :
  0 < run_length cfg <= 4096 -> 0 < run_iterations cfg <= 1024 -> allocates (run_length cfg) vm b ->
  pcie_vip_run_config cfg (Some vm) =
    run_locked b (run_length cfg) (run_iterations cfg) cfg (Some (mkVm (vm_host vm) (vm_regs vm) (vm_h vm) [])).
Proof.
  intros Hl Hi [Ea _]. unfold pcie_vip_run_config. fold (run_length cfg). fold (run_iterations cfg).
  rewrite (proj2 (Z.eqb_neq (run_length cfg) 0)), (proj2 (Z.eqb_neq (run_iterations cfg) 0)) by lia.
  rewrite (proj2 (Z.ltb_ge 4096 _)), (proj2 (Z.ltb_ge 1024 _)) by lia.
  cbn [orb dma_alloc_coherent machine vm_kernel]. rewrite Ea. cbn [vm_allocs vm_host vm_regs vm_h free_if dma_free_coherent].
  fold machine. destruct b. by destruct (run_locked _ _ _ _ _) as [[ret c] k].
Qed.

(** ** Properties *)

(** C2: a driver run end to end.  The driver in a guest, its BAR accesses carried by the
    QEMU device to the harness and the harness's DMA carried back into guest memory, on
    a design that moves data as asked: a run with parameters in range, four good
    buffers and a device whose ring has not been used succeeds, with every pass
    completed and no error reported, and leaves the ring's head at two entries per
    pass, whatever the harness does between messages. *)
Theorem driver_passes_on_harness cfg vm b :
  vm_ok vm -> 0 < run_length cfg <= 4096 -> 0 < run_iterations cfg <= 1024 ->
  allocates (run_length cfg) vm b ->
  r_dma_status (vm_regs vm) = 0 -> r_desc_head (vm_regs vm) = 0 ->
  exists cfg' vm', pcie_vip_run_config cfg (Some vm) = (0, cfg', Some vm') /\
    cfg_completed cfg' = run_iterations cfg /\ cfg_last_status cfg' = 0 /\
    vm_ok vm' /\ r_dma_status (vm_regs vm') = 0 /\ r_desc_head (vm_regs vm') = 2 * run_iterations cfg.
Proof.
  intros Hok Hl Hi Ha Hs Hh. rewrite (run_config_locked cfg vm b Hl Hi Ha).
  destruct (run_locked_good (run_length cfg) (run_iterations cfg) b cfg (mkVm (vm_host vm) (vm_regs vm) (vm_h vm) []))
    as (cfg' & vm' & E & Hc & Hst & [Hok' Hr' _ _ _]); [by destruct Hok|apply Ha|done|done|done|].
  exists cfg', vm'. split_and!; try done; [apply (rr_status _ _ _ Hr')|apply (rr_head _ _ _ Hr')].
Qed.

(** The head survives the run but the driver's tail starts again: every later run on
    the same harness times out in its first pass. *)
Theorem second_run_times_out cfg vm b :
  vm_ok vm -> 0 < run_length cfg <= 4096 -> 0 < run_iterations cfg <= 1024 ->
  allocates (run_length cfg) vm b ->
  r_dma_status (vm_regs vm) = 0 -> 2 <= r_desc_head (vm_regs vm) ->
  exists cfg' vm', pcie_vip_run_config cfg (Some vm) = (- ETIMEDOUT, cfg', Some vm') /\ cfg_completed cfg' = 0.
Proof.
  intros Hok Hl Hi Ha Hs Hh. rewrite (run_config_locked cfg vm b Hl Hi Ha).
  apply run_locked_stale; [by destruct Hok|apply Ha|done|done|done].
Qed.
End Run.
