(* ===== verification/Loopback.v ===== *)
(** * A design that moves data

    [DmaRtl] asks of the Verilated design that it moves the bytes of a descriptor
    between host memory and its RAM through the pins the harness drives.  This file
    gives a small design that does, which shows that the promise can be kept and runs
    the theorems of [Vm] on a concrete machine.  On the way it shows that the four
    64-bit data words of a transfer carry its bytes exactly ([pack_words] of
    [SendCompletion] against [unpack_words] of [DmaWrite]). *)
From S2P Require Import Prelude Protocol Socket Framing Interface Server Verilator Guest Qemu Vm.
From stdpp Require Import options.
#[local] Open Scope Z_scope.
#[local] Open Scope cxx_scope.

(** ** The data words *)

(** The words while [m] bytes have been packed. *)
Definition packed (data : list Z) (off m : nat) : list Z :=
  (fun k => le_value (read_bytes data (off + 8 * k) (Nat.min 8 (m - 8 * k)))) <$> seq 0 4.

Lemma packed_lookup data off m k :
  (k < 4)%nat -> packed data off m !! k = Some (le_value (read_bytes data (off + 8 * k) (Nat.min 8 (m - 8 * k)))).
Proof. intros Hk. unfold packed. rewrite list_lookup_fmap, lookup_seq_lt by done. done. Qed.

Lemma pack_step data off m :
  bytes_ok data -> (m < 32)%nat ->
  alter (fun x => x `|` (data !!! (off + m)%nat << (8 * Z.of_nat (m mod 8)))) (m / 8)%nat (packed data off m)
  = packed data off (S m).
Proof.
  intros Hd Hm. pose proof (Nat.div_mod_eq m 8) as Em. pose proof (Nat.mod_upper_bound m 8) as Hr.
  apply list_eq_same_length with (n := 4%nat); [done|by rewrite length_alter|].
  intros k x y Hk Hx Hy. rewrite packed_lookup in Hy by done. apply (inj Some) in Hy. subst y.
  destruct (decide (k = m / 8)%nat) as [->|Hne].
  - rewrite list_lookup_alter_eq, packed_lookup in Hx by lia. cbn [fmap option_fmap option_map] in Hx.
    apply (inj Some) in Hx. subst x. replace (Nat.min 8 (S m - 8 * (m / 8))) with (S (m mod 8)) by lia.
    replace (Nat.min 8 (m - 8 * (m / 8))) with (m mod 8)%nat by lia.
    rewrite read_bytes_S, le_value_app, length_read_bytes. cbn [le_value].
    replace (off + 8 * (m / 8) + m mod 8)%nat with (off + m)%nat by lia.
    pose proof (le_value_bound _ (read_bytes_ok data (off + 8 * (m / 8)) (m mod 8) Hd)) as Hb.
    rewrite length_read_bytes in Hb. rewrite lor_disjoint_add; [|lia|].
    + rewrite Z.pow_mul_r by lia. change (2 ^ 8) with 256. lia.
    + by rewrite Z.pow_mul_r by lia.
  - rewrite list_lookup_alter_ne, packed_lookup in Hx by done. apply (inj Some) in Hx. subst x.
    do 2 f_equal. lia.
Qed.

Lemma pack_words_packed data off n :
  bytes_ok data -> (n <= 32)%nat -> pack_words data off n = packed data off n.
Proof.
  intros Hd. unfold pack_words. induction n as [|n IH]; intros Hn; [done|].
  rewrite seq_S, foldl_snoc, IH by lia. by apply pack_step.
Qed.

(** Byte [i] of a little-endian value. *)
Lemma le_value_byte bs i :
  bytes_ok bs -> (i < length bs)%nat -> u8 (le_value bs >> (8 * Z.of_nat i)) = bs !!! i.
Proof.
  intros Hb Hi. rewrite <- (le_bytes_le_value bs Hb) at 2. rewrite <- encode_loop_le.
  symmetry. apply list_lookup_total_correct. by rewrite list_lookup_fmap, lookup_seq_lt.
Qed.

(** The words of a transfer carry its bytes. *)
Lemma unpack_pack data off n :
  bytes_ok data -> (n <= 32)%nat -> unpack_words (pack_words data off n) n = read_bytes data off n.
Proof.
  intros Hd Hn. rewrite pack_words_packed by done. unfold unpack_words, read_bytes.
  replace (n - 32)%nat with 0%nat by lia. rewrite Nat.min_l, app_nil_r by done.
  apply list_fmap_ext. intros i j [-> Hj]%lookup_seq. cbn [Nat.add]. rename i into j.
  pose proof (Nat.div_mod_eq j 8) as Ej. pose proof (Nat.mod_upper_bound j 8) as Hr.
  assert (Hj8 : (j / 8 < 4)%nat) by lia.
  rewrite (list_lookup_total_correct (packed data off n) (j / 8) _ (packed_lookup data off n (j / 8) Hj8)).
  rewrite le_value_byte by (auto with bytes || (rewrite length_read_bytes; lia)).
  unfold read_bytes. apply list_lookup_total_correct. rewrite list_lookup_fmap, lookup_seq_lt by lia.
  cbn [fmap option_fmap option_map]. do 2 f_equal. lia.
Qed.

(** ** The design *)

(** Reading: [got] bytes have arrived.  Writing: [n] bytes at [off] are on the bus. *)
Inductive loop_phase := Resting | Reading (d : desc_in) (got : Z) | Writing (d : desc_in) (off n : Z) | Finished.

Record Loop := mkLoop { l_phase : loop_phase; l_ram : Z -> Z }.

(** The next piece of a transfer of which [done] bytes are through. *)
Definition piece (d : desc_in) (done : Z) : Z := Z.min 32 (de_len d - done).

#[local] Instance loop_rtl : Rtl Loop := {
  rtl_clock p t :=
    match l_phase t with
    | Reading d got =>
        if cp_valid (p_cpl p) then
          let n := piece d got in
          let ram := mem_write (l_ram t) (de_ram_addr d + got) (unpack_words (cp_words (p_cpl p)) (Z.to_nat n)) in
          mkLoop (if got + n <? de_len d then Reading d (got + n) else Finished) ram
        else t
    | Writing d off n =>
        mkLoop (if off + n <? de_len d then Writing d (off + n) (piece d (off + n)) else Finished) (l_ram t)
    | Resting | Finished =>
        mkLoop (if de_valid (p_read p) then Reading (p_read p) 0
                else if de_valid (p_write p) then Writing (p_write p) 0 0 else Resting) (l_ram t)
    end;
  rtl_out t :=
    let finished := match l_phase t with Finished => true | _ => false end in
    let '(reading, ra, rl) := match l_phase t with Reading d _ => (true, de_pcie_addr d, de_len d) | _ => (false, 0, 0) end in
    let '(writing, wa, wl, words) :=
      match l_phase t with
      | Writing d off n => (0 <? n, de_pcie_addr d + off, n,
          pack_words (mem_read (l_ram t) (de_ram_addr d + off) n) 0 (Z.to_nat n))
      | _ => (false, 0, 0, [])
      end in
    mkOutputs true true 0 0 false true reading ra rl finished 0 true writing wa wl words finished 0;
  rtl_finished _ := false }.

(** At rest, no pin asks for anything. *)
Definition quiet (p : pins) : Prop :=
  de_valid (p_read p) = false /\ de_valid (p_write p) = false /\ cp_valid (p_cpl p) = false.
Definition loop_idle (h : Harness Loop) : Prop :=
  (l_phase (top_ h) = Resting \/ l_phase (top_ h) = Finished) /\ quiet (in_ h).

Lemma loop_tick h : loop_idle h -> loop_idle (Tick h) /\ forall i, l_ram (top_ (Tick h)) i = l_ram (top_ h) i.
Proof.
  intros [Hp (Hr & Hw & Hc)]. unfold Tick. cbn [rtl_clock loop_rtl top_ in_].
  assert (E : rtl_clock (in_ h) (top_ h) = mkLoop Resting (l_ram (top_ h))).
  { cbn. destruct Hp as [-> | ->]; by rewrite Hr, Hw. }
  split; [split; [left|by split_and!]|]; cbn [top_]; cbn [rtl_clock loop_rtl] in E; by rewrite E.
Qed.

Lemma loop_mmio wr a len d h x h' :
  loop_idle h -> Mmio wr a len d h = (x, h') -> loop_idle h' /\ forall i, l_ram (top_ h') i = l_ram (top_ h) i.
Proof.
  intros Hi. unfold Mmio.
  assert (Hs : forall m h0, loop_idle h0 -> loop_idle (set_mmio m h0)) by done.
  assert (Hready : forall n h0, tick_until mmio_req_ready n h0 = h0)
    by (intros [|n] h0; cbn [tick_until]; [done|]; unfold out; cbn [rtl_out loop_rtl]; by destruct (l_phase _)).
  assert (Hrsp : forall n h0, tick_until mmio_rsp_valid n h0 = h0)
    by (intros [|n] h0; cbn [tick_until]; [done|]; unfold out; cbn [rtl_out loop_rtl]; by destruct (l_phase _)).
  assert (Hv : forall h0 : Harness Loop, mmio_req_ready (out h0) = true /\ mmio_rsp_valid (out h0) = true)
    by (intros h0; unfold out; cbn [rtl_out loop_rtl]; by destruct (l_phase _)).
  rewrite Hready, (proj1 (Hv _)), Hrsp, (proj2 (Hv _)). cbn [negb]. intros; simplify_eq.
  set (h1 := set_mmio (mkMmioIn true wr a len d) _). destruct (loop_tick h1) as [Hi1 Hr1]; [by do 2 apply Hs|].
  set (h2 := set_mmio _ (Tick h1)). destruct (loop_tick h2) as [Hi2 Hr2]; [by apply Hs|].
  split; [done|]. intros i. rewrite Hr2. apply Hr1.
Qed.

(** ** Reading from the host *)

(** One completion of [n] bytes. *)
Lemma loop_completion tag bc la data got d f h :
  top_ h = mkLoop (Reading d got) f -> quiet (in_ h) -> bytes_ok data ->
  Z.of_nat (length data) = de_len d -> 0 <= got < de_len d ->
  exists h', SendCompletion tag bc la data (Z.to_nat got) (Z.to_nat (piece d got)) false h = Some h' /\ quiet (in_ h') /\
    top_ h' = mkLoop (if got + piece d got <? de_len d then Reading d (got + piece d got) else Finished)
      (mem_write f (de_ram_addr d + got) (read_bytes data (Z.to_nat got) (Z.to_nat (piece d got)))).
Proof.
  intros Et (Hr & Hw & Hc) Hd Hl Hg. assert (Hp : 0 < piece d got <= 32 /\ got + piece d got <= de_len d) by (unfold piece; lia).
  unfold SendCompletion. rewrite Nat.min_l by lia. rewrite (proj2 (Nat.leb_le _ _)) by lia. cbn [negb].
  eexists. split; [done|]. split; [by split_and!|].
  cbn [set_cpl set_in top_ Tick in_ p_cpl cp_valid cp_words rtl_clock loop_rtl]. rewrite Et. cbn [l_phase l_ram].
  by rewrite unpack_pack by (done || lia).
Qed.

Lemma send_chunks_loop n tag payload got d f h :
  top_ h = mkLoop (Reading d got) f -> quiet (in_ h) -> bytes_ok payload ->
  Z.of_nat (length payload) = de_len d -> 0 <= got < de_len d -> de_len d - got <= Z.of_nat n ->
  exists h', send_chunks n tag (de_len d) payload got h = Some h' /\ l_phase (top_ h') = Finished /\ quiet (in_ h') /\
    forall i, l_ram (top_ h') i =
      if (de_ram_addr d + got <=? i) && (i <? de_ram_addr d + de_len d) then payload !!! Z.to_nat (i - de_ram_addr d) else f i.
Proof.
  revert got f h. induction n as [|n IH]; intros got f h Et Hq Hp Hl Hg Hn; [lia|].
  cbn [send_chunks]. rewrite (proj2 (Z.ltb_lt _ _)) by lia. fold (piece d got).
  match goal with |- context [SendCompletion tag ?bc ?la payload _ _ _ h] =>
    destruct (loop_completion tag bc la payload got d f h) as (h1 & -> & Hq1 & Et1); [done..|] end.
  cbn [mbind option_bind]. assert (Hpc : 0 < piece d got <= 32 /\ got + piece d got <= de_len d) by (unfold piece; lia).
  assert (Hw : forall i, mem_write f (de_ram_addr d + got) (read_bytes payload (Z.to_nat got) (Z.to_nat (piece d got))) i =
    if (de_ram_addr d + got <=? i) && (i <? de_ram_addr d + (got + piece d got)) then payload !!! Z.to_nat (i - de_ram_addr d) else f i).
  { intros i. unfold mem_write. rewrite length_read_bytes, Z2Nat.id, <- Z.add_assoc by lia.
    destruct (Z.leb_spec (de_ram_addr d + got) i), (Z.ltb_spec i (de_ram_addr d + (got + piece d got))); cbn [andb]; try done.
    unfold read_bytes. apply list_lookup_total_correct. rewrite list_lookup_fmap, lookup_seq_lt by lia.
    cbn [fmap option_fmap option_map]. do 2 f_equal. lia. }
  destruct (Z.ltb_spec (got + piece d got) (de_len d)) as [Hlt|Hge].
  - destruct (IH (got + piece d got) _ h1 Et1) as (h2 & E2 & Hf2 & Hq2 & Hr2); [done|done|done|lia|lia|].
    exists h2. split_and!; [done..|]. intros i. rewrite Hr2, Hw.
    destruct (Z.leb_spec (de_ram_addr d + (got + piece d got)) i), (Z.ltb_spec i (de_ram_addr d + de_len d)),
      (Z.leb_spec (de_ram_addr d + got) i), (Z.ltb_spec i (de_ram_addr d + (got + piece d got))); cbn [andb]; (done || lia).
  - assert (got + piece d got = de_len d) as Ee by lia. rewrite Ee in *.
    exists h1. split; [|rewrite Et1; by split_and!].
    destruct n; cbn [send_chunks]; [done|]. by rewrite Z.ltb_irrefl.
Qed.

Lemma loop_read h (w : Host) addr ra len tag st :
  loop_idle h -> host_ok w -> 0 < len <= 4096 -> 0 <= ra -> ra + len <= 65536 ->
  0 <= addr -> addr + len <= 2 ^ 64 -> in_width 8 tag ->
  (forall x, addr <= x < addr + len -> mapped (ho_bus w) x = true /\ in_width 8 (mem (ho_bus w) x)) ->
  exists h' w', DmaRead addr ra len tag st h w = Some (true, h', w') /\ loop_idle h' /\
    served w w' /\ ho_bus w' = ho_bus w /\
    forall i, l_ram (top_ h') i =
      if (ra <=? i) && (i <? ra + len) then mem (ho_bus w) (addr + (i - ra)) else l_ram (top_ h) i.
Proof.
  intros [Hph Hq] Hok Hl Hra Hral Ha Hal Htag Hm. pose proof Hq as (Hr & Hw & Hc).
  unfold DmaRead. set (d := mkDescIn true addr ra len tag). set (h1 := set_read_desc d h).
  assert (E1 : tick_accept dma_read_desc_ready 1000 h1 = (true, Tick h1) /\ top_ (Tick h1) = mkLoop (Reading d 0) (l_ram (top_ h))).
  { change 1000%nat with (S 999). generalize 999%nat as m. intros m. cbn [tick_accept].
    assert (Et : top_ (Tick h1) = mkLoop (Reading d 0) (l_ram (top_ h))).
    { unfold h1. cbn. by destruct Hph as [-> | ->]. }
    split; [|done]. unfold out. by rewrite Et. }
  destruct E1 as [-> Et1]. cbn [negb]. set (h2 := set_read_desc (mkDescIn false addr ra len tag) (Tick h1)).
  change 2000%nat with (S 1999). generalize 1999%nat as m. intros m. cbn [read_wait].
  assert (Hq2 : quiet (in_ (Tick h2))) by done.
  assert (Et2 : top_ (Tick h2) = mkLoop (Reading d 0) (l_ram (top_ h))).
  { unfold Tick at 1. cbn [top_]. change (top_ h2) with (top_ (Tick h1)). rewrite Et1. cbn. by rewrite Hc. }
  set (h3 := Tick h2) in *. clearbody h3.
  assert (Ho : dma_rd_req_valid (out h3) = true /\ dma_rd_req_addr (out h3) = addr /\ dma_rd_req_len (out h3) = len).
  { unfold out. by rewrite Et2. } destruct Ho as (-> & -> & ->).
  rewrite (wrap_id 16) by (unfold in_width; lia).
  destruct (host_read (mkHostRequest kDmaReadReq addr 0 [] len st true) w) as (msg & w' & -> & Hs & Hbus & Hst & _ & Hpl);
    [done|done|done|done|intros x Hx; by apply Hm|].
  cbn [rq_address rq_transfer_len] in Hpl. cbn [failed payload_of]. rewrite (bool_decide_true _ Hst), Hpl. cbn [negb].
  destruct (send_chunks_loop (Z.to_nat len) tag (mem_read (mem (ho_bus w)) addr len) 0 d _ h3 Et2 Hq2)
    as (h4 & E4 & Hf4 & Hq4 & Hr4).
  { unfold mem_read. apply Forall_fmap, Forall_forall. intros x Hx%elem_of_seqZ. cbn. by apply Hm. }
  { rewrite length_mem_read. cbn. lia. }
  { cbn. lia. } { cbn. lia. }
  cbn [de_len d] in E4. rewrite E4. cbn [mbind option_bind].
  assert (Ho4 : dma_read_status_valid (out h4) = true /\ dma_read_status_error (out h4) = 0).
  { unfold out. cbn [rtl_out loop_rtl]. by rewrite Hf4. } destruct Ho4 as [-> ->].
  exists h4, w'. split; [done|]. split; [split; [by right|done]|]. split; [done|]. split; [done|].
  intros i. rewrite Hr4. cbn [de_ram_addr de_len d]. rewrite Z.add_0_r.
  destruct (Z.leb_spec ra i), (Z.ltb_spec i (ra + len)); cbn [andb]; try done. by rewrite mem_read_lookup by lia.
Qed.

(** ** Writing to the host *)

Section Write.
Variables (st : Z) (d : desc_in) (f : Z -> Z).
Hypothesis Hlen : 0 < de_len d <= 4096.
Hypothesis Haddr : 0 <= de_pcie_addr d /\ de_pcie_addr d + de_len d <= 2 ^ 64.
Hypothesis Hram : forall i, de_ram_addr d <= i < de_ram_addr d + de_len d -> in_width 8 (f i).

(** One piece, [off] bytes being through. *)
Lemma loop_piece off h (w : Host) :
  top_ h = mkLoop (Writing d off (piece d off)) f -> host_ok w -> 0 <= off < de_len d ->
  (forall x, de_pcie_addr d <= x < de_pcie_addr d + de_len d -> mapped (ho_bus w) x = true) ->
  dma_wr_req_valid (out h) = true /\
  exists m w', op_request (mkHostRequest kDmaWriteReq (dma_wr_req_addr (out h)) 0
      (unpack_words (dma_wr_req_words (out h)) (Z.to_nat (u16 (dma_wr_req_len (out h)))))
      (u16 (dma_wr_req_len (out h))) st true) w = (Some m, Some (ho_txn w), w') /\
    failed (Some m) = false /\ dma_write_status_valid (out h) = false /\ served w w' /\
    irqs (ho_bus w') = irqs (ho_bus w) /\ mapped (ho_bus w') = mapped (ho_bus w) /\
    forall x, mem (ho_bus w') x =
      if (de_pcie_addr d + off <=? x) && (x <? de_pcie_addr d + (off + piece d off))
      then f (de_ram_addr d + (x - de_pcie_addr d)) else mem (ho_bus w) x.
Proof using Hlen Haddr Hram.
  intros Et Hok Ho Hm. assert (Hp : 0 < piece d off <= 32 /\ off + piece d off <= de_len d) by (unfold piece; lia).
  unfold out. rewrite Et. cbn [rtl_out loop_rtl l_phase l_ram dma_wr_req_valid dma_wr_req_addr dma_wr_req_len
    dma_wr_req_words dma_write_status_valid]. rewrite (wrap_id 16) by (unfold in_width; lia).
  split; [apply Z.ltb_lt; lia|]. rewrite unpack_pack by (try lia;
    unfold mem_read; apply Forall_fmap, Forall_forall; intros x Hx%elem_of_seqZ; cbn; apply Hram; lia).
  rewrite read_bytes_slice by (rewrite length_mem_read; lia). unfold slice.
  rewrite drop_0, take_ge by (rewrite length_mem_read; lia).
  match goal with |- context [op_request ?rq w] => destruct (host_write rq w) as (m & w' & -> & Hs & Hb & Hst) end;
    [done|done|done|cbn; lia|cbn; rewrite length_mem_read; lia|cbn; intros x Hx; apply Hm; lia|].
  exists m, w'. split; [done|]. split; [cbn; by rewrite (bool_decide_true _ Hst)|]. rewrite Hb. split_and!; try done.
  intros x. cbn [mem rq_address rq_payload]. unfold mem_write. rewrite length_mem_read, Z2Nat.id, <- Z.add_assoc by lia.
  destruct (Z.leb_spec (de_pcie_addr d + off) x), (Z.ltb_spec x (de_pcie_addr d + (off + piece d off))); cbn [andb]; try done.
  rewrite mem_read_lookup by lia. f_equal. lia.
Qed.

(** The last piece is through. *)
Lemma write_wait_last m off n h (w : Host) :
  top_ h = mkLoop (Writing d off n) f -> quiet (in_ h) -> off + n = de_len d ->
  exists h', write_wait (S m) st h w = (true, h', w) /\ l_phase (top_ h') = Finished /\ quiet (in_ h') /\ l_ram (top_ h') = f.
Proof using Type.
  intros Et Hq Ee. cbn [write_wait]. assert (Et1 : top_ (Tick h) = mkLoop Finished f).
  { unfold Tick; cbn [top_ rtl_clock loop_rtl]. rewrite Et. cbn [l_phase l_ram]. by rewrite Ee, Z.ltb_irrefl. }
  assert (Hq1 : quiet (in_ (Tick h))) by done. set (h1 := Tick h) in *. clearbody h1.
  assert (Ho1 : dma_wr_req_valid (out h1) = false /\ dma_write_status_valid (out h1) = true /\ dma_write_status_error (out h1) = 0)
    by (unfold out; by rewrite Et1). destruct Ho1 as (-> & -> & ->). exists h1. by rewrite Et1.
Qed.

Lemma write_wait_loop m off n h (w : Host) :
  top_ h = mkLoop (Writing d off n) f -> quiet (in_ h) -> host_ok w ->
  0 <= off + n <= de_len d -> de_len d - (off + n) <= 32 * Z.of_nat m ->
  (forall x, de_pcie_addr d <= x < de_pcie_addr d + de_len d -> mapped (ho_bus w) x = true) ->
  exists h' w', write_wait (S m) st h w = (true, h', w') /\ l_phase (top_ h') = Finished /\ quiet (in_ h') /\
    l_ram (top_ h') = f /\ served w w' /\ irqs (ho_bus w') = irqs (ho_bus w) /\ mapped (ho_bus w') = mapped (ho_bus w) /\
    forall x, mem (ho_bus w') x =
      if (de_pcie_addr d + (off + n) <=? x) && (x <? de_pcie_addr d + de_len d)
      then f (de_ram_addr d + (x - de_pcie_addr d)) else mem (ho_bus w) x.
Proof using Hlen Haddr Hram.
  revert off n h w. induction m as [|m IH]; intros off n h w Et Hq Hok Ho Hn Hm.
  all: destruct (decide (off + n = de_len d)) as [Ee|Hne];
    [match goal with |- context [write_wait (S ?k) _ _ _] => destruct (write_wait_last k off n h w Et Hq Ee) as (h1 & E1 & Hf1 & Hq1 & Hr1) end;
     exists h1, w; split_and!; try done; intros x;
     destruct (Z.leb_spec (de_pcie_addr d + (off + n)) x), (Z.ltb_spec x (de_pcie_addr d + de_len d)); cbn [andb]; (done || lia)|].
  { lia. }
  remember (S m) as m' eqn:Em. cbn [write_wait].
  assert (Et1 : top_ (Tick h) = mkLoop (Writing d (off + n) (piece d (off + n))) f).
  { unfold Tick; cbn [top_ rtl_clock loop_rtl]. rewrite Et. cbn [l_phase l_ram]. by rewrite (proj2 (Z.ltb_lt _ _)) by lia. }
  assert (Hq1 : quiet (in_ (Tick h))) by done. set (h1 := Tick h) in *. clearbody h1.
  destruct (loop_piece (off + n) h1 w Et1 Hok) as (-> & msg & w1 & -> & -> & -> & Hs1 & Hi1 & Hm1 & Hx1); [lia|done|].
  destruct (IH (off + n) (piece d (off + n)) h1 w1) as (h2 & w2 & E2 & Hf2 & Hq2 & Hr2 & Hs2 & Hi2 & Hm2 & Hx2);
    [done|done|by eapply served_ok|unfold piece; lia|unfold piece; lia|by rewrite Hm1|].
  subst m'. exists h2, w2. rewrite E2. split_and!; try done; try congruence; [by eapply served_trans|].
  intros x. rewrite Hx2, Hx1. set (p := piece d (off + n)) in *.
  assert (0 < p /\ off + n + p <= de_len d) by (unfold p, piece; lia).
  destruct (Z.leb_spec (de_pcie_addr d + (off + n + p)) x), (Z.ltb_spec x (de_pcie_addr d + de_len d)),
    (Z.leb_spec (de_pcie_addr d + (off + n)) x), (Z.ltb_spec x (de_pcie_addr d + (off + n + p))); cbn [andb]; (done || lia).
Qed.
End Write.

Lemma loop_write h (w : Host) addr ra len tag st :
  loop_idle h -> host_ok w -> 0 < len <= 4096 -> 0 <= ra -> ra + len <= 65536 ->
  0 <= addr -> addr + len <= 2 ^ 64 -> in_width 8 tag ->
  (forall i, ra <= i < ra + len -> in_width 8 (l_ram (top_ h) i)) ->
  (forall x, addr <= x < addr + len -> mapped (ho_bus w) x = true) ->
  exists h' w', DmaWrite addr ra len tag st h w = (true, h', w') /\ loop_idle h' /\
    served w w' /\ irqs (ho_bus w') = irqs (ho_bus w) /\ mapped (ho_bus w') = mapped (ho_bus w) /\
    (forall i, l_ram (top_ h') i = l_ram (top_ h) i) /\
    forall x, mem (ho_bus w') x =
      if (addr <=? x) && (x <? addr + len) then l_ram (top_ h) (ra + (x - addr)) else mem (ho_bus w) x.
Proof.
  intros [Hph Hq] Hok Hl Hra Hral Ha Hal Htag Hb Hm. pose proof Hq as (Hr & Hw & Hc).
  unfold DmaWrite. set (d := mkDescIn true addr ra len tag). set (h1 := set_write_desc d h).
  assert (E1 : tick_accept dma_write_desc_ready 1000 h1 = (true, Tick h1) /\ top_ (Tick h1) = mkLoop (Writing d 0 0) (l_ram (top_ h))).
  { change 1000%nat with (S 999). generalize 999%nat as m. intros m. cbn [tick_accept].
    assert (Et : top_ (Tick h1) = mkLoop (Writing d 0 0) (l_ram (top_ h))).
    { unfold h1. cbn. rewrite Hr. by destruct Hph as [-> | ->]. }
    split; [|done]. unfold out. by rewrite Et. }
  destruct E1 as [-> Et1]. cbn [negb]. set (h2 := set_write_desc (mkDescIn false addr ra len tag) (Tick h1)).
  change 2000%nat with (S 1999).
  destruct (write_wait_loop st d (l_ram (top_ h)) Hl (conj Ha Hal) Hb 1999 0 0 h2 w)
    as (h3 & w3 & E3 & Hf3 & Hq3 & Hr3 & Hs3 & Hi3 & Hm3 & Hx3); [done|done|done|cbn; lia|cbn [de_len d]; lia|done|].
  exists h3, w3. rewrite Hr3. split; [exact E3|]. split; [split; [by right|done]|].
  split_and!; try done. intros x. rewrite Hx3. cbn [de_pcie_addr de_len de_ram_addr d]. by rewrite Z.add_0_r.
Qed.

#[local] Instance loop_dma : DmaRtl Loop := {|
  idle := loop_idle; ram h := l_ram (top_ h);
  idle_running _ _ := eq_refl; idle_tick := loop_tick; idle_mmio := loop_mmio;
  dma_read_law := loop_read; dma_write_law := loop_write |}.

(** ** A machine *)

Definition loop_harness : Harness Loop :=
  main_harness (mkLoop Resting (fun _ => 0))
    (mkPins false (mkMmioIn false false 0 0 0) idle_desc idle_desc (mkCplIn false false false false 0 0 []) true true).

Definition loop_vm : Vm Loop :=
  mkVm (mkHost (mkVip true 1 false false 0 None [] (1024 * 1024)) (mkMem (fun _ => 0) 0 (fun a => (0x1000 <=? a) && (a <? 0x8000))) 1 0)
    Regs_init loop_harness [Some 0x1000; Some 0x2000; Some 0x3000; Some 0x4000].

Definition loop_buffers : buffers := mkBuffers 0x1000 0x2000 0x3000 0x4000.

Lemma loop_vm_ok : vm_ok loop_vm.
Proof. constructor; try done. split; [by left|by split_and!]. Qed.

Lemma loop_allocates n : 0 < n <= 4096 -> allocates n loop_vm loop_buffers.
Proof.
  intros Hn. split; [done|]. constructor; cbn [b_desc b_cpl b_src b_dst loop_buffers]; unfold apart; try lia.
  intros x Hx. cbn. apply andb_true_iff. rewrite Z.leb_le, Z.ltb_lt. lia.
Qed.

(** Ten passes of 100 bytes, the harness's loop turning three times between messages. *)
Lemma driver_passes_on_harness_witness :
  exists cfg' vm', @pcie_vip_run_config _ (vm_kernel (fun _ : Vm Loop => 3%nat)) (mkRunConfig 100 10 0 0 0) (Some loop_vm)
      = (0, cfg', Some vm') /\
    cfg_completed cfg' = 10 /\ cfg_last_status cfg' = 0 /\
    vm_ok vm' /\ r_dma_status (vm_regs vm') = 0 /\ r_desc_head (vm_regs vm') = 20.
Proof.
  apply (driver_passes_on_harness (fun _ : Vm Loop => 3%nat) (mkRunConfig 100 10 0 0 0) loop_vm loop_buffers);
    [exact loop_vm_ok|cbn; lia|cbn; lia|apply loop_allocates; cbn; lia|reflexivity|reflexivity].
Defined.
