(* ===== verification/Clib.v ===== *)
(** * Numbers as text

    What the programs use of the C library to read and print integers: [strtoull] and
    [strtoul] with base 0 (both 64-bit), [atoi], and the conversions [%llu], [%lld],
    [%08llu] and [%0*llx] of [printf].  The end pointer of the [strto] functions is
    the rest of the string. *)
From S2P Require Import Prelude.
From Stdlib Require Import Ascii.
From stdpp Require Import strings options.
#[local] Open Scope Z_scope.
#[local] Open Scope cxx_scope.

(** ** Characters *)

Definition code (c : ascii) : Z := Z.of_N (N_of_ascii c).
Definition chr (n : Z) : ascii := ascii_of_N (Z.to_N n).

Definition is_space (c : ascii) : bool := (code c =? 32) || ((9 <=? code c) && (code c <=? 13)).

(** The value of a digit or letter. *)
Definition digit_value (c : ascii) : option Z :=
  let n := code c in
  if (48 <=? n) && (n <=? 57) then Some (n - 48)
  else if (97 <=? n) && (n <=? 122) then Some (n - 87)
  else if (65 <=? n) && (n <=? 90) then Some (n - 55)
  else None.

Definition digit_in (base : Z) (c : ascii) : option Z :=
  d ← digit_value c; if d <? base then Some d else None.

Definition digit_char (d : Z) : ascii := chr (if d <? 10 then 48 + d else 87 + d).

(** ** Reading *)

Fixpoint skip_space (s : string) : string :=
  match s with
  | String c r => if is_space c then skip_space r else s
  | EmptyString => s
  end.

(** True: a minus sign. *)
Definition take_sign (s : string) : bool * string :=
  match s with
  | String c r => if code c =? 45 then (true, r) else if code c =? 43 then (false, r) else (false, s)
  | EmptyString => (false, s)
  end.

(** Base 0: [0x] before a hexadecimal digit, [0], or decimal. *)
Definition take_base (s : string) : Z * string :=
  match s with
  | String z t =>
      if code z =? 48 then
        match t with
        | String x (String d _ as r) =>
            if ((code x =? 120) || (code x =? 88)) && bool_decide (is_Some (digit_in 16 d)) then (16, r) else (8, s)
        | _ => (8, s)
        end
      else (10, s)
  | EmptyString => (10, s)
  end.

(** The longest run of digits: whether there is one, its value, the rest. *)
Fixpoint scan_digits (base acc : Z) (any : bool) (s : string) : bool * Z * string :=
  match s with
  | String c r =>
      match digit_in base c with
      | Some d => scan_digits base (acc * base + d) true r
      | None => (any, acc, s)
      end
  | EmptyString => (any, acc, s)
  end.

(** [converted]: [end != nptr]; [erange]: [errno] was set. *)
Record strto := mkStrto { st_value : Z; st_rest : string; st_converted : bool; st_erange : bool }.

Definition strtoull (s : string) : strto :=
  let '(neg, b) := take_sign (skip_space s) in
  let '(base, t) := take_base b in
  let '(any, v, rest) := scan_digits base 0 false t in
  if negb any then mkStrto 0 s false false
  else if 2 ^ 64 <=? v then mkStrto (2 ^ 64 - 1) rest true true
  else mkStrto (if (neg : bool) then u64 (- v) else v) rest true false.

(** [unsigned long] is 64 bits wide too. *)
Definition strtoul : string -> strto := strtoull.

(** [atoi]; [None] when the value is no [int], which the standard leaves undefined. *)
Definition atoi (s : string) : option Z :=
  let '(neg, b) := take_sign (skip_space s) in
  let '(_, v, _) := scan_digits 10 0 false b in
  let v := if (neg : bool) then - v else v in
  if (- 2 ^ 31 <=? v) && (v <? 2 ^ 31) then Some v else None.

(** ** Printing *)

(** The digits of [n], most significant first; 64 digits are enough for 64 bits. *)
Fixpoint to_digits (fuel : nat) (base n : Z) (acc : list Z) : list Z :=
  match fuel with
  | O => acc
  | S fuel => let acc := n mod base :: acc in if n / base =? 0 then acc else to_digits fuel base (n / base) acc
  end.

Definition of_chars (l : list ascii) : string := String.string_of_list_ascii l.

(** A field of at least [width] characters filled with zeros. *)
Definition print_padded (base : Z) (width : nat) (n : Z) : string :=
  let ds := to_digits 64 base n [] in
  of_chars (digit_char <$> (replicate (width - length ds) 0 ++ ds)).

Definition print_decimal : Z -> string := print_padded 10 0.
Definition print_signed (n : Z) : string := if n <? 0 then ("-" +:+ print_decimal (- n))%string else print_decimal n.
Definition print_hex (width : nat) (n : Z) : string := ("0x" +:+ print_padded 16 width n)%string.

(** ** Lemmas *)

Lemma code_chr n : 0 <= n < 256 -> code (chr n) = n.
Proof. intros Hn. unfold code, chr. rewrite N_ascii_embedding by lia. lia. Qed.

Lemma digit_in_char base d : 0 <= d < base -> base <= 16 -> digit_in base (digit_char d) = Some d.
Proof.
  intros Hd Hb. unfold digit_in, digit_value, digit_char. destruct (Z.ltb_spec d 10).
  - rewrite code_chr by lia. rewrite (proj2 (Z.leb_le 48 _)), (proj2 (Z.leb_le _ 57)) by lia. cbn [andb mbind option_bind].
    rewrite (proj2 (Z.ltb_lt _ _)) by lia. f_equal. lia.
  - rewrite code_chr by lia. rewrite (proj2 (Z.leb_gt _ 57)), andb_false_r by lia.
    rewrite (proj2 (Z.leb_le 97 _)), (proj2 (Z.leb_le _ 122)) by lia. cbn [andb mbind option_bind].
    rewrite (proj2 (Z.ltb_lt _ _)) by lia. f_equal. lia.
Qed.

Definition of_digits (base acc : Z) (ds : list Z) : Z := foldl (fun v d => v * base + d) acc ds.

Lemma to_digits_value fuel base n acc :
  1 < base -> 0 <= n < base ^ Z.of_nat fuel ->
  exists ds, to_digits fuel base n acc = ds ++ acc /\ of_digits base 0 ds = n /\ Forall (fun d => 0 <= d < base) ds /\
    (fuel <> 0%nat -> ds <> []).
Proof.
  intros Hb. revert n acc. induction fuel as [|fuel IH]; intros n acc Hn; cbn [to_digits].
  { exists []. split_and!; [done|cbn; lia|done|done]. }
  rewrite Nat2Z.inj_succ, Z.pow_succ_r in Hn by lia.
  pose proof (Z.mod_pos_bound n base ltac:(lia)) as Hm. pose proof (Z.div_mod n base ltac:(lia)) as Hdm.
  destruct (Z.eqb_spec (n / base) 0) as [E|E].
  - exists [n mod base]. split_and!; [done|cbn; lia|by apply Forall_singleton|done].
  - assert (0 <= n / base < base ^ Z.of_nat fuel) by (split; [apply Z.div_pos|apply Z.div_lt_upper_bound]; lia).
    destruct (IH (n / base) (n mod base :: acc)) as (ds & -> & Hv & Hd & _); [done|].
    exists (ds ++ [n mod base]). rewrite <- app_assoc. split_and!; [done| |apply Forall_app; by rewrite Forall_singleton|by destruct ds].
    unfold of_digits in *. rewrite foldl_snoc, Hv. lia.
Qed.

Lemma of_digits_zeros base n ds : of_digits base 0 (replicate n 0 ++ ds) = of_digits base 0 ds.
Proof. induction n as [|n IH]; [done|]. exact IH. Qed.

(** A run of digit characters is scanned to the end. *)
Lemma scan_digits_chars base acc any ds :
  base <= 16 -> Forall (fun d => 0 <= d < base) ds ->
  scan_digits base acc any (of_chars (digit_char <$> ds)) =
  (any || negb (bool_decide (ds = [])), of_digits base acc ds, EmptyString).
Proof.
  intros Hb Hd. revert acc any. induction Hd as [|d ds Hd _ IH]; intros acc any.
  { cbn. by rewrite orb_false_r. }
  cbn [fmap list_fmap of_chars String.string_of_list_ascii scan_digits]. rewrite digit_in_char by done.
  rewrite IH. cbn [of_digits foldl]. by rewrite orb_true_r.
Qed.

Lemma print_padded_digits base width n :
  1 < base -> 0 <= n < base ^ 64 ->
  exists ds, print_padded base width n = of_chars (digit_char <$> ds) /\ of_digits base 0 ds = n /\
    Forall (fun d => 0 <= d < base) ds /\ ds <> [] /\ (width <= length ds)%nat.
Proof.
  intros Hb Hn. destruct (to_digits_value 64 base n [] Hb Hn) as (ds & Ed & Hv & Hf & Hne).
  unfold print_padded. rewrite Ed, app_nil_r. exists (replicate (width - length ds) 0 ++ ds). split; [done|].
  rewrite of_digits_zeros, length_app, length_replicate. split_and!; [done| | |lia].
  - apply Forall_app. split; [|done]. apply Forall_replicate. lia.
  - intros [_ E]%app_nil. by apply Hne.
Qed.

Lemma take_base_hex c r :
  is_Some (digit_in 16 c) -> take_base (String "0" (String "x" (String c r))) = (16, String c r).
Proof. intros Hc. unfold take_base. rewrite bool_decide_true by done. done. Qed.

(** A number printed in hexadecimal with its prefix is read back. *)
Lemma strtoull_print_hex width n :
  in_width 64 n -> strtoull (print_hex width n) = mkStrto n EmptyString true false.
Proof.
  intros Hn. unfold in_width in Hn.
  destruct (print_padded_digits 16 width n) as (ds & E & Hv & Hd & Hne & _); [lia|lia|].
  unfold print_hex. rewrite E. destruct ds as [|d ds]; [done|].
  assert (Hdd : digit_in 16 (digit_char d) = Some d) by (apply Forall_cons in Hd as [? _]; by apply digit_in_char).
  assert (Ev : scan_digits 16 0 false (of_chars (digit_char <$> d :: ds)) = (true, n, EmptyString))
    by (rewrite scan_digits_chars by done; by rewrite Hv).
  assert (Eb : take_base ("0x" +:+ of_chars (digit_char <$> d :: ds))%string = (16, of_chars (digit_char <$> d :: ds)))
    by (apply (take_base_hex (digit_char d)); by eexists).
  unfold strtoull. change (take_sign (skip_space _)) with (false, ("0x" +:+ of_chars (digit_char <$> d :: ds))%string).
  cbv beta iota. rewrite Eb, Ev. cbn [negb]. by rewrite (proj2 (Z.leb_gt _ _)) by lia.
Qed.

(** What a successful conversion without a sign can return. *)
Lemma strtoull_range s : in_width 64 (st_value (strtoull s)).
Proof.
  unfold strtoull. destruct (take_sign _) as [neg b]. destruct (take_base b) as [base t] eqn:Eb.
  assert (Hb : 0 <= base) by (unfold take_base in Eb; destruct b as [|z [|x [|d r]]]; repeat case_match; simplify_eq; lia).
  assert (Hs : forall u acc any, 0 <= acc -> 0 <= (scan_digits base acc any u).1.2).
  { induction u as [|c u IH]; intros acc any Ha; cbn [scan_digits]; [done|]. destruct (digit_in base c) as [x|] eqn:Ed; [|done].
    apply IH. assert (0 <= x); [|nia]. unfold digit_in, digit_value in Ed.
    pose proof (N2Z.is_nonneg (N_of_ascii c)). fold (code c) in *.
    destruct (Z.leb_spec 48 (code c)), (Z.leb_spec (code c) 57), (Z.leb_spec 97 (code c)), (Z.leb_spec (code c) 122),
      (Z.leb_spec 65 (code c)), (Z.leb_spec (code c) 90); cbn in Ed; repeat case_match; simplify_eq; lia. }
  specialize (Hs t 0 false ltac:(lia)). destruct (scan_digits base 0 false t) as [[any v] rest]. cbn in Hs.
  destruct any; cbn [negb st_value]; [|done]. destruct (Z.leb_spec (2 ^ 64) v); cbn [st_value]; [done|].
  destruct neg; [apply wrap_range; lia|unfold in_width; lia].
Qed.
