(* ===== verification/Tools.v ===== *)
(** * The guest's command-line tools

    Model of [guest/pcie-vip/user/pcie-vip-run.c], which runs the driver's loopback
    test, and of [guest/pcie-vip/user/pcie-vip-pcimem.c], which reads or writes a BAR
    register through sysfs.  The options [getopt_long] returns are data, and so are
    the answers of the system calls; the ioctl is the driver of [Guest].  The two
    figures [pcie-vip-run] derives in floating point (milliseconds, MiB/s) are left
    out of the report. *)
From S2P Require Import Prelude Protocol Verilator Guest Clib.
From Stdlib Require Import Ascii.
From stdpp Require Import strings options.
#[local] Open Scope Z_scope.
#[local] Open Scope cxx_scope.

(** ** pcie-vip-run *)

(** What [getopt_long] returns, with [optarg]. *)
Inductive run_opt := OLength (arg : string) | OIterations (arg : string) | OInteractive | OVerbose | OHelp | OUnknown.

Inductive line :=
| LUsage | LPrompt (prompt : string) (min max : Z)
| LInvalidLength (arg : string) | LInvalidIterations (arg : string) | LInvalidInteractive
| LOpenFailed | LIoctlFailed | LPass
| LReport (length iterations completions elapsed_ns bytes : Z).

Record run_args := mkRunArgs { ra_length : Z; ra_iterations : Z; ra_interactive : bool; ra_verbose : bool }.

(** A numeric argument in range: [errno || end == optarg || *end || parsed < min || parsed > max]
    is false. *)
Definition number_in (min max : Z) (arg : string) : option Z :=
  let r := strtoul arg in
  if st_erange r || negb (st_converted r) || negb (String.eqb (st_rest r) EmptyString) ||
     (st_value r <? min) || (max <? st_value r)
  then None else Some (st_value r).

(** The option loop: an exit code and what was printed, or the arguments. *)
Fixpoint parse_options (opts : list run_opt) (a : run_args) : (Z * list line) + run_args :=
  match opts with
  | [] => inr a
  | OLength arg :: opts =>
      match number_in 1 4096 arg with
      | Some n => parse_options opts (mkRunArgs n (ra_iterations a) (ra_interactive a) true)
      | None => inl (2, [LInvalidLength arg])
      end
  | OIterations arg :: opts =>
      match number_in 1 1024 arg with
      | Some n => parse_options opts (mkRunArgs (ra_length a) n (ra_interactive a) true)
      | None => inl (2, [LInvalidIterations arg])
      end
  | OInteractive :: opts => parse_options opts (mkRunArgs (ra_length a) (ra_iterations a) true true)
  | OVerbose :: opts => parse_options opts (mkRunArgs (ra_length a) (ra_iterations a) (ra_interactive a) true)
  | OHelp :: _ => inl (0, [LUsage])
  | OUnknown :: _ => inl (2, [LUsage])
  end.

(** [fgets(line, n + 1, stdin)]: up to [n] characters, to the end of the line. *)
Fixpoint fgets_loop (n : nat) (stdin : string) : string * string :=
  match n, stdin with
  | S n, String c r =>
      if code c =? 10 then (String c EmptyString, r)
      else let '(l, r) := fgets_loop n r in (String c l, r)
  | _, _ => (EmptyString, stdin)
  end.
Definition fgets (size : nat) (stdin : string) : option string * string :=
  match stdin with
  | EmptyString => (None, stdin)
  | String _ _ => let '(l, r) := fgets_loop (size - 1) stdin in (Some l, r)
  end.

(** The value, and what is left of the input. *)
Definition read_u32 (min max : Z) (stdin : string) : option Z * string :=
  let '(l, stdin) := fgets 64 stdin in
  match l with
  | None => (None, stdin)
  | Some l =>
      let r := strtoul l in
      if st_erange r || negb (st_converted r) || (st_value r <? min) || (max <? st_value r)
      then (None, stdin) else (Some (u32 (st_value r)), stdin)
  end.

(** The interactive questions. *)
Definition ask (a : run_args) (stdin : string) : option run_args * list line :=
  if negb (ra_interactive a) then (Some a, [])
  else
    let p1 := LPrompt "Transfer length" 1 4096 in
    let p2 := LPrompt "Iterations" 1 1024 in
    match read_u32 1 4096 stdin with
    | (None, _) => (None, [p1])
    | (Some length, stdin) =>
        match read_u32 1 1024 stdin with
        | (None, _) => (None, [p1; p2])
        | (Some iterations, _) => (Some (mkRunArgs length iterations true (ra_verbose a)), [p1; p2])
        end
    end.

(** [struct timespec]: seconds and nanoseconds. *)
Definition wall_ns (start stop : Z * Z) : Z :=
  u64 (u64 (u64 (stop.1 - start.1) * 1000000000) + u64 stop.2 - u64 start.2).

Section Run.
Context {K : Type} `{Kernel K}.

(** From [open] on. *)
Definition run_device (a : run_args) (opened : bool) (start stop : Z * Z) (k : K) : Z * list line * K :=
  if negb opened then (1, [LOpenFailed], k)
  else
    let length := ra_length a in
    let iterations := ra_iterations a in
    let '(ret, cfg, k) :=
      if negb (ra_verbose a) && (length =? 64) && (iterations =? 1)
      then pcie_vip_ioctl PCIE_VIP_IOC_RUN None true k
      else pcie_vip_ioctl PCIE_VIP_IOC_RUN_CONFIG (Some (mkRunConfig length iterations 0 0 0)) true k in
    if ret <? 0 then (1, [LIoctlFailed], k)
    else if negb (ra_verbose a) then (0, [LPass], k)
    else
      match cfg with
      | Some cfg =>
          let elapsed := if negb (cfg_elapsed_ns cfg =? 0) then cfg_elapsed_ns cfg else wall_ns start stop in
          (0, [LPass; LReport length iterations (cfg_completed cfg) elapsed (u64 (2 * length * iterations))], k)
      | None => (0, [LPass], k)
      end.

Definition run_main (opts : list run_opt) (stdin : string) (opened : bool) (start stop : Z * Z) (k : K)
  : Z * list line * K :=
  match parse_options opts (mkRunArgs 64 1 false false) with
  | inl (code, out) => (code, out, k)
  | inr a =>
      match ask a stdin with
      | (None, out) => (2, out ++ [LInvalidInteractive], k)
      | (Some a, out) =>
          let '(code, out', k) := run_device a opened start stop k in (code, out ++ out', k)
      end
  end.
End Run.

(** ** pcie-vip-pcimem *)

(** [None]: -1. *)
Definition parse_u64 (text : string) : option Z :=
  let r := strtoull text in
  if st_erange r || negb (String.eqb (st_rest r) EmptyString) then None else Some (st_value r).

(** [snprintf(path, 256, "/sys/bus/pci/devices/%s/<file>", bdf)]. *)
Definition device_path (bdf file : string) : string :=
  String.substring 0 255 ("/sys/bus/pci/devices/" +:+ bdf +:+ "/" +:+ file)%string.

(** The system the tool runs on: the first three numbers of a resource file, if it can
    be opened and has them; which files open; the page size; which mappings (length,
    writable, file offset) are granted; what the device returns. *)
Record sys := mkSys {
  scan_resource : string -> option (Z * Z * Z);
  open_rw : string -> bool;
  page_size : Z;
  mmap_granted : Z -> bool -> Z -> bool;
  bar_load : Z -> Z -> Z }.

Definition bar_size (e : sys) (bdf : string) : option Z :=
  match scan_resource e (device_path bdf "resource") with
  | Some (start, end_, _) => if end_ <? start then None else Some (u64 (end_ - start + 1))
  | None => None
  end.

Inductive mevent :=
| MMap (len : Z) (writable : bool) (off : Z)
(** At a distance from the mapping's start.  A load is one volatile access of that width;
    a store is a [memcpy], whose split into accesses is up to the C library. *)
| MLoad (at_ bytes : Z) | MStore (at_ : Z) (data : list Z)
| MPrint (text : string) | MUnmap (len : Z) | MClose.

Definition page_mask (e : sys) : Z := u64 (Z.lnot (u64 (page_size e - 1))).

(** From the second [snprintf] on. *)
Definition pcimem_access (e : sys) (bdf : string) (write : bool) (offset bytes value : Z) : Z * list mevent :=
  if negb (open_rw e (device_path bdf "resource0")) then (1, [])
  else if page_size e <=? 0 then (1, [MClose])
  else
    let page_offset := offset & page_mask e in
    let len := u64 (page_size e + offset - page_offset) in
    if negb (mmap_granted e len write page_offset) then (1, [MClose])
    else
      let at_ := offset - page_offset in
      (0, MMap len write page_offset ::
          (if write then [MStore at_ (le_bytes (Z.to_nat bytes) value)]
           else [MLoad at_ bytes; MPrint (print_hex (Z.to_nat (bytes * 2)) (bar_load e offset bytes))]) ++
          [MUnmap len; MClose]).

(** [args]: [argv[1]] on. *)
Definition pcimem_main (e : sys) (args : list string) : Z * list mevent :=
  match args with
  | bdf :: op :: off :: wid :: rest =>
      if negb (length rest <=? 1)%nat then (2, [])
      else if negb (String.eqb op "read") && negb (String.eqb op "write") then (2, [])
      else
        match parse_u64 off, parse_u64 wid, match rest with v :: _ => parse_u64 v | [] => Some 0 end with
        | Some offset, Some width, Some value =>
            if negb (width =? 8) && negb (width =? 16) && negb (width =? 32) && negb (width =? 64) then (2, [])
            else
              let bytes := width / 8 in
              if negb (offset mod bytes =? 0) then (2, [])
              else
                match bar_size e bdf with
                | None => (1, [])
                | Some size =>
                    if (size <? offset) || (size - offset <? bytes) then (1, [])
                    else if (length rest =? 0)%nat && negb (String.eqb op "read") then (2, [])
                    else if (length rest =? 1)%nat && negb (String.eqb op "write") then (2, [])
                    else pcimem_access e bdf (String.eqb op "write") offset bytes value
                end
        | _, _, _ => (2, [])
        end
  | _ => (2, [])
  end.

(** ** Lemmas on the runner *)

Definition args_ok (a : run_args) : Prop :=
  1 <= ra_length a <= 4096 /\ 1 <= ra_iterations a <= 1024 /\
  (ra_verbose a = false -> ra_length a = 64 /\ ra_iterations a = 1 /\ ra_interactive a = false).

Lemma number_in_range min max s n : number_in min max s = Some n -> min <= n <= max.
Proof.
  unfold number_in. destruct (_ || _ || _ || _ || _) eqn:E; [done|]. intros [= <-].
  rewrite !orb_false_iff, !Z.ltb_ge in E. lia.
Qed.

Lemma parse_options_ok opts a a' : args_ok a -> parse_options opts a = inr a' -> args_ok a'.
Proof.
  revert a. induction opts as [|o opts IH]; intros a Ha; cbn [parse_options]; [by intros [= <-]|].
  destruct Ha as (Hl & Hi & Hv).
  destruct o; try done; try (apply IH; done);
    destruct (number_in _ _ _) as [n|] eqn:E; try done; apply IH; apply number_in_range in E; done.
Qed.

Lemma parse_options_exit opts a code out :
  parse_options opts a = inl (code, out) ->
  code = 0 /\ out = [LUsage] \/ code = 2 /\ ~ In LPass out.
Proof.
  revert a. induction opts as [|o opts IH]; intros a; cbn [parse_options]; [done|].
  destruct o as [arg|arg| | | |]; [destruct (number_in 1 4096 arg)|destruct (number_in 1 1024 arg)|..];
    try (apply IH); intros; simplify_eq; first [by left|right; split; [done|]; intros [?|[]]; done].
Qed.

Lemma read_u32_range min max s n r : 0 <= min -> max < 2 ^ 32 -> read_u32 min max s = (Some n, r) -> min <= n <= max.
Proof.
  intros Hm HM. unfold read_u32. destruct (fgets 64 s) as [[l|] r']; [|done].
  destruct (_ || _ || _ || _) eqn:E; intros; simplify_eq. rewrite !orb_false_iff, !Z.ltb_ge in E.
  rewrite wrap_id; [lia|unfold in_width; lia].
Qed.

Definition is_prompt (l : line) : Prop := match l with LPrompt _ _ _ => True | _ => False end.

Lemma after_prompts pre out l : Forall is_prompt pre -> ~ is_prompt l -> In l (pre ++ out) -> In l out.
Proof.
  rewrite List.Forall_forall. intros Hp Hl [Hin|Hin]%in_app_iff; [|done]. by apply Hp in Hin.
Qed.

Lemma ask_ok a s a' out : args_ok a -> ask a s = (Some a', out) -> args_ok a' /\ Forall is_prompt out.
Proof.
  intros (Hl & Hi & Hv). unfold ask. destruct (ra_interactive a) eqn:Ei; cbn [negb].
  2:{ intros; simplify_eq. split; [|done]. unfold args_ok. by rewrite Ei. }
  destruct (read_u32 1 4096 s) as [[l|] s1] eqn:E1; [|done].
  destruct (read_u32 1 1024 s1) as [[n|] s2] eqn:E2; [|done]. intros; simplify_eq.
  apply read_u32_range in E1; [|lia..]. apply read_u32_range in E2; [|lia..].
  split; [|by repeat constructor]. unfold args_ok. split_and!; cbn; try lia; intros Hvf; by destruct (Hv Hvf) as (_ & _ & ?).
Qed.

Lemma ask_refused a s out : ask a s = (None, out) -> ~ In LPass out.
Proof.
  unfold ask. destruct (negb _); [done|]. destruct (read_u32 1 4096 s) as [[l|] s1].
  - destruct (read_u32 1 1024 s1) as [[n|] s2]; [done|]. intros; simplify_eq. intros [?|[?|[]]]; done.
  - intros; simplify_eq. intros [?|[]]; done.
Qed.

Section Runner.
Context {K : Type} `{Kernel K}.
Implicit Types k : K.

(** What the runner's exit code and output mean. *)
Definition run_verdict (code : Z) (out : list line) k k' : Prop :=
  (** the loopback ran, passed every pass, and the report says so *)
  code = 0 /\ In LPass out /\
    (exists length iterations cfg', 1 <= length <= 4096 /\ 1 <= iterations <= 1024 /\
       pcie_vip_run_config (mkRunConfig length iterations 0 0 0) k = (0, cfg', k') /\
       cfg_completed cfg' = iterations /\
       forall l n c t b, In (LReport l n c t b) out ->
         l = length /\ n = iterations /\ c = iterations /\ b = 2 * length * iterations) \/
  (** help *)
  code = 0 /\ out = [LUsage] /\ k' = k \/
  (** arguments refused, or no device: the driver was not called *)
  (code = 2 \/ code = 1) /\ ~ In LPass out /\ k' = k \/
  (** the driver reported a failure, never of the arguments *)
  code = 1 /\ ~ In LPass out /\
    exists length iterations ret cfg',
      pcie_vip_run_config (mkRunConfig length iterations 0 0 0) k = (ret, cfg', k') /\
      (ret = - ENOMEM \/ ret = - ETIMEDOUT \/ ret = - EIO).

Lemma run_outcome_in_range length iterations ret cfg' k k' :
  1 <= length <= 4096 -> 1 <= iterations <= 1024 ->
  pcie_vip_run_config (mkRunConfig length iterations 0 0 0) k = (ret, cfg', k') ->
  ret = 0 /\ cfg_completed cfg' = iterations \/ (ret = - ENOMEM \/ ret = - ETIMEDOUT \/ ret = - EIO).
Proof.
  intros Hl Hi E. set (cfg := mkRunConfig length iterations 0 0 0) in *.
  assert (El : run_length cfg = length /\ run_iterations cfg = iterations).
  { unfold run_length, run_iterations. cbn. by rewrite !(proj2 (Z.eqb_neq _ _)) by lia. } destruct El as [El Ei].
  destruct (run_config_erase cfg k []) as [l E']. rewrite E in E'. cbn [fst snd] in E'.
  apply run_config_trace in E'; [|unfold in_width; cbn; lia..].
  rewrite El, Ei in E'. destruct E' as [([?|?] & _)|(_ & _ & t & _ & Ht)]; [lia..|].
  destruct Ht as [|desc cpl src dst start end_ t m ret Ht]; [by auto|].
  apply passes_trace_code in Ht as [_ [[-> ->]|[_ [-> | ->]]]]; cbn [cfg_completed]; auto. left. split; [done|lia].
Qed.

(** The device part of the runner. *)
Lemma run_device_verdict a pre opened start stop k code out k' :
  args_ok a -> Forall is_prompt pre -> run_device a opened start stop k = (code, out, k') ->
  run_verdict code (pre ++ out) k k'.
Proof.
  intros (Hl & Hi & Hv) Hpre. unfold run_device. destruct opened; cbn [negb].
  2:{ intros; simplify_eq. right; right; left. split_and!; auto. intros Hin%after_prompts; [|done|by intros []]. by destruct Hin as [?|[]]. }
  match goal with |- context [if ?c then pcie_vip_ioctl ?x ?y ?z k else ?q] => set (r := if c then pcie_vip_ioctl x y z k else q) end.
  assert (Hr : exists ret cfg' cfg k1, r = (ret, cfg, k1) /\
    pcie_vip_run_config (mkRunConfig (ra_length a) (ra_iterations a) 0 0 0) k = (ret, cfg', k1) /\
    (ra_verbose a = true -> cfg = Some cfg')).
  { unfold r. destruct (ra_verbose a) eqn:Ev; cbn [negb andb].
    - unfold pcie_vip_ioctl. change (PCIE_VIP_IOC_RUN_CONFIG =? PCIE_VIP_IOC_RUN) with false. rewrite Z.eqb_refl.
      destruct (pcie_vip_run_config _ k) as [[ret cfg'] k1]. by eexists _, cfg', _, _.
    - destruct (Hv eq_refl) as (-> & -> & _). unfold pcie_vip_ioctl, pcie_vip_run. rewrite !Z.eqb_refl.
      destruct (pcie_vip_run_config _ k) as [[ret cfg'] k1]. by eexists _, cfg', _, _. }
  destruct Hr as (ret & cfg' & cfg & k1 & -> & E & Hc).
  destruct (run_outcome_in_range _ _ _ _ _ _ Hl Hi E) as [[-> Hcpl]|Hret].
  - change (0 <? 0) with false. cbv iota. intros Eo. left.
    assert (Ho : code = 0 /\ k1 = k' /\ (out = [LPass] \/ exists t,
      out = [LPass; LReport (ra_length a) (ra_iterations a) (cfg_completed cfg') t (u64 (2 * ra_length a * ra_iterations a))])).
    { destruct (ra_verbose a); cbn [negb] in Eo; [rewrite (Hc eq_refl) in Eo|]; simplify_eq; eauto. }
    destruct Ho as (-> & -> & Ho). split; [done|]. split; [apply in_app_iff; right; by destruct Ho as [-> | [t ->]]; left|].
    exists (ra_length a), (ra_iterations a), cfg'. split_and!; try done; try lia.
    rewrite (wrap_id 64) in Ho by (unfold in_width; nia).
    intros l n c t b Hin. apply after_prompts in Hin; [|done|by intros []]. destruct Ho as [-> | [t0 ->]]; cbn in Hin; destruct Hin as [?|Hin]; try done.
    destruct Hin as [?|[]]; by simplify_eq.
  - rewrite (proj2 (Z.ltb_lt ret 0)) by (destruct Hret as [-> |[-> | ->]]; done). intros; simplify_eq.
    right; right; right. split; [done|]. split; [|by do 4 eexists].
    intros Hin%after_prompts; [|done|by intros []]. by destruct Hin as [?|[]].
Qed.
End Runner.

(** ** Lemmas on the BAR tool *)

(** [sysconf] and the resource file: a power of two, 64-bit numbers. *)
Definition sys_ok (e : sys) : Prop :=
  (exists k, 3 <= k <= 30 /\ page_size e = 2 ^ k) /\
  forall p a b f, scan_resource e p = Some (a, b, f) -> in_width 64 a /\ in_width 64 b.

Lemma page_offset_eq e offset :
  sys_ok e -> in_width 64 offset -> (offset & page_mask e) = offset - offset mod page_size e.
Proof.
  intros [(k & Hk & Hp) _] Ho. unfold in_width in Ho.
  assert (2 ^ k <= 2 ^ 30) by (apply Z.pow_le_mono_r; lia). pose proof (Z.pow_pos_nonneg 2 k ltac:(lia) ltac:(lia)).
  unfold page_mask. rewrite Hp, (wrap_id 64 (2 ^ k - 1)) by (unfold in_width; lia).
  unfold wrap. rewrite <- Z.land_ones, (Z.land_comm (Z.lnot _)), Z.land_assoc by lia.
  rewrite (Z.land_ones offset 64), (Z.mod_small offset) by lia.
  replace (2 ^ k - 1) with (Z.ones k) by (rewrite Z.ones_equiv; lia).
  rewrite <- Z.ldiff_land, Z.ldiff_ones_r by lia.
  rewrite Z.shiftl_mul_pow2, Z.shiftr_div_pow2 by lia. pose proof (Z.div_mod offset (2 ^ k)). lia.
Qed.

(** A session that touches the BAR. *)
Inductive bar_access (e : sys) (bdf : string) : list mevent -> Prop :=
| bar_access_intro size (write : bool) offset bytes len off data body :
    bar_size e bdf = Some size ->
    In bytes [1; 2; 4; 8] -> offset mod bytes = 0 -> 0 <= offset -> offset + bytes <= size ->
    off mod page_size e = 0 -> off <= offset -> offset + bytes <= off + len ->
    body = (if write then [MStore (offset - off) data]
            else [MLoad (offset - off) bytes; MPrint (print_hex (Z.to_nat (bytes * 2)) (bar_load e offset bytes))]) ->
    Z.of_nat (length data) = bytes ->
    bar_access e bdf (MMap len write off :: body ++ [MUnmap len; MClose]).

Lemma parse_u64_range s n : parse_u64 s = Some n -> in_width 64 n.
Proof. unfold parse_u64. destruct (_ || _); intros; simplify_eq. apply strtoull_range. Qed.

Lemma pcimem_access_ok e bdf write offset bytes value size code tr :
  sys_ok e -> bar_size e bdf = Some size -> in_width 64 offset -> In bytes [1; 2; 4; 8] ->
  offset mod bytes = 0 -> offset + bytes <= size ->
  pcimem_access e bdf write offset bytes value = (code, tr) ->
  code = 1 /\ (tr = [] \/ tr = [MClose]) \/ code = 0 /\ bar_access e bdf tr.
Proof.
  intros Hs Hb Ho Hby Ha Hle. pose proof Hs as [(k & Hk & Hp) _]. unfold in_width in Ho.
  assert (2 ^ 3 <= 2 ^ k <= 2 ^ 30) as Hk2 by (split; apply Z.pow_le_mono_r; lia).
  pose proof (Z.mod_pos_bound offset (page_size e) ltac:(lia)) as Hm.
  pose proof (Z.mod_le offset (page_size e) ltac:(lia) ltac:(lia)) as Hml.
  unfold pcimem_access. rewrite page_offset_eq by done.
  destruct (open_rw _ _); cbn [negb]; [|intros; simplify_eq; auto].
  rewrite (proj2 (Z.leb_gt (page_size e) 0)) by lia. destruct (mmap_granted _ _ _ _); cbn [negb]; intros; simplify_eq; [|auto].
  right. split; [done|]. rewrite (wrap_id 64) by (unfold in_width; lia).
  assert (Hbytes : 1 <= bytes <= 8) by (destruct Hby as [<-|[<-|[<-|[<-|[]]]]]; lia).
  eapply (bar_access_intro e bdf size write offset bytes _ _ (le_bytes (Z.to_nat bytes) value)); try done; try lia.
  - rewrite Zminus_mod, Z.mod_mod, Z.sub_diag by lia. apply Z.mod_0_l. lia.
  - rewrite length_le_bytes. lia.
Qed.

(** ** Properties *)

Section Runner_property.
Context {K : Type} `{Kernel K}.

(** C31: the verdict of pcie-vip-run.  Whatever the options, the typed input, the kernel
    and the device: PASS is printed, with exit code 0, exactly when the driver ran
    the loopback with a length of 1 to 4096 and 1 to 1024 passes and every pass
    succeeded, and a report then shows these numbers; refused arguments, a failed
    prompt and a missing device never reach the driver; and the driver never rejects
    the arguments the tool lets through. *)
Theorem run_tool_verdict opts stdin opened start stop (k : K) :
  let '(code, out, k') := run_main opts stdin opened start stop k in run_verdict code out k k'.
Proof.
  unfold run_main. destruct (parse_options opts _) as [[code out]|a] eqn:Ep.
  { apply parse_options_exit in Ep as [[-> ->]|[-> Hn]]; [right; left|right; right; left]; auto. }
  assert (Ha : args_ok a) by (eapply parse_options_ok; [|exact Ep]; unfold args_ok; cbn; split_and!; (lia || done)).
  destruct (ask a stdin) as [[a'|] out] eqn:Ek.
  - destruct (ask_ok _ _ _ _ Ha Ek) as [Ha' Hp]. destruct (run_device a' opened start stop k) as [[code out'] k'] eqn:Ed.
    by eapply run_device_verdict.
  - apply ask_refused in Ek. right; right; left. split_and!; [by left| |done].
    intros [?|[?|[]]]%in_app_iff; done.
Qed.
End Runner_property.

(** C32: the BAR tool touches only what it checked.  On a system with power-of-two pages,
    for any arguments: nothing is mapped or accessed unless the exit code is 0, and
    then there is one page-aligned mapping, writable only for a write, and exactly one
    access of 1, 2, 4 or 8 bytes, aligned to its size, inside the BAR and inside the
    mapping, after which the mapping is removed and the file closed. *)
Theorem pcimem_safe e args code tr :
  sys_ok e -> pcimem_main e args = (code, tr) ->
  (code = 1 \/ code = 2) /\ (tr = [] \/ tr = [MClose]) \/
  code = 0 /\ exists bdf rest, args = bdf :: rest /\ bar_access e bdf tr.
Proof.
  intros Hs. unfold pcimem_main. destruct args as [|bdf [|op [|off [|wid rest]]]]; try (intros; simplify_eq; by auto).
  destruct (negb (_ <=? 1)%nat); [intros; simplify_eq; by auto|].
  destruct (negb _ && negb _); [intros; simplify_eq; by auto|].
  destruct (parse_u64 off) as [offset|] eqn:Eo; [|intros; simplify_eq; by auto].
  destruct (parse_u64 wid) as [width|]; [|intros; simplify_eq; by auto].
  destruct (match rest with [] => Some 0 | v :: _ => parse_u64 v end) as [value|]; [|intros; simplify_eq; by auto].
  destruct (negb _ && negb _ && negb _ && negb _) eqn:Ew; [intros; simplify_eq; by auto|].
  assert (Hby : In (width / 8) [1; 2; 4; 8]).
  { rewrite !andb_false_iff, !negb_false_iff, !Z.eqb_eq in Ew. cbn. destruct Ew as [[[-> | ->]| ->]| ->]; auto. }
  destruct (Z.eqb_spec (offset mod (width / 8)) 0) as [Ha|]; cbn [negb]; [|intros; simplify_eq; by auto].
  destruct (bar_size e bdf) as [size|] eqn:Eb; [|intros; simplify_eq; by auto].
  destruct ((size <? offset) || _) eqn:Ec; [intros; simplify_eq; by auto|].
  destruct ((length rest =? 0)%nat && _); [intros; simplify_eq; by auto|].
  destruct ((length rest =? 1)%nat && _); [intros; simplify_eq; by auto|].
  apply orb_false_iff in Ec as [_ Ec]. apply Z.ltb_ge in Ec. intros E.
  eapply pcimem_access_ok in E; [|done|done|by eapply parse_u64_range|done|done|lia].
  destruct E as [[-> ?]|[-> ?]]; [by auto|]. right. split; [done|]. by exists bdf, (op :: off :: wid :: rest).
Qed.

(** What the BAR tool prints it also reads: the text printed for a value of 1, 2, 4
    or 8 bytes is accepted as the VALUE argument and means the same value. *)
Theorem pcimem_print_parse bytes v : in_width 64 v -> parse_u64 (print_hex (Z.to_nat (bytes * 2)) v) = Some v.
Proof. intros Hv. unfold parse_u64. by rewrite strtoull_print_hex. Qed.

(** An empty argument counts as 0, and a minus sign wraps around. *)
Theorem parse_u64_accepts : parse_u64 "" = Some 0 /\ parse_u64 "-8" = Some (2 ^ 64 - 8).
Proof. by vm_compute. Qed.

(** In the last page of the BAR, anything but the page's first byte is mapped past the
    BAR's end: one page too many is asked for. *)
Theorem last_page_mapping_too_long e bdf write offset bytes value size tr :
  sys_ok e -> bar_size e bdf = Some size -> in_width 64 offset -> size mod page_size e = 0 ->
  size - page_size e < offset < size ->
  pcimem_access e bdf write offset bytes value = (0, tr) ->
  exists len off rest, tr = MMap len write off :: rest /\ size < off + len.
Proof.
  intros Hs Hb Ho Hm Hr. pose proof Hs as [(k & Hk & Hp) _]. unfold in_width in Ho.
  assert (2 ^ 3 <= 2 ^ k <= 2 ^ 30) as Hk2 by (split; apply Z.pow_le_mono_r; lia).
  pose proof (Z.mod_pos_bound offset (page_size e) ltac:(lia)) as Hmb.
  pose proof (Z.mod_le offset (page_size e) ltac:(lia) ltac:(lia)) as Hml.
  unfold pcimem_access. rewrite page_offset_eq by done. destruct (open_rw _ _); cbn [negb]; [|done].
  rewrite (proj2 (Z.leb_gt (page_size e) 0)) by lia. destruct (mmap_granted _ _ _ _); cbn [negb]; intros; simplify_eq.
  do 3 eexists. split; [done|]. rewrite (wrap_id 64) by (unfold in_width; lia). lia.
Qed.

(** ** Witnesses *)

Definition demo_sys : sys :=
  mkSys (fun p => if String.eqb p "/sys/bus/pci/devices/0000:00:04.0/resource" then Some (0xfeb00000, 0xfeb03fff, 0x40200) else None)
    (fun _ => true) 4096 (fun _ _ _ => true) (fun _ _ => 0x2a).

Lemma demo_sys_ok : sys_ok demo_sys.
Proof.
  split; [by exists 12|]. intros p a b f. cbn. destruct (String.eqb _ _); intros; by simplify_eq.
Defined.

(** Reading the 32-bit register at 0x1058. *)
Lemma pcimem_safe_witness :
  exists tr, pcimem_main demo_sys ["0000:00:04.0"; "read"; "0x1058"; "32"]%string = (0, tr) /\
    tr = [MMap 0x1058 false 0x1000; MLoad 0x58 4; MPrint "0x0000002a"; MUnmap 0x1058; MClose] /\
    bar_access demo_sys "0000:00:04.0" tr.
Proof.
  set (r := pcimem_main demo_sys ["0000:00:04.0"; "read"; "0x1058"; "32"]%string).
  destruct r as [code tr] eqn:E. destruct (pcimem_safe demo_sys _ code tr demo_sys_ok E) as [[Hc _]|(-> & bdf & rest & Ha & Hb)].
  - exfalso. vm_compute in E. injection E as <- _. by destruct Hc.
  - exists tr. split; [done|]. injection Ha as <- _. split; [|exact Hb]. vm_compute in E. by injection E as <-.
Defined.

Lemma pcimem_print_parse_witness :
  print_hex (Z.to_nat (4 * 2)) 0x2a = "0x0000002a"%string /\ parse_u64 (print_hex (Z.to_nat (4 * 2)) 0x2a) = Some 0x2a.
Proof. split; [by vm_compute|]. apply (pcimem_print_parse 4). by vm_compute. Defined.
