(* ===== verification/Logger.v ===== *)
(** * The logger

    Model of [mini-ics/src/logger.cpp] and [logger.hpp].  The state is the level and
    the lines written to [stdout]; the mutex makes every call one step, so the calls of
    all threads are a sequence. *)
From S2P Require Import Prelude Clib.
From Stdlib Require Import Ascii.
From stdpp Require Import strings options.
#[local] Open Scope string_scope.
#[local] Open Scope list_scope.
#[local] Open Scope Z_scope.

Inductive LogLevel := LkError | LkWarn | LkInfo | LkDebug | LkTrace.

#[global] Instance LogLevel_eq_dec : EqDecision LogLevel.
Proof. solve_decision. Defined.

(** The enumerators' values. *)
Definition LogLevel_raw (l : LogLevel) : Z :=
  match l with LkError => 0 | LkWarn => 1 | LkInfo => 2 | LkDebug => 3 | LkTrace => 4 end.

Definition Level_ToString (level : LogLevel) : string :=
  match level with
  | LkError => "ERROR" | LkWarn => "WARN" | LkInfo => "INFO" | LkDebug => "DEBUG" | LkTrace => "TRACE"
  end.

(** [tolower] in the C locale. *)
Definition tolower (c : ascii) : ascii :=
  if (65 <=? code c) && (code c <=? 90) then chr (code c + 32) else c.
Fixpoint lower (s : string) : string :=
  match s with EmptyString => EmptyString | String c r => String (tolower c) (lower r) end.

Definition LogLevelFromString (name : string) : LogLevel :=
  let l := lower name in
  if String.eqb l "error" then LkError
  else if String.eqb l "warn" || String.eqb l "warning" then LkWarn
  else if String.eqb l "debug" then LkDebug
  else if String.eqb l "trace" then LkTrace
  else LkInfo.

(** [c_str()] as [%s] sees it: up to the first NUL. *)
Fixpoint c_str (s : string) : string :=
  match s with
  | EmptyString => EmptyString
  | String c r => if code c =? 0 then EmptyString else String c (c_str r)
  end.

(** [if (src.size() < 4) src.resize(4, ' ')] *)
Definition pad_source (source : string) : string :=
  source +:+ of_chars (replicate (4 - String.length source) (chr 32)).

Definition newline : string := String (chr 10) EmptyString.

Record Logger := mkLogger { level_ : LogLevel; stdout : list string }.
Definition Logger_init : Logger := mkLogger LkInfo [].

Definition SetLevel (level : LogLevel) (l : Logger) : Logger := mkLogger level (stdout l).
Definition Level (l : Logger) : LogLevel := level_ l.

Definition log_line (source : string) (sim_time_ns txn_id : Z) (message : string) : string :=
  "[" +:+ c_str (pad_source source) +:+ "][" +:+ print_padded 10 8 sim_time_ns +:+ " ns][TXN " +:+
  print_signed txn_id +:+ "] " +:+ c_str message +:+ newline.

Definition log_line_notxn (source : string) (sim_time_ns : Z) (message : string) : string :=
  "[" +:+ c_str (pad_source source) +:+ "][" +:+ print_padded 10 8 sim_time_ns +:+ " ns] " +:+
  c_str message +:+ newline.

Definition Logger_Log (level : LogLevel) (source : string) (sim_time_ns txn_id : Z) (message : string) (l : Logger)
  : Logger :=
  if LogLevel_raw (level_ l) <? LogLevel_raw level then l
  else mkLogger (level_ l) (stdout l ++ [log_line source sim_time_ns txn_id message]).

Definition Logger_LogNoTxn (level : LogLevel) (source : string) (sim_time_ns : Z) (message : string) (l : Logger) : Logger :=
  if LogLevel_raw (level_ l) <? LogLevel_raw level then l
  else mkLogger (level_ l) (stdout l ++ [log_line_notxn source sim_time_ns message]).

(** The calls of a program, in the order the mutex admits them. *)
Inductive log_call :=
| CSetLevel (level : LogLevel)
| CLog (level : LogLevel) (source : string) (time txn : Z) (message : string)
| CLogNoTxn (level : LogLevel) (source : string) (time : Z) (message : string).

Definition log_step (l : Logger) (c : log_call) : Logger :=
  match c with
  | CSetLevel level => SetLevel level l
  | CLog level source time txn message => Logger_Log level source time txn message l
  | CLogNoTxn level source time message => Logger_LogNoTxn level source time message l
  end.

Definition log_session (cs : list log_call) (l : Logger) : Logger := foldl log_step l cs.

(** ** Lemmas *)

(** What a call prints at a level. *)
Definition prints (level : LogLevel) (c : log_call) : list string :=
  match c with
  | CSetLevel _ => []
  | CLog lv s t x m => if LogLevel_raw level <? LogLevel_raw lv then [] else [log_line s t x m]
  | CLogNoTxn lv s t m => if LogLevel_raw level <? LogLevel_raw lv then [] else [log_line_notxn s t m]
  end.

(** The level after a call. *)
Definition level_after (level : LogLevel) (c : log_call) : LogLevel :=
  match c with CSetLevel l => l | _ => level end.

Lemma log_step_eq l c : log_step l c = mkLogger (level_after (level_ l) c) (stdout l ++ prints (level_ l) c).
Proof.
  destruct l as [lv out]. destruct c; cbn; [by rewrite app_nil_r|..];
    unfold Logger_Log, Logger_LogNoTxn; cbn; destruct (_ <? _); by rewrite ?app_nil_r.
Qed.

Lemma log_session_app cs cs' l : log_session (cs ++ cs') l = log_session cs' (log_session cs l).
Proof. apply foldl_app. Qed.

Lemma log_session_output cs l :
  exists out, stdout (log_session cs l) = stdout l ++ out /\
    level_ (log_session cs l) = foldl level_after (level_ l) cs.
Proof.
  revert l. induction cs as [|c cs IH]; intros l; cbn; [exists []; by rewrite app_nil_r|].
  rewrite log_step_eq. destruct (IH (mkLogger (level_after (level_ l) c) (stdout l ++ prints (level_ l) c))) as (out & E & El).
  exists (prints (level_ l) c ++ out). rewrite app_assoc. by split.
Qed.

Lemma prints_mono a b c : LogLevel_raw a <= LogLevel_raw b -> prints a c `sublist_of` prints b c.
Proof.
  intros Hle. destruct c as [|lv s t x m|lv s t m]; cbn; [done|..];
    destruct (Z.ltb_spec (LogLevel_raw a) (LogLevel_raw lv)), (Z.ltb_spec (LogLevel_raw b) (LogLevel_raw lv));
    try done; try (apply sublist_nil_l); lia.
Qed.

Definition sets_level (c : log_call) : bool := match c with CSetLevel _ => true | _ => false end.

Lemma log_session_mono cs l l' :
  forallb (fun c => negb (sets_level c)) cs = true -> LogLevel_raw (level_ l) <= LogLevel_raw (level_ l') ->
  stdout l `sublist_of` stdout l' -> stdout (log_session cs l) `sublist_of` stdout (log_session cs l').
Proof.
  revert l l'. induction cs as [|c cs IH]; intros l l' Hs Hle Hsub; [done|].
  cbn in Hs. apply andb_true_iff in Hs as [Hc Hs]. cbn. rewrite !log_step_eq. apply IH; cbn [level_ stdout]; [done| |].
  - by destruct c.
  - apply sublist_app; [done|by apply prints_mono].
Qed.

Lemma lower_lower s t : lower s = lower t -> LogLevelFromString s = LogLevelFromString t.
Proof. intros E. unfold LogLevelFromString. by rewrite E. Qed.

Lemma length_append s t : String.length (s +:+ t) = (String.length s + String.length t)%nat.
Proof. induction s as [|c s IH]; [done|]. exact (f_equal S IH). Qed.

Lemma append_nil s : s +:+ EmptyString = s.
Proof. induction s as [|c s IH]; [done|]. exact (f_equal (String c) IH). Qed.

Lemma length_pad_source s : (4 <= String.length (pad_source s))%nat /\ (4 <= String.length s -> pad_source s = s)%nat.
Proof.
  unfold pad_source. split.
  - assert (El : forall n, String.length (of_chars (replicate n (chr 32))) = n) by (induction n as [|n IH]; [done|exact (f_equal S IH)]).
    rewrite length_append, El. lia.
  - intros Hl. replace (4 - String.length s)%nat with 0%nat by lia. cbn. apply append_nil.
Qed.

(** ** Properties *)

(** The level filter.  In a run of calls that leaves the level alone, a call prints
    its one line exactly when its level is at most the logger's, nothing printed is
    ever lost or reordered, the level stays, and a more verbose logger prints a
    super-sequence of what a less verbose one prints. *)
Theorem logger_filter cs l l' :
  (forall c, stdout (log_session (cs ++ [c]) l) =
     stdout (log_session cs l) ++ prints (level_ (log_session cs l)) c) /\
  (forallb (fun c => negb (sets_level c)) cs = true ->
   level_ (log_session cs l) = level_ l /\
   (LogLevel_raw (level_ l) <= LogLevel_raw (level_ l') -> stdout l = stdout l' ->
    stdout (log_session cs l) `sublist_of` stdout (log_session cs l'))).
Proof.
  split.
  - intros c. rewrite log_session_app. cbn [log_session foldl]. by rewrite log_step_eq.
  - intros Hs. split; [|intros Hle E; apply log_session_mono; [done|done|by rewrite E]].
    destruct (log_session_output cs l) as (out & _ & ->). clear l'. revert l.
    induction cs as [|c cs IH]; intros l; [done|]. cbn in Hs. apply andb_true_iff in Hs as [Hc Hs].
    destruct c; try done; cbn; by apply IH.
Qed.

(** A log line has the documented columns: the source in at least four characters
    (exactly as given when it is that long), the simulation time in at least eight
    decimal digits that spell the time, and, where there is a transaction, its number;
    and the names of the levels are read back as the levels they name, in any case. *)
Theorem logger_format source time txn message (level : LogLevel) name :
  in_width 64 time -> lower name = lower (Level_ToString level) ->
  (exists src ds, (4 <= String.length src)%nat /\ (8 <= length ds)%nat /\ of_digits 10 0 ds = time /\
     (4 <= String.length source -> src = source)%nat /\
     log_line source time txn message = "[" +:+ c_str src +:+ "][" +:+ of_chars (digit_char <$> ds) +:+
       " ns][TXN " +:+ print_signed txn +:+ "] " +:+ c_str message +:+ newline /\
     log_line_notxn source time message = "[" +:+ c_str src +:+ "][" +:+ of_chars (digit_char <$> ds) +:+
       " ns] " +:+ c_str message +:+ newline) /\
  LogLevelFromString name = level.
Proof.
  intros Ht Hn. split.
  - destruct (print_padded_digits 10 8 time) as (ds & E & Hv & _ & _ & Hl); [lia|unfold in_width in Ht; lia|].
    destruct (length_pad_source source) as [H4 Hsame].
    exists (pad_source source), ds. unfold log_line, log_line_notxn. rewrite E. by split_and!.
  - rewrite (lower_lower _ _ Hn). by destruct level.
Qed.

Lemma logger_filter_witness :
  stdout (log_session [CLog LkInfo "RTL" 42 7 "hi"; CLogNoTxn LkDebug "HOST" 1 "x"] Logger_init) =
    ["[RTL ][00000042 ns][TXN 7] hi" +:+ newline] /\
  stdout (log_session [CLog LkInfo "RTL" 42 7 "hi"; CLogNoTxn LkDebug "HOST" 1 "x"] Logger_init) `sublist_of`
  stdout (log_session [CLog LkInfo "RTL" 42 7 "hi"; CLogNoTxn LkDebug "HOST" 1 "x"] (mkLogger LkTrace [])).
Proof.
  split; [by vm_compute|].
  apply (logger_filter [CLog LkInfo "RTL" 42 7 "hi"; CLogNoTxn LkDebug "HOST" 1 "x"] Logger_init (mkLogger LkTrace []));
    by vm_compute.
Defined.

Lemma logger_format_witness :
  LogLevelFromString "wArN" = LkWarn /\
  exists src ds, (4 <= String.length src)%nat /\ (8 <= length ds)%nat /\ of_digits 10 0 ds = 42 /\
    log_line "RTL" 42 7 "hi" = "[" +:+ c_str src +:+ "][" +:+ of_chars (digit_char <$> ds) +:+
       " ns][TXN " +:+ print_signed 7 +:+ "] " +:+ c_str "hi" +:+ newline.
Proof.
  destruct (logger_format "RTL" 42 7 "hi" LkWarn "wArN") as [(src & ds & H1 & H2 & H3 & _ & H4 & _) Hw]; [by vm_compute|by vm_compute|].
  split; [exact Hw|]. by exists src, ds.
Defined.
