(* ===== verification/Programs.v ===== *)
(** * The programs

    The [main] functions: [mini_ics_server] (end of [mini-ics/src/server.cpp]),
    [mini_ics_host_client] (end of [mini-ics/src/host_client.cpp]), the start and end of
    [rtl/alex/verilator_qemu_main.cpp] and [rtl/alex/verilator_main.cpp].  A program's
    arguments are [argv[1]] on; the result is the exit code, [None] while it has not
    ended (or, for the client, when its time-out argument makes [atoi] undefined).
    Usage texts are not modelled. *)
From S2P Require Import Prelude Protocol Socket Framing Transaction Interface Server Endpoint HostClient System Verilator Clib Logger.
From stdpp Require Import strings options.
#[local] Open Scope string_scope.
#[local] Open Scope list_scope.
#[local] Open Scope Z_scope.

(** ** mini_ics_server *)

Record server_options := mkServerOptions {
  so_socket : string; so_demo : bool; so_persistent : bool; so_level : LogLevel }.

Definition server_defaults : server_options := mkServerOptions "/tmp/mini_ics.sock" false false LkInfo.

(** The argument loop. *)
Fixpoint parse_server_args (args : list string) (o : server_options) : server_options :=
  match args with
  | [] => o
  | arg :: rest =>
      if String.eqb arg "--socket" then
        match rest with
        | v :: rest => parse_server_args rest (mkServerOptions v (so_demo o) (so_persistent o) (so_level o))
        | [] => o
        end
      else if String.eqb arg "--demo" then
        parse_server_args rest (mkServerOptions (so_socket o) true (so_persistent o) (so_level o))
      else if String.eqb arg "--persistent" then
        parse_server_args rest (mkServerOptions (so_socket o) (so_demo o) true (so_level o))
      else if String.eqb arg "--log-level" then
        match rest with
        | v :: rest =>
            parse_server_args rest (mkServerOptions (so_socket o) (so_demo o) (so_persistent o) (LogLevelFromString v))
        | [] => o
        end
      else parse_server_args rest o
  end.

(** The loop without [--demo]: [g_stop] as read in each pass.  True: left. *)
Fixpoint standalone_loop (n : nat) (g_stop : list bool) (s : Server) : bool * Server :=
  match g_stop with
  | [] => (false, s)
  | g :: g_stop =>
      if g || negb (IsRunning s) then (true, s)
      else
        let '(msg, s) := PollInbound (IoThreadMain n) s in
        match msg with
        | None => standalone_loop n g_stop s
        | Some m => if bool_decide (Type_ (m_header m) = kShutdown) then (true, s) else standalone_loop n g_stop s
        end
  end.

(** The endpoint of [--demo], or the loop above.  True: ended. *)
Definition server_loop (fuel n : nat) (o : server_options) (g_stop : list bool) (s : Server) : bool * Server :=
  if so_demo o
  then let '(ended, _, s) := Run (H := server_ops n) fuel (so_persistent o) Endpoint_init s in (ended, s)
  else standalone_loop n g_stop s.

(** [a] answers the listener's system calls, [n] is how far the I/O thread gets during a
    wait, [fuel] bounds the passes of the endpoint's loop. *)
Definition server_main (fuel n : nat) (args : list string) (a : listen_ans) (g_stop : list bool) (os : OS)
  : option Z * Server * OS :=
  let o := parse_server_args args server_defaults in
  let '(started, s, os) := Start a (MiniIcsServer (so_socket o)) os in
  if negb started then (Some 1, s, os)
  else
    let '(ended, s) := server_loop fuel n o g_stop s in
    if (ended : bool) then let '(s, os) := Stop (IoThreadMain n) s os in (Some 0, s, os)
    else (None, s, os).

(** ** mini_ics_host_client *)

Record client_options := mkClientOptions { co_socket : string; co_timeout : Z; co_level : LogLevel }.
Definition client_defaults : client_options := mkClientOptions "/tmp/mini_ics.sock" 5000 LkInfo.

(** [inl]: exit at once ([Some 0]: help; [None]: undefined). *)
Fixpoint parse_client_args (args : list string) (o : client_options) : option Z + client_options :=
  match args with
  | [] => inr o
  | arg :: rest =>
      if String.eqb arg "--socket" then
        match rest with
        | v :: rest => parse_client_args rest (mkClientOptions v (co_timeout o) (co_level o))
        | [] => inr o
        end
      else if String.eqb arg "--timeout-ms" then
        match rest with
        | v :: rest =>
            match atoi v with
            | Some t => parse_client_args rest (mkClientOptions (co_socket o) t (co_level o))
            | None => inl None
            end
        | [] => inr o
        end
      else if String.eqb arg "--log-level" then
        match rest with
        | v :: rest => parse_client_args rest (mkClientOptions (co_socket o) (co_timeout o) (LogLevelFromString v))
        | [] => inr o
        end
      else if String.eqb arg "--help" then inl (Some 0)
      else parse_client_args rest o
  end.

(** Exit code, log level and client. *)
Definition client_main (args : list string) (attempts : list connect_ans) (conn : Sock) (os : OS)
  : option Z * Logger * option HostClient :=
  match parse_client_args args client_defaults with
  | inl code => (code, Logger_init, None)
  | inr o =>
      let log := SetLevel (co_level o) Logger_init in
      let '(ok, c) := RunDemo attempts conn os (HostClient_init (co_socket o)) in
      (Some (if (ok : bool) then 0 else 1), log, Some c)
  end.

(** ** The harness's [main], around the loop of [Verilator]

    [fuel] bounds the passes of the loop; [None]: it has not ended, or an access was
    undefined. *)

Definition harness_path (args : list string) : string :=
  match args with path :: _ => path | [] => "/tmp/pcie-vip-verilator.sock" end.

Definition harness_main {T} `{Rtl T} (fuel n : nat) (args : list string) (a : listen_ans) (top : T) (p0 : pins) (os : OS)
  : option Z * Server * OS :=
  let '(started, s, os) := Start a (MiniIcsServer (harness_path args)) os in
  if negb started then (Some 1, s, os)
  else
    match main_ (H0 := server_ops n) fuel top p0 s with
    | Some (Looping, _, _, s) => (None, s, os)
    | Some (_, _, _, s) => let '(s, os) := Stop (IoThreadMain n) s os in (Some 0, s, os)
    | None => (None, s, os)
    end.

(** ** verilator_main.cpp

    The testbench entry: the inputs at each [eval], [finish i] being what
    [Verilated::gotFinish] says after [i] turns of the second loop. *)

Record tb_pins := mkTbPins { tb_clk : bool; tb_rst : bool }.

Fixpoint tb_reset (n : nat) : list tb_pins :=
  match n with O => [] | S n => mkTbPins false true :: mkTbPins true true :: tb_reset n end.

(** [n] bounds the turns of the loop; true: it ended. *)
Fixpoint tb_loop (n i : nat) (finish : nat -> bool) : bool * list tb_pins :=
  match n with
  | O => (false, [])
  | S n =>
      if finish i then (true, [])
      else let '(b, l) := tb_loop n (S i) finish in (b, mkTbPins true false :: mkTbPins false false :: l)
  end.

Definition tb_main (n : nat) (finish : nat -> bool) : option Z * list tb_pins :=
  let '(b, l) := tb_loop n 0 finish in
  ((if (b : bool) then Some 0 else None), tb_reset 4 ++ l).

(** The rising clock edges a design sees, with the reset at each: Verilator compares the
    clock of an [eval] with that of the one before. *)
Fixpoint rising (last : bool) (l : list tb_pins) : list bool :=
  match l with
  | [] => []
  | p :: l => (if negb last && tb_clk p then [tb_rst p] else []) ++ rising (tb_clk p) l
  end.

(** ** Options as they are meant *)

Inductive server_token := TSocket (v : string) | TDemo | TPersistent | TLevel (v : string) | TOther (arg : string).

Definition render_server (t : server_token) : list string :=
  match t with
  | TSocket v => ["--socket"; v] | TDemo => ["--demo"] | TPersistent => ["--persistent"]
  | TLevel v => ["--log-level"; v] | TOther a => [a]
  end.
Definition apply_server (o : server_options) (t : server_token) : server_options :=
  match t with
  | TSocket v => mkServerOptions v (so_demo o) (so_persistent o) (so_level o)
  | TDemo => mkServerOptions (so_socket o) true (so_persistent o) (so_level o)
  | TPersistent => mkServerOptions (so_socket o) (so_demo o) true (so_level o)
  | TLevel v => mkServerOptions (so_socket o) (so_demo o) (so_persistent o) (LogLevelFromString v)
  | TOther _ => o
  end.
Definition server_token_ok (t : server_token) : Prop :=
  match t with TOther a => a ∉ ["--socket"; "--demo"; "--persistent"; "--log-level"] | _ => True end.

Inductive client_token := HSocket (v : string) | HTimeout (v : string) (t : Z) | HLevel (v : string) | HOther (arg : string).

Definition render_client (t : client_token) : list string :=
  match t with
  | HSocket v => ["--socket"; v] | HTimeout v _ => ["--timeout-ms"; v]
  | HLevel v => ["--log-level"; v] | HOther a => [a]
  end.
Definition apply_client (o : client_options) (t : client_token) : client_options :=
  match t with
  | HSocket v => mkClientOptions v (co_timeout o) (co_level o)
  | HTimeout _ t => mkClientOptions (co_socket o) t (co_level o)
  | HLevel v => mkClientOptions (co_socket o) (co_timeout o) (LogLevelFromString v)
  | HOther _ => o
  end.
Definition client_token_ok (t : client_token) : Prop :=
  match t with
  | HTimeout v t => atoi v = Some t
  | HOther a => a ∉ ["--socket"; "--timeout-ms"; "--log-level"; "--help"]
  | _ => True
  end.

Lemma parse_server_tokens toks o tail :
  Forall server_token_ok toks -> (tail = [] \/ tail = ["--socket"] \/ tail = ["--log-level"]) ->
  parse_server_args (concat (render_server <$> toks) ++ tail) o = foldl apply_server o toks.
Proof.
  intros Ht Htl. revert o. induction Ht as [|t toks Hok _ IH]; intros o; cbn [fmap list_fmap concat app foldl].
  { by destruct Htl as [->|[->| ->]]. }
  destruct t as [v| | |v|arg]; cbn [render_server app]; cbn [parse_server_args String.eqb Ascii.eqb]; try apply IH.
  cbn in Hok. rewrite !not_elem_of_cons in Hok. destruct Hok as (H1 & H2 & H3 & H4 & _).
  rewrite !(proj2 (String.eqb_neq _ _)) by done. apply IH.
Qed.

Lemma parse_client_tokens toks o tail :
  Forall client_token_ok toks -> (tail = [] \/ tail = ["--socket"] \/ tail = ["--log-level"] \/ tail = ["--timeout-ms"]) ->
  parse_client_args (concat (render_client <$> toks) ++ tail) o = inr (foldl apply_client o toks).
Proof.
  intros Ht Htl. revert o. induction Ht as [|t toks Hok _ IH]; intros o; cbn [fmap list_fmap concat app foldl].
  { by destruct Htl as [->|[->|[->| ->]]]. }
  destruct t as [v|v n|v|arg]; cbn [render_client app]; cbn [parse_client_args String.eqb Ascii.eqb]; try apply IH.
  - cbn in Hok. rewrite Hok. apply IH.
  - cbn in Hok. rewrite !not_elem_of_cons in Hok. destruct Hok as (H1 & H2 & H3 & H4 & _).
    rewrite !(proj2 (String.eqb_neq _ _)) by done. apply IH.
Qed.

(** The first turn of the loop raises a clock that was high already. *)
Lemma tb_loop_high n i finish : rising true (tb_loop n i finish).2 = tail (rising false (tb_loop n i finish).2).
Proof. destruct n as [|n]; [done|]. cbn [tb_loop]. destruct (finish i); [done|]. by destruct (tb_loop n (S i) finish). Qed.

Lemma tb_loop_edges n i finish :
  exists k, (k <= n)%nat /\ rising false (tb_loop n i finish).2 = replicate k false /\
    length (tb_loop n i finish).2 = (2 * k)%nat /\
    ((tb_loop n i finish).1 = true -> finish (i + k)%nat = true /\ forall j, (j < k)%nat -> finish (i + j)%nat = false).
Proof.
  revert i. induction n as [|n IH]; intros i; cbn [tb_loop]; [by exists 0%nat|].
  destruct (finish i) eqn:Ef.
  { exists 0%nat. split; [lia|]. rewrite Nat.add_0_r. split_and!; [done..|]. intros _. split; [done|lia]. }
  destruct (IH (S i)) as (k & Hk & Hr & Hlen & Hf). destruct (tb_loop n (S i) finish) as [b' l']. cbn in *.
  exists (S k). rewrite Hr. split; [lia|]. split; [done|]. split; [lia|]. intros Hb. destruct (Hf Hb) as [Hf1 Hf2].
  split; [by rewrite Nat.add_succ_r|]. intros [|j] Hj; [by rewrite Nat.add_0_r|]. rewrite Nat.add_succ_r. apply Hf2. lia.
Qed.

Lemma IoThreadMain_stopped n s : running_ s = false -> IoThreadMain n s = s.
Proof.
  intros Hr. unfold IoThreadMain. induction n as [|n IH]; [done|].
  change (IoIter (Nat.iter n IoIter s) = s). rewrite IH. unfold IoIter. by rewrite Hr.
Qed.

Lemma Stop_stopped n s os : running_ (Stop (IoThreadMain n) s os).1 = false.
Proof.
  unfold Stop. destruct (running_ s) eqn:Hr; cbn [negb].
  - rewrite IoThreadMain_stopped by done. by destruct (Listener_Close _ _).
  - cbn [fst]. by rewrite IoThreadMain_stopped.
Qed.

Lemma Start_failed a path os s os' : Start a (MiniIcsServer path) os = (false, s, os') -> running_ s = false.
Proof.
  unfold Start. destruct (Listen _ _ _ _) as [[ok l] os1]. destruct ok; cbn [negb]; [done|]. by intros [= <- _].
Qed.

Lemma harness_exit {T} `{Rtl T} fuel n args a (top : T) p0 os :
  let '(started, s0, _) := Start a (MiniIcsServer (harness_path args)) os in
  let '(code, s, _) := harness_main fuel n args a top p0 os in
  (code = Some 1 <-> started = false) /\
  (code = Some 0 <-> started = true /\
     exists e r h s1, main_ (H0 := server_ops n) fuel top p0 s0 = Some (e, r, h, s1) /\ e <> Looping) /\
  (code <> None -> (code = Some 0 \/ code = Some 1) /\ running_ s = false).
Proof.
  unfold harness_main. destruct (Start a (MiniIcsServer (harness_path args)) os) as [[started s0] os0] eqn:Es.
  destruct started; cbn [negb]; [|split; [done|split; [by split; [|intros [? _]]|]]].
  2:{ intros _. split; [by right|by eapply Start_failed]. }
  destruct (main_ _ _ _ _) as [[[[e r] h] s1]|] eqn:Em.
  2:{ split; [done|]. split; [|done]. split; [done|]. by intros (_ & ? & ? & ? & ? & ? & _). }
  pose proof (Stop_stopped n s1 os0) as Hs. destruct e; destruct (Stop _ s1 os0) as [s2 os2].
  - split; [done|]. split; [|done]. split; [done|]. intros (_ & ? & ? & ? & ? & ? & Hne). by simplify_eq.
  - split; [done|]. split; [|by split; [left|]]. split; [|done]. intros _. split; [done|]. by do 4 eexists.
  - split; [done|]. split; [|by split; [left|]]. split; [|done]. intros _. split; [done|]. by do 4 eexists.
Qed.

Lemma standalone_signalled n gs s : true ∈ gs -> (standalone_loop n gs s).1 = true.
Proof.
  revert s. induction gs as [|g gs IH]; intros s; [by intros ?%elem_of_nil|]. intros Hg%elem_of_cons. cbn [standalone_loop].
  destruct (g || negb _) eqn:E; [done|]. apply orb_false_iff in E as [-> _]. destruct Hg as [Hg|Hg]; [done|].
  destruct (PollInbound _ s) as [[m|] s']; [|by apply IH]. case_bool_decide; [done|by apply IH].
Qed.

(** ** Properties *)

Lemma server_exit fuel n args a gs os :
  let o := parse_server_args args server_defaults in
  let '(started, s0, _) := Start a (MiniIcsServer (so_socket o)) os in
  let '(code, s, _) := server_main fuel n args a gs os in
  (code = Some 1 <-> started = false) /\
  (code = Some 0 <-> started = true /\ (server_loop fuel n o gs s0).1 = true) /\
  (code <> None -> (code = Some 0 \/ code = Some 1) /\ running_ s = false) /\
  (so_demo o = false -> true ∈ gs -> code <> None).
Proof.
  unfold server_main. cbv zeta. set (o := parse_server_args args server_defaults).
  destruct (Start a (MiniIcsServer (so_socket o)) os) as [[started s0] os0] eqn:Es.
  destruct started; cbn [negb].
  2:{ split; [done|]. split; [by split; [|intros [? _]]|]. split; [|done]. intros _. split; [by right|by eapply Start_failed]. }
  assert (Hr : so_demo o = false -> true ∈ gs -> (server_loop fuel n o gs s0).1 = true)
    by (unfold server_loop; intros -> ?; by apply standalone_signalled).
  destruct (server_loop fuel n o gs s0) as [ended s1]. cbn [fst] in *. destruct ended.
  - pose proof (Stop_stopped n s1 os0) as Hs. destruct (Stop _ s1 os0) as [s2 os2].
    split; [done|]. split; [done|]. split; [|done]. by split; [left|].
  - split; [done|]. split; [by split; [|intros [_ ?]]|]. split; [done|]. intros Hd Hg. by specialize (Hr Hd Hg).
Qed.

Lemma parse_client_help args o c :
  parse_client_args args o = inl c -> c = Some 0 /\ "--help" ∈ args \/ c = None.
Proof.
  revert o. induction args as [args IH] using (induction_ltof1 _ (@length string)). unfold ltof in IH. intros o.
  assert (Hnext : forall pre rest o', args = pre ++ rest -> pre <> [] -> parse_client_args rest o' = inl c ->
    c = Some 0 /\ "--help" ∈ args \/ c = None).
  { intros pre rest o' -> Hpre E. destruct (IH rest) with (o := o') as [[-> Hin]|Hn]; [|done| |by right].
    - rewrite length_app. destruct pre; cbn; [done|lia].
    - left. set_solver. }
  destruct args as [|arg rest]; [done|]. cbn [parse_client_args].
  destruct (String.eqb arg "--socket"); [destruct rest as [|v rest]; [done|by apply (Hnext [arg; v])]|].
  destruct (String.eqb arg "--timeout-ms").
  { destruct rest as [|v rest]; [done|]. destruct (atoi v); [by apply (Hnext [arg; v])|]. intros [= <-]. by right. }
  destruct (String.eqb arg "--log-level"); [destruct rest as [|v rest]; [done|by apply (Hnext [arg; v])]|].
  destruct (String.eqb_spec arg "--help") as [->|]; [|by apply (Hnext [arg])].
  intros [= <-]. left. split; [done|]. by left.
Qed.

Lemma client_exit args attempts conn os :
  let code := (client_main args attempts conn os).1.1 in
  match parse_client_args args client_defaults with
  | inl c => code = c /\ (c = Some 0 /\ "--help" ∈ args \/ c = None)
  | inr co => code = Some (if (RunDemo attempts conn os (HostClient_init (co_socket co))).1 then 0 else 1)
  end.
Proof.
  unfold client_main. destruct (parse_client_args args client_defaults) as [code|co] eqn:E.
  { split; [done|]. by eapply parse_client_help. }
  by destruct (RunDemo _ _ _ _) as [ok c].
Qed.

(** C40: exit codes.  [mini_ics_server] exits with 1 exactly when it cannot listen, and
    with 0 exactly when its loop has ended; it exits with no other code, it is stopped
    when it exits, and without [--demo] a signal ends it.  [mini_ics_host_client] exits
    with 0 or 1 as its demo sequence passed or not, unless its arguments ended it before:
    with 0, on [--help], or without a defined code, on a time-out [atoi] is undefined on.  The
    harness exits with 1 exactly when it cannot listen and with 0, stopped, exactly when
    its loop was left on SHUTDOWN or because the design finished. *)
Theorem program_exit_codes {T} `{Rtl T} fuel n args a gs os attempts conn (top : T) p0 :
  let o := parse_server_args args server_defaults in
  (let '(started, s0, _) := Start a (MiniIcsServer (so_socket o)) os in
   let '(code, s, _) := server_main fuel n args a gs os in
   (code = Some 1 <-> started = false) /\
   (code = Some 0 <-> started = true /\ (server_loop fuel n o gs s0).1 = true) /\
   (code <> None -> (code = Some 0 \/ code = Some 1) /\ running_ s = false) /\
   (so_demo o = false -> true ∈ gs -> code <> None)) /\
  (match parse_client_args args client_defaults with
   | inl c => (client_main args attempts conn os).1.1 = c /\ (c = Some 0 /\ "--help" ∈ args \/ c = None)
   | inr co => (client_main args attempts conn os).1.1 =
       Some (if (RunDemo attempts conn os (HostClient_init (co_socket co))).1 then 0 else 1)
   end) /\
  (let '(started, s0, _) := Start a (MiniIcsServer (harness_path args)) os in
   let '(code, s, _) := harness_main fuel n args a top p0 os in
   (code = Some 1 <-> started = false) /\
   (code = Some 0 <-> started = true /\
      exists e r h s1, main_ (H0 := server_ops n) fuel top p0 s0 = Some (e, r, h, s1) /\ e <> Looping) /\
   (code <> None -> (code = Some 0 \/ code = Some 1) /\ running_ s = false)).
Proof. split; [apply server_exit|]. split; [apply client_exit|apply harness_exit]. Qed.

(** Command lines mean what they say.  A line built from options, in any order and
    with any other words in between, is read as exactly these options applied from
    left to right, so the last one of a kind wins; an option that lacks its value at
    the end of the line is ignored. *)
Theorem program_options stoks ctoks stail ctail :
  Forall server_token_ok stoks -> (stail = [] \/ stail = ["--socket"] \/ stail = ["--log-level"]) ->
  Forall client_token_ok ctoks ->
  (ctail = [] \/ ctail = ["--socket"] \/ ctail = ["--log-level"] \/ ctail = ["--timeout-ms"]) ->
  parse_server_args (concat (render_server <$> stoks) ++ stail) server_defaults = foldl apply_server server_defaults stoks /\
  parse_client_args (concat (render_client <$> ctoks) ++ ctail) client_defaults = inr (foldl apply_client client_defaults ctoks).
Proof. intros. split; [by apply parse_server_tokens|by apply parse_client_tokens]. Qed.

(** The testbench entry resets the design.  The design sees exactly four rising
    edges in reset before any out of reset, and then one per turn of the loop except
    the first, until [gotFinish] first holds. *)
Theorem testbench_reset_edges n finish :
  let '(code, l) := tb_main n finish in
  exists k, (k <= n)%nat /\ rising false l = replicate 4 true ++ replicate (k - 1) false /\
    length l = (8 + 2 * k)%nat /\
    (code = Some 0 -> finish k = true /\ forall j, (j < k)%nat -> finish j = false).
Proof.
  unfold tb_main. destruct (tb_loop_edges n 0 finish) as (k & Hk & Hr & Hlen & Hf).
  pose proof (tb_loop_high n 0 finish) as Hh. rewrite Hr in Hh. destruct (tb_loop n 0 finish) as [b l]. cbn [fst snd] in *.
  exists k. split; [done|]. split; [|split; [cbn; lia|destruct b; [by intros; apply Hf|done]]].
  cbn -[replicate]. rewrite Hh. destruct k; cbn; [done|]. by rewrite Nat.sub_0_r.
Qed.

(** ** Witnesses *)

Lemma program_options_witness :
  parse_server_args ["--demo"; "-x"; "--socket"; "/a"; "--socket"; "/b"; "--socket"] server_defaults =
    mkServerOptions "/b" true false LkInfo /\
  parse_client_args ["--timeout-ms"; "250"; "--log-level"; "Debug"] client_defaults =
    inr (mkClientOptions "/tmp/mini_ics.sock" 250 LkDebug).
Proof.
  apply (program_options [TDemo; TOther "-x"; TSocket "/a"; TSocket "/b"] [HTimeout "250" 250; HLevel "Debug"] ["--socket"] []).
  - repeat constructor. cbn. rewrite !not_elem_of_cons. split_and!; try done. by apply not_elem_of_nil.
  - by right; left.
  - by repeat constructor.
  - by left.
Defined.

(** The two programs of the demo, started from their command lines. *)
Lemma demo_programs_exit :
  let to_host := rounds 12 in
  let to_server := host_writes to_host in
  let a := mkListenAns 3 0 0 (ready_in 1000) [AcceptConn (connection 4 to_server)] in
  (server_main 400 1 ["--demo"] a [] fresh_os).1.1 = Some 0 /\
  (client_main ["--socket"; "/tmp/mini_ics.sock"] [mkConnectAns 5 None [] 0 0] (connection 5 to_host) fresh_os).1.1 = Some 0.
Proof. vm_compute. by split. Qed.
